(** * The image management core of ebiten: packer-backed atlases
      (package shareable), the restore order of package restorable and the
      public image handle of package ebiten.

    The development embeds the Go sources shallowly.  Go pointers are
    addresses ([nat]) into explicit heaps ([gmap nat _]), so that aliasing
    (many images on one backend, a sub-image and its parent on one mipmap,
    the struct overwrite of [moveTo]) is visible.  Methods are state
    transformers in a state-and-panic monad.  Go's [int] is a 64-bit
    integer; arithmetic that can overflow is written with its wrap-around.

    Packages that the sources import but that are not part of the files at
    hand (packing, graphics, driver, the GPU) are taken as parameters,
    gathered in the class [Extern]. *)

From stdpp Require Import gmap strings list fin_maps.
From Stdlib Require Import ZArith Lia Permutation.
Local Open Scope Z_scope.

(** ** Go integers *)

Module GoInt.

(** Two's complement wrap-around of a 64-bit [int]. *)
Definition wrap (z : Z) : Z := (z + 2 ^ 63) mod 2 ^ 64 - 2 ^ 63.

Definition add (a b : Z) : Z := wrap (a + b).
Definition sub (a b : Z) : Z := wrap (a - b).
Definition mul (a b : Z) : Z := wrap (a * b).

(** The conversion [byte(x)] of an unsigned value. *)
Definition byte (z : Z) : Z := Z.land z 255.

End GoInt.

(** ** Results of Go calls: normal return, panic, or a loop that the
       model cut off *)

Inductive result (A : Type) : Type :=
| Ok (a : A)
| Panic (msg : string)
| OutOfFuel.
Arguments Ok {A} a.
Arguments Panic {A} msg.
Arguments OutOfFuel {A}.

Definition M (S A : Type) : Type := S → result (A * S).

Definition ret {S A} (a : A) : M S A := λ s, Ok (a, s).

Definition bind {S A B} (m : M S A) (k : A → M S B) : M S B :=
  λ s, match m s with
       | Ok (a, s') => k a s'
       | Panic msg => Panic msg
       | OutOfFuel => OutOfFuel
       end.

Definition panic {S A} (msg : string) : M S A := λ _, Panic msg.
Definition get {S} : M S S := λ s, Ok (s, s).
Definition put {S} (s : S) : M S unit := λ _, Ok (tt, s).
Definition modify {S} (f : S → S) : M S unit := λ s, Ok (tt, f s).
Definition lift_result {S A} (r : result A) : M S A :=
  λ s, match r with
       | Ok a => Ok (a, s)
       | Panic msg => Panic msg
       | OutOfFuel => OutOfFuel
       end.

Notation "'let*' x ':=' m 'in' k" := (bind m (λ x, k))
  (at level 10, x pattern, m at level 100, k at level 200).
Notation "m ;; k" := (bind m (λ _, k))
  (at level 100, k at level 200, right associativity).

(** [for _, x := range l { body x }] *)
Fixpoint forM {S A} (l : list A) (body : A → M S unit) : M S unit :=
  match l with
  | [] => ret tt
  | x :: l' => body x ;; forM l' body
  end.

Definition nil_deref : string :=
  "runtime error: invalid memory address or nil pointer dereference".
Definition index_out_of_range : string :=
  "runtime error: index out of range".

(** A pixel: red, green, blue, alpha bytes. *)
Definition RGBA : Type := Z * Z * Z * Z.
Definition transparent : RGBA := (0, 0, 0, 0).

(** [pixels[idx] = v] on a byte slice. *)
Definition store (l : list Z) (idx v : Z) : result (list Z) :=
  if (0 <=? idx) && (idx <? Z.of_nat (length l))
  then Ok (<[Z.to_nat idx := v]> l)
  else Panic index_out_of_range.

(** [make([]byte, n)] *)
Definition make_bytes (n : Z) : result (list Z) :=
  if n <? 0 then Panic "runtime error: makeslice: len out of range"
  else Ok (replicate (Z.to_nat n) 0).

(** The four bytes of a slice starting at [idx]; bytes beyond the slice
    read as zero (the model never reads there after a length check). *)
Definition quad (p : list Z) (idx : Z) : RGBA :=
  (nth (Z.to_nat idx) p 0, nth (Z.to_nat (idx + 1)) p 0,
   nth (Z.to_nat (idx + 2)) p 0, nth (Z.to_nat (idx + 3)) p 0).

(** ** What the sources import from elsewhere *)

Class Extern : Type := {
  (** package packing: a page of an atlas and its nodes.  A Go method that
      mutates the page returns the page it leaves behind. *)
  Page : Type;
  Node : Type;
  NewPage : Z → Z → Page;
  Alloc : Page → Z → Z → Page * option Node;
  Extend : Page → Page * bool;
  Free : Page → Node → Page;
  IsEmpty : Page → bool;
  PageSize : Page → Z;
  Region : Node → Z * Z * Z * Z;
  (** float32 values and what the code does with them *)
  float32 : Type;
  f32_add : float32 → float32 → float32;
  f32_of_int : Z → float32;
  (** package affine *)
  ColorM : Type;
  (** package driver: enumeration values and the capabilities of the GPU *)
  CompositeModeCopy : Z;
  FilterNearest : Z;
  AddressClampToZero : Z;
  HasHighPrecisionFloat : bool;
  DriverMaxImageSize : Z;
  (** package graphics *)
  IndicesNum : Z;
  QuadIndices : list Z;
  PutQuadVertices :
    (list float32 → list float32) → Z → Z → Z → Z →
    list float32 → list float32 → list float32;
  (** the vertex layout of the GPU command layer, for a texture of the
      given size *)
  putVertex : Z → Z → list float32 → list float32;
  (** what the GPU leaves in the target after a draw *)
  drawPixels :
    (Z → Z → RGBA) → (Z → Z → RGBA) → list float32 → list Z →
    option ColorM → Z → Z → Z → Z → Z → RGBA;
}.

(** The laws of the packer that the atlas code relies on. *)
Class PackingLaws `{Extern} : Type := {
  (** an allocation that fails leaves the page as it was *)
  alloc_fail_same : ∀ p w h, (Alloc p w h).2 = None → (Alloc p w h).1 = p;
  (** a node has the size that was asked for *)
  alloc_region : ∀ p w h n, (Alloc p w h).2 = Some n →
    ∃ x y, Region n = (x, y, w, h);
  (** a new page has room for anything that is not larger than it *)
  alloc_new : ∀ size maxSize w h,
    0 < w ≤ size → 0 < h ≤ size → (Alloc (NewPage size maxSize) w h).2 ≠ None;
  (** a page cannot be extended for ever *)
  rank : Page → nat;
  extend_rank : ∀ p, (Extend p).2 = true → (rank (Extend p).1 < rank p)%nat;
  alloc_rank : ∀ p w h, (rank (Alloc p w h).1 ≤ rank p)%nat;
  free_rank : ∀ p n, (rank (Free p n) ≤ rank p)%nat;
  (** the corner of a region is not negative and fits 31 bits *)
  region_origin : ∀ n x y w h, Region n = (x, y, w, h) →
    0 ≤ x < 2 ^ 31 ∧ 0 ≤ y < 2 ^ 31;
}.

(** ** Package restorable: the images themselves *)

Module Restorable.
Section Images.
Context `{Extern}.

(** One entry of the drawing history of an image. *)
Inductive historyEntry : Type :=
| drawTrianglesHistoryItem (src : nat) (vertices : list float32)
    (indices : list Z) (colorm : option ColorM) (mode filter address : Z)
| replacePixelsHistoryItem (p : option (list Z)) (x y w h : Z).

(** Modelled from the spec: the struct of restorable.Image (image.go is
    not among the sources).  It holds the size, the flags the spec lists,
    the drawing history, and the pixels the GPU texture holds. *)
Record Image : Type := {
  width : Z;
  height : Z;
  pixels : Z → Z → RGBA;
  drawTrianglesHistory : list historyEntry;
  stale : bool;
  volatile : bool;
  screen : bool;
  priority : bool;
  removed : bool;
}.

Definition blank (w h : Z) (scr : bool) : Image :=
  {| width := w; height := h; pixels := λ _ _, transparent;
     drawTrianglesHistory := []; stale := false; volatile := false;
     screen := scr; priority := scr; removed := false |}.

(** Modelled from the spec: restorable.NewImage(w, h), a new image of
    transparent pixels. *)
Definition NewImage (w h : Z) (st : gmap nat Image) : nat * gmap nat Image :=
  let r := fresh (dom st) in (r, <[r := blank w h false]> st).

(** Modelled from the spec: restorable.NewScreenFramebufferImage(w, h),
    priority = true. *)
Definition NewScreenFramebufferImage (w h : Z) (st : gmap nat Image) : nat * gmap nat Image :=
  let r := fresh (dom st) in (r, <[r := blank w h true]> st).

Definition Size (st : gmap nat Image) (r : nat) : Z * Z :=
  match st !! r with
  | Some i => (width i, height i)
  | None => (0, 0)
  end.

(** Modelled from the spec: Extend(w, h) grows the backing texture and
    returns a new Restorable with the history copied. *)
Definition Extend (r : nat) (w h : Z) (st : gmap nat Image) : nat * gmap nat Image :=
  let r' := fresh (dom st) in
  match st !! r with
  | Some i =>
      (r', <[r' := {| width := w; height := h; pixels := pixels i;
                      drawTrianglesHistory := drawTrianglesHistory i;
                      stale := stale i; volatile := volatile i;
                      screen := screen i; priority := priority i;
                      removed := false |}]> st)
  | None => (r', <[r' := blank w h false]> st)
  end.

Definition in_region (x y w h x' y' : Z) : bool :=
  (x <=? x') && (x' <? x + w) && (y <=? y') && (y' <? y + h).

(** Modelled from the spec: ReplacePixels(pixels, x, y, w, h).  The region
    takes the bytes of [p], row by row (zeros when [p] is nil); when the
    region is the whole image and [p] is not nil the history is cleared,
    otherwise the write is appended to it. *)
Definition ReplacePixels (r : nat) (p : option (list Z)) (x y w h : Z)
    (st : gmap nat Image) : gmap nat Image :=
  match st !! r with
  | Some i =>
      let px := λ x' y',
        if in_region x y w h x' y' then
          match p with
          | Some bs => quad bs (4 * ((y' - y) * w + (x' - x)))
          | None => transparent
          end
        else pixels i x' y' in
      let whole := (x =? 0) && (y =? 0) && (w =? width i) && (h =? height i) in
      let hist :=
        if whole && bool_decide (is_Some p) then []
        else drawTrianglesHistory i ++ [replacePixelsHistoryItem p x y w h] in
      <[r := {| width := width i; height := height i; pixels := px;
                drawTrianglesHistory := hist; stale := stale i;
                volatile := volatile i; screen := screen i;
                priority := priority i; removed := removed i |}]> st
  | None => st
  end.

(** Modelled from the spec: ClearPixels is ReplacePixels of nil over the
    region. *)
Definition ClearPixels (r : nat) (x y w h : Z) (st : gmap nat Image) : gmap nat Image :=
  ReplacePixels r None x y w h st.

(** Modelled from the spec: Clear wipes the whole framebuffer. *)
Definition Clear (r : nat) (st : gmap nat Image) : gmap nat Image :=
  match st !! r with
  | Some i =>
      <[r := {| width := width i; height := height i;
                pixels := λ _ _, transparent;
                drawTrianglesHistory := []; stale := stale i;
                volatile := volatile i; screen := screen i;
                priority := priority i; removed := removed i |}]> st
  | None => st
  end.

(** Modelled from the spec: At(x, y) returns the pixel. *)
Definition At (st : gmap nat Image) (r : nat) (x y : Z) : RGBA :=
  match st !! r with
  | Some i => pixels i x y
  | None => transparent
  end.

Definition set_stale (i : Image) : Image :=
  {| width := width i; height := height i; pixels := pixels i;
     drawTrianglesHistory := drawTrianglesHistory i; stale := true;
     volatile := volatile i; screen := screen i; priority := priority i;
     removed := removed i |}.

Definition sources (i : Image) : list nat :=
  omap (λ e, match e with
             | drawTrianglesHistoryItem src _ _ _ _ _ _ => Some src
             | replacePixelsHistoryItem _ _ _ _ _ => None
             end) (drawTrianglesHistory i).

(** Modelled from the spec: DrawTriangles appends to the history of the
    target; when the source is stale, volatile or the screen the target
    becomes stale.  The pixels are what the GPU makes of the draw. *)
Definition DrawTriangles (dst src : nat) (vertices : list float32)
    (indices : list Z) (colorm : option ColorM) (mode filter address : Z)
    (st : gmap nat Image) : gmap nat Image :=
  match st !! dst with
  | Some i =>
      let srcpx := At st src in
      let bad := match st !! src with
                 | Some j => stale j || volatile j || screen j
                 | None => false
                 end in
      <[dst := {| width := width i; height := height i;
                  pixels := drawPixels (pixels i) srcpx vertices indices
                              colorm mode filter address;
                  drawTrianglesHistory :=
                    drawTrianglesHistory i ++
                    [drawTrianglesHistoryItem src vertices indices colorm
                       mode filter address];
                  stale := stale i || bad;
                  volatile := volatile i; screen := screen i;
                  priority := priority i; removed := removed i |}]> st
  | None => st
  end.

(** Modelled from the spec: Dispose marks the image removed; every image
    whose history refers to it becomes stale. *)
Definition Dispose (r : nat) (st : gmap nat Image) : gmap nat Image :=
  let st' := (λ i, if bool_decide (r ∈ sources i) then set_stale i else i)
               <$> st in
  match st' !! r with
  | Some i =>
      <[r := {| width := width i; height := height i; pixels := pixels i;
                drawTrianglesHistory := drawTrianglesHistory i;
                stale := stale i; volatile := volatile i;
                screen := screen i; priority := priority i;
                removed := true |}]> st'
  | None => st'
  end.

(** Modelled from the spec: MakeVolatile. *)
Definition MakeVolatile (r : nat) (st : gmap nat Image) : gmap nat Image :=
  match st !! r with
  | Some i =>
      <[r := {| width := width i; height := height i; pixels := pixels i;
                drawTrianglesHistory := drawTrianglesHistory i;
                stale := stale i; volatile := true; screen := screen i;
                priority := priority i; removed := removed i |}]> st
  | None => st
  end.

Definition IsVolatile (st : gmap nat Image) (r : nat) : bool :=
  match st !! r with
  | Some i => volatile i
  | None => false
  end.

(** Modelled from the spec: ResetRestoringState drops the history. *)
Definition ResetRestoringState (r : nat) (st : gmap nat Image) : gmap nat Image :=
  match st !! r with
  | Some i =>
      <[r := {| width := width i; height := height i; pixels := pixels i;
                drawTrianglesHistory := []; stale := false;
                volatile := volatile i; screen := screen i;
                priority := priority i; removed := removed i |}]> st
  | None => st
  end.

(** Modelled from the spec: PutVertex lays one vertex out for the texture
    of the image. *)
Definition PutVertex (st : gmap nat Image) (r : nat) (v : list float32) : list float32 :=
  let '(w, h) := Size st r in putVertex w h v.

End Images.
End Restorable.

(** ** Package shareable *)

Module Shareable.
Section Shareable.
Context `{Extern}.

(** [type backend struct]: a restorable texture and, for an atlas, the
    page of the packer ([None] is Go's nil). *)
Record backend : Type := {
  restorable : nat;
  page : option Page;
}.

(** [type Image struct].  [backend_] is the pointer field [backend]. *)
Record Image : Type := {
  width : Z;
  height : Z;
  disposed : bool;
  backend_ : option nat;
  node : option Node;
  nonUpdatedCount : Z;
  neverShared : bool;
}.

(** The package-level variables and the heaps behind the pointers.
    [imagesToMakeShared] is a Go map used as a set: the list has no
    duplicates and its order stands for the unspecified iteration order. *)
Record State : Type := {
  rimages : gmap nat Restorable.Image;
  images : gmap nat Image;
  backends : gmap nat backend;
  theBackends : list nat;
  imagesToMakeShared : list nat;
  minSize : Z;
  maxSize : Z;
  once : bool;
}.

Definition set_rimages (f : gmap nat Restorable.Image → gmap nat Restorable.Image) (s : State) :=
  {| rimages := f (rimages s); images := images s; backends := backends s;
     theBackends := theBackends s; imagesToMakeShared := imagesToMakeShared s;
     minSize := minSize s; maxSize := maxSize s; once := once s |}.
Definition set_images (f : gmap nat Image → gmap nat Image) (s : State) :=
  {| rimages := rimages s; images := f (images s); backends := backends s;
     theBackends := theBackends s; imagesToMakeShared := imagesToMakeShared s;
     minSize := minSize s; maxSize := maxSize s; once := once s |}.
Definition set_backends (f : gmap nat backend → gmap nat backend) (s : State) :=
  {| rimages := rimages s; images := images s; backends := f (backends s);
     theBackends := theBackends s; imagesToMakeShared := imagesToMakeShared s;
     minSize := minSize s; maxSize := maxSize s; once := once s |}.
Definition set_theBackends (f : list nat → list nat) (s : State) :=
  {| rimages := rimages s; images := images s; backends := backends s;
     theBackends := f (theBackends s);
     imagesToMakeShared := imagesToMakeShared s;
     minSize := minSize s; maxSize := maxSize s; once := once s |}.
Definition set_imagesToMakeShared (f : list nat → list nat) (s : State) :=
  {| rimages := rimages s; images := images s; backends := backends s;
     theBackends := theBackends s;
     imagesToMakeShared := f (imagesToMakeShared s);
     minSize := minSize s; maxSize := maxSize s; once := once s |}.

Definition with_backend (b : option nat) (n : option Node) (i : Image) :=
  {| width := width i; height := height i; disposed := disposed i;
     backend_ := b; node := n; nonUpdatedCount := nonUpdatedCount i;
     neverShared := neverShared i |}.
Definition with_disposed (d : bool) (i : Image) :=
  {| width := width i; height := height i; disposed := d;
     backend_ := backend_ i; node := node i;
     nonUpdatedCount := nonUpdatedCount i; neverShared := neverShared i |}.
Definition with_nonUpdatedCount (c : Z) (i : Image) :=
  {| width := width i; height := height i; disposed := disposed i;
     backend_ := backend_ i; node := node i; nonUpdatedCount := c;
     neverShared := neverShared i |}.
Definition with_neverShared (b : bool) (i : Image) :=
  {| width := width i; height := height i; disposed := disposed i;
     backend_ := backend_ i; node := node i;
     nonUpdatedCount := nonUpdatedCount i; neverShared := b |}.

(** Reading and writing through a pointer. *)
Definition getImage (i : nat) : M State Image :=
  λ s, match images s !! i with
       | Some v => Ok (v, s)
       | None => Panic nil_deref
       end.
Definition setImage (i : nat) (v : Image) : M State unit :=
  modify (set_images <[i := v]>).
Definition getBackend (b : nat) : M State backend :=
  λ s, match backends s !! b with
       | Some v => Ok (v, s)
       | None => Panic nil_deref
       end.
Definition setBackend (b : nat) (v : backend) : M State unit :=
  modify (set_backends <[b := v]>).
(** [&backend{...}] *)
Definition newBackend (v : backend) : M State nat :=
  λ s, let b := fresh (dom (backends s)) in
       Ok (b, set_backends <[b := v]> s).
(** Calls into package restorable. *)
Definition onRestorable (f : gmap nat Restorable.Image → gmap nat Restorable.Image)
  : M State unit := modify (set_rimages f).
Definition newRestorable (f : gmap nat Restorable.Image → nat * gmap nat Restorable.Image)
  : M State nat :=
  λ s, let '(r, st) := f (rimages s) in Ok (r, set_rimages (λ _, st) s).


Definition MaxCountForShare : Z := 10.

(** The simulation of [TryAlloc] on the cloned page: how many extensions
    make room for the region, if any number does. *)
Inductive planned : Type :=
| cannotExtend
| extendBy (nExtended : nat)
| planOutOfFuel.

Fixpoint plan (fuel : nat) (page : Page) (width height : Z) (nExtended : nat)
  : planned :=
  match fuel with
  | O => planOutOfFuel
  | S fuel' =>
      let '(page1, ok) := Extend page in
      if negb ok then cannotExtend
      else
        let nExtended := S nExtended in
        let '(page2, n) := Alloc page1 width height in
        match n with
        | Some _ => extendBy nExtended
        | None => plan fuel' page2 width height nExtended
        end
  end.

(** [for i := 0; i < nExtended; i++ { b.page.Extend() }] *)
Definition extendTimes (nExtended : nat) (p : Page) : Page :=
  Nat.iter nExtended (λ q, (Extend q).1) p.

(** [backend.TryAlloc]; the result is the node, [None] standing for
    [(nil, false)]. *)
Definition TryAlloc (fuel : nat) (b : nat) (width height : Z)
  : M State (option Node) :=
  let* bk := getBackend b in
  match page bk with
  | None => panic nil_deref
  | Some p =>
      let '(p1, n) := Alloc p width height in
      setBackend b {| restorable := restorable bk; page := Some p1 |} ;;
      match n with
      | Some n => ret (Some n)
      | None =>
          match plan fuel p1 width height 0 with
          | planOutOfFuel => λ _, OutOfFuel
          | cannotExtend => ret None
          | extendBy nExtended =>
              let p2 := extendTimes nExtended p1 in
              let s := PageSize p2 in
              let* r := newRestorable (Restorable.Extend (restorable bk) s s) in
              let '(p3, n) := Alloc p2 width height in
              setBackend b {| restorable := r; page := Some p3 |} ;;
              match n with
              | None =>
                  panic "shareable: Alloc result must not be nil at TryAlloc"
              | Some n => ret (Some n)
              end
          end
      end
  end.

Definition isShareable (s : State) : bool :=
  (minSize s >? 0) && (maxSize s >? 0).

Definition isShared (i : Image) : bool := bool_decide (is_Some (node i)).

(** [Image.shareable] *)
Definition shareable (s : State) (i : Image) : bool :=
  if negb (isShareable s) then false
  else if neverShared i then false
  else (width i <=? maxSize s) && (height i <=? maxSize s).

(** [Image.region] *)
Definition region (i : nat) : M State (Z * Z * Z * Z) :=
  let* img := getImage i in
  match backend_ img with
  | None => panic "shareable: backend must not be nil: not allocated yet?"
  | Some b =>
      let* bk := getBackend b in
      match node img with
      | None =>
          let* s := get in
          let '(w, h) := Restorable.Size (rimages s) (restorable bk) in
          ret (0, 0, w, h)
      | Some n => ret (Region n)
      end
  end.

(** The index of the first occurrence, as the search loop of [dispose]
    finds it. *)
Fixpoint index_of (b : nat) (l : list nat) : option nat :=
  match l with
  | [] => None
  | x :: l' => if bool_decide (x = b) then Some O else S <$> index_of b l'
  end.

(** [Image.dispose].  The deferred function runs after the body. *)
Definition dispose (i : nat) (markDisposed : bool) : M State unit :=
  let* img := getImage i in
  (if disposed img then ret tt
   else match backend_ img with
        | None => ret tt
        | Some b =>
            let* bk := getBackend b in
            match node img with
            | None => onRestorable (Restorable.Dispose (restorable bk))
            | Some n =>
                match page bk with
                | None => panic nil_deref
                | Some p =>
                    let p' := Free p n in
                    setBackend b {| restorable := restorable bk;
                                    page := Some p' |} ;;
                    if negb (IsEmpty p') then
                      let* (x, y, w, h) := region i in
                      onRestorable (Restorable.ClearPixels (restorable bk) x y w h)
                    else
                      onRestorable (Restorable.Dispose (restorable bk)) ;;
                      let* s := get in
                      match index_of b (theBackends s) with
                      | None =>
                          panic "shareable: backend not found at an image being disposed"
                      | Some index =>
                          modify (set_theBackends
                                    (λ l, take index l ++ drop (S index) l))
                      end
                end
            end
        end) ;;
  let* img := getImage i in
  setImage i (with_backend None None
                (if markDisposed then with_disposed true img else img)).

(** [NewImage]: the allocation is done lazily. *)
Definition NewImage (width height : Z) : M State nat :=
  λ s, let i := fresh (dom (images s)) in
       Ok (i, set_images <[i := {| width := width; height := height;
                                  disposed := false; backend_ := None;
                                  node := None; nonUpdatedCount := 0;
                                  neverShared := false |}]> s).

(** The loop of [allocate] over [theBackends]. *)
Fixpoint tryBackends (fuel : nat) (bs : list nat) (width height : Z)
  : M State (option (nat * Node)) :=
  match bs with
  | [] => ret None
  | b :: bs' =>
      let* r := TryAlloc fuel b width height in
      match r with
      | Some n => ret (Some (b, n))
      | None => tryBackends fuel bs' width height
      end
  end.

(** The loop of [allocate] that doubles the size of the new page. *)
Fixpoint growSize (fuel : nat) (size maxSize width height : Z) : result Z :=
  if (width >? size) || (height >? size) then
    if size =? maxSize then
      Panic "shareable: the image being shared is too big"
    else match fuel with
         | O => OutOfFuel
         | S fuel' => growSize fuel' (GoInt.mul size 2) maxSize width height
         end
  else Ok size.

(** [Image.allocate] *)
Definition allocate (fuel : nat) (i : nat) (shareable_ : bool) : M State unit :=
  let* img := getImage i in
  let* s := get in
  if bool_decide (is_Some (backend_ img)) then
    panic "shareable: the image is already allocated"
  else if negb shareable_ || negb (shareable s img) then
    let* r := newRestorable (Restorable.NewImage (width img) (height img)) in
    let* b := newBackend {| restorable := r; page := None |} in
    setImage i (with_backend (Some b) (node img) img)
  else
    let* found := tryBackends fuel (theBackends s) (width img) (height img) in
    match found with
    | Some (b, n) => setImage i (with_backend (Some b) (Some n) img)
    | None =>
        let* size := lift_result
          (growSize fuel (minSize s) (maxSize s) (width img) (height img)) in
        let* r := newRestorable (Restorable.NewImage size size) in
        let '(p, n) := Alloc (NewPage size (maxSize s)) (width img) (height img) in
        let* b := newBackend {| restorable := r; page := Some p |} in
        modify (set_theBackends (λ l, l ++ [b])) ;;
        match n with
        | None => panic "shareable: Alloc result must not be nil at allocate"
        | Some n => setImage i (with_backend (Some b) (Some n) img)
        end
    end.

(** [Image.at] *)
Definition at_ (i : nat) (x y : Z) : M State RGBA :=
  let* img := getImage i in
  match backend_ img with
  | None => ret transparent
  | Some b =>
      let* (ox, oy, w, h) := region i in
      if (x <? 0) || (y <? 0) || (x >=? w) || (y >=? h) then ret transparent
      else
        let* bk := getBackend b in
        let* s := get in
        ret (Restorable.At (rimages s) (restorable bk)
               (GoInt.add x ox) (GoInt.add y oy))
  end.

(** [Image.replacePixels]; [None] is a nil slice. *)
Definition replacePixels (fuel : nat) (i : nat) (p : option (list Z))
  : M State unit :=
  let* img := getImage i in
  if disposed img then
    panic "shareable: the image must not be disposed at replacePixels"
  else
    let continue : M State unit :=
      let* (x, y, w, h) := region i in
      let check : M State unit :=
        match p with
        | Some bs =>
            let l := GoInt.mul (GoInt.mul 4 w) h in
            if bool_decide (Z.of_nat (length bs) = l) then ret tt
            else panic "shareable: len(p) must be 4*w*h"
        | None => ret tt
        end in
      check ;;
      let* img := getImage i in
      match backend_ img with
      | None => panic nil_deref
      | Some b =>
          let* bk := getBackend b in
          onRestorable (Restorable.ReplacePixels (restorable bk) p x y w h)
      end in
    match backend_ img with
    | None =>
        match p with
        | None => ret tt
        | Some _ => allocate fuel i true ;; continue
        end
    | Some _ => continue
    end.

(** [Image.moveTo]: [*dst = *i]. *)
Definition moveTo (i dst : nat) : M State unit :=
  dispose dst false ;;
  let* v := getImage i in
  setImage dst v.

(** What [PutVertex] writes for an image at offset [(ox, oy)] of the
    texture [r]: the source position and the source bounds are moved by the
    offset.  A vertex is the twelve arguments dx, dy, sx, sy, bx0, by0,
    bx1, by1, cr, cg, cb, ca. *)
Definition vertexOn (st : gmap nat Restorable.Image) (r : nat) (ox oy : Z)
    (v : list float32) : list float32 :=
  let oxf := f32_of_int ox in
  let oyf := f32_of_int oy in
  match v with
  | [dx; dy; sx; sy; bx0; by0; bx1; by1; cr; cg; cb; ca] =>
      Restorable.PutVertex st r
        [dx; dy; f32_add sx oxf; f32_add sy oyf; f32_add bx0 oxf;
         f32_add by0 oyf; f32_add bx1 oxf; f32_add by1 oyf; cr; cg; cb; ca]
  | _ => []
  end.

(** [Image.PutVertex]; the result is what is written to [dst]. *)
Definition PutVertex (fuel : nat) (i : nat) (v : list float32)
  : M State (list float32) :=
  let* img := getImage i in
  (if bool_decide (backend_ img = None) then allocate fuel i true else ret tt) ;;
  let* (ox, oy, _, _) := region i in
  let* img := getImage i in
  match backend_ img with
  | None => panic nil_deref
  | Some b =>
      let* bk := getBackend b in
      let* s := get in
      ret (vertexOn (rimages s) (restorable bk) ox oy v)
  end.

(** [Image.ensureNotShared] *)
Definition ensureNotShared (fuel : nat) (i : nat) : M State unit :=
  let* img := getImage i in
  match backend_ img with
  | None => allocate fuel i false
  | Some b =>
      if negb (isShared img) then ret tt
      else
        let* (ox, oy, w, h) := region i in
        let* newImg := newRestorable (Restorable.NewImage w h) in
        let* bk := getBackend b in
        let* s := get in
        let one := f32_of_int 1 in
        let zero := f32_of_int 0 in
        let vs := PutQuadVertices (vertexOn (rimages s) (restorable bk) ox oy)
                    0 0 w h [one; zero; zero; one; zero; zero]
                    [one; one; one; one] in
        onRestorable
          (Restorable.DrawTriangles newImg (restorable bk) vs QuadIndices None
             CompositeModeCopy FilterNearest AddressClampToZero) ;;
        dispose i false ;;
        let* b' := newBackend {| restorable := newImg; page := None |} in
        let* img := getImage i in
        setImage i (with_backend (Some b') (node img) img)
  end.

(** [for _, x := range l { acc = body acc x }] *)
Fixpoint foldM {S A B} (l : list A) (body : B → A → M S B) (acc : B) : M S B :=
  match l with
  | [] => ret acc
  | x :: l' => let* acc := body acc x in foldM l' body acc
  end.

(** The body of the inner loop of [makeShared]: one pixel is read and its
    four bytes are written. *)
Definition copyPixel (i : nat) (w : Z) (pixels : list Z) (x y : Z)
  : M State (list Z) :=
  let* (r, g, b, a) := at_ i x y in
  let idx := GoInt.mul 4 (GoInt.add x (GoInt.mul w y)) in
  let* pixels := lift_result (store pixels idx r) in
  let* pixels := lift_result (store pixels (GoInt.add idx 1) g) in
  let* pixels := lift_result (store pixels (GoInt.add idx 2) b) in
  lift_result (store pixels (GoInt.add idx 3) a).

(** The two loops of [makeShared]. *)
Definition copyPixels (i : nat) (w h : Z) (pixels : list Z) : M State (list Z) :=
  foldM (seqZ 0 h)
    (λ pixels y, foldM (seqZ 0 w) (λ pixels x, copyPixel i w pixels x y) pixels)
    pixels.

(** [Image.makeShared] *)
Definition makeShared (fuel : nat) (i : nat) : M State unit :=
  let* img := getImage i in
  match backend_ img with
  | None => allocate fuel i true
  | Some _ =>
      if isShared img then ret tt
      else
        let* s := get in
        if negb (shareable s img) then
          panic "shareable: makeShared cannot be called on a non-shareable image"
        else
          let* newI := NewImage (width img) (height img) in
          let* pixels := lift_result
            (make_bytes (GoInt.mul (GoInt.mul 4 (width img)) (height img))) in
          let* pixels := copyPixels i (width img) (height img) pixels in
          replacePixels fuel newI (Some pixels) ;;
          moveTo newI i ;;
          let* img := getImage i in
          setImage i (with_nonUpdatedCount 0 img)
  end.

(** [delete(imagesToMakeShared, i)] and [imagesToMakeShared[img] = struct{}{}] *)
Definition deleteCandidate (i : nat) : M State unit :=
  modify (set_imagesToMakeShared (filter (λ j, j ≠ i))).
Definition addCandidate (i : nat) : M State unit :=
  modify (set_imagesToMakeShared
            (λ l, if bool_decide (i ∈ l) then l else l ++ [i])).

(** [makeImagesShared]: every image that is in the set when the loop
    starts is visited once. *)
Definition makeImagesShared (fuel : nat) : M State unit :=
  let* s := get in
  forM (imagesToMakeShared s) (λ i,
    let* img := getImage i in
    let c := GoInt.add (nonUpdatedCount img) 1 in
    setImage i (with_nonUpdatedCount c img) ;;
    (if c >=? MaxCountForShare then makeShared fuel i else ret tt) ;;
    deleteCandidate i).


(** [Image.DrawTriangles]: [i] is the target and [img] the source. *)
Definition DrawTriangles (fuel : nat) (i img : nat) (vertices : list float32)
    (indices : list Z) (colorm : option ColorM) (mode filter address : Z)
  : M State unit :=
  let* src := getImage img in
  if disposed src then
    panic "shareable: the drawing source image must not be disposed (DrawTriangles)"
  else
    let* dst := getImage i in
    if disposed dst then
      panic "shareable: the drawing target image must not be disposed (DrawTriangles)"
    else
      (if bool_decide (backend_ src = None) then allocate fuel img true
       else ret tt) ;;
      ensureNotShared fuel i ;;
      let* dst := getImage i in
      let* src := getImage img in
      match backend_ dst, backend_ src with
      | Some bi, Some bimg =>
          let* bki := getBackend bi in
          let* bkimg := getBackend bimg in
          if bool_decide (restorable bki = restorable bkimg) then
            panic "shareable: Image.DrawTriangles: img must be different from the receiver"
          else
            onRestorable
              (Restorable.DrawTriangles (restorable bki) (restorable bkimg)
                 vertices indices colorm mode filter address) ;;
            let* dst := getImage i in
            setImage i (with_nonUpdatedCount 0 dst) ;;
            deleteCandidate i ;;
            let* src := getImage img in
            let* s := get in
            if negb (isShared src) && shareable s src then addCandidate img
            else ret tt
      | _, _ => panic nil_deref
      end.

(** [Image.ClearFramebuffer] *)
Definition ClearFramebuffer (fuel : nat) (i : nat) : M State unit :=
  let* img := getImage i in
  if disposed img then
    panic "shareable: the drawing target image must not be disposed (Fill)"
  else
    ensureNotShared fuel i ;;
    let* img := getImage i in
    match backend_ img with
    | None => panic nil_deref
    | Some b =>
        let* bk := getBackend b in
        onRestorable (Restorable.Clear (restorable bk))
    end.

(** [Image.ResetRestoringState] *)
Definition ResetRestoringState (i : nat) : M State unit :=
  let* img := getImage i in
  match backend_ img with
  | None => ret tt
  | Some b =>
      let* bk := getBackend b in
      onRestorable (Restorable.ResetRestoringState (restorable bk))
  end.

(** [Image.ReplacePixels], [Image.At], [Image.Dispose] *)
Definition ReplacePixels (fuel : nat) (i : nat) (p : option (list Z))
  : M State unit := replacePixels fuel i p.
Definition At (i : nat) (x y : Z) : M State RGBA := at_ i x y.
Definition Dispose (i : nat) : M State unit := dispose i true.

(** [Image.Size] *)
Definition Size (i : nat) : M State (Z * Z) :=
  let* img := getImage i in ret (width img, height img).

(** [Image.IsVolatile] *)
Definition IsVolatile (i : nat) : M State bool :=
  let* img := getImage i in
  match backend_ img with
  | None => ret false
  | Some b =>
      let* bk := getBackend b in
      let* s := get in
      ret (Restorable.IsVolatile (rimages s) (restorable bk))
  end.

(** [Image.MakeVolatile] *)
Definition MakeVolatile (fuel : nat) (i : nat) : M State unit :=
  ensureNotShared fuel i ;;
  let* img := getImage i in
  match backend_ img with
  | None => panic nil_deref
  | Some b =>
      let* bk := getBackend b in
      onRestorable (Restorable.MakeVolatile (restorable bk)) ;;
      let* img := getImage i in
      setImage i (with_neverShared true img)
  end.

(** [NewScreenFramebufferImage] *)
Definition NewScreenFramebufferImage (width height : Z) : M State nat :=
  let* r := newRestorable (Restorable.NewScreenFramebufferImage width height) in
  let* b := newBackend {| restorable := r; page := None |} in
  λ s, let i := fresh (dom (images s)) in
       Ok (i, set_images <[i := {| width := width; height := height;
                                  disposed := false; backend_ := Some b;
                                  node := None; nonUpdatedCount := 0;
                                  neverShared := true |}]> s).

(** The state of the package when the program starts. *)
Definition initial : State :=
  {| rimages := ∅; images := ∅; backends := ∅; theBackends := [];
     imagesToMakeShared := []; minSize := 0; maxSize := 0; once := false |}.

End Shareable.
End Shareable.

(** ** Package restorable: the order of restoring (images.go) *)

Module RestorableImages.
Section Restore.

(** The two things [restore] asks of an image: the field [priority] and
    the method [dependingImages], the set of sources in its drawing
    history.  Images are addresses. *)
Variable priority : nat → bool.
Variable dependingImages : nat → list nat.

(** [type edge struct { source, target *Image }] *)
Record edge : Type := { source : nat; target : nat }.

Global Instance edge_eq_dec : EqDecision edge.
Proof. solve_decision. Defined.

(** The map [images] of [restore]: the images that are not priority. *)
Definition nonPriority (imgs : list nat) : list nat :=
  filter (λ i, priority i = false) imgs.

(** The map [edges] of [restore]. *)
Definition edgesOf (images : list nat) : list edge :=
  t ← images; s ← dependingImages t; [{| source := s; target := t |}].

(** The prefix of [sorted]: the priority images. *)
Definition priorityFirst (imgs : list nat) : list nat :=
  filter (λ i, priority i = true) imgs.

(** [current]: the images that have no incoming edges. *)
Definition currentOf (images : list nat) (edges : list edge) : list nat :=
  filter (λ i, i ∉ (target <$> edges)) images.

Inductive sorting : Type :=
| sortedInRounds (rounds : list (list nat))
| neverEnds
| sortOutOfFuel.

(** The loop [for len(images) > 0].  One round moves [current] from
    [images] to [sorted] and drops the edges that leave [current].  A round
    with an empty [current] changes nothing, and the loop runs for ever. *)
Fixpoint rounds (fuel : nat) (images : list nat) (edges : list edge) : sorting :=
  match images with
  | [] => sortedInRounds []
  | _ :: _ =>
      let current := currentOf images edges in
      match current with
      | [] => neverEnds
      | _ :: _ =>
          match fuel with
          | O => sortOutOfFuel
          | S fuel' =>
              let images' := filter (λ i, i ∉ current) images in
              let edges' := filter (λ e, source e ∉ current) edges in
              match rounds fuel' images' edges' with
              | sortedInRounds rs => sortedInRounds (current :: rs)
              | r => r
              end
          end
      end
  end.

(** Every round takes at least one image away, so as many rounds as there
    are images are enough. *)
Definition sortRounds (imgs : list nat) : sorting :=
  let images := nonPriority imgs in
  rounds (length images) images (edgesOf images).

(** [sorted], for the iteration order that the lists give. *)
Definition sorted (imgs : list nat) : option (list nat) :=
  match sortRounds imgs with
  | sortedInRounds rs => Some (priorityFirst imgs ++ concat rs)
  | _ => None
  end.

(** Go iterates over a map in an order of its choosing: [sorted] is the
    priority images in some order, then every round in some order. *)
Definition restoreOrder (imgs : list nat) (order : list nat) : Prop :=
  ∃ prio rs rs',
    sortRounds imgs = sortedInRounds rs ∧
    prio ≡ₚ priorityFirst imgs ∧
    Forall2 (≡ₚ) rs' rs ∧
    order = prio ++ concat rs'.

(** The position of an image in an order. *)
Definition before (order : list nat) (a b : nat) : Prop :=
  ∃ l1 l2 l3, order = l1 ++ a :: l2 ++ b :: l3.

End Restore.
End RestorableImages.

(** ** Go's package image: points and rectangles *)

Module GoImage.

Record Point : Type := { X : Z; Y : Z }.
Record Rectangle : Type := { Min : Point; Max : Point }.

Definition Pt (x y : Z) : Point := {| X := x; Y := y |}.

(** [image.ZR] *)
Definition ZR : Rectangle := {| Min := Pt 0 0; Max := Pt 0 0 |}.

(** [image.Rect] *)
Definition Rect (x0 y0 x1 y1 : Z) : Rectangle :=
  let '(x0, x1) := if x0 >? x1 then (x1, x0) else (x0, x1) in
  let '(y0, y1) := if y0 >? y1 then (y1, y0) else (y0, y1) in
  {| Min := Pt x0 y0; Max := Pt x1 y1 |}.

Definition Empty (r : Rectangle) : bool :=
  (X (Min r) >=? X (Max r)) || (Y (Min r) >=? Y (Max r)).

Definition Dx (r : Rectangle) : Z := GoInt.sub (X (Max r)) (X (Min r)).
Definition Dy (r : Rectangle) : Z := GoInt.sub (Y (Max r)) (Y (Min r)).
Definition Size (r : Rectangle) : Point := Pt (Dx r) (Dy r).

Definition In (p : Point) (r : Rectangle) : bool :=
  (X (Min r) <=? X p) && (X p <? X (Max r)) &&
  (Y (Min r) <=? Y p) && (Y p <? Y (Max r)).

(** [Rectangle.Intersect] *)
Definition Intersect (r s : Rectangle) : Rectangle :=
  let minx := if X (Min r) <? X (Min s) then X (Min s) else X (Min r) in
  let miny := if Y (Min r) <? Y (Min s) then Y (Min s) else Y (Min r) in
  let maxx := if X (Max r) >? X (Max s) then X (Max s) else X (Max r) in
  let maxy := if Y (Max r) >? Y (Max s) then Y (Max s) else Y (Max r) in
  let r' := {| Min := Pt minx miny; Max := Pt maxx maxy |} in
  if Empty r' then ZR else r'.

End GoImage.

(** ** Package ebiten: the public image *)

Module Ebiten.
Import GoImage.
Section Ebiten.
Context `{Extern}.

(** Modelled from the spec: the mipmap set of an image (mipmap.go is not
    among the sources): the level-0 shareable image, nil once disposed,
    and the images of the other levels, which [disposeMipmaps] releases. *)
Record mipmap : Type := {
  orig : option nat;
  imgs : list nat;
}.

(** [type Image struct] *)
Record Image : Type := {
  addr : option nat;
  mipmap_ : nat;
  bounds : Rectangle;
  original : option nat;
  pendingPixels : option (list Z);
  filter : Z;
}.

(** [type Vertex struct] *)
Record Vertex : Type := {
  DstX : float32; DstY : float32; SrcX : float32; SrcY : float32;
  ColorR : float32; ColorG : float32; ColorB : float32; ColorA : float32;
}.

(** [type DrawTrianglesOptions struct] *)
Record DrawTrianglesOptions : Type := {
  optColorM : option ColorM;
  optCompositeMode : Z;
  optFilter : Z;
  optAddress : Z;
}.

(** The zero value of the options: the identity colour matrix (a nil
    matrix for the driver), regular blending, the default filter and
    clamping to zero. *)
Definition defaultOptions : DrawTrianglesOptions :=
  {| optColorM := None; optCompositeMode := 0; optFilter := 0; optAddress := 0 |}.

(** [FilterDefault], the zero value of [Filter]. *)
Definition FilterDefault : Z := 0.

(** [var MaxImageSize = 4096] *)
Definition MaxImageSize : Z := 4096.

(** [const MaxIndicesNum = graphics.IndicesNum] *)
Definition MaxIndicesNum : Z := IndicesNum.

(** The heaps of the package on top of the state of package shareable;
    [isRunning] is the int32 that the main loop sets. *)
Record State : Type := {
  sh : Shareable.State;
  fimages : gmap nat Image;
  mipmaps : gmap nat mipmap;
  isRunning : Z;
}.

Definition set_sh (f : Shareable.State → Shareable.State) (s : State) :=
  {| sh := f (sh s); fimages := fimages s; mipmaps := mipmaps s;
     isRunning := isRunning s |}.
Definition set_fimages (f : gmap nat Image → gmap nat Image) (s : State) :=
  {| sh := sh s; fimages := f (fimages s); mipmaps := mipmaps s;
     isRunning := isRunning s |}.
Definition set_mipmaps (f : gmap nat mipmap → gmap nat mipmap) (s : State) :=
  {| sh := sh s; fimages := fimages s; mipmaps := f (mipmaps s);
     isRunning := isRunning s |}.

Definition with_pendingPixels (p : option (list Z)) (i : Image) : Image :=
  {| addr := addr i; mipmap_ := mipmap_ i; bounds := bounds i;
     original := original i; pendingPixels := p; filter := filter i |}.

(** A call into package shareable. *)
Definition onShareable {A} (m : M Shareable.State A) : M State A :=
  λ s, match m (sh s) with
       | Ok (a, s') => Ok (a, set_sh (λ _, s') s)
       | Panic msg => Panic msg
       | OutOfFuel => OutOfFuel
       end.

Definition getImage (i : nat) : M State Image :=
  λ s, match fimages s !! i with
       | Some v => Ok (v, s)
       | None => Panic nil_deref
       end.
Definition setImage (i : nat) (v : Image) : M State unit :=
  modify (set_fimages <[i := v]>).
Definition getMipmap (m : nat) : M State mipmap :=
  λ s, match mipmaps s !! m with
       | Some v => Ok (v, s)
       | None => Panic nil_deref
       end.

(** Modelled from the spec: [newMipmap(s)], a mipmap set with the level-0
    image only. *)
Definition newMipmap (s : nat) : M State nat :=
  λ st, let m := fresh (dom (mipmaps st)) in
        Ok (m, set_mipmaps <[m := {| orig := Some s; imgs := [] |}]> st).

(** Modelled from the spec: [mipmap.original()], the level-0 image ([None]
    is the nil of a disposed mipmap). *)
Definition mipmapOriginal (i : nat) : M State (option nat) :=
  let* img := getImage i in
  let* m := getMipmap (mipmap_ img) in
  ret (orig m).

(** The use of a pointer that may be nil. *)
Definition deref {S} (p : option nat) : M S nat :=
  match p with
  | Some a => ret a
  | None => panic nil_deref
  end.

(** Modelled from the spec: [mipmap.disposeMipmaps()] releases all the
    levels but the original. *)
Definition mipmapDisposeMipmaps (m : nat) : M State unit :=
  let* mm := getMipmap m in
  forM (imgs mm) (λ l, onShareable (Shareable.Dispose l)) ;;
  modify (set_mipmaps <[m := {| orig := orig mm; imgs := [] |}]>).

(** Modelled from the spec: [mipmap.dispose()] releases the levels and the
    original. *)
Definition mipmapDispose (m : nat) : M State unit :=
  mipmapDisposeMipmaps m ;;
  let* mm := getMipmap m in
  match orig mm with
  | Some s =>
      onShareable (Shareable.Dispose s) ;;
      modify (set_mipmaps <[m := {| orig := None; imgs := imgs mm |}]>)
  | None => panic nil_deref
  end.

(** [Image.copyCheck] *)
Definition copyCheck (i : nat) : M State unit :=
  let* img := getImage i in
  if bool_decide (addr img = Some i) then ret tt
  else panic "ebiten: illegal use of non-zero Image copied by value".

(** [Image.isDisposed]: the mipmap has lost its original. *)
Definition isDisposed (i : nat) : M State bool :=
  let* img := getImage i in
  let* m := getMipmap (mipmap_ img) in
  ret (bool_decide (orig m = None)).

(** [Image.isSubImage] *)
Definition isSubImage (img : Image) : bool :=
  bool_decide (is_Some (original img)).

(** [Image.Bounds] *)
Definition Bounds (i : nat) : M State Rectangle :=
  let* d := isDisposed i in
  if d then panic "ebiten: the image is already disposed"
  else
    let* img := getImage i in
    if negb (isSubImage img) then
      let* o := mipmapOriginal i in
      let* o := deref o in
      let* (w, h) := onShareable (Shareable.Size o) in
      ret (Rect 0 0 w h)
    else ret (bounds img).

(** [Image.Size] *)
Definition Size (i : nat) : M State (Z * Z) :=
  let* b := Bounds i in
  ret (X (GoImage.Size b), Y (GoImage.Size b)).

(** [Image.disposeMipmaps] *)
Definition disposeMipmaps (i : nat) : M State unit :=
  let* d := isDisposed i in
  if d then panic "ebiten: the image is already disposed at disposeMipmap"
  else
    let* img := getImage i in
    mipmapDisposeMipmaps (mipmap_ img).

(** [Image.ReplacePixels], with the call of [resolvePendingPixels] that it
    makes left open: the two methods call each other. *)
Definition ReplacePixelsWith (resolve : nat → bool → M State unit)
    (fuel : nat) (i : nat) (p : list Z) : M State unit :=
  copyCheck i ;;
  let* d := isDisposed i in
  if d then ret tt
  else
    let* img := getImage i in
    if isSubImage img then
      panic "ebiten: render to a subimage is not implemented (ReplacePixels)"
    else
      resolve i false ;;
      let* b := Bounds i in
      let s := GoImage.Size b in
      let l := GoInt.mul (GoInt.mul 4 (X s)) (Y s) in
      if negb (bool_decide (Z.of_nat (length p) = l)) then
        panic "ebiten: len(p) was not 4*w*h"
      else
        let* o := mipmapOriginal i in
        let* o := deref o in
        onShareable (Shareable.ReplacePixels fuel o (Some p)) ;;
        disposeMipmaps i.

(** [Image.resolvePendingPixels] *)
Fixpoint resolvePendingPixels (fuel : nat) (i : nat) (draw : bool)
  : M State unit :=
  match fuel with
  | O => λ _, OutOfFuel
  | S fuel' =>
      let* img := getImage i in
      match original img with
      | Some o => resolvePendingPixels fuel' o draw
      | None =>
          match pendingPixels img with
          | None => ret tt
          | Some p =>
              if negb draw then setImage i (with_pendingPixels None img)
              else
                ReplacePixelsWith (resolvePendingPixels fuel') fuel' i p ;;
                let* img := getImage i in
                setImage i (with_pendingPixels None img)
          end
      end
  end.

Definition ReplacePixels (fuel : nat) (i : nat) (p : list Z) : M State unit :=
  ReplacePixelsWith (resolvePendingPixels fuel) fuel i p.

(** [Image.SubImage]; [None] is the nil that a disposed image gives. *)
Definition SubImage (i : nat) (r : Rectangle) : M State (option nat) :=
  copyCheck i ;;
  let* d := isDisposed i in
  if d then ret None
  else
    let* p := getImage i in
    let* pb := Bounds i in
    let r := Intersect r pb in
    let* s := get in
    let img := fresh (dom (fimages s)) in
    setImage img
      {| addr := Some img; mipmap_ := mipmap_ p;
         bounds := if Empty r then ZR else r;
         original := if isSubImage p then original p else Some i;
         pendingPixels := None; filter := filter p |} ;;
    ret (Some img).

(** [Image.At] *)
Definition At (fuel : nat) (i : nat) (x y : Z) : M State RGBA :=
  let* s := get in
  if isRunning s =? 0 then
    panic "ebiten: (*Image).At is not available outside the main loop so far"
  else
    let* d := isDisposed i in
    if d then ret transparent
    else
      let* img := getImage i in
      if isSubImage img && negb (In (Pt x y) (bounds img)) then ret transparent
      else
        resolvePendingPixels fuel i true ;;
        let* o := mipmapOriginal i in
        let* o := deref o in
        onShareable (Shareable.At o x y).

(** The loops of [Set] that read the whole image back. *)
Definition readBack (o : option nat) (w h : Z) (pix : list Z)
  : M State (list Z) :=
  let* (pix, _) :=
    Shareable.foldM (seqZ 0 h)
      (λ acc j,
         Shareable.foldM (seqZ 0 w)
           (λ '(pix, idx) i,
              let* o := deref o in
              let* (r, g, b, a) := onShareable (Shareable.At o i j) in
              let* pix := lift_result (store pix (GoInt.mul 4 idx) r) in
              let* pix := lift_result
                (store pix (GoInt.add (GoInt.mul 4 idx) 1) g) in
              let* pix := lift_result
                (store pix (GoInt.add (GoInt.mul 4 idx) 2) b) in
              let* pix := lift_result
                (store pix (GoInt.add (GoInt.mul 4 idx) 3) a) in
              ret (pix, GoInt.add idx 1))
           acc)
      (pix, 0) in
  ret pix.

(** [Image.Set]; the colour is given by what its method RGBA returns. *)
Definition Set_ (i : nat) (x y : Z) (clr : Z * Z * Z * Z) : M State unit :=
  let* s := get in
  if isRunning s =? 0 then
    panic "ebiten: (*Image).Set is not available outside the main loop so far"
  else
    copyCheck i ;;
    let* d := isDisposed i in
    if d then ret tt
    else
      let* img0 := getImage i in
      if isSubImage img0 && negb (In (Pt x y) (bounds img0)) then ret tt
      else
        let img := match original img0 with Some o => o | None => i end in
        let* (w, h) := Size img in
        let* im := getImage img in
        (match pendingPixels im with
         | Some _ => ret tt
         | None =>
             let* pix := lift_result
               (make_bytes (GoInt.mul (GoInt.mul 4 w) h)) in
             let* o := mipmapOriginal img in
             let* pix := readBack o w h pix in
             let* im := getImage img in
             setImage img (with_pendingPixels (Some pix) im)
         end) ;;
        let '(r, g, b, a) := clr in
        let* im := getImage img in
        match pendingPixels im with
        | None => panic nil_deref
        | Some pix =>
            let idx := GoInt.mul 4 (GoInt.add x (GoInt.mul y w)) in
            let* pix := lift_result (store pix idx (GoInt.byte (Z.shiftr r 8))) in
            let* pix := lift_result
              (store pix (GoInt.add idx 1) (GoInt.byte (Z.shiftr g 8))) in
            let* pix := lift_result
              (store pix (GoInt.add idx 2) (GoInt.byte (Z.shiftr b 8))) in
            let* pix := lift_result
              (store pix (GoInt.add idx 3) (GoInt.byte (Z.shiftr a 8))) in
            setImage img (with_pendingPixels (Some pix) im)
        end.

(** [Image.Dispose] *)
Definition Dispose (fuel : nat) (i : nat) : M State unit :=
  copyCheck i ;;
  let* d := isDisposed i in
  if d then ret tt
  else
    let* img := getImage i in
    if isSubImage img then ret tt
    else
      mipmapDispose (mipmap_ img) ;;
      resolvePendingPixels fuel i false.

(** [NewImage] *)
Definition NewImage (width height : Z) (filter_ : Z) : M State nat :=
  let* s := onShareable (Shareable.NewImage width height) in
  let* m := newMipmap s in
  let* st := get in
  let i := fresh (dom (fimages st)) in
  setImage i {| addr := Some i; mipmap_ := m; bounds := ZR; original := None;
                pendingPixels := None; filter := filter_ |} ;;
  ret i.

(** [NewImageFromImage].  The source is given by its bounds and by the
    bytes that [copyImage] makes of it. *)
Definition NewImageFromImage (fuel : nat) (sourceBounds : Rectangle)
    (copied : list Z) (filter_ : Z) : M State nat :=
  let size := GoImage.Size sourceBounds in
  let* s := onShareable (Shareable.NewImage (X size) (Y size)) in
  let* m := newMipmap s in
  let* st := get in
  let i := fresh (dom (fimages st)) in
  setImage i {| addr := Some i; mipmap_ := m; bounds := ZR; original := None;
                pendingPixels := None; filter := filter_ |} ;;
  ReplacePixels fuel i copied ;;
  ret i.

(** [Image.makeVolatile] *)
Definition makeVolatile (fuel : nat) (i : nat) : M State unit :=
  let* d := isDisposed i in
  if d then ret tt
  else
    let* o := mipmapOriginal i in
    let* o := deref o in
    onShareable (Shareable.MakeVolatile fuel o) ;;
    disposeMipmaps i.

(** The loop of [DrawTriangles] over the vertices. *)
Fixpoint putVertices (fuel : nat) (src : option nat) (r : Rectangle)
    (vertices : list Vertex) : M State (list float32) :=
  match vertices with
  | [] => ret []
  | v :: vertices' =>
      let* src' := deref src in
      let* chunk := onShareable
        (Shareable.PutVertex fuel src'
           [DstX v; DstY v; SrcX v; SrcY v;
            f32_of_int (X (Min r)); f32_of_int (Y (Min r));
            f32_of_int (X (Max r)); f32_of_int (Y (Max r));
            ColorR v; ColorG v; ColorB v; ColorA v]) in
      let* rest := putVertices fuel src r vertices' in
      ret (chunk ++ rest)
  end.

(** What [DrawTriangles] does once the two checks on [indices] have
    passed. *)
Definition drawTrianglesChecked (fuel : nat) (i : nat) (vertices : list Vertex)
    (indices : list Z) (img : nat) (options : option DrawTrianglesOptions)
  : M State unit :=
  let options := default defaultOptions options in
  let mode := optCompositeMode options in
  let* src := getImage img in
  let filter_ :=
    if negb (optFilter options =? FilterDefault) then optFilter options
    else if negb (filter src =? FilterDefault) then filter src
    else FilterNearest in
  let* srcOrig := mipmapOriginal img in
  let* r := Bounds img in
  let* vs := putVertices fuel srcOrig r vertices in
  let* dst := mipmapOriginal i in
  let* dst := deref dst in
  let* srcOrig := deref srcOrig in
  onShareable
    (Shareable.DrawTriangles fuel dst srcOrig vs indices (optColorM options)
       mode filter_ (optAddress options)) ;;
  disposeMipmaps i.

(** [Image.DrawTriangles] *)
Definition DrawTriangles (fuel : nat) (i : nat) (vertices : list Vertex)
    (indices : list Z) (img : nat) (options : option DrawTrianglesOptions)
  : M State unit :=
  copyCheck i ;;
  let* d := isDisposed i in
  if d then ret tt
  else
    let* dst := getImage i in
    if isSubImage dst then
      panic "ebiten: render to a subimage is not implemented (DrawTriangles)"
    else
      resolvePendingPixels fuel img true ;;
      resolvePendingPixels fuel i true ;;
      if negb (Z.of_nat (length indices) `rem` 3 =? 0) then
        panic "ebiten: len(indices) % 3 must be 0"
      else if Z.of_nat (length indices) >? MaxIndicesNum then
        panic "ebiten: len(indices) must be <= MaxIndicesNum"
      else drawTrianglesChecked fuel i vertices indices img options.

(** The state of the package before any image is made. *)
Definition initial : State :=
  {| sh := Shareable.initial; fimages := ∅; mipmaps := ∅; isRunning := 0 |}.

End Ebiten.
End Ebiten.

(** ** What the states that the package builds have in common *)

Module Invariants.
Import Shareable.

Section Textures.
Context `{Extern}.

(** Two textures with the same size, pixels and history: [Dispose] of
    another texture may only have made the texture stale or removed. *)
Definition same_content (i j : Restorable.Image) : Prop :=
  Restorable.width i = Restorable.width j ∧
  Restorable.height i = Restorable.height j ∧
  Restorable.pixels i = Restorable.pixels j ∧
  Restorable.drawTrianglesHistory i = Restorable.drawTrianglesHistory j.

(** The packer law that the plan of [TryAlloc] relies on: an allocation
    that fails leaves the page as it was. *)
Definition failed_alloc_keeps_page : Prop :=
  ∀ p w h, (Alloc p w h).2 = None → (Alloc p w h).1 = p.

(** The message of the panic of [DrawTriangles] on one texture. *)
Definition same_texture_panic : string :=
  "shareable: Image.DrawTriangles: img must be different from the receiver".

(** The state that a draw leaves once the target [i] has a texture of its
    own (state [s2], where the target is [dst2] on the texture [rdst] and
    the source is [src2] on the texture [rsrc]). *)
Definition drawn (s2 : State) (i img : nat) (dst2 src2 : Image)
    (rdst rsrc : nat) (vertices : list float32) (indices : list Z)
    (colorm : option ColorM) (mode filter_ address : Z) : State :=
  let s3 :=
    set_imagesToMakeShared (filter (λ j, j ≠ i))
      (set_images <[i := with_nonUpdatedCount 0 dst2]>
         (set_rimages
            (Restorable.DrawTriangles rdst rsrc vertices indices colorm mode
               filter_ address) s2)) in
  if negb (isShared src2) && shareable s3 src2 then
    set_imagesToMakeShared
      (λ l, if bool_decide (img ∈ l) then l else l ++ [img]) s3
  else s3.

(** The texture of every backend exists. *)
Definition textures_exist (s : State) : Prop :=
  ∀ c ck, backends s !! c = Some ck → is_Some (rimages s !! restorable ck).

(** What a call may do to the parts of the state that it is not about:
    the set of candidates and the sizes stay, backends and textures are
    only added, a backend without a page stays as it is and an atlas stays
    an atlas. *)
Definition extends (s s' : State) : Prop :=
  imagesToMakeShared s' = imagesToMakeShared s ∧
  minSize s' = minSize s ∧ maxSize s' = maxSize s ∧
  (∀ c, c ∈ theBackends s → c ∈ theBackends s') ∧
  (∀ c ck, backends s !! c = Some ck →
     ∃ ck', backends s' !! c = Some ck' ∧
            (page ck = None → ck' = ck) ∧
            (is_Some (page ck) → is_Some (page ck'))) ∧
  (∀ r, is_Some (rimages s !! r) → is_Some (rimages s' !! r)).

(** An image that [makeShared] moves to an atlas: it is not disposed, it
    has a texture of its own, it may be shared, and each side is at
    least 1. *)
Definition promotable (s : State) (img : Image) : Prop :=
  disposed img = false ∧ node img = None ∧
  (∃ b bk, backend_ img = Some b ∧ backends s !! b = Some bk ∧
           page bk = None) ∧
  shareable s img = true ∧ 0 < width img ∧ 0 < height img.

(** An image on which [makeShared] returns: it has no backend yet, or it
    is on an atlas already, or it is promotable. *)
Definition acceptable (s : State) (img : Image) : Prop :=
  (backend_ img = None ∧
   (shareable s img = true → 0 < width img ∧ 0 < height img)) ∨
  (is_Some (backend_ img) ∧ is_Some (node img)) ∨
  promotable s img.

(** A candidate of [imagesToMakeShared]: its count can grow by one, and
    when that takes it to [MaxCountForShare], [makeShared] returns on
    it. *)
Definition candidate_ok (s : State) (img : Image) : Prop :=
  0 ≤ nonUpdatedCount img < 2 ^ 62 ∧
  (MaxCountForShare ≤ nonUpdatedCount img + 1 → acceptable s img).

(** An image that has no node when it has no backend, and whose backend,
    if it has one, is there with its texture, with a region of the size
    of the image: the whole texture when the image has a texture of its
    own, the region of its node otherwise. *)
Definition placed (s : State) (img : Image) : Prop :=
  (backend_ img = None → node img = None) ∧
  ∀ b, backend_ img = Some b →
    ∃ bk ri, backends s !! b = Some bk ∧
      rimages s !! restorable bk = Some ri ∧
      match node img with
      | None => Restorable.width ri = width img ∧
                Restorable.height ri = height img
      | Some n => ∃ x y, Region n = (x, y, width img, height img)
      end.

(** [extends], but for the set of candidates. *)
Definition grows (s s' : State) : Prop :=
  extends s (set_imagesToMakeShared (λ _, imagesToMakeShared s) s').

(** What a call about the image [j] leaves of the other images, of the
    sizes and of the set of candidates. *)
Definition keeps_others (j : nat) (s s' : State) : Prop :=
  (∀ i, i ≠ j → images s' !! i = images s !! i) ∧
  minSize s' = minSize s ∧ maxSize s' = maxSize s ∧
  imagesToMakeShared s' = imagesToMakeShared s.

(** The body of the loop of [makeImagesShared]. *)
Definition visit (fuel : nat) (i : nat) : M State unit :=
  let* img := getImage i in
  let c := GoInt.add (nonUpdatedCount img) 1 in
  setImage i (with_nonUpdatedCount c img) ;;
  (if c >=? MaxCountForShare then makeShared fuel i else ret tt) ;;
  deleteCandidate i.



(** What a call leaves of the record of an image: its size; a disposed
    image stays disposed, and an image that may never be shared stays
    so. *)
Definition same_shape (img img' : Image) : Prop :=
  width img' = width img ∧ height img' = height img ∧
  (disposed img = true → disposed img' = true) ∧
  (neverShared img = true → neverShared img' = true).

(** Every image that is there stays, with what [same_shape] says. *)
Definition keeps_records (s s' : State) : Prop :=
  ∀ k img, images s !! k = Some img →
    ∃ img', images s' !! k = Some img' ∧ same_shape img img'.


(** The record of an image that [makeShared] has put on an atlas. *)
Definition promoted (img : Image) (b : nat) (n : Node) : Image :=
  {| width := width img; height := height img; disposed := false;
     backend_ := Some b; node := Some n; nonUpdatedCount := 0;
     neverShared := false |}.

End Textures.

Section Atlases.
Context `{Extern} `{!PackingLaws}.

(** A backend that is an atlas whose page can be extended less than [F]
    times. *)
Definition atlas (F : nat) (s : State) (b : nat) : Prop :=
  ∃ bk pg, backends s !! b = Some bk ∧ page bk = Some pg ∧ (rank pg < F)%nat.

(** Every backend of [theBackends] is an atlas.  [F] bounds the number of
    times that a page of the state, or a new page, can still be extended,
    and the doublings of the size of a new page; the largest size of a page
    is at most the 4096 that the package sets. *)
Definition atlases_ok (F : nat) (s : State) : Prop :=
  (∀ b, b ∈ theBackends s → atlas F s b) ∧
  (∀ size, (rank (NewPage size (maxSize s)) < F)%nat) ∧
  (62 ≤ F)%nat ∧ maxSize s ≤ 4096.


(** A state at a frame boundary: the invariants hold and every candidate
    is one that the pass over the candidates can handle. *)
Definition ready (F : nat) (s : State) : Prop :=
  textures_exist s ∧ atlases_ok F s ∧ NoDup (imagesToMakeShared s) ∧
  ∀ j, j ∈ imagesToMakeShared s →
       ∃ img, images s !! j = Some img ∧ candidate_ok s img.



End Atlases.

Section Handles.
Context `{Extern}.

(** A handle [i] that has not been copied, on an image that is not
    disposed.  [sub] tells whether [i] is a sub-image and [bnds] are the
    bounds it was made with.  The root of [i] is the image that [i] is a
    sub-image of, and [i] itself when it is not a sub-image; it has not
    been copied either, and [pending] is its slice of pending pixels.  [o]
    is the level-0 image of the mipmap that the two share, which holds no
    other level. *)
Definition genuine (st : Ebiten.State) (i o : nat) (sub : bool)
    (bnds : GoImage.Rectangle) (pending : option (list Z)) : Prop :=
  ∃ fi root fr mm,
    Ebiten.fimages st !! i = Some fi ∧ Ebiten.addr fi = Some i ∧
    Ebiten.isSubImage fi = sub ∧ Ebiten.bounds fi = bnds ∧
    root = default i (Ebiten.original fi) ∧
    Ebiten.fimages st !! root = Some fr ∧ Ebiten.addr fr = Some root ∧
    Ebiten.original fr = None ∧ Ebiten.mipmap_ fr = Ebiten.mipmap_ fi ∧
    Ebiten.pendingPixels fr = pending ∧
    Ebiten.mipmaps st !! Ebiten.mipmap_ fi = Some mm ∧
    Ebiten.orig mm = Some o ∧ Ebiten.imgs mm = [].

(** The records that [NewImage] makes, and the state that it leaves: a
    texture record without backend, a mipmap with that level only and a
    handle on it, each at a new address. *)
Definition newTexture (w h : Z) : Shareable.Image :=
  {| Shareable.width := w; Shareable.height := h;
     Shareable.disposed := false; Shareable.backend_ := None;
     Shareable.node := None; Shareable.nonUpdatedCount := 0;
     Shareable.neverShared := false |}.

Definition newHandle (i m : nat) (filter_ : Z) : Ebiten.Image :=
  {| Ebiten.addr := Some i; Ebiten.mipmap_ := m; Ebiten.bounds := GoImage.ZR;
     Ebiten.original := None; Ebiten.pendingPixels := None;
     Ebiten.filter := filter_ |}.

Definition withNewImage (w h filter_ : Z) (st : Ebiten.State) : Ebiten.State :=
  Ebiten.set_fimages
    <[fresh (dom (Ebiten.fimages st)) :=
        newHandle (fresh (dom (Ebiten.fimages st)))
          (fresh (dom (Ebiten.mipmaps st))) filter_]>
    (Ebiten.set_mipmaps
       <[fresh (dom (Ebiten.mipmaps st)) :=
           {| Ebiten.orig :=
                Some (fresh (dom (Shareable.images (Ebiten.sh st))));
              Ebiten.imgs := [] |}]>
       (Ebiten.set_sh
          (Shareable.set_images
             <[fresh (dom (Shareable.images (Ebiten.sh st))) :=
                 newTexture w h]>)
          st)).

(** What every call leaves of a handle: all but its pending pixels. *)
Definition same_handle (f f' : Ebiten.Image) : Prop :=
  Ebiten.addr f' = Ebiten.addr f ∧ Ebiten.mipmap_ f' = Ebiten.mipmap_ f ∧
  Ebiten.bounds f' = Ebiten.bounds f ∧
  Ebiten.original f' = Ebiten.original f ∧
  Ebiten.filter f' = Ebiten.filter f.

(** The handles that are there stay, up to their pending pixels. *)
Definition handles_kept (st st' : Ebiten.State) : Prop :=
  ∀ j fj, Ebiten.fimages st !! j = Some fj →
    ∃ fj', Ebiten.fimages st' !! j = Some fj' ∧ same_handle fj fj'.

(** The same, when no handle is made either. *)
Definition only_pending (st st' : Ebiten.State) : Prop :=
  handles_kept st st' ∧
  ∀ j, Ebiten.fimages st !! j = None → Ebiten.fimages st' !! j = None.

(** Sub-images are one level deep: the original of a sub-image is a
    handle that is not a sub-image, on the same mipmap. *)
Definition flat (st : Ebiten.State) : Prop :=
  ∀ j fj r, Ebiten.fimages st !! j = Some fj →
    Ebiten.original fj = Some r →
    ∃ fr, Ebiten.fimages st !! r = Some fr ∧ Ebiten.original fr = None ∧
          Ebiten.mipmap_ fr = Ebiten.mipmap_ fj.

(** One call of a function of the package on handles that returns. *)
Inductive hcall (fuel : nat) (st st' : Ebiten.State) : Prop :=
| hcall_NewImage w h f i :
    Ebiten.NewImage w h f st = Ok (i, st') → hcall fuel st st'
| hcall_NewImageFromImage sb copied f i :
    Ebiten.NewImageFromImage fuel sb copied f st = Ok (i, st') →
    hcall fuel st st'
| hcall_SubImage i r res :
    Ebiten.SubImage i r st = Ok (res, st') → hcall fuel st st'
| hcall_Bounds i b :
    Ebiten.Bounds i st = Ok (b, st') → hcall fuel st st'
| hcall_Size i wh :
    Ebiten.Size i st = Ok (wh, st') → hcall fuel st st'
| hcall_At i x y c :
    Ebiten.At fuel i x y st = Ok (c, st') → hcall fuel st st'
| hcall_Set i x y clr :
    Ebiten.Set_ i x y clr st = Ok (tt, st') → hcall fuel st st'
| hcall_ReplacePixels i p :
    Ebiten.ReplacePixels fuel i p st = Ok (tt, st') → hcall fuel st st'
| hcall_DrawTriangles i vertices indices img options :
    Ebiten.DrawTriangles fuel i vertices indices img options st
      = Ok (tt, st') →
    hcall fuel st st'
| hcall_makeVolatile i :
    Ebiten.makeVolatile fuel i st = Ok (tt, st') → hcall fuel st st'
| hcall_Dispose i :
    Ebiten.Dispose fuel i st = Ok (tt, st') → hcall fuel st st'.

End Handles.
End Invariants.

(** ** A small packer and driver, to run the code on *)

Module Example.

(** A page that stacks its regions from top to bottom. *)
Record shelfPage : Type := {
  shelfSize : Z;
  shelfMax : Z;
  shelfNext : Z;
  shelfNodes : list (Z * Z * Z * Z);
}.

Definition shelfAlloc (p : shelfPage) (w h : Z)
  : shelfPage * option (Z * Z * Z * Z) :=
  if (0 <? w) && (w <=? shelfSize p) && (0 <? h)
     && (shelfNext p + h <=? shelfSize p)
  then ({| shelfSize := shelfSize p; shelfMax := shelfMax p;
           shelfNext := shelfNext p + h;
           shelfNodes := (0, shelfNext p, w, h) :: shelfNodes p |},
        Some (0, shelfNext p, w, h))
  else (p, None).

Definition shelfExtend (p : shelfPage) : shelfPage * bool :=
  if (0 <? shelfSize p) && (shelfSize p <? shelfMax p)
  then ({| shelfSize := 2 * shelfSize p; shelfMax := shelfMax p;
           shelfNext := shelfNext p; shelfNodes := shelfNodes p |}, true)
  else (p, false).

Definition shelfFree (p : shelfPage) (n : Z * Z * Z * Z) : shelfPage :=
  let nodes := filter (λ m, m ≠ n) (shelfNodes p) in
  {| shelfSize := shelfSize p; shelfMax := shelfMax p;
     shelfNext := if bool_decide (nodes = []) then 0 else shelfNext p;
     shelfNodes := nodes |}.

#[export] Instance shelf : Extern := {|
  Page := shelfPage;
  Node := Z * Z * Z * Z;
  NewPage := λ size maxSize,
    {| shelfSize := size; shelfMax := maxSize; shelfNext := 0;
       shelfNodes := [] |};
  Alloc := shelfAlloc;
  Extend := shelfExtend;
  Free := shelfFree;
  IsEmpty := λ p, bool_decide (shelfNodes p = []);
  PageSize := shelfSize;
  Region := λ '(x, y, w, h), (x mod 2 ^ 31, y mod 2 ^ 31, w, h);
  float32 := Z;
  f32_add := Z.add;
  f32_of_int := λ z, z;
  ColorM := unit;
  CompositeModeCopy := 2;
  FilterNearest := 1;
  AddressClampToZero := 0;
  HasHighPrecisionFloat := true;
  DriverMaxImageSize := 8192;
  IndicesNum := 65535;
  QuadIndices := [0; 1; 2; 1; 2; 3];
  PutQuadVertices := λ put sx0 sy0 sx1 sy1 geo clr,
    put [0; 0; sx0; sy0; sx0; sy0; sx1; sy1; 1; 1; 1; 1] ++
    put [sx1 - sx0; 0; sx1; sy0; sx0; sy0; sx1; sy1; 1; 1; 1; 1] ++
    put [0; sy1 - sy0; sx0; sy1; sx0; sy0; sx1; sy1; 1; 1; 1; 1] ++
    put [sx1 - sx0; sy1 - sy0; sx1; sy1; sx0; sy0; sx1; sy1; 1; 1; 1; 1];
  putVertex := λ _ _ v, v;
  drawPixels := λ dst src _ _ _ _ _ _, src;
|}.

(** The number of times that a shelf page can still be extended is at most
    the room that is left up to its largest size. *)
Definition shelfRank (p : shelfPage) : nat :=
  if 0 <? shelfSize p then Z.to_nat (shelfMax p - shelfSize p) else O.

(** Two images with textures of their own: image 0 is 2 by 2 and image 1
    is 3 by 3.  Pages start at 4 by 4 and grow up to 16 by 16. *)
Definition small : Shareable.Image :=
  {| Shareable.width := 2; Shareable.height := 2;
     Shareable.disposed := false; Shareable.backend_ := Some 0%nat;
     Shareable.node := None; Shareable.nonUpdatedCount := 0;
     Shareable.neverShared := false |}.

Definition large : Shareable.Image :=
  {| Shareable.width := 3; Shareable.height := 3;
     Shareable.disposed := false; Shareable.backend_ := Some 1%nat;
     Shareable.node := None; Shareable.nonUpdatedCount := 0;
     Shareable.neverShared := false |}.

Definition twoPrivate : Shareable.State :=
  {| Shareable.rimages :=
       <[1%nat := Restorable.blank 3 3 false]>
         (<[0%nat := Restorable.blank 2 2 false]> ∅);
     Shareable.images := <[1%nat := large]> (<[0%nat := small]> ∅);
     Shareable.backends :=
       <[1%nat := {| Shareable.restorable := 1%nat; Shareable.page := None |}]>
         (<[0%nat := {| Shareable.restorable := 0%nat;
                        Shareable.page := None |}]> ∅);
     Shareable.theBackends := []; Shareable.imagesToMakeShared := [];
     Shareable.minSize := 4; Shareable.maxSize := 16;
     Shareable.once := true |}.


(** Image 0 on an atlas, at the top of a page of 4 by 4, and image 1 with
    a texture of its own. *)
Definition onAtlas : Shareable.Image :=
  {| Shareable.width := 2; Shareable.height := 2;
     Shareable.disposed := false; Shareable.backend_ := Some 0%nat;
     Shareable.node := Some (0, 0, 2, 2); Shareable.nonUpdatedCount := 0;
     Shareable.neverShared := false |}.

Definition atlasPage : shelfPage :=
  {| shelfSize := 4; shelfMax := 16; shelfNext := 2;
     shelfNodes := [(0, 0, 2, 2)] |}.

Definition atlasBackend : Shareable.backend :=
  {| Shareable.restorable := 0%nat; Shareable.page := Some atlasPage |}.

Definition oneShared : Shareable.State :=
  {| Shareable.rimages :=
       <[1%nat := Restorable.blank 3 3 false]>
         (<[0%nat := Restorable.blank 4 4 false]> ∅);
     Shareable.images := <[1%nat := large]> (<[0%nat := onAtlas]> ∅);
     Shareable.backends :=
       <[1%nat := {| Shareable.restorable := 1%nat; Shareable.page := None |}]>
         (<[0%nat := atlasBackend]> ∅);
     Shareable.theBackends := [0%nat]; Shareable.imagesToMakeShared := [];
     Shareable.minSize := 4; Shareable.maxSize := 16;
     Shareable.once := true |}.

(** Two handles as [NewImage] makes them, of 2 by 2 and of 3 by 3, while
    the main loop runs. *)
Definition handle (i : nat) : Ebiten.Image :=
  {| Ebiten.addr := Some i; Ebiten.mipmap_ := i; Ebiten.bounds := GoImage.ZR;
     Ebiten.original := None; Ebiten.pendingPixels := None;
     Ebiten.filter := 0 |}.

Definition fresh2x2 : Shareable.Image :=
  {| Shareable.width := 2; Shareable.height := 2;
     Shareable.disposed := false; Shareable.backend_ := None;
     Shareable.node := None; Shareable.nonUpdatedCount := 0;
     Shareable.neverShared := false |}.

Definition fresh3x3 : Shareable.Image :=
  {| Shareable.width := 3; Shareable.height := 3;
     Shareable.disposed := false; Shareable.backend_ := None;
     Shareable.node := None; Shareable.nonUpdatedCount := 0;
     Shareable.neverShared := false |}.

Definition twoHandles : Ebiten.State :=
  {| Ebiten.sh :=
       {| Shareable.rimages := ∅;
          Shareable.images := <[1%nat := fresh3x3]> (<[0%nat := fresh2x2]> ∅);
          Shareable.backends := ∅;
          Shareable.theBackends := []; Shareable.imagesToMakeShared := [];
          Shareable.minSize := 4; Shareable.maxSize := 16;
          Shareable.once := true |};
     Ebiten.fimages := <[1%nat := handle 1]> (<[0%nat := handle 0]> ∅);
     Ebiten.mipmaps :=
       <[1%nat := {| Ebiten.orig := Some 1%nat; Ebiten.imgs := [] |}]>
         (<[0%nat := {| Ebiten.orig := Some 0%nat; Ebiten.imgs := [] |}]> ∅);
     Ebiten.isRunning := 1 |}.

(** The two handles and a sub-image of the first, at address 2. *)
Definition subHandle : Ebiten.Image :=
  {| Ebiten.addr := Some 2%nat; Ebiten.mipmap_ := 0%nat;
     Ebiten.bounds := GoImage.Rect 1 1 2 2; Ebiten.original := Some 0%nat;
     Ebiten.pendingPixels := None; Ebiten.filter := 0 |}.

Definition withSubImage : Ebiten.State :=
  Ebiten.set_fimages <[2%nat := subHandle]> twoHandles.

(** Image 0 of [twoHandles], disposed while it is a candidate that has
    been counted nine times. *)
Definition disposedCandidate : Shareable.State :=
  Shareable.set_imagesToMakeShared (λ _, [0%nat])
    (Shareable.set_images
       <[0%nat := Shareable.with_nonUpdatedCount 9
                    (Shareable.with_disposed true fresh2x2)]>
       (Ebiten.sh twoHandles)).

(** Two images of 2 by 2 on one atlas of 4 by 4, one below the other. *)
Definition upper : Shareable.Image :=
  {| Shareable.width := 2; Shareable.height := 2;
     Shareable.disposed := false; Shareable.backend_ := Some 0%nat;
     Shareable.node := Some (0, 0, 2, 2); Shareable.nonUpdatedCount := 0;
     Shareable.neverShared := false |}.

Definition lower : Shareable.Image :=
  {| Shareable.width := 2; Shareable.height := 2;
     Shareable.disposed := false; Shareable.backend_ := Some 0%nat;
     Shareable.node := Some (0, 2, 2, 2); Shareable.nonUpdatedCount := 0;
     Shareable.neverShared := false |}.

Definition fullPage : shelfPage :=
  {| shelfSize := 4; shelfMax := 16; shelfNext := 4;
     shelfNodes := [(0, 2, 2, 2); (0, 0, 2, 2)] |}.

Definition fullBackend : Shareable.backend :=
  {| Shareable.restorable := 0%nat; Shareable.page := Some fullPage |}.

Definition twoOnAtlas : Shareable.State :=
  {| Shareable.rimages := <[0%nat := Restorable.blank 4 4 false]> ∅;
     Shareable.images := <[1%nat := lower]> (<[0%nat := upper]> ∅);
     Shareable.backends := <[0%nat := fullBackend]> ∅;
     Shareable.theBackends := [0%nat]; Shareable.imagesToMakeShared := [];
     Shareable.minSize := 4; Shareable.maxSize := 16;
     Shareable.once := true |}.

(** [twoPrivate] with image 0 as the only candidate. *)
Definition oneCandidate : Shareable.State :=
  Shareable.set_imagesToMakeShared (λ _, [0%nat]) twoPrivate.

(** The two handles, the second one disposed. *)
Definition secondDisposed : Ebiten.State :=
  Ebiten.set_mipmaps
    <[1%nat := {| Ebiten.orig := None; Ebiten.imgs := [] |}]> twoHandles.

(** Four images to restore: image 3 has priority, image 1 was drawn from
    image 0 and image 2 from image 1. *)
Definition restorePriority (i : nat) : bool := bool_decide (i = 3%nat).
Definition restoreDepends (i : nat) : list nat :=
  match i with
  | 1%nat => [0%nat]
  | 2%nat => [1%nat]
  | _ => []
  end.

End Example.

(** * Proofs *)

(** ** Stepping through monadic code *)

Lemma bind_inv {S A B} (m : M S A) (k : A → M S B) s r :
  bind m k s = Ok r → ∃ a s1, m s = Ok (a, s1) ∧ k a s1 = Ok r.
Proof.
  unfold bind. destruct (m s) as [[a s1]| |]; [|done|done]. eauto.
Qed.

Lemma bind_eq {S A B} (m : M S A) (k : A → M S B) s a s1 :
  m s = Ok (a, s1) → bind m k s = k a s1.
Proof. unfold bind. by intros ->. Qed.

Lemma bind_assoc {S A B C} (m : M S A) (k : A → M S B) (k' : B → M S C) s :
  bind (bind m k) k' s = bind m (λ a, bind (k a) k') s.
Proof. unfold bind. by destruct (m s) as [[a s1]| |]. Qed.

Lemma ret_inv {S A} (a b : A) (s s' : S) :
  ret a s = Ok (b, s') → b = a ∧ s' = s.
Proof. by intros [= -> ->]. Qed.

Lemma lift_result_inv {S A} (r : result A) (s s' : S) a :
  lift_result r s = Ok (a, s') → r = Ok a ∧ s' = s.
Proof. destruct r; simpl; [|done|done]. by intros [= -> ->]. Qed.

Lemma lift_result_eq {S A} (r : result A) (s : S) a :
  r = Ok a → lift_result r s = Ok (a, s).
Proof. by intros ->. Qed.

Lemma get_inv {S} (s s' x : S) : get s = Ok (x, s') → x = s ∧ s' = s.
Proof. by intros [= -> ->]. Qed.

Lemma modify_inv {S} (f : S → S) (s s' : S) u :
  modify f s = Ok (u, s') → s' = f s.
Proof. by intros [= _ ->]. Qed.

Lemma deref_inv {S} (p : option nat) (s s' : S) a :
  Ebiten.deref p s = Ok (a, s') → p = Some a ∧ s' = s.
Proof. destruct p; simpl; [|done]. by intros [= -> ->]. Qed.

Section Inversions.
Context `{Extern}.

Lemma Shareable_getImage_inv i s v s' :
  Shareable.getImage i s = Ok (v, s') →
  Shareable.images s !! i = Some v ∧ s' = s.
Proof.
  unfold Shareable.getImage. destruct (Shareable.images s !! i); [|done].
  by intros [= -> ->].
Qed.

Lemma Shareable_getBackend_inv b s v s' :
  Shareable.getBackend b s = Ok (v, s') →
  Shareable.backends s !! b = Some v ∧ s' = s.
Proof.
  unfold Shareable.getBackend. destruct (Shareable.backends s !! b); [|done].
  by intros [= -> ->].
Qed.

Lemma Ebiten_getImage_inv i s v s' :
  Ebiten.getImage i s = Ok (v, s') → Ebiten.fimages s !! i = Some v ∧ s' = s.
Proof.
  unfold Ebiten.getImage. destruct (Ebiten.fimages s !! i); [|done].
  by intros [= -> ->].
Qed.

Lemma Ebiten_getMipmap_inv m s v s' :
  Ebiten.getMipmap m s = Ok (v, s') → Ebiten.mipmaps s !! m = Some v ∧ s' = s.
Proof.
  unfold Ebiten.getMipmap. destruct (Ebiten.mipmaps s !! m); [|done].
  by intros [= -> ->].
Qed.

Lemma onShareable_inv {A} (m : M Shareable.State A) s a s' :
  Ebiten.onShareable m s = Ok (a, s') →
  ∃ t, m (Ebiten.sh s) = Ok (a, t) ∧ s' = Ebiten.set_sh (λ _, t) s.
Proof.
  unfold Ebiten.onShareable.
  destruct (m (Ebiten.sh s)) as [[x t]| |]; [|done|done].
  intros [= -> <-]. eauto.
Qed.

Lemma onShareable_eq {A} (m : M Shareable.State A) s a t :
  m (Ebiten.sh s) = Ok (a, t) →
  Ebiten.onShareable m s = Ok (a, Ebiten.set_sh (λ _, t) s).
Proof. unfold Ebiten.onShareable. by intros ->. Qed.

End Inversions.

(** One step of inversion of a run that returned. *)
Ltac minv1 :=
  match goal with
  | H : bind _ _ _ = Ok _ |- _ =>
      let H1 := fresh "Hrun" in apply bind_inv in H as (? & ? & H1 & H)
  | H : ret _ _ = Ok _ |- _ => apply ret_inv in H as [? ?]
  | H : get _ = Ok _ |- _ => apply get_inv in H as [? ?]
  | H : modify _ _ = Ok _ |- _ => apply modify_inv in H
  | H : lift_result _ _ = Ok _ |- _ => apply lift_result_inv in H as [H ?]
  | H : Ebiten.deref _ _ = Ok _ |- _ => apply deref_inv in H as [? ?]
  | H : Shareable.getImage _ _ = Ok _ |- _ =>
      apply Shareable_getImage_inv in H as [H ?]
  | H : Shareable.getBackend _ _ = Ok _ |- _ =>
      apply Shareable_getBackend_inv in H as [H ?]
  | H : Ebiten.getImage _ _ = Ok _ |- _ =>
      apply Ebiten_getImage_inv in H as [H ?]
  | H : Ebiten.getMipmap _ _ = Ok _ |- _ =>
      apply Ebiten_getMipmap_inv in H as [H ?]
  | H : panic _ _ = Ok _ |- _ => discriminate H
  | H : Panic _ = Ok _ |- _ => discriminate H
  | H : OutOfFuel = Ok _ |- _ => discriminate H
  | H : (let '(_, _) := ?p in _) _ = Ok _ |- _ => destruct p
  | H : (let '(_, _) := ?p in _) = Ok _ |- _ => destruct p
  end; simplify_eq.

Ltac minv := repeat minv1.

(** The same, splitting on the conditions the run went through. *)
Ltac minv_case :=
  match goal with
  | H : (if ?b then _ else _) _ = Ok _ |- _ => destruct b eqn:?
  | H : (match ?o with Some _ => _ | None => _ end) _ = Ok _ |- _ =>
      destruct o eqn:?
  | H : (if ?b then _ else _) = Ok _ |- _ => destruct b eqn:?
  | H : (match ?o with Some _ => _ | None => _ end) = Ok _ |- _ =>
      destruct o eqn:?
  end; simplify_eq.

Ltac minvs := repeat (minv1 || minv_case).

(** ** Rectangles *)

Module GeometryProofs.
Import GoImage.

Lemma Intersect_Empty r s : Empty (Intersect r s) = true → Intersect r s = ZR.
Proof.
  unfold Intersect. destruct (Empty {| Min := _; Max := _ |}) eqn:E; [done|].
  intros E'. congruence.
Qed.

Lemma In_Intersect p r s : In p (Intersect r s) = In p r && In p s.
Proof.
  unfold Intersect.
  destruct (Empty {| Min := _; Max := _ |}) eqn:E; revert E;
    unfold Empty, In; simpl;
    repeat match goal with |- context [if ?b then _ else _] =>
             destruct b eqn:? end; intros; lia.
Qed.

End GeometryProofs.

(** ** The public image: reading *)

Module EbitenReads.
Import GoImage Ebiten GeometryProofs.
Section Ebiten.
Context `{Extern}.

Lemma set_sh_same (s : State) : set_sh (λ _, sh s) s = s.
Proof. by destruct s. Qed.

Lemma isDisposed_inv i s d s' :
  isDisposed i s = Ok (d, s') →
  ∃ img m, fimages s !! i = Some img ∧ mipmaps s !! mipmap_ img = Some m ∧
           d = bool_decide (orig m = None) ∧ s' = s.
Proof. unfold isDisposed. intros Hd. minv. eauto 10. Qed.

Lemma isDisposed_eq i s img m :
  fimages s !! i = Some img → mipmaps s !! mipmap_ img = Some m →
  isDisposed i s = Ok (bool_decide (orig m = None), s).
Proof.
  intros Hi Hm. unfold isDisposed, bind, getImage, getMipmap.
  by rewrite Hi, Hm.
Qed.

Lemma mipmapOriginal_inv i s o s' :
  mipmapOriginal i s = Ok (o, s') →
  ∃ img m, fimages s !! i = Some img ∧ mipmaps s !! mipmap_ img = Some m ∧
           o = orig m ∧ s' = s.
Proof. unfold mipmapOriginal. intros Hd. minv. eauto 10. Qed.

Lemma mipmapOriginal_eq i s img m :
  fimages s !! i = Some img → mipmaps s !! mipmap_ img = Some m →
  mipmapOriginal i s = Ok (orig m, s).
Proof.
  intros Hi Hm. unfold mipmapOriginal, bind, getImage, getMipmap.
  by rewrite Hi, Hm.
Qed.

Lemma Shareable_Size_inv o t wh t' :
  Shareable.Size o t = Ok (wh, t') →
  ∃ oi, Shareable.images t !! o = Some oi ∧
        wh = (Shareable.width oi, Shareable.height oi) ∧ t' = t.
Proof. unfold Shareable.Size. intros Hs. minv. eauto. Qed.

(** [Bounds] reads only. *)
Lemma Bounds_reads i s b s' : Bounds i s = Ok (b, s') → s' = s.
Proof.
  unfold Bounds. intros Hb. minv.
  apply isDisposed_inv in Hrun as (img & m & Hi & Hmm & -> & ->).
  case_bool_decide; [done|]. minv. minv_case; minv; [|done].
  match goal with H : mipmapOriginal _ _ = _ |- _ =>
    apply mipmapOriginal_inv in H as (? & ? & ? & ? & ? & ?) end. simplify_eq.
  match goal with H : onShareable _ _ = _ |- _ =>
    apply onShareable_inv in H as (t & Hs & ?) end.
  apply Shareable_Size_inv in Hs as (oi & ? & ? & ?). simplify_eq.
  apply set_sh_same.
Qed.

(** C8.  [SubImage] of an image that is not disposed (its [Bounds] are
    [pb]) makes a new handle on the mipmap of the image; the [Bounds] of
    the handle are the intersection of the rectangle with [pb], which holds
    the points that lie in both, and is the empty rectangle [ZR] when no
    point does. *)
Theorem SubImage_Bounds (s : State) (p : nat) (pimg : Image)
    (r pb : Rectangle) :
  fimages s !! p = Some pimg →
  addr pimg = Some p →
  Bounds p s = Ok (pb, s) →
  ∃ q qimg s',
    SubImage p r s = Ok (Some q, s') ∧
    fimages s !! q = None ∧
    fimages s' !! q = Some qimg ∧
    mipmap_ qimg = mipmap_ pimg ∧
    Bounds q s' = Ok (Intersect r pb, s') ∧
    (∀ pt, In pt (Intersect r pb) = In pt r && In pt pb) ∧
    (Empty (Intersect r pb) = true → Intersect r pb = ZR).
Proof.
  intros Hp Haddr Hb.
  set (q := fresh (dom (fimages s))).
  assert (Hq : fimages s !! q = None) by apply not_elem_of_dom, is_fresh.
  assert (Hd : ∃ m, mipmaps s !! mipmap_ pimg = Some m ∧ orig m ≠ None).
  { pose proof Hb as Hb'. unfold Bounds in Hb'. minv.
    apply isDisposed_inv in Hrun as (img & m & Hi & Hmm & -> & ->).
    case_bool_decide; [done|]. simplify_eq. eauto. }
  destruct Hd as (m & Hm & Ho).
  pose proof (isDisposed_eq _ _ _ _ Hp Hm) as Hdp.
  rewrite bool_decide_false in Hdp by done.
  eexists q, _, _. split_and!.
  - unfold SubImage. unfold copyCheck at 1.
    rewrite (bind_eq _ _ _ tt s).
    2:{ unfold getImage, bind. rewrite Hp. simpl.
        by rewrite bool_decide_true. }
    rewrite (bind_eq _ _ _ _ _ Hdp). simpl.
    rewrite (bind_eq _ _ _ pimg s) by (unfold getImage; by rewrite Hp).
    rewrite (bind_eq _ _ _ _ _ Hb).
    unfold bind, get, setImage, modify, ret. simpl. reflexivity.
  - done.
  - simpl. apply lookup_insert_eq.
  - done.
  - unfold Bounds.
    erewrite bind_eq.
    2:{ eapply isDisposed_eq; simpl; [apply lookup_insert_eq|exact Hm]. }
    rewrite bool_decide_false by done.
    unfold bind, getImage. simpl. rewrite lookup_insert_eq.
    unfold isSubImage. simpl.
    rewrite bool_decide_true.
    2:{ case_bool_decide; [done|by eexists]. }
    unfold ret. simpl.
    destruct (Empty (Intersect r pb)) eqn:E; [|done].
    by rewrite (Intersect_Empty _ _ E).
  - intros pt. apply In_Intersect.
  - apply Intersect_Empty.
Qed.

End Ebiten.
End EbitenReads.

(** ** The public image: construction and drawing *)

Module EbitenDraws.
Import GoImage Ebiten EbitenReads.
Section Ebiten.
Context `{Extern}.

(** C5 (the code at a size that the documentation of [NewImage] rules
    out).  [NewImage] checks nothing: for every width and height, also
    those below 1 or above [MaxImageSize], it returns a new handle on an
    image of that size that is not allocated yet. *)
Theorem NewImage_returns_for_any_size (width height filter_ : Z) (s : State) :
  ∃ i o m s',
    NewImage width height filter_ s = Ok (i, s') ∧
    fimages s' !! i =
      Some {| addr := Some i; mipmap_ := m; bounds := ZR; original := None;
              pendingPixels := None; filter := filter_ |} ∧
    mipmaps s' !! m = Some {| orig := Some o; imgs := [] |} ∧
    Shareable.images (sh s') !! o =
      Some {| Shareable.width := width; Shareable.height := height;
              Shareable.disposed := false; Shareable.backend_ := None;
              Shareable.node := None; Shareable.nonUpdatedCount := 0;
              Shareable.neverShared := false |}.
Proof.
  eexists _, _, _, _. split_and!.
  - unfold NewImage, bind, onShareable, Shareable.NewImage, newMipmap, get,
      setImage, modify, ret. simpl. reflexivity.
  - simpl. apply lookup_insert_eq.
  - simpl. apply lookup_insert_eq.
  - simpl. apply lookup_insert_eq.
Qed.


End Ebiten.
End EbitenDraws.

(** ** Package restorable: what the operations keep *)

Module RestorableFacts.
Import Restorable Invariants.
Section Restorable.
Context `{Extern}.

Lemma same_content_refl i : same_content i i.
Proof. done. Qed.

Lemma NewImage_fresh w h st : (NewImage w h st).1 = fresh (dom st).
Proof. done. Qed.

Lemma NewImage_lookup w h st :
  (NewImage w h st).2 !! fresh (dom st) = Some (blank w h false).
Proof. apply lookup_insert_eq. Qed.

Lemma NewImage_lookup_old w h st r :
  is_Some (st !! r) → (NewImage w h st).2 !! r = st !! r.
Proof.
  intros Hr. apply lookup_insert_ne. intros <-.
  apply elem_of_dom in Hr. by apply is_fresh in Hr.
Qed.

Lemma fresh_ne (st : gmap nat Image) r : is_Some (st !! r) → r ≠ fresh (dom st).
Proof. intros Hr ->. apply elem_of_dom in Hr. by apply is_fresh in Hr. Qed.

Lemma DrawTriangles_lookup_ne dst src vs is_ cm mode f a st r :
  r ≠ dst → DrawTriangles dst src vs is_ cm mode f a st !! r = st !! r.
Proof.
  intros Hne. unfold DrawTriangles. destruct (st !! dst); [|done].
  by apply lookup_insert_ne.
Qed.

Lemma ReplacePixels_lookup_ne r p x y w h st r' :
  r' ≠ r → ReplacePixels r p x y w h st !! r' = st !! r'.
Proof.
  intros Hne. unfold ReplacePixels. destruct (st !! r); [|done].
  by apply lookup_insert_ne.
Qed.

Lemma ReplacePixels_Size r p x y w h st r' :
  Size (ReplacePixels r p x y w h st) r' = Size st r'.
Proof.
  unfold Size, ReplacePixels. destruct (st !! r) as [i|] eqn:Hi; [|done].
  destruct (decide (r' = r)) as [->|Hne].
  - by rewrite lookup_insert_eq, Hi.
  - by rewrite lookup_insert_ne.
Qed.

Lemma ReplacePixels_dom r p x y w h st :
  dom (ReplacePixels r p x y w h st) = dom st.
Proof.
  unfold ReplacePixels. destruct (st !! r) as [i|] eqn:Hi; [|done].
  rewrite dom_insert_L. apply elem_of_dom_2 in Hi. set_solver.
Qed.

(** The pixel that a write of [p] over a region leaves. *)
Lemma ReplacePixels_At r p x y w h st x' y' :
  is_Some (st !! r) → in_region x y w h x' y' = true →
  At (ReplacePixels r (Some p) x y w h st) r x' y' =
    quad p (4 * ((y' - y) * w + (x' - x))).
Proof.
  intros [i Hi] Hin. unfold At, ReplacePixels. rewrite Hi, lookup_insert_eq.
  simpl. by rewrite Hin.
Qed.

Lemma Dispose_lookup r st r' :
  match st !! r' with
  | Some i => ∃ j, Dispose r st !! r' = Some j ∧ same_content j i
  | None => Dispose r st !! r' = None
  end.
Proof.
  unfold Dispose.
  set (mark := λ i, if bool_decide (r ∈ sources i) then set_stale i else i).
  assert (Hm : ∀ i, same_content (mark i) i).
  { intros i. unfold mark. by case_bool_decide. }
  destruct (decide (r' = r)) as [->|Hne].
  - rewrite lookup_fmap. destruct (st !! r) as [i|] eqn:Hi; simpl.
    + rewrite lookup_insert_eq. eexists. split; [done|]. apply (Hm i).
    + by rewrite lookup_fmap, Hi.
  - destruct (st !! r') as [i|] eqn:Hi.
    + exists (mark i). split; [|apply Hm].
      rewrite lookup_fmap. destruct (st !! r) eqn:Hr; simpl.
      * by rewrite lookup_insert_ne, lookup_fmap, Hi by done.
      * by rewrite lookup_fmap, Hi.
    + rewrite lookup_fmap. destruct (st !! r) eqn:Hr; simpl.
      * by rewrite lookup_insert_ne, lookup_fmap, Hi by done.
      * by rewrite lookup_fmap, Hi.
Qed.

Lemma Dispose_Size r st r' : Size (Dispose r st) r' = Size st r'.
Proof.
  unfold Size. pose proof (Dispose_lookup r st r') as Hl.
  destruct (st !! r') as [i|].
  - destruct Hl as (j & -> & Hw & Hh & _). by rewrite Hw, Hh.
  - by rewrite Hl.
Qed.

Lemma Dispose_At r st r' x y : At (Dispose r st) r' x y = At st r' x y.
Proof.
  unfold At. pose proof (Dispose_lookup r st r') as Hl.
  destruct (st !! r') as [i|].
  - destruct Hl as (j & -> & _ & _ & Hp & _). by rewrite Hp.
  - by rewrite Hl.
Qed.

Lemma Dispose_dom r st : dom (Dispose r st) = dom st.
Proof.
  apply set_eq. intros r'. rewrite !elem_of_dom.
  pose proof (Dispose_lookup r st r') as Hl.
  destruct (st !! r') as [i|].
  - destruct Hl as (j & -> & _). split; intros _; by eexists.
  - rewrite Hl. done.
Qed.

End Restorable.
End RestorableFacts.

(** ** Package shareable: reading, and writing pixels *)

Module ShareableBasics.
Import Shareable.
Section Shareable.
Context `{Extern}.

Lemma getImage_eq i s v :
  images s !! i = Some v → getImage i s = Ok (v, s).
Proof. unfold getImage. by intros ->. Qed.

Lemma getBackend_eq b s v :
  backends s !! b = Some v → getBackend b s = Ok (v, s).
Proof. unfold getBackend. by intros ->. Qed.

Lemma backend_eta (bk : backend) :
  {| restorable := restorable bk; page := page bk |} = bk.
Proof. by destruct bk. Qed.

Lemma state_eta (s : State) :
  {| rimages := rimages s; images := images s; backends := backends s;
     theBackends := theBackends s; imagesToMakeShared := imagesToMakeShared s;
     minSize := minSize s; maxSize := maxSize s; once := once s |} = s.
Proof. by destruct s. Qed.

Lemma region_shared i s img b bk n :
  images s !! i = Some img → backend_ img = Some b →
  backends s !! b = Some bk → node img = Some n →
  region i s = Ok (Region n, s).
Proof.
  intros Hi Hb Hbk Hn. unfold region.
  rewrite (bind_eq _ _ _ _ _ (getImage_eq _ _ _ Hi)), Hb.
  rewrite (bind_eq _ _ _ _ _ (getBackend_eq _ _ _ Hbk)), Hn. done.
Qed.

Lemma region_private i s img b bk :
  images s !! i = Some img → backend_ img = Some b →
  backends s !! b = Some bk → node img = None →
  region i s =
    Ok ((0, 0, (Restorable.Size (rimages s) (restorable bk)).1,
               (Restorable.Size (rimages s) (restorable bk)).2), s).
Proof.
  intros Hi Hb Hbk Hn. unfold region.
  rewrite (bind_eq _ _ _ _ _ (getImage_eq _ _ _ Hi)), Hb.
  rewrite (bind_eq _ _ _ _ _ (getBackend_eq _ _ _ Hbk)), Hn.
  unfold bind, get, ret. by destruct (Restorable.Size _ _).
Qed.

(** [replacePixels] on an image that is allocated writes the region of
    the image in the texture of its backend and nothing else. *)
Lemma replacePixels_allocated fuel i s img b bk p x y w h :
  images s !! i = Some img → disposed img = false →
  backend_ img = Some b → backends s !! b = Some bk →
  region i s = Ok ((x, y, w, h), s) →
  Z.of_nat (length p) = GoInt.mul (GoInt.mul 4 w) h →
  replacePixels fuel i (Some p) s =
    Ok (tt, set_rimages
              (Restorable.ReplacePixels (restorable bk) (Some p) x y w h) s).
Proof.
  intros Hi Hd Hb Hbk Hr Hlen. unfold replacePixels.
  rewrite (bind_eq _ _ _ _ _ (getImage_eq _ _ _ Hi)), Hd, Hb.
  rewrite (bind_eq _ _ _ _ _ Hr). simpl.
  rewrite bool_decide_true by done.
  rewrite (bind_eq _ _ _ tt s) by done.
  rewrite (bind_eq _ _ _ _ _ (getImage_eq _ _ _ Hi)), Hb.
  rewrite (bind_eq _ _ _ _ _ (getBackend_eq _ _ _ Hbk)). done.
Qed.

End Shareable.
End ShareableBasics.

(** ** Package shareable: leaving a backend *)

Module ShareableDispose.
Import Shareable ShareableBasics RestorableFacts Invariants.
Section Shareable.
Context `{Extern}.

Lemma index_of_elem b l : b ∈ l → ∃ idx, index_of b l = Some idx.
Proof.
  induction l as [|x l IH]; [by intros ?%elem_of_nil|].
  intros Hb. simpl. case_bool_decide; [eauto|].
  apply elem_of_cons in Hb as [->|Hb]; [done|].
  destruct (IH Hb) as [idx ->]. simpl. eauto.
Qed.

Lemma elem_of_without (l : list nat) idx c :
  c ∈ take idx l ++ drop (S idx) l → c ∈ l.
Proof.
  rewrite elem_of_app. intros [Hc|Hc].
  - by apply (subseteq_take idx l).
  - by apply (subseteq_drop (S idx) l).
Qed.

(** What [dispose] leaves of an image that is on an atlas. *)
Lemma dispose_shared i mark s img b bk pg n :
  images s !! i = Some img → disposed img = false →
  backend_ img = Some b → node img = Some n →
  backends s !! b = Some bk → page bk = Some pg →
  (IsEmpty (Free pg n) = true → b ∈ theBackends s) →
  ∃ s', dispose i mark s = Ok (tt, s') ∧
    images s' = <[i := with_backend None None
                          (if mark then with_disposed true img else img)]>
                  (images s) ∧
    backends s' = <[b := {| restorable := restorable bk;
                           page := Some (Free pg n) |}]> (backends s) ∧
    imagesToMakeShared s' = imagesToMakeShared s ∧
    minSize s' = minSize s ∧ maxSize s' = maxSize s ∧
    (∀ c, c ∈ theBackends s' → c ∈ theBackends s) ∧
    ((IsEmpty (Free pg n) = false ∧ theBackends s' = theBackends s ∧
      ∃ x y w h, Region n = (x, y, w, h) ∧
        rimages s' = Restorable.ClearPixels (restorable bk) x y w h (rimages s))
     ∨
     (IsEmpty (Free pg n) = true ∧
      rimages s' = Restorable.Dispose (restorable bk) (rimages s))).
Proof.
  intros Hi Hd Hb Hn Hbk Hpg Hin. unfold dispose.
  rewrite (bind_eq _ _ _ _ _ (getImage_eq _ _ _ Hi)), Hd, Hb.
  rewrite bind_assoc.
  rewrite (bind_eq _ _ _ _ _ (getBackend_eq _ _ _ Hbk)), Hn, Hpg.
  rewrite bind_assoc.
  unfold setBackend at 1. unfold bind at 1, modify at 1.
  set (s1 := set_backends _ s).
  assert (Hi1 : images s1 !! i = Some img) by done.
  assert (Hbk1 : backends s1 !! b =
                 Some {| restorable := restorable bk; page := Some (Free pg n) |})
    by apply lookup_insert_eq.
  destruct (IsEmpty (Free pg n)) eqn:He; simpl.
  - destruct (index_of_elem b (theBackends s) (Hin eq_refl)) as [idx Hidx].
    unfold onRestorable, bind, modify, get. simpl. rewrite Hidx. simpl.
    unfold getImage. simpl. rewrite Hi. simpl.
    eexists. split; [reflexivity|]. simpl. split_and!; try done.
    + apply elem_of_without.
    + right. done.
  - rewrite bind_assoc.
    rewrite (bind_eq _ _ _ _ _ (region_shared _ _ _ _ _ _ Hi1 Hb Hbk1 Hn)).
    destruct (Region n) as [[[x y] w] h] eqn:Hr.
    unfold onRestorable, bind, modify. simpl.
    unfold getImage. simpl. rewrite Hi. simpl.
    eexists. split; [reflexivity|]. simpl. split_and!; try done.
    left. split_and!; try done. by exists x, y, w, h.
Qed.

(** What [dispose] leaves of an image with a texture of its own. *)
Lemma dispose_private i mark s img b bk :
  images s !! i = Some img → disposed img = false →
  backend_ img = Some b → node img = None →
  backends s !! b = Some bk →
  dispose i mark s =
    Ok (tt, set_images
              <[i := with_backend None None
                       (if mark then with_disposed true img else img)]>
              (set_rimages (Restorable.Dispose (restorable bk)) s)).
Proof.
  intros Hi Hd Hb Hn Hbk. unfold dispose.
  rewrite (bind_eq _ _ _ _ _ (getImage_eq _ _ _ Hi)), Hd, Hb.
  rewrite bind_assoc.
  rewrite (bind_eq _ _ _ _ _ (getBackend_eq _ _ _ Hbk)), Hn.
  unfold onRestorable, modify, bind, getImage. simpl. by rewrite Hi.
Qed.

(** What [dispose] leaves of an image without a backend. *)
Lemma dispose_unallocated i mark s img :
  images s !! i = Some img → backend_ img = None →
  dispose i mark s =
    Ok (tt, set_images
              <[i := with_backend None None
                       (if mark then with_disposed true img else img)]> s).
Proof.
  intros Hi Hb. unfold dispose.
  rewrite (bind_eq _ _ _ _ _ (getImage_eq _ _ _ Hi)), Hb.
  destruct (disposed img); unfold bind, ret, getImage; by rewrite Hi.
Qed.

(** The image that [ensureNotShared] makes of an image on an atlas: it
    leaves the atlas for a new backend that holds a new texture of the size
    of its region, filled by one draw of the region. *)
Lemma ensureNotShared_shared fuel i s img b bk pg n x y w h :
  images s !! i = Some img → disposed img = false →
  backend_ img = Some b → node img = Some n →
  backends s !! b = Some bk → page bk = Some pg →
  Region n = (x, y, w, h) →
  is_Some (rimages s !! restorable bk) →
  (IsEmpty (Free pg n) = true → b ∈ theBackends s) →
  let newImg := fresh (dom (rimages s)) in
  let b' := fresh (dom (backends s)) in
  ∃ s' ri,
    ensureNotShared fuel i s = Ok (tt, s') ∧
    images s' = <[i := with_backend (Some b') None img]> (images s) ∧
    backends s' =
      <[b' := {| restorable := newImg; page := None |}]>
        (<[b := {| restorable := restorable bk; page := Some (Free pg n) |}]>
           (backends s)) ∧
    backends s !! b' = None ∧
    rimages s !! newImg = None ∧
    rimages s' !! newImg = Some ri ∧
    Restorable.width ri = w ∧ Restorable.height ri = h ∧
    (∃ vs, Restorable.drawTrianglesHistory ri =
       [Restorable.drawTrianglesHistoryItem (restorable bk) vs QuadIndices
          None CompositeModeCopy FilterNearest AddressClampToZero]) ∧
    (∀ r, Restorable.Size (rimages s') r =
          if bool_decide (r = newImg) then (w, h)
          else Restorable.Size (rimages s) r) ∧
    dom (rimages s') = {[newImg]} ∪ dom (rimages s) ∧
    imagesToMakeShared s' = imagesToMakeShared s ∧
    minSize s' = minSize s ∧ maxSize s' = maxSize s ∧
    (∀ c, c ∈ theBackends s' → c ∈ theBackends s).
Proof.
  intros Hi Hd Hb Hn Hbk Hpg Hr Hrb Hin newImg b'.
  assert (Hfresh : rimages s !! newImg = None)
    by apply not_elem_of_dom, is_fresh.
  assert (Hb' : backends s !! b' = None) by apply not_elem_of_dom, is_fresh.
  assert (Hne : restorable bk ≠ newImg) by (intros Heq; rewrite Heq in Hrb;
    rewrite Hfresh in Hrb; by destruct Hrb).
  unfold ensureNotShared.
  rewrite (bind_eq _ _ _ _ _ (getImage_eq _ _ _ Hi)), Hb.
  unfold isShared. rewrite bool_decide_true by (rewrite Hn; by eexists). simpl.
  rewrite (bind_eq _ _ _ _ _ (region_shared _ _ _ _ _ _ Hi Hb Hbk Hn)), Hr.
  unfold newRestorable at 1. unfold bind at 1.
  simpl. fold newImg.
  set (s1 := set_rimages _ s).
  rewrite (bind_eq _ _ _ bk s1) by (by apply getBackend_eq).
  unfold bind at 1, get at 1.
  unfold onRestorable at 1. unfold bind at 1, modify at 1.
  set (vs := PutQuadVertices _ _ _ _ _ _ _).
  set (s2 := set_rimages _ s1).
  destruct (dispose_shared i false s2 img b bk pg n)
    as (s3 & Hrun & Himg3 & Hbk3 & Hset3 & Hmin3 & Hmax3 & Hthe3 & Hrim3);
    try done.
  rewrite (bind_eq _ _ _ _ _ Hrun).
  unfold newBackend, bind, getImage, setImage, modify. simpl.
  rewrite Himg3, lookup_insert_eq. simpl.
  assert (Hdom3 : dom (backends s3) = dom (backends s)).
  { rewrite Hbk3. simpl. rewrite dom_insert_L.
    apply elem_of_dom_2 in Hbk. set_solver. }
  rewrite Hdom3. fold b'.
  assert (Hnew2 : rimages s2 !! newImg =
    Some {| Restorable.width := w; Restorable.height := h;
            Restorable.pixels :=
              drawPixels (λ _ _, transparent)
                (Restorable.At (rimages s1) (restorable bk)) vs QuadIndices
                None CompositeModeCopy FilterNearest AddressClampToZero;
            Restorable.drawTrianglesHistory :=
              [Restorable.drawTrianglesHistoryItem (restorable bk) vs
                 QuadIndices None CompositeModeCopy FilterNearest
                 AddressClampToZero];
            Restorable.stale := false ||
              match rimages s1 !! restorable bk with
              | Some j => Restorable.stale j || Restorable.volatile j
                          || Restorable.screen j
              | None => false
              end;
            Restorable.volatile := false; Restorable.screen := false;
            Restorable.priority := false; Restorable.removed := false |}).
  { simpl. unfold Restorable.DrawTriangles. rewrite lookup_insert_eq.
    simpl. by rewrite lookup_insert_eq. }
  assert (Hdom2 : dom (rimages s2) = {[newImg]} ∪ dom (rimages s)).
  { simpl. unfold Restorable.DrawTriangles. rewrite lookup_insert_eq.
    rewrite !dom_insert_L. set_solver. }
  assert (Hsize2 : ∀ r, Restorable.Size (rimages s2) r =
            if bool_decide (r = newImg) then (w, h)
            else Restorable.Size (rimages s) r).
  { intros r. unfold Restorable.Size. case_bool_decide as Hr'.
    - subst r. by rewrite Hnew2.
    - simpl. rewrite DrawTriangles_lookup_ne by done.
      by rewrite lookup_insert_ne. }
  match type of Hnew2 with _ = Some ?r => set (r2 := r) in * end.
  assert (Hnew3 : ∃ ri, rimages s3 !! newImg = Some ri ∧
            same_content ri r2 ∧ True).
  { destruct Hrim3 as [(_ & _ & x' & y' & w' & h' & _ & ->)|[_ ->]].
    - eexists. split; [|split; [apply same_content_refl|done]].
      unfold Restorable.ClearPixels.
      rewrite ReplacePixels_lookup_ne by done. exact Hnew2.
    - pose proof (Dispose_lookup (restorable bk) (rimages s2) newImg) as Hl.
      rewrite Hnew2 in Hl. destruct Hl as (j & Hj & Hsame). eauto. }
  destruct Hnew3 as (ri & Hri & (Hw & Hh & _ & Hhist) & _).
  exists (set_images <[i := with_backend (Some b') None
                             (with_backend None None img)]>
            (set_backends <[b' := {| restorable := newImg; page := None |}]> s3)),
    ri.
  split_and!; try done.
  - simpl. rewrite Himg3. simpl. by rewrite insert_insert_eq.
  - simpl. by rewrite Hbk3.
  - rewrite Hhist. simpl. eauto.
  - intros r. destruct Hrim3 as [(_ & _ & x' & y' & w' & h' & _ & Heq)|[_ Heq]];
      simpl; rewrite Heq.
    + unfold Restorable.ClearPixels. by rewrite ReplacePixels_Size.
    + by rewrite Dispose_Size.
  - destruct Hrim3 as [(_ & _ & x' & y' & w' & h' & _ & Heq)|[_ Heq]];
      simpl; rewrite Heq.
    + unfold Restorable.ClearPixels. by rewrite ReplacePixels_dom.
    + by rewrite Dispose_dom.
Qed.

End Shareable.
End ShareableDispose.

(** ** Package shareable: [TryAlloc] *)

Module ShareableTryAlloc.
Import Shareable ShareableBasics RestorableFacts Invariants.
Section Shareable.
Context `{Extern}.

Lemma extendTimes_S k p : extendTimes (S k) p = extendTimes k (Extend p).1.
Proof. unfold extendTimes. by rewrite Nat.iter_succ_r. Qed.

(** The plan finds the least number of extensions that makes room. *)
Lemma plan_extendBy (Hsame : failed_alloc_keeps_page) fuel : ∀ p w h k0 k,
  (1 ≤ k ≤ fuel)%nat →
  (∀ j, (j < k)%nat → (Extend (extendTimes j p)).2 = true) →
  (∀ j, (1 ≤ j < k)%nat → (Alloc (extendTimes j p) w h).2 = None) →
  (Alloc (extendTimes k p) w h).2 ≠ None →
  plan fuel p w h k0 = extendBy (k0 + k).
Proof.
  induction fuel as [|fuel IH]; intros p w h k0 k Hk Hext Hfail Hok; [lia|].
  simpl. destruct (Extend p) as [p1 ok] eqn:He.
  assert (ok = true) as ->.
  { specialize (Hext 0%nat). simpl in Hext. rewrite He in Hext. apply Hext. lia. }
  simpl. destruct (Alloc p1 w h) as [p2 n] eqn:Ha.
  destruct (decide (k = 1%nat)) as [->|Hk1].
  - assert (extendTimes 1 p = p1) as Hp1 by (simpl; by rewrite He).
    rewrite Hp1, Ha in Hok. simpl in Hok.
    destruct n; [|done]. f_equal. lia.
  - assert (Hn : n = None).
    { specialize (Hfail 1%nat). simpl in Hfail. rewrite He in Hfail. simpl in Hfail.
      rewrite Ha in Hfail. apply Hfail. lia. }
    subst n.
    assert (p2 = p1) as ->.
    { pose proof (Hsame p1 w h) as Hs. rewrite Ha in Hs. by apply Hs. }
    destruct k as [|k]; [lia|].
    rewrite (IH p1 w h (S k0) k).
    + f_equal. lia.
    + lia.
    + intros j Hj. specialize (Hext (S j)). rewrite extendTimes_S, He in Hext.
      apply Hext. lia.
    + intros j Hj. specialize (Hfail (S j)). rewrite extendTimes_S, He in Hfail.
      apply Hfail. lia.
    + by rewrite extendTimes_S, He in Hok.
Qed.

(** The plan fails when the page can no longer be extended before there
    is room. *)
Lemma plan_cannotExtend (Hsame : failed_alloc_keeps_page) fuel : ∀ p w h k0 k,
  (k < fuel)%nat →
  (∀ j, (j < k)%nat → (Extend (extendTimes j p)).2 = true) →
  (∀ j, (1 ≤ j ≤ k)%nat → (Alloc (extendTimes j p) w h).2 = None) →
  (Extend (extendTimes k p)).2 = false →
  plan fuel p w h k0 = cannotExtend.
Proof.
  induction fuel as [|fuel IH]; intros p w h k0 k Hk Hext Hfail Hstop; [lia|].
  simpl. destruct (Extend p) as [p1 ok] eqn:He.
  destruct k as [|k].
  - simpl in Hstop. rewrite He in Hstop. simpl in Hstop. by subst ok.
  - assert (ok = true) as ->.
    { specialize (Hext 0%nat). simpl in Hext. rewrite He in Hext.
      apply Hext. lia. }
    simpl. destruct (Alloc p1 w h) as [p2 n] eqn:Ha.
    assert (Hn : n = None).
    { specialize (Hfail 1%nat). simpl in Hfail. rewrite He in Hfail.
      simpl in Hfail. rewrite Ha in Hfail. apply Hfail. lia. }
    subst n.
    assert (p2 = p1) as ->.
    { pose proof (Hsame p1 w h) as Hs. rewrite Ha in Hs. by apply Hs. }
    apply (IH p1 w h (S k0) k).
    + lia.
    + intros j Hj. specialize (Hext (S j)). rewrite extendTimes_S, He in Hext.
      apply Hext. lia.
    + intros j Hj. specialize (Hfail (S j)). rewrite extendTimes_S, He in Hfail.
      apply Hfail. lia.
    + by rewrite extendTimes_S, He in Hstop.
Qed.

(** C4.  [TryAlloc] on a backend with a page, for a packer whose failed
    allocations leave the page as it was.  (1) When the direct allocation
    succeeds, its node is the result and nothing is extended.  (2) When it
    fails and [k], at least one, is the least number of extensions after
    which the allocation succeeds, [TryAlloc] extends the page [k] times,
    extends the texture to the size of the page, and the allocation on the
    page succeeds.  (3) When the page cannot be extended any more before
    there is room, [TryAlloc] fails and leaves the state, and so the page,
    as it was. *)
Theorem TryAlloc_plans_minimum (fuel : nat) (s : State) (b : nat)
    (bk : backend) (p : Page) (w h : Z) :
  failed_alloc_keeps_page →
  backends s !! b = Some bk →
  page bk = Some p →
  (∀ n, (Alloc p w h).2 = Some n →
     TryAlloc fuel b w h s =
       Ok (Some n,
           set_backends <[b := {| restorable := restorable bk;
                                 page := Some (Alloc p w h).1 |}]> s)) ∧
  (∀ k n, (Alloc p w h).2 = None → (1 ≤ k ≤ fuel)%nat →
     (∀ j, (j < k)%nat → (Extend (extendTimes j p)).2 = true) →
     (∀ j, (j < k)%nat → (Alloc (extendTimes j p) w h).2 = None) →
     (Alloc (extendTimes k p) w h).2 = Some n →
     let size := PageSize (extendTimes k p) in
     TryAlloc fuel b w h s =
       Ok (Some n,
           set_backends
             <[b := {| restorable := fresh (dom (rimages s));
                       page := Some (Alloc (extendTimes k p) w h).1 |}]>
             (set_rimages
                (λ st, (Restorable.Extend (restorable bk) size size st).2)
                s))) ∧
  (∀ k, (Alloc p w h).2 = None → (k < fuel)%nat →
     (∀ j, (j < k)%nat → (Extend (extendTimes j p)).2 = true) →
     (∀ j, (j ≤ k)%nat → (Alloc (extendTimes j p) w h).2 = None) →
     (Extend (extendTimes k p)).2 = false →
     TryAlloc fuel b w h s = Ok (None, s)).
Proof.
  intros Hsame Hbk Hp.
  assert (Hstart :
    TryAlloc fuel b w h s =
    (let '(p1, n) := Alloc p w h in
      setBackend b {| restorable := restorable bk; page := Some p1 |} ;;
      match n with
      | Some n => ret (Some n)
      | None =>
          match plan fuel p1 w h 0 with
          | planOutOfFuel => λ _, OutOfFuel
          | cannotExtend => ret None
          | extendBy nExtended =>
              let p2 := extendTimes nExtended p1 in
              let s := PageSize p2 in
              let* r := newRestorable (Restorable.Extend (restorable bk) s s) in
              let '(p3, n) := Alloc p2 w h in
              setBackend b {| restorable := r; page := Some p3 |} ;;
              match n with
              | None =>
                  panic "shareable: Alloc result must not be nil at TryAlloc"
              | Some n => ret (Some n)
              end
          end
      end) s).
  { unfold TryAlloc.
    rewrite (bind_eq _ _ _ _ _ (getBackend_eq _ _ _ Hbk)). by rewrite Hp. }
  split_and!.
  - intros n Hn. rewrite Hstart. destruct (Alloc p w h) as [p1 n0].
    simpl in Hn. subst n0. done.
  - intros k n Hnone Hk Hext Hfail Hok size. rewrite Hstart.
    pose proof (Hsame p w h Hnone) as Hp1.
    destruct (Alloc p w h) as [p1 n0]. simpl in Hnone, Hp1. subst n0 p1.
    unfold setBackend at 1. unfold bind at 1, modify at 1.
    rewrite (plan_extendBy Hsame fuel p w h 0 k); try done.
    + simpl. unfold newRestorable, bind. simpl. subst size.
      assert (Hfst : ∀ sz, (Restorable.Extend (restorable bk) sz sz (rimages s)).1
                     = fresh (dom (rimages s))).
      { intros sz. unfold Restorable.Extend.
        by destruct (rimages s !! restorable bk). }
      specialize (Hfst (PageSize (extendTimes k p))).
      destruct (Restorable.Extend _ _ _ _) as [r st] eqn:Hx.
      simpl in Hfst. subst r.
      destruct (Alloc (extendTimes k p) w h) as [p3 n3]. simpl in Hok.
      subst n3. unfold setBackend, modify, ret, set_backends, set_rimages.
      simpl. by rewrite insert_insert_eq, Hx.
    + intros j Hj. apply Hfail. lia.
    + by rewrite Hok.
  - intros k Hnone Hk Hext Hfail Hstop. rewrite Hstart.
    pose proof (Hsame p w h Hnone) as Hp1.
    destruct (Alloc p w h) as [p1 n0]. simpl in Hnone, Hp1. subst n0 p1.
    unfold setBackend at 1. unfold bind at 1, modify at 1.
    rewrite (plan_cannotExtend Hsame fuel p w h 0 k); try done.
    + unfold ret. do 2 f_equal. destruct s. unfold set_backends. simpl in *.
      f_equal. rewrite <- Hp, backend_eta. by apply insert_id.
    + intros j Hj. apply Hfail. lia.
Qed.

End Shareable.
End ShareableTryAlloc.

(** ** Package shareable: allocation on the atlases *)

Module ShareableAllocate.
Import Shareable ShareableBasics RestorableFacts ShareableTryAlloc Invariants.
Section Shareable.
Context `{Extern} `{!PackingLaws}.

Lemma laws_failed_alloc : failed_alloc_keeps_page.
Proof. intros p w h. apply alloc_fail_same. Qed.

Lemma extends_refl s : extends s s.
Proof.
  unfold extends. split_and!; try done.
  intros c ck Hc. exists ck. split_and!; done.
Qed.

Lemma extends_trans s1 s2 s3 : extends s1 s2 → extends s2 s3 → extends s1 s3.
Proof.
  intros (A1 & A2 & A3 & A4 & A5 & A6) (B1 & B2 & B3 & B4 & B5 & B6).
  unfold extends. split_and!; try congruence; eauto.
  intros c ck Hc. destruct (A5 c ck Hc) as (ck' & Hc' & Hn & Hs).
  destruct (B5 c ck' Hc') as (ck'' & Hc'' & Hn' & Hs').
  exists ck''. split_and!; [done| |by eauto].
  intros Hp. pose proof (Hn Hp). subst ck'. by apply Hn'.
Qed.

(** Within its fuel the plan ends; what it plans makes room and leaves a
    page that cannot be extended more often than before. *)
Lemma plan_result fuel : ∀ p w h k0,
  (rank p < fuel)%nat →
  plan fuel p w h k0 = cannotExtend ∨
  ∃ k, plan fuel p w h k0 = extendBy (k0 + k) ∧
       (Alloc (extendTimes k p) w h).2 ≠ None ∧
       (rank (extendTimes k p) ≤ rank p)%nat.
Proof.
  induction fuel as [|fuel IH]; intros p w h k0 Hr; [lia|].
  simpl. destruct (Extend p) as [p1 ok] eqn:He.
  destruct ok; simpl; [|by left].
  pose proof (extend_rank p) as Hrk. rewrite He in Hrk. simpl in Hrk.
  specialize (Hrk eq_refl).
  destruct (Alloc p1 w h) as [p2 n] eqn:Ha. destruct n as [n|].
  - right. exists 1%nat. split_and!.
    + f_equal. lia.
    + simpl. rewrite He. simpl. by rewrite Ha.
    + simpl. rewrite He. simpl. lia.
  - pose proof (alloc_fail_same p1 w h) as Hs. rewrite Ha in Hs.
    simpl in Hs. rewrite (Hs eq_refl).
    destruct (IH p1 w h (S k0)) as [->|(k & -> & Hok & Hrank)]; [lia|by left|].
    right. exists (S k). rewrite extendTimes_S, He. simpl. split_and!.
    + f_equal. lia.
    + done.
    + lia.
Qed.

(** [TryAlloc] on an atlas returns; it touches this backend only, whose
    page stays a page. *)
Lemma TryAlloc_returns fuel s b bk pg w h :
  backends s !! b = Some bk → page bk = Some pg → (rank pg < fuel)%nat →
  ∃ r s' bk' pg',
    TryAlloc fuel b w h s = Ok (r, s') ∧
    images s' = images s ∧ theBackends s' = theBackends s ∧
    imagesToMakeShared s' = imagesToMakeShared s ∧
    minSize s' = minSize s ∧ maxSize s' = maxSize s ∧
    backends s' = <[b := bk']> (backends s) ∧
    page bk' = Some pg' ∧ (rank pg' ≤ rank pg)%nat ∧
    (is_Some (rimages s !! restorable bk) →
     is_Some (rimages s' !! restorable bk')) ∧
    (∀ r', is_Some (rimages s !! r') → is_Some (rimages s' !! r')) ∧
    (∀ n, r = Some n → ∃ x y, Region n = (x, y, w, h)).
Proof.
  intros Hbk Hpg Hrank.
  assert (Hdirect : ∀ n, (Alloc pg w h).2 = Some n →
            TryAlloc fuel b w h s =
              Ok (Some n,
                  set_backends <[b := {| restorable := restorable bk;
                                        page := Some (Alloc pg w h).1 |}]> s)).
  { intros n Hn. unfold TryAlloc.
    rewrite (bind_eq _ _ _ _ _ (getBackend_eq _ _ _ Hbk)), Hpg.
    destruct (Alloc pg w h) as [p1 n0]. simpl in Hn. subst n0. done. }
  destruct ((Alloc pg w h).2) as [n|] eqn:Hn.
  { specialize (Hdirect n eq_refl). eexists _, _, _, _. split; [exact Hdirect|].
    simpl. split_and!; try done.
    - apply alloc_rank.
    - intros n' Heq. simplify_eq. by apply (alloc_region pg w h). }
  clear Hdirect.
  pose proof (alloc_fail_same pg w h Hn) as Hsame.
  unfold TryAlloc.
  rewrite (bind_eq _ _ _ _ _ (getBackend_eq _ _ _ Hbk)), Hpg.
  destruct (Alloc pg w h) as [p1 n0]. simpl in Hn, Hsame. subst n0 p1.
  unfold setBackend at 1. unfold bind at 1, modify at 1.
  destruct (plan_result fuel pg w h 0 Hrank) as [->|(k & -> & Hok & Hrk)].
  - eexists _, _, _, _. split; [reflexivity|]. simpl.
    split_and!; done.
  - simpl. unfold newRestorable, bind. simpl.
    assert (Hfst : ∀ sz, (Restorable.Extend (restorable bk) sz sz (rimages s)).1
                   = fresh (dom (rimages s))).
    { intros sz. unfold Restorable.Extend.
      by destruct (rimages s !! restorable bk). }
    assert (Hsnd : ∀ sz r', is_Some (rimages s !! r') ∨ r' = fresh (dom (rimages s)) →
      is_Some ((Restorable.Extend (restorable bk) sz sz (rimages s)).2 !! r')).
    { intros sz r' Hr'. unfold Restorable.Extend.
      destruct (rimages s !! restorable bk); simpl;
        (destruct (decide (r' = fresh (dom (rimages s)))) as [->|Hne];
         [rewrite lookup_insert_eq; by eexists
         |rewrite lookup_insert_ne by done; by destruct Hr']). }
    specialize (Hfst (PageSize (extendTimes k pg))).
    specialize (Hsnd (PageSize (extendTimes k pg))).
    destruct (Restorable.Extend _ _ _ _) as [r st] eqn:Hx.
    simpl in Hfst, Hsnd. subst r.
    pose proof (alloc_rank (extendTimes k pg) w h) as Hrk'.
    pose proof (alloc_region (extendTimes k pg) w h) as Hreg.
    destruct (Alloc (extendTimes k pg) w h) as [p3 n3]. simpl in *.
    destruct n3 as [n3|]; [|done].
    eexists _, _, {| restorable := fresh (dom (rimages s)); page := Some p3 |},
      p3.
    split; [reflexivity|]. simpl.
    split_and!; try done; try lia;
      try (by rewrite insert_insert_eq);
      try (intros _; apply Hsnd; by right);
      try (intros r' Hr'; apply Hsnd; by left);
      try (intros n' Heq; simplify_eq; by apply Hreg).
Qed.

Lemma TryAlloc_keeps fuel s b w h F :
  textures_exist s → atlas fuel s b →
  ∃ r s',
    TryAlloc fuel b w h s = Ok (r, s') ∧
    images s' = images s ∧ theBackends s' = theBackends s ∧
    extends s s' ∧ textures_exist s' ∧
    (∀ c, atlas F s c → atlas F s' c) ∧
    (∀ c, atlas fuel s c → atlas fuel s' c) ∧
    (∀ n, r = Some n →
       (∃ x y, Region n = (x, y, w, h)) ∧
       ∃ bk, backends s' !! b = Some bk ∧ is_Some (page bk)).
Proof.
  intros Htex (bk & pg & Hbk & Hpg & Hrank).
  destruct (TryAlloc_returns fuel s b bk pg w h Hbk Hpg Hrank)
    as (r & s' & bk' & pg' & Hrun & Himg & Hthe & Hset & Hmin & Hmax & Hbks
        & Hpg' & Hrk & Hres & Hmono & Hreg).
  assert (Hatlas : ∀ G c, atlas G s c → atlas G s' c).
  { intros G c (ck & cp & Hck & Hcp & Hcr). unfold atlas. rewrite Hbks.
    destruct (decide (c = b)) as [->|Hne].
    - rewrite lookup_insert_eq. simplify_eq. exists bk', pg'.
      split_and!; [done|done|lia].
    - rewrite lookup_insert_ne by done. eauto. }
  exists r, s'. split_and!; try done.
  - unfold extends. rewrite Hthe. split_and!; try done.
    intros c ck Hck. rewrite Hbks. destruct (decide (c = b)) as [->|Hne].
    + rewrite lookup_insert_eq. exists bk'. simplify_eq.
      split_and!; [done| |by rewrite Hpg'].
      rewrite Hpg. done.
    + rewrite lookup_insert_ne by done. exists ck. done.
  - intros c ck. rewrite Hbks. destruct (decide (c = b)) as [->|Hne].
    + rewrite lookup_insert_eq. intros ?; simplify_eq. apply Hres.
      by apply (Htex b).
    + rewrite lookup_insert_ne by done. intros Hck. apply Hmono.
      by apply (Htex c).
  - apply Hatlas.
  - apply Hatlas.
  - intros n Hn. split; [by apply Hreg|]. exists bk'. rewrite Hbks.
    rewrite lookup_insert_eq, Hpg'. split; [done|by eexists].
Qed.

(** The loop over [theBackends] returns and keeps the atlases. *)
Lemma tryBackends_returns fuel w h F : ∀ bs s,
  textures_exist s → (∀ b, b ∈ bs → atlas fuel s b) →
  ∃ r s',
    tryBackends fuel bs w h s = Ok (r, s') ∧
    images s' = images s ∧ theBackends s' = theBackends s ∧
    extends s s' ∧ textures_exist s' ∧
    (∀ c, atlas F s c → atlas F s' c) ∧
    (∀ b n, r = Some (b, n) →
       b ∈ bs ∧ (∃ x y, Region n = (x, y, w, h)) ∧
       ∃ bk, backends s' !! b = Some bk ∧ is_Some (page bk)).
Proof.
  induction bs as [|b bs IH]; intros s Htex Hbs.
  - exists None, s. split_and!; try done. apply extends_refl.
  - destruct (TryAlloc_keeps fuel s b w h F Htex)
      as (r & s1 & Hrun & Himg & Hthe & Hext & Htex1 & HatF & Hatf & Hreg).
    { apply Hbs. by left. }
    simpl. rewrite (bind_eq _ _ _ _ _ Hrun). destruct r as [n|].
    + exists (Some (b, n)), s1. split_and!; try done.
      intros b0 n0 ?; simplify_eq. destruct (Hreg n0 eq_refl) as [? ?].
      split_and!; [by left|done|done].
    + destruct (IH s1 Htex1) as (r & s2 & Hrun2 & Himg2 & Hthe2 & Hext2
                                  & Htex2 & HatF2 & Hreg2).
      { intros c Hc. apply Hatf, Hbs. by right. }
      exists r, s2. split_and!; try done; try congruence.
      * by eapply extends_trans.
      * eauto.
      * intros b0 n0 Hr. destruct (Hreg2 b0 n0 Hr) as (? & ? & ?).
        split_and!; [by right|done|done].
Qed.

Lemma wrap_small z : - 2 ^ 63 ≤ z < 2 ^ 63 → GoInt.wrap z = z.
Proof.
  intros Hz. unfold GoInt.wrap.
  change (2 ^ 63) with 9223372036854775808 in *.
  change (2 ^ 64) with 18446744073709551616.
  rewrite Z.mod_small; lia.
Qed.

(** The doubling of the size of a new page ends without overflow and
    without panic, on a size that holds the image. *)
Lemma growSize_returns maxSize_ w h : ∀ fuel size,
  0 < size → w ≤ maxSize_ → h ≤ maxSize_ → maxSize_ < 2 ^ 62 →
  2 ^ 62 ≤ size * 2 ^ Z.of_nat fuel →
  ∃ size', growSize fuel size maxSize_ w h = Ok size' ∧
           0 < size' ∧ w ≤ size' ∧ h ≤ size'.
Proof.
  induction fuel as [|fuel IH]; intros size Hpos Hw Hh Hmax Hfuel.
  - simpl. simpl in Hfuel.
    destruct ((w >? size) || (h >? size)) eqn:E.
    + apply orb_true_iff in E. lia.
    + apply orb_false_iff in E. exists size. split_and!; [done|lia|lia|lia].
  - simpl. destruct ((w >? size) || (h >? size)) eqn:E.
    + apply orb_true_iff in E.
      assert (size < maxSize_) by lia.
      destruct (size =? maxSize_) eqn:Em; [lia|].
      assert (Hmul : GoInt.mul size 2 = size * 2).
      { apply wrap_small. change (2 ^ 63) with 9223372036854775808.
        change (2 ^ 62) with 4611686018427387904 in Hmax. lia. }
      rewrite Hmul. apply IH; try lia.
      rewrite Nat2Z.inj_succ, Z.pow_succ_r in Hfuel by lia. lia.
    + apply orb_false_iff in E. exists size. split_and!; [done|lia|lia|lia].
Qed.

Lemma fresh_backend (s : State) : backends s !! fresh (dom (backends s)) = None.
Proof. apply not_elem_of_dom, is_fresh. Qed.

Lemma fresh_rimage (s : State) : rimages s !! fresh (dom (rimages s)) = None.
Proof. apply not_elem_of_dom, is_fresh. Qed.

Lemma fresh_image (s : State) : images s !! fresh (dom (images s)) = None.
Proof. apply not_elem_of_dom, is_fresh. Qed.

(** [allocate] of a texture of its own. *)
Lemma allocate_private fuel i sh s img :
  images s !! i = Some img → backend_ img = None →
  sh = false ∨ shareable s img = false →
  let r := fresh (dom (rimages s)) in
  let b := fresh (dom (backends s)) in
  allocate fuel i sh s =
    Ok (tt,
        set_images <[i := with_backend (Some b) (node img) img]>
          (set_backends <[b := {| restorable := r; page := None |}]>
             (set_rimages
                (λ _, <[r := Restorable.blank (width img) (height img) false]>
                        (rimages s)) s))).
Proof.
  intros Hi Hb Hsh r b. unfold allocate.
  rewrite (bind_eq _ _ _ _ _ (getImage_eq _ _ _ Hi)).
  unfold bind at 1, get at 1. rewrite Hb.
  rewrite bool_decide_false by (by intros [? ?]).
  assert (negb sh || negb (shareable s img) = true) as ->.
  { destruct Hsh as [-> | ->]; [done|]. by rewrite orb_true_r. }
  done.
Qed.

Lemma allocate_private_keeps F i s img :
  images s !! i = Some img →
  textures_exist s → atlases_ok F s →
  let r := fresh (dom (rimages s)) in
  let b := fresh (dom (backends s)) in
  let s' :=
    set_images <[i := with_backend (Some b) (node img) img]>
      (set_backends <[b := {| restorable := r; page := None |}]>
         (set_rimages
            (λ _, <[r := Restorable.blank (width img) (height img) false]>
                    (rimages s)) s)) in
  textures_exist s' ∧ atlases_ok F s' ∧ extends s s'.
Proof.
  intros Hi Htex (Hat & Hnew & HF & Hmax) r b s'.
  pose proof (fresh_backend s) as Hfb. pose proof (fresh_rimage s) as Hfr.
  fold b in Hfb. fold r in Hfr.
  assert (Hold : ∀ c ck, backends s !! c = Some ck → backends s' !! c = Some ck).
  { intros c ck Hck. simpl. rewrite lookup_insert_ne; [done|].
    intros <-. congruence. }
  assert (Hmono : ∀ r', is_Some (rimages s !! r') → is_Some (rimages s' !! r')).
  { intros r' Hr'. simpl. rewrite lookup_insert_ne; [done|].
    intros <-. rewrite Hfr in Hr'. by destruct Hr'. }
  split_and!.
  - intros c ck. simpl. destruct (decide (c = b)) as [->|Hne].
    + rewrite lookup_insert_eq. intros ?; simplify_eq. simpl.
      rewrite lookup_insert_eq. by eexists.
    + rewrite lookup_insert_ne by done. intros Hck. apply Hmono.
      by apply (Htex c).
  - split_and!; try done. intros c Hc.
    destruct (Hat c Hc) as (ck & pg & Hck & Hpg & Hrk).
    exists ck, pg. split_and!; try done. by apply Hold.
  - unfold extends. split_and!; try done.
    intros c ck Hck. exists ck. split_and!; try done. by apply Hold.
Qed.

(** [allocate] on the atlases: the image gets a node of its size on a
    backend of [theBackends]. *)
Lemma allocate_shared F fuel i s img :
  (F ≤ fuel)%nat → textures_exist s → atlases_ok F s →
  images s !! i = Some img → backend_ img = None →
  shareable s img = true → 0 < width img → 0 < height img →
  ∃ s' b bk n x y,
    allocate fuel i true s = Ok (tt, s') ∧
    images s' = <[i := with_backend (Some b) (Some n) img]> (images s) ∧
    backends s' !! b = Some bk ∧ is_Some (page bk) ∧
    Region n = (x, y, width img, height img) ∧
    b ∈ theBackends s' ∧
    textures_exist s' ∧ atlases_ok F s' ∧ extends s s'.
Proof.
  intros HFf Htex (Hat & Hnew & HF & Hmax) Hi Hb Hsh Hw Hh.
  assert (Hsizes : 0 < minSize s ∧ width img ≤ maxSize s ∧
                   height img ≤ maxSize s).
  { revert Hsh. unfold shareable, isShareable.
    destruct (minSize s >? 0) eqn:E1; [|done].
    destruct (maxSize s >? 0) eqn:E2; [|done]. simpl.
    destruct (neverShared img); [done|]. intros ?%andb_true_iff. lia. }
  destruct Hsizes as (Hmin & Hwm & Hhm).
  unfold allocate.
  rewrite (bind_eq _ _ _ _ _ (getImage_eq _ _ _ Hi)).
  unfold bind at 1, get at 1. rewrite Hb.
  rewrite bool_decide_false by (by intros [? ?]).
  rewrite Hsh. simpl.
  destruct (tryBackends_returns fuel (width img) (height img) F
              (theBackends s) s Htex)
    as (r & s1 & Hrun & Himg1 & Hthe1 & Hext1 & Htex1 & HatF1 & Hreg1).
  { intros b Hbin. destruct (Hat b Hbin) as (bk & pg & ? & ? & ?).
    exists bk, pg. split_and!; [done|done|lia]. }
  rewrite (bind_eq _ _ _ _ _ Hrun).
  pose proof Hext1 as (E1 & E2 & E3 & E4 & E5 & E6).
  destruct r as [[b n]|].
  - destruct (Hreg1 b n eq_refl) as (Hbin & (x & y & Hxy) & bk & Hbk & Hpg).
    eexists _, b, bk, n, x, y. split; [reflexivity|]. simpl.
    split_and!; try done.
    + by rewrite Himg1.
    + by rewrite Hthe1.
    + unfold atlases_ok. simpl. rewrite E3, Hthe1. split_and!; try done.
      intros c Hc. by apply HatF1, Hat.
  - destruct (growSize_returns (maxSize s) (width img) (height img) fuel
                (minSize s)) as (size & Hgrow & Hs0 & Hsw & Hsh'); try done.
    { change (2 ^ 62) with 4611686018427387904. lia. }
    { transitivity (1 * 2 ^ 62); [lia|].
      apply Z.mul_le_mono_nonneg; try lia.
      apply Z.pow_le_mono_r; lia. }
    rewrite (bind_eq _ _ _ size s1) by (by apply lift_result_eq).
    unfold newRestorable at 1. unfold bind at 1. simpl.
    set (r := fresh (dom (rimages s1))).
    pose proof (alloc_new size (maxSize s) (width img) (height img)) as Hroom.
    pose proof (alloc_rank (NewPage size (maxSize s)) (width img) (height img))
      as Hrk.
    pose proof (alloc_region (NewPage size (maxSize s)) (width img) (height img))
      as Hregion.
    destruct (Alloc (NewPage size (maxSize s)) (width img) (height img))
      as [p n] eqn:Ha.
    simpl in *. destruct n as [n|]; [|exfalso; apply Hroom; [lia|lia|done]].
    destruct (Hregion n eq_refl) as (x & y & Hxy).
    unfold newBackend, bind, modify, setImage. simpl.
    set (b := fresh (dom (backends s1))).
    pose proof (fresh_backend s1) as Hfb. fold b in Hfb.
    pose proof (fresh_rimage s1) as Hfr. fold r in Hfr.
    eexists _, b, {| restorable := r; page := Some p |}, n, x, y.
    split; [reflexivity|]. simpl.
    assert (Hold : ∀ c ck, backends s1 !! c = Some ck →
              <[b := {| restorable := r; page := Some p |}]> (backends s1) !! c
              = Some ck).
    { intros c ck Hck. rewrite lookup_insert_ne; [done|]. intros <-. congruence. }
    assert (Hmono : ∀ r', is_Some (rimages s1 !! r') →
              is_Some (<[r := Restorable.blank size size false]> (rimages s1)
                         !! r')).
    { intros r' Hr'. rewrite lookup_insert_ne; [done|].
      intros <-. rewrite Hfr in Hr'. by destruct Hr'. }
    split_and!; try done.
    + by rewrite Himg1.
    + apply lookup_insert_eq.
    + apply elem_of_app. right. by left.
    + unfold textures_exist. simpl. intros c ck.
      destruct (decide (c = b)) as [->|Hne].
      * rewrite lookup_insert_eq. intros ?; simplify_eq. simpl.
        rewrite lookup_insert_eq. by eexists.
      * rewrite lookup_insert_ne by done. intros Hck. apply Hmono.
        by apply (Htex1 c).
    + unfold atlases_ok. simpl. rewrite E3. split_and!; try done.
      intros c [Hc|Hc%list_elem_of_singleton]%elem_of_app.
      * rewrite Hthe1 in Hc. destruct (HatF1 c (Hat c Hc))
          as (ck & pg & Hck & Hpg & Hrank).
        exists ck, pg. split_and!; try done. by apply Hold.
      * subst c. eexists _, p. simpl. rewrite lookup_insert_eq.
        split_and!; [done|done|]. specialize (Hnew size). lia.
    + unfold extends. simpl. split_and!; try done.
      * intros c Hc. apply elem_of_app. left. by apply E4.
      * intros c ck Hck. destruct (E5 c ck Hck) as (ck' & Hck' & ? & ?).
        exists ck'. split_and!; try done. by apply Hold.
      * intros r' Hr'. by apply Hmono, E6.
Qed.

End Shareable.
End ShareableAllocate.

(** ** Package shareable: [DrawTriangles] *)

Module ShareableDraw.
Import Shareable ShareableBasics RestorableFacts ShareableDispose
  ShareableTryAlloc Invariants ShareableAllocate.
Section Shareable.
Context `{Extern}.

(** [DrawTriangles] after the source is allocated and the target has left
    the atlas: the comparison of the two textures decides. *)
Lemma DrawTriangles_after fuel s s2 i img src dst dst2 src2 bi bimg bki bkimg
    vertices indices colorm mode filter_ address :
  images s !! img = Some src → disposed src = false →
  images s !! i = Some dst → disposed dst = false →
  ((if bool_decide (backend_ src = None) then allocate fuel img true
    else ret tt) ;; ensureNotShared fuel i) s = Ok (tt, s2) →
  images s2 !! i = Some dst2 → images s2 !! img = Some src2 →
  backend_ dst2 = Some bi → backend_ src2 = Some bimg →
  backends s2 !! bi = Some bki → backends s2 !! bimg = Some bkimg →
  DrawTriangles fuel i img vertices indices colorm mode filter_ address s =
    if bool_decide (restorable bki = restorable bkimg)
    then Panic same_texture_panic
    else Ok (tt, drawn s2 i img dst2 src2 (restorable bki) (restorable bkimg)
                   vertices indices colorm mode filter_ address).
Proof.
  intros Hsrc Hsd Hdst Hdd Hpre Hdst2 Hsrc2 Hbi Hbimg Hbki Hbkimg.
  unfold DrawTriangles.
  rewrite (bind_eq _ _ _ _ _ (getImage_eq _ _ _ Hsrc)), Hsd.
  rewrite (bind_eq _ _ _ _ _ (getImage_eq _ _ _ Hdst)), Hdd.
  apply bind_inv in Hpre as (u & s1 & Hpre1 & Hpre2). destruct u.
  rewrite (bind_eq _ _ _ _ _ Hpre1), (bind_eq _ _ _ _ _ Hpre2).
  rewrite (bind_eq _ _ _ _ _ (getImage_eq _ _ _ Hdst2)).
  rewrite (bind_eq _ _ _ _ _ (getImage_eq _ _ _ Hsrc2)), Hbi, Hbimg.
  rewrite (bind_eq _ _ _ _ _ (getBackend_eq _ _ _ Hbki)).
  rewrite (bind_eq _ _ _ _ _ (getBackend_eq _ _ _ Hbkimg)).
  destruct (bool_decide (restorable bki = restorable bkimg)) eqn:Hsame;
    [reflexivity|]. apply bool_decide_eq_false in Hsame.
  assert (Hne : i ≠ img).
  { intros ->. apply Hsame. congruence. }
  unfold onRestorable, bind, modify, getImage, setImage, deleteCandidate,
    addCandidate, get. simpl.
  rewrite Hdst2. simpl. rewrite lookup_insert_ne by done. rewrite Hsrc2.
  simpl. unfold drawn.
  match goal with |- (if ?c then _ else _) _ = _ => destruct c end; done.
Qed.

(** A draw of an image onto itself never returns. *)
Lemma DrawTriangles_self_never_returns fuel s i vertices indices colorm mode
    filter_ address r :
  DrawTriangles fuel i i vertices indices colorm mode filter_ address s ≠ Ok r.
Proof.
  intros Hrun. unfold DrawTriangles in Hrun. minv.
  repeat (minv_case; minv).
  all: match goal with
       | Hb : bool_decide (?a = ?a) = false |- _ =>
           by rewrite bool_decide_true in Hb
       end.
Qed.

End Shareable.

Section WithLaws.
Context `{Extern} `{!PackingLaws}.

(** The first step of a draw: a source without a backend gets one. *)
Lemma source_allocated F fuel s img src :
  (F ≤ fuel)%nat → textures_exist s → atlases_ok F s →
  images s !! img = Some src →
  (backend_ src = None → shareable s src = true →
   0 < width src ∧ 0 < height src) →
  (∀ bs, backend_ src = Some bs → is_Some (backends s !! bs)) →
  ∃ s1 src1 bimg bkimg,
    (if bool_decide (backend_ src = None) then allocate fuel img true
     else ret tt) s = Ok (tt, s1) ∧
    images s1 = <[img := src1]> (images s) ∧
    backend_ src1 = Some bimg ∧ backends s1 !! bimg = Some bkimg ∧
    width src1 = width src ∧ height src1 = height src ∧
    disposed src1 = disposed src ∧ neverShared src1 = neverShared src ∧
    nonUpdatedCount src1 = nonUpdatedCount src ∧
    (is_Some (backend_ src) → src1 = src) ∧
    (backend_ src = None → node src1 = node src ∨ bimg ∈ theBackends s1) ∧
    textures_exist s1 ∧ atlases_ok F s1 ∧ extends s s1.
Proof.
  intros HF Htex Hat Hsrc Hsize Hvalid.
  destruct (backend_ src) as [bs|] eqn:Hb.
  - destruct (Hvalid bs eq_refl) as [bk Hbk].
    exists s, src, bs, bk. rewrite bool_decide_false by done.
    split_and!; try done.
    + by rewrite insert_id.
    + apply extends_refl.
  - rewrite bool_decide_true by done.
    destruct (shareable s src) eqn:Hsh.
    + destruct (Hsize eq_refl eq_refl) as [Hw Hh].
      destruct (allocate_shared F fuel img s src HF Htex Hat Hsrc Hb Hsh Hw Hh)
        as (s1 & b & bk & n & x & y & Hrun & Himg & Hbk & Hpg & Hreg & Hin
            & Htex1 & Hat1 & Hext).
      exists s1, (with_backend (Some b) (Some n) src), b, bk.
      split_and!; try done; try (by intros [? ?]); try (intros _; by right).
    + rewrite (allocate_private fuel img true s src Hsrc Hb) by by right.
      destruct (allocate_private_keeps F img s src Hsrc Htex Hat)
        as (Htex1 & Hat1 & Hext).
      eexists _, _, _, _. split; [reflexivity|]. simpl.
      split_and!; try done; try (by intros [? ?]);
        try apply lookup_insert_eq; try (intros _; by left).
Qed.

(** The first two steps of a draw onto an image that is on an atlas: the
    source is allocated and the target leaves the atlas for a new texture
    of the size of its region, which differs from the texture of the
    source and holds one draw, of the region. *)
Lemma target_demoted F fuel s i img src dst b n x y w h :
  (F ≤ fuel)%nat → textures_exist s → atlases_ok F s →
  i ≠ img →
  images s !! img = Some src →
  (backend_ src = None → shareable s src = true →
   0 < width src ∧ 0 < height src) →
  (∀ bs, backend_ src = Some bs → is_Some (backends s !! bs)) →
  images s !! i = Some dst → disposed dst = false →
  backend_ dst = Some b → node dst = Some n → b ∈ theBackends s →
  Region n = (x, y, w, h) →
  ∃ s2 src2 b' bimg bk' bkimg ri,
    ((if bool_decide (backend_ src = None) then allocate fuel img true
      else ret tt) ;; ensureNotShared fuel i) s = Ok (tt, s2) ∧
    images s2 !! i = Some (with_backend (Some b') None dst) ∧
    images s2 !! img = Some src2 ∧ backend_ src2 = Some bimg ∧
    width src2 = width src ∧ height src2 = height src ∧
    neverShared src2 = neverShared src ∧
    backends s !! b' = None ∧
    backends s2 !! b' = Some bk' ∧ page bk' = None ∧
    backends s2 !! bimg = Some bkimg ∧
    restorable bk' ≠ restorable bkimg ∧
    rimages s !! restorable bk' = None ∧
    rimages s2 !! restorable bk' = Some ri ∧
    Restorable.width ri = w ∧ Restorable.height ri = h ∧
    (∃ bkb vs,
       backends s2 !! b = Some bkb ∧
       Restorable.drawTrianglesHistory ri =
         [Restorable.drawTrianglesHistoryItem (restorable bkb) vs QuadIndices
            None CompositeModeCopy FilterNearest AddressClampToZero]) ∧
    imagesToMakeShared s2 = imagesToMakeShared s ∧
    minSize s2 = minSize s ∧ maxSize s2 = maxSize s.
Proof.
  intros HF Htex Hat Hne Hsrc Hsize Hvalid Hdst Hdd Hb Hn Hin Hreg.
  destruct (source_allocated F fuel s img src HF Htex Hat Hsrc Hsize Hvalid)
    as (s1 & src1 & bimg & bkimg & Hrun1 & Himg1 & Hbimg & Hbkimg & Hw1 & Hh1
        & Hd1 & Hns1 & Hc1 & Hsame1 & _ & Htex1 & Hat1 & Hext).
  pose proof Hext as (E1 & E2 & E3 & E4 & E5 & E6).
  destruct Hat as (Hatl & _).
  destruct (Hatl b Hin) as (bk & pg & Hbk & Hpg & _).
  destruct (E5 b bk Hbk) as (bk1 & Hbk1 & _ & Hpg1).
  destruct Hpg1 as [pg1 Hpg1]; [by rewrite Hpg|].
  assert (Hdst1 : images s1 !! i = Some dst).
  { rewrite Himg1. by rewrite lookup_insert_ne. }
  destruct (ensureNotShared_shared fuel i s1 dst b bk1 pg1 n x y w h)
    as (s2 & ri & Hrun2 & Himg2 & Hbks2 & Hfb & Hfr & Hri & Hrw & Hrh & Hhist
        & Hsize2 & Hdom2 & Hset2 & Hmin2 & Hmax2 & Hthe2); try done.
  { by apply (Htex1 b). }
  { intros _. by apply E4. }
  set (b' := fresh (dom (backends s1))) in *.
  set (newImg := fresh (dom (rimages s1))) in *.
  assert (Hb'ne : b' ≠ bimg) by (intros Heq; rewrite Heq in Hfb; congruence).
  assert (Hfresh_ne : ∀ c ck, backends s1 !! c = Some ck →
            newImg ≠ restorable ck).
  { intros c ck Hck Heq. destruct (Htex1 c ck Hck) as [? Hex].
    rewrite <- Heq in Hex. congruence. }
  assert (Hbimg2 : ∃ bkimg2, backends s2 !! bimg = Some bkimg2 ∧
                     newImg ≠ restorable bkimg2).
  { rewrite Hbks2. rewrite lookup_insert_ne by done.
    destruct (decide (bimg = b)) as [->|Hnb].
    - rewrite lookup_insert_eq. eexists. split; [done|]. simpl.
      by apply (Hfresh_ne b).
    - rewrite lookup_insert_ne by done. exists bkimg. split; [done|].
      by apply (Hfresh_ne bimg). }
  destruct Hbimg2 as (bkimg2 & Hbkimg2 & Hne2).
  exists s2, src1, b', bimg, {| restorable := newImg; page := None |}, bkimg2, ri.
  split_and!; try done; try congruence.
  - rewrite (bind_eq _ _ _ _ _ Hrun1). exact Hrun2.
  - rewrite Himg2. apply lookup_insert_eq.
  - rewrite Himg2. rewrite lookup_insert_ne by done. rewrite Himg1.
    apply lookup_insert_eq.
  - destruct (backends s !! b') as [ck|] eqn:Hck; [|done].
    destruct (E5 b' ck Hck) as (ck' & Hck' & _). congruence.
  - rewrite Hbks2. apply lookup_insert_eq.
  - simpl. destruct (rimages s !! newImg) as [r0|] eqn:Hr0; [|done].
    destruct (E6 newImg) as [? Hex]; [by eexists|]. congruence.
  - destruct Hhist as [vs Hvs].
    exists {| restorable := restorable bk1; page := Some (Free pg1 n) |}, vs.
    split; [|exact Hvs].
    rewrite Hbks2. rewrite lookup_insert_ne.
    + apply lookup_insert_eq.
    + intros Heq. rewrite Heq in Hfb. congruence.
Qed.


(** A draw of an image onto itself panics on the comparison of the
    textures. *)
Lemma DrawTriangles_self_panics F fuel s i dst vertices indices colorm mode
    filter_ address :
  (F ≤ fuel)%nat → textures_exist s → atlases_ok F s →
  images s !! i = Some dst → disposed dst = false →
  (backend_ dst = None → node dst = None) →
  (backend_ dst = None → shareable s dst = true →
   0 < width dst ∧ 0 < height dst) →
  (∀ b, backend_ dst = Some b →
     is_Some (backends s !! b) ∧
     (is_Some (node dst) → b ∈ theBackends s)) →
  DrawTriangles fuel i i vertices indices colorm mode filter_ address s
    = Panic same_texture_panic.
Proof.
  intros HF Htex Hat Hdst Hdd Hnode Hsize Hvalid.
  destruct (source_allocated F fuel s i dst HF Htex Hat Hdst Hsize)
    as (s1 & src1 & bimg & bkimg & Hrun1 & Himg1 & Hbimg & Hbkimg & Hw1 & Hh1
        & Hd1 & Hns1 & Hc1 & Hsame1 & Hnew1 & Htex1 & Hat1 & Hext).
  { intros bs Hbs. by apply Hvalid. }
  pose proof Hext as (E1 & E2 & E3 & E4 & E5 & E6).
  assert (Hi1 : images s1 !! i = Some src1).
  { rewrite Himg1. apply lookup_insert_eq. }
  assert (Hd1' : disposed src1 = false) by congruence.
  assert (Hdemote : ∃ s2 dst2 bi bki,
            ensureNotShared fuel i s1 = Ok (tt, s2) ∧
            images s2 !! i = Some dst2 ∧ backend_ dst2 = Some bi ∧
            backends s2 !! bi = Some bki).
  { destruct (node src1) as [n|] eqn:Hn1.
    - assert (Hin1 : bimg ∈ theBackends s1).
      { destruct (backend_ dst) as [b0|] eqn:Hb0.
        - assert (src1 = dst) as -> by (apply Hsame1; by eexists).
          assert (b0 = bimg) by congruence. subst b0.
          apply E4, (Hvalid bimg eq_refl). rewrite Hn1. by eexists.
        - destruct (Hnew1 eq_refl) as [Hnn|?]; [|done].
          pose proof (Hnode eq_refl). congruence. }
      destruct Hat1 as (Hatl1 & _).
      destruct (Hatl1 bimg Hin1) as (bk & pg & Hbk & Hpg & _).
      destruct (Region n) as [[[x y] w] h] eqn:Hreg.
      destruct (ensureNotShared_shared fuel i s1 src1 bimg bk pg n x y w h)
        as (s2 & ri & Hrun2 & Himg2 & Hbks2 & _); try done.
      { by apply (Htex1 bimg). }
      eexists s2, _, _, _. split; [exact Hrun2|].
      rewrite Himg2, Hbks2. split_and!.
      + apply lookup_insert_eq.
      + done.
      + apply lookup_insert_eq.
    - exists s1, src1, bimg, bkimg. split_and!; try done.
      unfold ensureNotShared.
      rewrite (bind_eq _ _ _ _ _ (getImage_eq _ _ _ Hi1)), Hbimg.
      unfold isShared. rewrite Hn1.
      rewrite bool_decide_false by (by intros [? ?]). done. }
  destruct Hdemote as (s2 & dst2 & bi & bki & Hrun2 & Hi2 & Hbi & Hbki).
  rewrite (DrawTriangles_after fuel s s2 i i dst dst dst2 dst2 bi bi bki bki);
    try done.
  - by rewrite bool_decide_true.
  - by rewrite (bind_eq _ _ _ _ _ Hrun1).
Qed.

(** C9.  (1) Once the source is allocated and the target has left the
    atlas, a draw whose source and target are on the same texture panics.
    (2) A draw of an image onto itself never returns, and in a state that
    satisfies the invariants of the package it panics on that comparison.
    (3) A draw between two images that are on the same atlas passes the
    comparison and returns: the target has left the atlas before. *)
Theorem DrawTriangles_rejects_same_texture (F fuel : nat) (s : State)
    (i img : nat) (src dst : Image) (vertices : list float32)
    (indices : list Z) (colorm : option ColorM) (mode filter_ address : Z) :
  (F ≤ fuel)%nat → textures_exist s → atlases_ok F s →
  images s !! img = Some src → disposed src = false →
  images s !! i = Some dst → disposed dst = false →
  (∀ s2 dst2 src2 bi bimg bki bkimg,
     ((if bool_decide (backend_ src = None) then allocate fuel img true
       else ret tt) ;; ensureNotShared fuel i) s = Ok (tt, s2) →
     images s2 !! i = Some dst2 → images s2 !! img = Some src2 →
     backend_ dst2 = Some bi → backend_ src2 = Some bimg →
     backends s2 !! bi = Some bki → backends s2 !! bimg = Some bkimg →
     restorable bki = restorable bkimg →
     DrawTriangles fuel i img vertices indices colorm mode filter_ address s
       = Panic same_texture_panic) ∧
  ((∀ r, DrawTriangles fuel i i vertices indices colorm mode filter_ address s
         ≠ Ok r) ∧
   ((backend_ dst = None → node dst = None) →
    (backend_ dst = None → shareable s dst = true →
     0 < width dst ∧ 0 < height dst) →
    (∀ b, backend_ dst = Some b →
       is_Some (backends s !! b) ∧
       (is_Some (node dst) → b ∈ theBackends s)) →
    DrawTriangles fuel i i vertices indices colorm mode filter_ address s
      = Panic same_texture_panic)) ∧
  (∀ b n m, i ≠ img →
     backend_ dst = Some b → node dst = Some n →
     backend_ src = Some b → node src = Some m →
     b ∈ theBackends s →
     ∃ s', DrawTriangles fuel i img vertices indices colorm mode filter_
             address s = Ok (tt, s')).
Proof.
  intros HF Htex Hat Hsrc Hsd Hdst Hdd. split_and!.
  - intros s2 dst2 src2 bi bimg bki bkimg Hpre Hi2 Himg2 Hbi Hbimg Hbki Hbkimg
      Hsame.
    rewrite (DrawTriangles_after fuel s s2 i img src dst dst2 src2 bi bimg bki
               bkimg); try done.
    by rewrite bool_decide_true.
  - intros r. apply DrawTriangles_self_never_returns.
  - intros Hnode Hsize Hvalid.
    by apply (DrawTriangles_self_panics F fuel s i dst).
  - intros b n m Hne Hb Hn Hbs Hm Hin.
    destruct (Region n) as [[[x y] w] h] eqn:Hreg.
    destruct (target_demoted F fuel s i img src dst b n x y w h)
      as (s2 & src2 & b' & bimg & bk' & bkimg & ri & Hpre & Hi2 & Himg2 & Hbimg
          & _ & _ & _ & _ & Hbk' & _ & Hbkimg & Hdiff & _); try done.
    { intros Hnone. congruence. }
    { intros bs Hbs'. assert (bs = b) by congruence. subst bs.
      destruct Hat as (Hatl & _).
      destruct (Hatl b Hin) as (bk & ? & Hbk & _). by eexists. }
    eexists.
    rewrite (DrawTriangles_after fuel s s2 i img src dst
               (with_backend (Some b') None dst) src2 b' bimg bk' bkimg);
      try done.
    by rewrite bool_decide_false.
Qed.

End WithLaws.

End ShareableDraw.

(** ** Package shareable: what demotes an image *)

Module ShareableDemotion.
Import Shareable ShareableBasics RestorableFacts ShareableDispose Invariants.
Section Shareable.
Context `{Extern}.


End Shareable.
End ShareableDemotion.

(** ** Package shareable: promotion *)

Module ShareablePromotion.
Import Shareable ShareableBasics RestorableFacts ShareableDispose
  ShareableTryAlloc Invariants ShareableAllocate.

Lemma foldM_keeps {S A B} (P : B → Prop) (l : list A)
    (body : B → A → M S B) (s : S) :
  (∀ acc x, x ∈ l → P acc → ∃ acc', body acc x s = Ok (acc', s) ∧ P acc') →
  ∀ acc, P acc → ∃ acc', foldM l body acc s = Ok (acc', s) ∧ P acc'.
Proof.
  induction l as [|x l IH]; intros Hbody acc Hacc.
  - by exists acc.
  - destruct (Hbody acc x) as (acc1 & Hrun & Hacc1); [by left|done|].
    simpl. rewrite (bind_eq _ _ _ _ _ Hrun). apply IH; [|done].
    intros acc' y Hy. apply Hbody. by right.
Qed.

Lemma store_ok (l : list Z) idx v :
  0 ≤ idx < Z.of_nat (length l) →
  ∃ l', store l idx v = Ok l' ∧ length l' = length l.
Proof.
  intros Hidx. unfold store.
  destruct (0 <=? idx) eqn:E1; [|lia]. destruct (idx <? _) eqn:E2; [|lia].
  simpl. eexists. split; [done|]. apply length_insert.
Qed.

Section Shareable.
Context `{Extern}.

(** [at] reads only, and returns on an image with a backend. *)
Lemma at_reads k x y s img b bk :
  images s !! k = Some img → backend_ img = Some b →
  backends s !! b = Some bk →
  ∃ c, at_ k x y s = Ok (c, s).
Proof.
  intros Hk Hb Hbk. unfold at_.
  rewrite (bind_eq _ _ _ _ _ (getImage_eq _ _ _ Hk)), Hb.
  assert (Hr : ∃ r, region k s = Ok (r, s)).
  { destruct (node img) as [n|] eqn:Hn.
    - eexists. by eapply region_shared.
    - eexists. by eapply region_private. }
  destruct Hr as ([[[ox oy] w] h] & Hr).
  rewrite (bind_eq _ _ _ _ _ Hr).
  destruct (_ || _); [by eexists|].
  rewrite (bind_eq _ _ _ _ _ (getBackend_eq _ _ _ Hbk)).
  by eexists.
Qed.

(** The loops of [makeShared] fill the slice without leaving it. *)
Lemma copyPixels_returns k s img b bk w h pixels :
  images s !! k = Some img → backend_ img = Some b →
  backends s !! b = Some bk →
  0 ≤ w ≤ 4096 → 0 ≤ h ≤ 4096 →
  Z.of_nat (length pixels) = 4 * w * h →
  ∃ pixels', copyPixels k w h pixels s = Ok (pixels', s) ∧
             length pixels' = length pixels.
Proof.
  intros Hk Hb Hbk Hw Hh Hlen. unfold copyPixels.
  apply (foldM_keeps (λ p, length p = length pixels)); [|done].
  intros acc y [Hy1 Hy2]%elem_of_seqZ Hacc.
  apply (foldM_keeps (λ p, length p = length pixels)); [|done].
  intros acc' x [Hx1 Hx2]%elem_of_seqZ Hacc'.
  unfold copyPixel.
  destruct (at_reads k x y s img b bk Hk Hb Hbk) as ([[[r g] bl] a] & Hat).
  rewrite (bind_eq _ _ _ _ _ Hat).
  assert (Hidx : GoInt.mul 4 (GoInt.add x (GoInt.mul w y)) = 4 * (x + w * y)).
  { unfold GoInt.mul, GoInt.add.
    rewrite (wrap_small (w * y)) by (change (2 ^ 63) with 9223372036854775808; nia).
    rewrite (wrap_small (x + w * y))
      by (change (2 ^ 63) with 9223372036854775808; nia).
    apply wrap_small. change (2 ^ 63) with 9223372036854775808. nia. }
  rewrite Hidx.
  assert (Hin : 0 ≤ 4 * (x + w * y) ∧ 4 * (x + w * y) + 3 < 4 * w * h) by nia.
  assert (Hadd : ∀ d, 0 ≤ d ≤ 3 →
            GoInt.add (4 * (x + w * y)) d = 4 * (x + w * y) + d).
  { intros d Hd. apply wrap_small.
    change (2 ^ 63) with 9223372036854775808. nia. }
  rewrite !Hadd by lia.
  destruct (store_ok acc' (4 * (x + w * y)) r) as (p1 & Hs1 & Hl1); [lia|].
  rewrite (bind_eq _ _ _ p1 s) by (by apply lift_result_eq).
  destruct (store_ok p1 (4 * (x + w * y) + 1) g) as (p2 & Hs2 & Hl2); [lia|].
  rewrite (bind_eq _ _ _ p2 s) by (by apply lift_result_eq).
  destruct (store_ok p2 (4 * (x + w * y) + 2) bl) as (p3 & Hs3 & Hl3); [lia|].
  rewrite (bind_eq _ _ _ p3 s) by (by apply lift_result_eq).
  destruct (store_ok p3 (4 * (x + w * y) + 3) a) as (p4 & Hs4 & Hl4); [lia|].
  exists p4. split; [by apply lift_result_eq|]. congruence.
Qed.

(** A change of the images and of the contents of the textures keeps the
    invariants of the backends. *)
Lemma keeps_backends (s s' : State) :
  backends s' = backends s → theBackends s' = theBackends s →
  imagesToMakeShared s' = imagesToMakeShared s →
  minSize s' = minSize s → maxSize s' = maxSize s →
  (∀ r, is_Some (rimages s !! r) → is_Some (rimages s' !! r)) →
  extends s s' ∧ (textures_exist s → textures_exist s').
Proof.
  intros Hb Ht Hc Hmin Hmax Hr. split.
  - unfold extends. rewrite Hb, Ht. split_and!; try done.
    intros c ck Hck. by exists ck.
  - intros Htex c ck. rewrite Hb. intros Hck. by apply Hr, (Htex c).
Qed.

End Shareable.

Section WithLaws.
Context `{Extern} `{!PackingLaws}.

Lemma keeps_atlases F (s s' : State) :
  backends s' = backends s → theBackends s' = theBackends s →
  maxSize s' = maxSize s →
  atlases_ok F s → atlases_ok F s'.
Proof.
  intros Hb Ht Hmax (Hat & Hnew & HF & Hm). unfold atlases_ok, atlas.
  rewrite Hb, Ht, Hmax. done.
Qed.

Lemma ReplacePixels_is_Some r p x y w h (st : gmap nat Restorable.Image) r' :
  is_Some (st !! r') →
  is_Some (Restorable.ReplacePixels r p x y w h st !! r').
Proof.
  intros Hr'. apply elem_of_dom. rewrite ReplacePixels_dom.
  by apply elem_of_dom.
Qed.

Lemma Dispose_is_Some r (st : gmap nat Restorable.Image) r' :
  is_Some (st !! r') → is_Some (Restorable.Dispose r st !! r').
Proof.
  intros Hr'. apply elem_of_dom. rewrite Dispose_dom. by apply elem_of_dom.
Qed.

(** [makeShared] moves a promotable image to an atlas. *)
Lemma makeShared_promotes F fuel s k img :
  (F ≤ fuel)%nat → textures_exist s → atlases_ok F s →
  images s !! k = Some img → promotable s img →
  ∃ s' b bk n x y,
    makeShared fuel k s = Ok (tt, s') ∧
    images s' !! k =
      Some {| width := width img; height := height img; disposed := false;
              backend_ := Some b; node := Some n; nonUpdatedCount := 0;
              neverShared := false |} ∧
    (∀ j, j ≠ k → is_Some (images s !! j) → images s' !! j = images s !! j) ∧
    backends s' !! b = Some bk ∧ is_Some (page bk) ∧ b ∈ theBackends s' ∧
    Region n = (x, y, width img, height img) ∧
    textures_exist s' ∧ atlases_ok F s' ∧ extends s s'.
Proof.
  intros HF Htex Hat Hk (Hd & Hn & (b0 & bk0 & Hb0 & Hbk0 & Hpg0) & Hsh & Hw & Hh).
  assert (Hbounds : width img ≤ 4096 ∧ height img ≤ 4096 ∧
                    neverShared img = false).
  { destruct Hat as (_ & _ & _ & Hmax). revert Hsh. unfold shareable.
    destruct (negb (isShareable s)); [done|].
    destruct (neverShared img); [done|]. intros ?%andb_true_iff. lia. }
  destruct Hbounds as (Hw' & Hh' & Hns).
  unfold makeShared.
  rewrite (bind_eq _ _ _ _ _ (getImage_eq _ _ _ Hk)), Hb0.
  unfold isShared. rewrite Hn.
  rewrite bool_decide_false by (by intros [? ?]).
  unfold bind at 1, get at 1. rewrite Hsh. simpl.
  unfold NewImage at 1. unfold bind at 1.
  set (newI := fresh (dom (images s))).
  set (blankI := {| width := width img; height := height img;
                    disposed := false; backend_ := None; node := None;
                    nonUpdatedCount := 0; neverShared := false |}).
  set (s1 := set_images <[newI := blankI]> s).
  pose proof (fresh_image s) as HnewI. fold newI in HnewI.
  assert (Hkn : k ≠ newI) by (intros ->; congruence).
  assert (Hk1 : images s1 !! k = Some img) by (simpl; by rewrite lookup_insert_ne).
  assert (Hlen0 : GoInt.mul (GoInt.mul 4 (width img)) (height img)
                  = 4 * width img * height img).
  { unfold GoInt.mul.
    rewrite (wrap_small (4 * width img))
      by (change (2 ^ 63) with 9223372036854775808; lia).
    apply wrap_small. change (2 ^ 63) with 9223372036854775808. nia. }
  rewrite Hlen0.
  assert (Hmake : make_bytes (4 * width img * height img) =
            Ok (replicate (Z.to_nat (4 * width img * height img)) 0)).
  { unfold make_bytes. destruct (_ <? 0) eqn:E; [nia|done]. }
  rewrite (bind_eq _ _ _ _ s1 (lift_result_eq _ _ _ Hmake)).
  destruct (copyPixels_returns k s1 img b0 bk0 (width img) (height img)
              (replicate (Z.to_nat (4 * width img * height img)) 0))
    as (pixels & Hcopy & Hlen); try done; try lia.
  { rewrite length_replicate. nia. }
  rewrite length_replicate in Hlen.
  rewrite (bind_eq _ _ _ _ _ Hcopy).
  (* the new image goes to an atlas *)
  assert (HnewI1 : images s1 !! newI = Some blankI) by apply lookup_insert_eq.
  destruct (keeps_backends s s1) as [Hext01 Htex01]; try done.
  pose proof (keeps_atlases F s s1 eq_refl eq_refl eq_refl Hat) as Hat1.
  assert (Hsh1 : shareable s1 blankI = true).
  { revert Hsh. unfold shareable, isShareable. simpl. by rewrite Hns. }
  destruct (allocate_shared F fuel newI s1 blankI HF (Htex01 Htex) Hat1 HnewI1
              eq_refl Hsh1 Hw Hh)
    as (s2 & b & bk & n & x & y & Halloc & Himg2 & Hbk & Hpg & Hreg & Hin
        & Htex2 & Hat2 & Hext12).
  assert (HnewI2 : images s2 !! newI = Some (with_backend (Some b) (Some n) blankI)).
  { rewrite Himg2. apply lookup_insert_eq. }
  assert (Hrepl : replacePixels fuel newI (Some pixels) s1 =
            Ok (tt, set_rimages
                      (Restorable.ReplacePixels (restorable bk) (Some pixels)
                         x y (width img) (height img)) s2)).
  { unfold replacePixels.
    rewrite (bind_eq _ _ _ _ _ (getImage_eq _ _ _ HnewI1)). simpl.
    rewrite (bind_eq _ _ _ _ _ Halloc).
    rewrite (bind_eq _ _ _ _ _
               (region_shared newI s2 _ b bk n HnewI2 eq_refl Hbk eq_refl)).
    simpl in Hreg. rewrite Hreg. rewrite Hlen0.
    rewrite bool_decide_true by (rewrite Hlen; lia).
    rewrite (bind_eq _ _ _ tt s2) by done.
    rewrite (bind_eq _ _ _ _ _ (getImage_eq _ _ _ HnewI2)). simpl.
    rewrite (bind_eq _ _ _ _ _ (getBackend_eq _ _ _ Hbk)). done. }
  rewrite (bind_eq _ _ _ _ _ Hrepl).
  set (s3 := set_rimages _ s2).
  (* the image leaves its own texture and takes the place of the new one *)
  pose proof Hext12 as (E1 & E2 & E3 & E4 & E5 & E6).
  destruct (E5 b0 bk0 Hbk0) as (bk0' & Hbk0' & Hsame & _).
  rewrite (Hsame Hpg0) in Hbk0'. clear Hsame bk0'.
  assert (Hk3 : images s3 !! k = Some img).
  { simpl. rewrite Himg2. by rewrite lookup_insert_ne. }
  unfold moveTo.
  rewrite bind_assoc.
  rewrite (bind_eq _ _ _ _ _
             (dispose_private k false s3 img b0 bk0 Hk3 Hd Hb0 Hn Hbk0')).
  unfold getImage, setImage, bind, modify. simpl.
  rewrite lookup_insert_ne by done. rewrite HnewI2. simpl.
  rewrite lookup_insert_eq. simpl.
  eexists _, b, bk, n, x, y. split; [reflexivity|]. simpl.
  destruct (keeps_backends s2 s3) as [Hext23 Htex23]; try done.
  { intros r. apply ReplacePixels_is_Some. }
  split_and!; try done.
  - by rewrite lookup_insert_eq.
  - intros j Hj Hsome. rewrite !lookup_insert_ne by done.
    rewrite Himg2. rewrite lookup_insert_ne.
    + simpl. rewrite lookup_insert_ne; [done|].
      intros <-. rewrite HnewI in Hsome. by destruct Hsome.
    + intros <-. rewrite HnewI in Hsome. by destruct Hsome.
  - intros c ck Hck. simpl. apply Dispose_is_Some, ReplacePixels_is_Some.
    by apply (Htex2 c).
  - eapply extends_trans; [exact Hext01|].
    eapply extends_trans; [exact Hext12|].
    unfold extends. simpl. split_and!; try done.
    + intros c ck Hck. by exists ck.
    + intros r Hr. by apply Dispose_is_Some, ReplacePixels_is_Some.
Qed.

Lemma extends_grows s s' : extends s s' → grows s s'.
Proof. intros (E1 & E2 & E3 & E4 & E5 & E6). unfold grows, extends. done. Qed.

Lemma grows_refl s : grows s s.
Proof. apply extends_grows, extends_refl. Qed.

Lemma grows_trans s1 s2 s3 : grows s1 s2 → grows s2 s3 → grows s1 s3.
Proof.
  intros (_ & A2 & A3 & A4 & A5 & A6) (_ & B2 & B3 & B4 & B5 & B6).
  simpl in *. unfold grows, extends. simpl.
  split_and!; try congruence; eauto.
  intros c ck Hc. destruct (A5 c ck Hc) as (ck' & Hc' & Hn & Hs).
  destruct (B5 c ck' Hc') as (ck'' & Hc'' & Hn' & Hs').
  exists ck''. split_and!; [done| |by eauto].
  intros Hp. pose proof (Hn Hp). subst ck'. by apply Hn'.
Qed.

Lemma grows_candidates f s s' :
  grows s s' → grows s (set_imagesToMakeShared f s').
Proof. done. Qed.

Lemma shareable_grows s s' img :
  grows s s' → shareable s' img = shareable s img.
Proof.
  intros (_ & E2 & E3 & _). simpl in *. unfold shareable, isShareable.
  by rewrite E2, E3.
Qed.

Lemma promotable_grows s s' img :
  grows s s' → promotable s img → promotable s' img.
Proof.
  intros Hg (Hd & Hn & (b & bk & Hb & Hbk & Hpg) & Hsh & Hw & Hh).
  pose proof (shareable_grows s s' img Hg) as Hsh'.
  destruct Hg as (_ & _ & _ & _ & E5 & _). simpl in *.
  destruct (E5 b bk Hbk) as (bk' & Hbk' & Hsame & _).
  rewrite (Hsame Hpg) in Hbk'.
  unfold promotable. split_and!; try done; [|congruence].
  by exists b, bk.
Qed.

Lemma acceptable_grows s s' img :
  grows s s' → acceptable s img → acceptable s' img.
Proof.
  intros Hg [[Hb Hsh]|[Hs|Hp]].
  - left. split; [done|]. by rewrite (shareable_grows s s' img Hg).
  - right. by left.
  - right. right. by eapply promotable_grows.
Qed.

Lemma candidate_ok_grows s s' img :
  grows s s' → candidate_ok s img → candidate_ok s' img.
Proof.
  intros Hg [Hc Ha]. split; [done|]. intros Hten.
  by eapply acceptable_grows; [|apply Ha].
Qed.

(** [makeShared] returns on an acceptable image and touches no other
    image. *)
Lemma makeShared_acceptable F fuel s k img :
  (F ≤ fuel)%nat → textures_exist s → atlases_ok F s →
  images s !! k = Some img → acceptable s img →
  ∃ s', makeShared fuel k s = Ok (tt, s') ∧
    (∀ j, j ≠ k → is_Some (images s !! j) → images s' !! j = images s !! j) ∧
    textures_exist s' ∧ atlases_ok F s' ∧ extends s s'.
Proof.
  intros HF Htex Hat Hk [[Hb Hsize]|[[[b Hb] [n Hn]]|Hp]].
  - assert (Hms : makeShared fuel k s = allocate fuel k true s).
    { unfold makeShared.
      by rewrite (bind_eq _ _ _ _ _ (getImage_eq _ _ _ Hk)), Hb. }
    rewrite Hms. destruct (shareable s img) eqn:Hsh.
    + destruct (Hsize eq_refl) as [Hw Hh].
      destruct (allocate_shared F fuel k s img HF Htex Hat Hk Hb Hsh Hw Hh)
        as (s' & b & bk & n & x & y & Hrun & Himg & _ & _ & _ & _ & Htex'
            & Hat' & Hext).
      exists s'. split_and!; try done.
      intros j Hj _. rewrite Himg. by rewrite lookup_insert_ne.
    + rewrite (allocate_private fuel k true s img Hk Hb) by by right.
      destruct (allocate_private_keeps F k s img Hk Htex Hat)
        as (Htex' & Hat' & Hext).
      eexists. split; [reflexivity|]. split_and!; try done.
      intros j Hj _. simpl. by rewrite lookup_insert_ne.
  - exists s. split_and!; try done; [|apply extends_refl].
    unfold makeShared.
    rewrite (bind_eq _ _ _ _ _ (getImage_eq _ _ _ Hk)), Hb.
    unfold isShared. rewrite Hn. by rewrite bool_decide_true by by eexists.
  - destruct (makeShared_promotes F fuel s k img HF Htex Hat Hk Hp)
      as (s' & b & bk & n & x & y & Hrun & _ & Hframe & _ & _ & _ & _ & Htex'
          & Hat' & Hext).
    exists s'. split_and!; done.
Qed.

(** One candidate at the frame boundary. *)
Lemma visit_candidate F fuel s k img :
  (F ≤ fuel)%nat → textures_exist s → atlases_ok F s →
  images s !! k = Some img → candidate_ok s img →
  ∃ s1,
    visit fuel k s =
      Ok (tt, set_imagesToMakeShared (filter (λ j, j ≠ k)) s1) ∧
    imagesToMakeShared s1 = imagesToMakeShared s ∧
    (∀ j, j ≠ k → is_Some (images s !! j) → images s1 !! j = images s !! j) ∧
    textures_exist s1 ∧ atlases_ok F s1 ∧ grows s s1 ∧
    (nonUpdatedCount img + 1 < MaxCountForShare →
     images s1 !! k =
       Some (with_nonUpdatedCount (nonUpdatedCount img + 1) img)) ∧
    (promotable s img → MaxCountForShare ≤ nonUpdatedCount img + 1 →
     ∃ b bk n x y,
       images s1 !! k = Some (promoted img b n) ∧
       backends s1 !! b = Some bk ∧ is_Some (page bk) ∧
       b ∈ theBackends s1 ∧ Region n = (x, y, width img, height img)).
Proof.
  intros HF Htex Hat Hk [Hc Hacc].
  assert (Hadd : GoInt.add (nonUpdatedCount img) 1 = nonUpdatedCount img + 1).
  { apply wrap_small. change (2 ^ 62) with 4611686018427387904 in Hc.
    change (2 ^ 63) with 9223372036854775808. lia. }
  unfold visit. rewrite (bind_eq _ _ _ _ _ (getImage_eq _ _ _ Hk)), Hadd.
  unfold setImage at 1. unfold bind at 1, modify at 1.
  set (img1 := with_nonUpdatedCount (nonUpdatedCount img + 1) img).
  set (s0 := set_images <[k := img1]> s).
  assert (Hk0 : images s0 !! k = Some img1) by apply lookup_insert_eq.
  destruct (keeps_backends s s0) as [Hext0 Htex0]; try done.
  pose proof (keeps_atlases F s s0 eq_refl eq_refl eq_refl Hat) as Hat0.
  destruct (nonUpdatedCount img + 1 >=? MaxCountForShare) eqn:Hten.
  - assert (Hten' : MaxCountForShare ≤ nonUpdatedCount img + 1) by lia.
    assert (Hacc0 : acceptable s0 img1).
    { apply (acceptable_grows s s0); [by apply extends_grows|].
      destruct (Hacc Hten') as [[Hb Hsh]|[Hs|Hp]].
      - left. done.
      - right. by left.
      - right. right. done. }
    assert (Hother : ¬ promotable s img →
      ∃ s1,
        (makeShared fuel k ;; deleteCandidate k) s0 =
          Ok (tt, set_imagesToMakeShared (filter (λ j, j ≠ k)) s1) ∧
        imagesToMakeShared s1 = imagesToMakeShared s ∧
        (∀ j, j ≠ k → is_Some (images s !! j) →
              images s1 !! j = images s !! j) ∧
        textures_exist s1 ∧ atlases_ok F s1 ∧ grows s s1).
    { intros _.
      destruct (makeShared_acceptable F fuel s0 k img1 HF (Htex0 Htex) Hat0
                  Hk0 Hacc0)
        as (s1 & Hrun & Hframe & Htex1 & Hat1 & Hext1).
      rewrite (bind_eq _ _ _ _ _ Hrun).
      exists s1. split_and!; try done.
      * destruct Hext1 as (E1 & _). by rewrite E1.
      * intros j Hj Hsome. rewrite Hframe; [|done|].
        -- simpl. by rewrite lookup_insert_ne.
        -- simpl. by rewrite lookup_insert_ne.
      * apply (grows_trans s s0 s1); by apply extends_grows. }
    destruct (Hacc Hten') as [[Hb Hsh]|[[_ [n0 Hn0]]|Hp]].
    + assert (Hnp : ¬ promotable s img).
      { intros (_ & _ & (b & bk & Hb' & _) & _). congruence. }
      destruct (Hother Hnp) as (s1 & Hrun & Hset & Hframe & Htex1 & Hat1 & Hg).
      exists s1. split_and!; try done.
      * intros Hlt. unfold MaxCountForShare in *. lia.
    + assert (Hnp : ¬ promotable s img).
      { intros (_ & Hn' & _). congruence. }
      destruct (Hother Hnp) as (s1 & Hrun & Hset & Hframe & Htex1 & Hat1 & Hg).
      exists s1. split_and!; try done.
      * intros Hlt. unfold MaxCountForShare in *. lia.
    + assert (Hp0 : promotable s0 img1).
      { by apply (promotable_grows s s0); [apply extends_grows|]. }
      destruct (makeShared_promotes F fuel s0 k img1 HF (Htex0 Htex) Hat0 Hk0 Hp0)
        as (s1 & b & bk & n & x & y & Hrun & Hk1 & Hframe & Hbk & Hpg & Hin
            & Hreg & Htex1 & Hat1 & Hext1).
      rewrite (bind_eq _ _ _ _ _ Hrun).
      exists s1. split_and!; try done.
      * destruct Hext1 as (E1 & _). by rewrite E1.
      * intros j Hj Hsome. rewrite Hframe; [|done|].
        -- simpl. by rewrite lookup_insert_ne.
        -- simpl. by rewrite lookup_insert_ne.
      * apply (grows_trans s s0 s1); by apply extends_grows.
      * intros Hlt. unfold MaxCountForShare in *. lia.
      * intros _ _. by exists b, bk, n, x, y.
  - exists s0. split_and!; try done; try (by apply extends_grows);
      try (intros j Hj _; simpl; by rewrite lookup_insert_ne);
      try (intros _ Hten'; unfold MaxCountForShare in *; lia).
Qed.

Lemma filter_not_head (k : nat) (l : list nat) (cs : list nat) :
  filter (λ j, j ∉ l) (filter (λ j, j ≠ k) cs) = filter (λ j, j ∉ k :: l) cs.
Proof.
  rewrite list_filter_filter. apply list_filter_iff. intros j.
  rewrite not_elem_of_cons. tauto.
Qed.

Lemma filter_none (l cs : list nat) :
  (∀ x, x ∈ cs → x ∈ l) → filter (λ j, j ∉ l) cs = [].
Proof.
  induction cs as [|c cs IH]; intros Hsub; [done|].
  rewrite filter_cons_False.
  - apply IH. intros x Hx. apply Hsub. by right.
  - intros Hc. apply Hc, Hsub. by left.
Qed.

(** The pass over the candidates.  Every candidate is visited once: its
    count grows by one when that stays below [MaxCountForShare], and a
    promotable candidate whose count reaches it is put on an atlas. *)
Lemma candidates_loop F fuel : ∀ l s,
  (F ≤ fuel)%nat → textures_exist s → atlases_ok F s → NoDup l →
  (∀ j, j ∈ l → ∃ img, images s !! j = Some img ∧ candidate_ok s img) →
  ∃ s',
    forM l (visit fuel) s = Ok (tt, s') ∧
    textures_exist s' ∧ atlases_ok F s' ∧ grows s s' ∧
    imagesToMakeShared s' = filter (λ j, j ∉ l) (imagesToMakeShared s) ∧
    (∀ j, j ∉ l → is_Some (images s !! j) → images s' !! j = images s !! j) ∧
    (∀ i img, i ∈ l → images s !! i = Some img →
       (nonUpdatedCount img + 1 < MaxCountForShare →
        images s' !! i =
          Some (with_nonUpdatedCount (nonUpdatedCount img + 1) img)) ∧
       (promotable s img → MaxCountForShare ≤ nonUpdatedCount img + 1 →
        ∃ b bk n x y,
          images s' !! i = Some (promoted img b n) ∧
          backends s' !! b = Some bk ∧ is_Some (page bk) ∧
          b ∈ theBackends s' ∧ Region n = (x, y, width img, height img))).
Proof.
  induction l as [|k l IH]; intros s HF Htex Hat Hnd Hcand.
  - exists s. split_and!; try done.
    + apply grows_refl.
    + symmetry. induction (imagesToMakeShared s) as [|c cs IHc]; [done|].
      rewrite filter_cons_True; [by f_equal|]. by intros ?%elem_of_nil.
    + intros i img Hi. by apply elem_of_nil in Hi.
  - apply NoDup_cons in Hnd as [Hk Hnd].
    destruct (Hcand k) as (img & Himg & Hok); [by left|].
    destruct (visit_candidate F fuel s k img HF Htex Hat Himg Hok)
      as (s1 & Hrun & Hset1 & Hframe1 & Htex1 & Hat1 & Hg1 & Hlt1 & Hten1).
    set (s1' := set_imagesToMakeShared (filter (λ j, j ≠ k)) s1) in *.
    destruct (IH s1' HF) as (s' & Hrun' & Htex' & Hat' & Hg' & Hset' & Hframe'
                            & Hres'); try done.
    { intros j Hj. destruct (Hcand j) as (imgj & Hj1 & Hj2); [by right|].
      exists imgj. split.
      - simpl. rewrite Hframe1; [done| |by eexists]. intros ->. done.
      - by apply (candidate_ok_grows s s1'). }
    exists s'. split_and!; try done.
    + simpl. by rewrite (bind_eq _ _ _ _ _ Hrun).
    + by apply (grows_trans s s1' s').
    + rewrite Hset'. simpl. rewrite Hset1. apply filter_not_head.
    + intros j Hj Hsome. apply not_elem_of_cons in Hj as [Hjk Hjl].
      rewrite Hframe'; [|done|].
      * simpl. by apply Hframe1.
      * simpl. rewrite Hframe1; done.
    + intros i imgi [->|Hi]%elem_of_cons Himgi.
      * assert (imgi = img) by congruence. subst imgi. split.
        -- intros Hlt. rewrite Hframe'; [by apply Hlt1|done|].
           simpl. rewrite (Hlt1 Hlt). by eexists.
        -- intros Hp Hten.
           destruct (Hten1 Hp Hten) as (b & bk & n & x & y & Hk1 & Hbk & Hpg
                                        & Hin & Hreg).
           destruct Hg' as (_ & _ & _ & G4 & G5 & _). simpl in *.
           destruct (G5 b bk Hbk) as (bk' & Hbk' & _ & Hpg').
           exists b, bk', n, x, y. split_and!; try done; [|by apply Hpg'|by apply G4].
           rewrite Hframe'; [done|done|]. simpl. rewrite Hk1. by eexists.
      * assert (Hik : i ≠ k) by (intros ->; done).
        assert (Hi1 : images s1' !! i = Some imgi).
        { simpl. rewrite Hframe1; [done|done|by eexists]. }
        destruct (Hres' i imgi Hi Hi1) as [Hlt Hten]. split; [done|].
        intros Hp. apply Hten. by apply (promotable_grows s s1').
Qed.

(** [makeImagesShared] at a frame boundary. *)
Lemma makeImagesShared_boundary F fuel s :
  (F ≤ fuel)%nat → ready F s →
  ∃ s',
    makeImagesShared fuel s = Ok (tt, s') ∧
    textures_exist s' ∧ atlases_ok F s' ∧ grows s s' ∧
    imagesToMakeShared s' = [] ∧
    (∀ j, j ∉ imagesToMakeShared s → is_Some (images s !! j) →
          images s' !! j = images s !! j) ∧
    (∀ i img, i ∈ imagesToMakeShared s → images s !! i = Some img →
       (nonUpdatedCount img + 1 < MaxCountForShare →
        images s' !! i =
          Some (with_nonUpdatedCount (nonUpdatedCount img + 1) img)) ∧
       (promotable s img → MaxCountForShare ≤ nonUpdatedCount img + 1 →
        ∃ b bk n x y,
          images s' !! i = Some (promoted img b n) ∧
          backends s' !! b = Some bk ∧ is_Some (page bk) ∧
          b ∈ theBackends s' ∧ Region n = (x, y, width img, height img))).
Proof.
  intros HF (Htex & Hat & Hnd & Hcand).
  destruct (candidates_loop F fuel (imagesToMakeShared s) s HF Htex Hat Hnd Hcand)
    as (s' & Hrun & Htex' & Hat' & Hg & Hset & Hframe & Hres).
  exists s'. split_and!; try done.
  rewrite Hset. by apply filter_none.
Qed.

End WithLaws.
End ShareablePromotion.

(** ** Package shareable: an image that is used as a source only *)

Module ShareableSource.
Import Shareable ShareableBasics RestorableFacts ShareableDispose
  ShareableTryAlloc Invariants ShareableAllocate ShareablePromotion.
Section Shareable.
Context `{Extern}.

Lemma keeps_others_refl j s : keeps_others j s s.
Proof. done. Qed.

Lemma keeps_others_trans j s1 s2 s3 :
  keeps_others j s1 s2 → keeps_others j s2 s3 → keeps_others j s1 s3.
Proof.
  intros (A1 & A2 & A3 & A4) (B1 & B2 & B3 & B4).
  split_and!; try congruence. intros i Hi. by rewrite B1, A1.
Qed.

Lemma newRestorable_inv f s r s' :
  newRestorable f s = Ok (r, s') →
  s' = set_rimages (λ _, (f (rimages s)).2) s.
Proof.
  unfold newRestorable. destruct (f (rimages s)). by intros [= <- <-].
Qed.

Lemma newBackend_inv v s b s' :
  newBackend v s = Ok (b, s') →
  s' = set_backends <[fresh (dom (backends s)) := v]> s.
Proof. unfold newBackend. by intros [= <- <-]. Qed.

Lemma region_inv i s r s' : region i s = Ok (r, s') → s' = s.
Proof. unfold region. intros Hr. minvs; done. Qed.

Lemma dispose_keeps_others j mark s u s' :
  dispose j mark s = Ok (u, s') → keeps_others j s s'.
Proof.
  unfold dispose, onRestorable, setBackend, setImage. intros Hrun.
  minvs;
    repeat match goal with
           | Hr : region _ _ = Ok _ |- _ => apply region_inv in Hr; subst
           end;
    (split_and!; [intros i Hi; simpl; by rewrite lookup_insert_ne|done..]).
Qed.

Lemma ensureNotShared_keeps_others fuel j s u s' :
  ensureNotShared fuel j s = Ok (u, s') → keeps_others j s s'.
Proof.
  unfold ensureNotShared. intros Hrun. minv.
  minv_case.
  - minv_case; minv; [apply keeps_others_refl|].
    match goal with Hr : region _ _ = Ok _ |- _ =>
      apply region_inv in Hr; subst end.
    minv.
    match goal with Hr : newRestorable _ _ = Ok _ |- _ =>
      apply newRestorable_inv in Hr; subst end.
    minv. unfold onRestorable in *. minv.
    match goal with Hd : dispose _ _ _ = Ok _ |- _ =>
      apply dispose_keeps_others in Hd; destruct Hd as (D1 & D2 & D3 & D4) end.
    match goal with Hr : newBackend _ _ = Ok _ |- _ =>
      apply newBackend_inv in Hr; subst end.
    unfold setImage in *. minv. simpl in *.
    split_and!; try done.
    intros i Hi. simpl. rewrite lookup_insert_ne by done. by apply D1.
  - unfold allocate in Hrun. minv. minv_case; try done. simpl in Hrun. minv.
    match goal with Hr : newRestorable _ _ = Ok _ |- _ =>
      apply newRestorable_inv in Hr; subst end.
    match goal with Hr : newBackend _ _ = Ok _ |- _ =>
      apply newBackend_inv in Hr; subst end.
    unfold setImage in *. minv.
    split_and!; try done. intros i Hi. simpl. by rewrite lookup_insert_ne.
Qed.


End Shareable.
End ShareableSource.

(** ** Package shareable: the invariants between two frame boundaries *)

Module ShareableFrames.
Import Shareable ShareableBasics RestorableFacts ShareableDispose
  ShareableTryAlloc Invariants ShareableAllocate ShareablePromotion
  ShareableSource.
Section WithLaws.
Context `{Extern} `{!PackingLaws}.























End WithLaws.
End ShareableFrames.

(** ** Package shareable: a write of the pixels, then a read *)

Module ShareablePixels.
Import Shareable ShareableBasics RestorableFacts ShareableDispose
  ShareableTryAlloc Invariants ShareableAllocate ShareablePromotion.
Section WithLaws.
Context `{Extern} `{!PackingLaws}.

(** The region of an image that is placed. *)
Lemma region_placed s o img b :
  images s !! o = Some img → backend_ img = Some b → placed s img →
  ∃ bk ox oy,
    backends s !! b = Some bk ∧ is_Some (rimages s !! restorable bk) ∧
    region o s = Ok ((ox, oy, width img, height img), s) ∧
    0 ≤ ox < 2 ^ 31 ∧ 0 ≤ oy < 2 ^ 31 ∧
    ∀ f, (∀ r, Restorable.Size (f (rimages s)) r
               = Restorable.Size (rimages s) r) →
         region o (set_rimages f s)
           = Ok ((ox, oy, width img, height img), set_rimages f s).
Proof.
  intros Hi Hb [_ Hpl]. destruct (Hpl b Hb) as (bk & ri & Hbk & Hri & Hreg).
  destruct (node img) as [n|] eqn:Hn.
  - destruct Hreg as (x & y & Hreg).
    destruct (region_origin n x y _ _ Hreg) as [Hx Hy].
    exists bk, x, y. split_and!; try done; try lia.
    + by rewrite (region_shared o s img b bk n Hi Hb Hbk Hn), Hreg.
    + intros f _.
      by rewrite (region_shared o (set_rimages f s) img b bk n Hi Hb Hbk Hn),
        Hreg.
  - destruct Hreg as [Hw Hh].
    exists bk, 0, 0. split_and!; try done; try lia.
    + rewrite (region_private o s img b bk Hi Hb Hbk Hn).
      unfold Restorable.Size. rewrite Hri. simpl. by rewrite Hw, Hh.
    + intros f Hf.
      rewrite (region_private o (set_rimages f s) img b bk Hi Hb Hbk Hn).
      simpl. rewrite Hf. unfold Restorable.Size. rewrite Hri. simpl.
      by rewrite Hw, Hh.
Qed.

(** On an image with a backend: [replacePixels] writes the region, and
    [at] then reads the bytes that were written. *)
Lemma allocated_write_read fuel s o img b p x y :
  images s !! o = Some img → disposed img = false →
  backend_ img = Some b → placed s img →
  0 < width img < 2 ^ 30 → 0 < height img < 2 ^ 30 →
  Z.of_nat (length p) = 4 * width img * height img →
  0 ≤ x < width img → 0 ≤ y < height img →
  ∃ s',
    replacePixels fuel o (Some p) s = Ok (tt, s') ∧
    images s' = images s ∧
    at_ o x y s' = Ok (quad p (4 * (y * width img + x)), s').
Proof.
  intros Hi Hd Hb Hpl Hw Hh Hlen Hx Hy.
  destruct (region_placed s o img b Hi Hb Hpl)
    as (bk & ox & oy & Hbk & Hri & Hreg & Hox & Hoy & Hreg').
  set (w := width img) in *. set (h := height img) in *.
  assert (Hmul : GoInt.mul (GoInt.mul 4 w) h = 4 * w * h).
  { unfold GoInt.mul. rewrite (wrap_small (4 * w))
      by (change (2 ^ 63) with 9223372036854775808;
          change (2 ^ 30) with 1073741824 in *; lia).
    apply wrap_small. change (2 ^ 63) with 9223372036854775808.
    change (2 ^ 30) with 1073741824 in *. nia. }
  eexists. split_and!.
  - apply (replacePixels_allocated fuel o s img b bk p ox oy w h); try done.
    by rewrite Hmul.
  - done.
  - unfold at_.
    rewrite (bind_eq _ _ _ img _) by (apply getImage_eq; exact Hi).
    rewrite Hb.
    rewrite (bind_eq _ _ _ _ _ (Hreg' _ (ReplacePixels_Size _ _ _ _ _ _ _))).
    simpl.
    assert ((x <? 0) || (y <? 0) || (x >=? w) || (y >=? h) = false) as ->.
    { destruct (x <? 0) eqn:?; [lia|]. destruct (y <? 0) eqn:?; [lia|].
      destruct (x >=? w) eqn:?; [lia|]. destruct (y >=? h) eqn:?; [lia|].
      done. }
    rewrite (bind_eq _ _ _ bk _) by (apply getBackend_eq; exact Hbk).
    unfold bind, get, ret. simpl. f_equal. f_equal.
    unfold GoInt.add.
    rewrite !wrap_small
      by (change (2 ^ 63) with 9223372036854775808;
          change (2 ^ 31) with 2147483648 in *;
          change (2 ^ 30) with 1073741824 in *; lia).
    rewrite ReplacePixels_At; [|done|].
    + f_equal. lia.
    + unfold Restorable.in_region.
      destruct (ox <=? x + ox) eqn:?; [|lia].
      destruct (x + ox <? ox + w) eqn:?; [|lia].
      destruct (oy <=? y + oy) eqn:?; [|lia].
      destruct (y + oy <? oy + h) eqn:?; [|lia]. done.
Qed.

(** [replacePixels] on an image without a backend allocates it first. *)
Lemma replacePixels_unallocated fuel s s1 o img img1 b p :
  images s !! o = Some img → disposed img = false → backend_ img = None →
  allocate fuel o true s = Ok (tt, s1) →
  images s1 !! o = Some img1 → disposed img1 = false →
  backend_ img1 = Some b →
  replacePixels fuel o (Some p) s = replacePixels fuel o (Some p) s1.
Proof.
  intros Hi Hd Hb Hal Hi1 Hd1 Hb1. unfold replacePixels.
  rewrite (bind_eq _ _ _ _ _ (getImage_eq _ _ _ Hi)), Hd, Hb.
  rewrite (bind_eq _ _ _ _ _ (getImage_eq _ _ _ Hi1)), Hd1, Hb1.
  by rewrite (bind_eq _ _ _ _ _ Hal).
Qed.

(** [ReplacePixels] with a slice of the size of the image returns, and a
    read of a pixel of the image then gives the four bytes of the pixel in
    the slice. *)
Lemma ReplacePixels_then_At F fuel s o img p x y :
  (F ≤ fuel)%nat → textures_exist s → atlases_ok F s →
  images s !! o = Some img → disposed img = false → placed s img →
  0 < width img < 2 ^ 30 → 0 < height img < 2 ^ 30 →
  Z.of_nat (length p) = 4 * width img * height img →
  0 ≤ x < width img → 0 ≤ y < height img →
  ∃ s',
    ReplacePixels fuel o (Some p) s = Ok (tt, s') ∧
    At o x y s' = Ok (quad p (4 * (y * width img + x)), s').
Proof.
  intros HF Htex Hat Hi Hd Hpl Hw Hh Hlen Hx Hy. unfold ReplacePixels, At.
  destruct (backend_ img) as [b|] eqn:Hb.
  - destruct (allocated_write_read fuel s o img b p x y)
      as (s' & Hrun & _ & Hread); try done.
    by exists s'.
  - destruct Hpl as [Hnone _]. pose proof (Hnone Hb) as Hn.
    destruct (shareable s img) eqn:Hsh.
    + destruct (allocate_shared F fuel o s img HF Htex Hat Hi Hb Hsh)
        as (s1 & b & bk & n & ox & oy & Hal & Himg1 & Hbk & Hpg & Hreg & Hin
            & Htex1 & Hat1 & Hext); [lia|lia|].
      assert (Hi1 : images s1 !! o = Some (with_backend (Some b) (Some n) img))
        by (rewrite Himg1; apply lookup_insert_eq).
      destruct (allocated_write_read fuel s1 o _ b p x y Hi1)
        as (s' & Hrun & _ & Hread); try done.
      { split; [done|]. intros b' Hb'. simpl in Hb'. simplify_eq.
        destruct (Htex1 b' bk Hbk) as [ri Hri].
        exists bk, ri. split_and!; try done. by exists ox, oy. }
      exists s'. split; [|done].
      by rewrite (replacePixels_unallocated fuel s s1 o img _ b p Hi Hd Hb Hal
                    Hi1).
    + pose proof (allocate_private fuel o true s img Hi Hb (or_intror Hsh))
        as Hal. simpl in Hal.
      match type of Hal with _ = Ok (tt, ?t) => set (s1 := t) in * end.
      assert (Hi1 : images s1 !! o
                = Some (with_backend (Some (fresh (dom (backends s))))
                          (node img) img))
        by apply lookup_insert_eq.
      destruct (allocated_write_read fuel s1 o _ (fresh (dom (backends s)))
                  p x y Hi1)
        as (s' & Hrun & _ & Hread); try done.
      { split; [done|]. intros b' Hb'. simpl in Hb'. simplify_eq. simpl.
        eexists _, _. rewrite !lookup_insert_eq. split_and!; try done.
        - simpl. apply lookup_insert_eq.
        - by rewrite Hn. }
      exists s'. split; [|done].
      by rewrite (replacePixels_unallocated fuel s s1 o img _
                    (fresh (dom (backends s))) p Hi Hd Hb Hal Hi1).
Qed.

End WithLaws.
End ShareablePixels.

(** ** Package ebiten: [Set], then [At] *)

Module EbitenPixels.
Import GoImage Ebiten EbitenReads Invariants ShareableAllocate
  ShareablePromotion ShareablePixels.

(** Four writes into a slice, then a read of the four bytes. *)
Lemma store_quad (pix : list Z) idx v0 v1 v2 v3 :
  0 ≤ idx → idx + 3 < Z.of_nat (length pix) →
  ∃ p1 p2 p3 p4,
    store pix idx v0 = Ok p1 ∧ store p1 (idx + 1) v1 = Ok p2 ∧
    store p2 (idx + 2) v2 = Ok p3 ∧ store p3 (idx + 3) v3 = Ok p4 ∧
    length p4 = length pix ∧ quad p4 idx = (v0, v1, v2, v3).
Proof.
  intros H0 Hlen.
  destruct (store_ok pix idx v0) as (p1 & Hs1 & Hl1); [lia|].
  destruct (store_ok p1 (idx + 1) v1) as (p2 & Hs2 & Hl2); [lia|].
  destruct (store_ok p2 (idx + 2) v2) as (p3 & Hs3 & Hl3); [lia|].
  destruct (store_ok p3 (idx + 3) v3) as (p4 & Hs4 & Hl4); [lia|].
  exists p1, p2, p3, p4. split_and!; try done; [congruence|].
  revert Hs1 Hs2 Hs3 Hs4. unfold store.
  repeat match goal with
         | |- context [(0 <=? ?a) && (?a <? ?b)] =>
             destruct ((0 <=? a) && (a <? b)); [|done]
         end.
  intros [= <-] [= <-] [= <-] [= <-]. unfold quad.
  rewrite !nth_lookup.
  assert (Hn : ∀ d, 0 ≤ d ≤ 3 → (Z.to_nat (idx + d) < length pix)%nat)
    by (intros; lia).
  f_equal; [f_equal; [f_equal|]|].
  - rewrite !list_lookup_insert_ne by lia.
    rewrite list_lookup_insert_eq; [done|]. lia.
  - rewrite !list_lookup_insert_ne by lia.
    rewrite list_lookup_insert_eq; [done|].
    rewrite !length_insert. lia.
  - rewrite !list_lookup_insert_ne by lia.
    rewrite list_lookup_insert_eq; [done|].
    rewrite !length_insert. lia.
  - rewrite list_lookup_insert_eq; [done|].
    rewrite !length_insert. lia.
Qed.

Lemma mul4 w h :
  0 ≤ w < 2 ^ 30 → 0 ≤ h < 2 ^ 30 →
  GoInt.mul (GoInt.mul 4 w) h = 4 * w * h.
Proof.
  intros Hw Hh. unfold GoInt.mul.
  change (2 ^ 30) with 1073741824 in *.
  rewrite (wrap_small (4 * w))
    by (change (2 ^ 63) with 9223372036854775808; lia).
  apply wrap_small. change (2 ^ 63) with 9223372036854775808. nia.
Qed.

Lemma Size_Rect w h :
  0 ≤ w < 2 ^ 30 → 0 ≤ h < 2 ^ 30 → GoImage.Size (Rect 0 0 w h) = Pt w h.
Proof.
  intros Hw Hh. unfold Rect.
  destruct (0 >? w) eqn:?; [lia|]. destruct (0 >? h) eqn:?; [lia|].
  unfold GoImage.Size, Dx, Dy, GoInt.sub. simpl.
  change (2 ^ 30) with 1073741824 in *.
  rewrite !wrap_small by (change (2 ^ 63) with 9223372036854775808; lia).
  f_equal; lia.
Qed.

(** A loop that keeps the state, with an invariant of the position. *)
Lemma foldM_indexed {S A B} (l : list A) (body : B → A → M S B) (s : S) :
  ∀ (P : nat → B → Prop),
  (∀ acc k x, l !! k = Some x → P k acc →
     ∃ acc', body acc x s = Ok (acc', s) ∧ P (Datatypes.S k) acc') →
  ∀ acc, P O acc →
    ∃ acc', Shareable.foldM l body acc s = Ok (acc', s) ∧ P (length l) acc'.
Proof.
  induction l as [|x l IH]; intros P Hbody acc Hacc.
  - by exists acc.
  - destruct (Hbody acc O x eq_refl Hacc) as (acc1 & Hrun & Hacc1).
    simpl. rewrite (bind_eq _ _ _ _ _ Hrun).
    apply (IH (λ k, P (Datatypes.S k))); [|done].
    intros acc' k y Hy. by apply Hbody.
Qed.

Section Ebiten.
Context `{Extern}.

(** [at] reads only, and returns on an image that is placed. *)
Lemma at_placed o x y s simg :
  Shareable.images s !! o = Some simg → placed s simg →
  ∃ c, Shareable.at_ o x y s = Ok (c, s).
Proof.
  intros Ho [_ Hpl]. destruct (Shareable.backend_ simg) as [b|] eqn:Hb.
  - destruct (Hpl b eq_refl) as (bk & ri & Hbk & _).
    by apply (at_reads o x y s simg b bk).
  - exists transparent. unfold Shareable.at_.
    rewrite (bind_eq _ _ _ simg s)
      by (unfold Shareable.getImage; by rewrite Ho).
    by rewrite Hb.
Qed.

(** The loops of [Set] fill the slice without leaving it. *)
Lemma readBack_returns o w h pix s simg :
  Shareable.images (sh s) !! o = Some simg → placed (sh s) simg →
  0 ≤ w < 2 ^ 30 → 0 ≤ h < 2 ^ 30 →
  Z.of_nat (length pix) = 4 * w * h →
  ∃ pix', readBack (Some o) w h pix s = Ok (pix', s) ∧
          length pix' = length pix.
Proof.
  intros Ho Hpl Hw Hh Hlen. unfold readBack.
  change (2 ^ 30) with 1073741824 in *.
  destruct (foldM_indexed (seqZ 0 h)
              (λ acc j,
                 Shareable.foldM (seqZ 0 w)
                   (λ '(pix, idx) i,
                      let* o := deref (Some o) in
                      let* (r, g, b, a) := onShareable (Shareable.At o i j) in
                      let* pix := lift_result (store pix (GoInt.mul 4 idx) r) in
                      let* pix := lift_result
                        (store pix (GoInt.add (GoInt.mul 4 idx) 1) g) in
                      let* pix := lift_result
                        (store pix (GoInt.add (GoInt.mul 4 idx) 2) b) in
                      let* pix := lift_result
                        (store pix (GoInt.add (GoInt.mul 4 idx) 3) a) in
                      ret (pix, GoInt.add idx 1))
                   acc) s
              (λ k acc, length acc.1 = length pix ∧ acc.2 = Z.of_nat k * w))
    with (acc := (pix, 0)) as ([pix' idx'] & Hrun & Hl' & _).
  - intros [p0 idx0] k j [-> Hk]%lookup_seqZ [Hl0 Hidx0]. simpl in *.
    destruct (foldM_indexed (seqZ 0 w)
                (λ '(pix, idx) i,
                   let* o := deref (Some o) in
                   let* (r, g, b, a) :=
                     onShareable (Shareable.At o i (0 + Z.of_nat k)) in
                   let* pix := lift_result (store pix (GoInt.mul 4 idx) r) in
                   let* pix := lift_result
                     (store pix (GoInt.add (GoInt.mul 4 idx) 1) g) in
                   let* pix := lift_result
                     (store pix (GoInt.add (GoInt.mul 4 idx) 2) b) in
                   let* pix := lift_result
                     (store pix (GoInt.add (GoInt.mul 4 idx) 3) a) in
                   ret (pix, GoInt.add idx 1)) s
                (λ n acc, length acc.1 = length pix ∧
                          acc.2 = Z.of_nat k * w + Z.of_nat n))
      with (acc := (p0, idx0)) as ([p1 idx1] & Hrun1 & Hl1 & Hidx1).
    + intros [p2 idx2] n i [-> Hn]%lookup_seqZ [Hl2 Hidx2]. simpl in *.
      rewrite (bind_eq _ _ _ o s) by done.
      destruct (at_placed o (0 + Z.of_nat n) (0 + Z.of_nat k) (sh s) simg
                  Ho Hpl) as ([[[r g] b] a] & Hat).
      erewrite bind_eq by (apply onShareable_eq; exact Hat).
      rewrite set_sh_same.
      assert (Hin : 0 ≤ idx2 ∧ 4 * idx2 + 3 < Z.of_nat (length p2)) by nia.
      assert (Hm : GoInt.mul 4 idx2 = 4 * idx2).
      { apply wrap_small. change (2 ^ 63) with 9223372036854775808. nia. }
      assert (Ha : ∀ d, 0 ≤ d ≤ 3 → GoInt.add (4 * idx2) d = 4 * idx2 + d).
      { intros d Hd. apply wrap_small.
        change (2 ^ 63) with 9223372036854775808. nia. }
      rewrite Hm, !Ha by lia.
      destruct (store_quad p2 (4 * idx2) r g b a)
        as (q1 & q2 & q3 & q4 & Hs1 & Hs2 & Hs3 & Hs4 & Hl4 & _); [lia|lia|].
      rewrite (bind_eq _ _ _ q1 s) by (by apply lift_result_eq).
      rewrite (bind_eq _ _ _ q2 s) by (by apply lift_result_eq).
      rewrite (bind_eq _ _ _ q3 s) by (by apply lift_result_eq).
      rewrite (bind_eq _ _ _ q4 s) by (by apply lift_result_eq).
      eexists. split; [done|]. simpl. split; [congruence|].
      unfold GoInt.add. rewrite wrap_small
        by (change (2 ^ 63) with 9223372036854775808; nia). lia.
    + simpl. split; [done|lia].
    + exists (p1, idx1). split; [done|]. simpl in *. split; [done|].
      rewrite length_seqZ in Hidx1. lia.
  - simpl. split; [done|lia].
  - exists pix'. split; [|done]. by rewrite (bind_eq _ _ _ _ _ Hrun).
Qed.

Lemma Ebiten_getImage_eq i s img :
  fimages s !! i = Some img → getImage i s = Ok (img, s).
Proof. unfold getImage. by intros ->. Qed.

Lemma copyCheck_eq i s img :
  fimages s !! i = Some img → addr img = Some i → copyCheck i s = Ok (tt, s).
Proof.
  intros Hi Ha. unfold copyCheck. rewrite (bind_eq _ _ _ _ _ (Ebiten_getImage_eq _ _ _ Hi)).
  by rewrite bool_decide_true.
Qed.

(** The bounds and the size of an image that is not a sub-image. *)
Lemma Bounds_root root s fr mm o simg :
  fimages s !! root = Some fr → original fr = None →
  mipmaps s !! mipmap_ fr = Some mm → orig mm = Some o →
  Shareable.images (sh s) !! o = Some simg →
  Bounds root s
    = Ok (Rect 0 0 (Shareable.width simg) (Shareable.height simg), s).
Proof.
  intros Hr Ho Hm Hmo Hs. unfold Bounds.
  rewrite (bind_eq _ _ _ _ _ (isDisposed_eq _ _ _ _ Hr Hm)).
  rewrite bool_decide_false by congruence.
  rewrite (bind_eq _ _ _ _ _ (Ebiten_getImage_eq _ _ _ Hr)).
  unfold isSubImage. rewrite Ho.
  rewrite bool_decide_false by (by intros [? ?]). simpl.
  rewrite (bind_eq _ _ _ _ _ (mipmapOriginal_eq _ _ _ _ Hr Hm)), Hmo. simpl.
  rewrite (bind_eq _ _ _ o s) by done.
  erewrite bind_eq.
  2:{ apply onShareable_eq. unfold Shareable.Size.
      rewrite (bind_eq _ _ _ simg (sh s)); [done|].
      unfold Shareable.getImage. by rewrite Hs. }
  by rewrite set_sh_same.
Qed.

Lemma Size_root root s fr mm o simg :
  fimages s !! root = Some fr → original fr = None →
  mipmaps s !! mipmap_ fr = Some mm → orig mm = Some o →
  Shareable.images (sh s) !! o = Some simg →
  0 ≤ Shareable.width simg < 2 ^ 30 → 0 ≤ Shareable.height simg < 2 ^ 30 →
  Ebiten.Size root s = Ok ((Shareable.width simg, Shareable.height simg), s).
Proof.
  intros Hr Ho Hm Hmo Hs Hw Hh. unfold Ebiten.Size.
  rewrite (bind_eq _ _ _ _ _ (Bounds_root _ _ _ _ _ _ Hr Ho Hm Hmo Hs)).
  by rewrite Size_Rect.
Qed.

(** [Set] returns: the root of the image holds pending pixels of the size
    of the image, with the four bytes of the colour at the pixel. *)
Lemma Set_pending st i o sub bnds pending simg x y r g b a :
  isRunning st ≠ 0 → genuine st i o sub bnds pending →
  (sub = true → In (Pt x y) bnds = true) →
  Shareable.images (sh st) !! o = Some simg → placed (sh st) simg →
  0 < Shareable.width simg < 2 ^ 30 → 0 < Shareable.height simg < 2 ^ 30 →
  0 ≤ x < Shareable.width simg → 0 ≤ y < Shareable.height simg →
  (∀ p, pending = Some p →
        Z.of_nat (length p)
        = 4 * Shareable.width simg * Shareable.height simg) →
  ∃ st1 pix,
    Set_ i x y (r, g, b, a) st = Ok (tt, st1) ∧
    sh st1 = sh st ∧ isRunning st1 = isRunning st ∧
    genuine st1 i o sub bnds (Some pix) ∧
    Z.of_nat (length pix)
      = 4 * Shareable.width simg * Shareable.height simg ∧
    quad pix (4 * (y * Shareable.width simg + x))
      = (GoInt.byte (Z.shiftr r 8), GoInt.byte (Z.shiftr g 8),
         GoInt.byte (Z.shiftr b 8), GoInt.byte (Z.shiftr a 8)).
Proof.
  intros Hrun (fi & root & fr & mm & Hi & Hai & Hsub & Hbnds & Hroot & Hr
               & Har & Hor & Hmr & Hpend & Hm & Hmo & Hlv)
    Hin Ho Hpl Hw Hh Hx Hy Hlen.
  set (w := Shareable.width simg) in *. set (h := Shareable.height simg) in *.
  assert (Hm' : mipmaps st !! mipmap_ fr = Some mm) by by rewrite Hmr.
  assert (Hroot' : match original fi with Some o0 => o0 | None => i end = root)
    by (rewrite Hroot; by destruct (original fi)).
  (* the slice of pending pixels *)
  assert (Hpre : ∃ st_a pa,
    (match pendingPixels fr with
     | Some _ => ret tt
     | None =>
         let* pix := lift_result (make_bytes (GoInt.mul (GoInt.mul 4 w) h)) in
         let* o := mipmapOriginal root in
         let* pix := readBack o w h pix in
         let* im := getImage root in
         setImage root (with_pendingPixels (Some pix) im)
     end) st = Ok (tt, st_a) ∧
    fimages st_a = <[root := with_pendingPixels (Some pa) fr]> (fimages st) ∧
    sh st_a = sh st ∧ mipmaps st_a = mipmaps st ∧
    isRunning st_a = isRunning st ∧
    Z.of_nat (length pa) = 4 * w * h).
  { destruct (pendingPixels fr) as [p0|] eqn:Hp.
    - exists st, p0. split_and!; try done; [|by apply Hlen].
      rewrite insert_id; [done|]. rewrite Hr. f_equal.
      destruct fr; simpl in *; by subst.
    - rewrite (mul4 w h) by lia.
      assert (Hmk : make_bytes (4 * w * h)
                    = Ok (replicate (Z.to_nat (4 * w * h)) 0)).
      { unfold make_bytes. destruct (4 * w * h <? 0) eqn:?; [nia|done]. }
      rewrite (bind_eq _ _ _ _ st (lift_result_eq _ _ _ Hmk)).
      rewrite (bind_eq _ _ _ _ _ (mipmapOriginal_eq _ _ _ _ Hr Hm')), Hmo.
      destruct (readBack_returns o w h (replicate (Z.to_nat (4 * w * h)) 0)
                  st simg Ho Hpl) as (pa & Hrb & Hla); [lia|lia| |].
      { rewrite length_replicate. nia. }
      rewrite (bind_eq _ _ _ _ _ Hrb).
      rewrite (bind_eq _ _ _ _ _ (Ebiten_getImage_eq _ _ _ Hr)).
      eexists _, pa. split; [reflexivity|]. simpl.
      split_and!; try done. rewrite Hla, length_replicate. nia. }
  destruct Hpre as (st_a & pa & Hpre & Hfa & Hsa & Hma & Hra & Hla).
  assert (Hidx : GoInt.mul 4 (GoInt.add x (GoInt.mul y w)) = 4 * (y * w + x)).
  { unfold GoInt.mul, GoInt.add. change (2 ^ 30) with 1073741824 in *.
    rewrite (wrap_small (y * w))
      by (change (2 ^ 63) with 9223372036854775808; nia).
    rewrite (wrap_small (x + y * w))
      by (change (2 ^ 63) with 9223372036854775808; nia).
    rewrite wrap_small by (change (2 ^ 63) with 9223372036854775808; nia).
    lia. }
  assert (Hadd : ∀ d, 0 ≤ d ≤ 3 →
            GoInt.add (4 * (y * w + x)) d = 4 * (y * w + x) + d).
  { intros d Hd. apply wrap_small. change (2 ^ 30) with 1073741824 in *.
    change (2 ^ 63) with 9223372036854775808. nia. }
  destruct (store_quad pa (4 * (y * w + x)) (GoInt.byte (Z.shiftr r 8))
              (GoInt.byte (Z.shiftr g 8)) (GoInt.byte (Z.shiftr b 8))
              (GoInt.byte (Z.shiftr a 8)))
    as (q1 & q2 & q3 & q4 & Hs1 & Hs2 & Hs3 & Hs4 & Hl4 & Hq); [nia|nia|].
  assert (Hra' : fimages st_a !! root = Some (with_pendingPixels (Some pa) fr))
    by (rewrite Hfa; apply lookup_insert_eq).
  eexists _, q4. split_and!.
  - unfold Set_. rewrite (bind_eq _ _ _ st st) by done.
    destruct (isRunning st =? 0) eqn:E; [lia|].
    rewrite (bind_eq _ _ _ _ _ (copyCheck_eq _ _ _ Hi Hai)).
    rewrite (bind_eq _ _ _ _ _ (isDisposed_eq _ _ _ _ Hi Hm)).
    rewrite bool_decide_false by congruence.
    rewrite (bind_eq _ _ _ _ _ (Ebiten_getImage_eq _ _ _ Hi)).
    assert (isSubImage fi && negb (In (Pt x y) (bounds fi)) = false) as ->.
    { rewrite Hsub, Hbnds. destruct sub; [|done]. by rewrite Hin. }
    rewrite Hroot'.
    rewrite (bind_eq _ _ _ _ _
               (Size_root _ _ _ _ _ _ Hr Hor Hm' Hmo Ho
                  (ltac:(fold w; lia)) (ltac:(fold h; lia)))).
    fold w h.
    rewrite (bind_eq _ _ _ _ _ (Ebiten_getImage_eq _ _ _ Hr)).
    rewrite (bind_eq _ _ _ _ _ Hpre).
    rewrite (bind_eq _ _ _ _ _ (Ebiten_getImage_eq _ _ _ Hra')). simpl.
    rewrite Hidx, !Hadd by lia.
    rewrite (bind_eq _ _ _ q1 st_a) by (by apply lift_result_eq).
    rewrite (bind_eq _ _ _ q2 st_a) by (by apply lift_result_eq).
    rewrite (bind_eq _ _ _ q3 st_a) by (by apply lift_result_eq).
    rewrite (bind_eq _ _ _ q4 st_a) by (by apply lift_result_eq).
    reflexivity.
  - done.
  - done.
  - destruct (decide (i = root)) as [Heq|Hne].
    + exists (with_pendingPixels (Some q4) fr), root,
        (with_pendingPixels (Some q4) fr), mm.
      assert (fi = fr) by congruence. subst fi. simpl.
      rewrite Hma. rewrite <- Heq at 1 2. rewrite lookup_insert_eq.
      rewrite <- Heq. rewrite lookup_insert_eq.
      split_and!; try done; try reflexivity; try congruence.
    + exists fi, root, (with_pendingPixels (Some q4) fr), mm. simpl.
      rewrite Hma. rewrite lookup_insert_ne by done.
      rewrite Hfa, lookup_insert_ne by done. rewrite lookup_insert_eq.
      split_and!; try done; try reflexivity; try congruence.
  - congruence.
  - done.
Qed.

End Ebiten.

Section WithLaws.
Context `{Extern} `{!PackingLaws}.

(** [resolvePendingPixels] on a root that holds pending pixels writes them
    to the image and drops them; a read of the image then gives the bytes
    of the slice. *)
Lemma resolve_root F f st root fr mm o simg pix x y :
  (F ≤ f)%nat →
  fimages st !! root = Some fr → addr fr = Some root → original fr = None →
  pendingPixels fr = Some pix →
  mipmaps st !! mipmap_ fr = Some mm → orig mm = Some o → imgs mm = [] →
  Shareable.images (sh st) !! o = Some simg →
  Shareable.disposed simg = false → placed (sh st) simg →
  textures_exist (sh st) → atlases_ok F (sh st) →
  0 < Shareable.width simg < 2 ^ 30 → 0 < Shareable.height simg < 2 ^ 30 →
  0 ≤ x < Shareable.width simg → 0 ≤ y < Shareable.height simg →
  Z.of_nat (length pix) = 4 * Shareable.width simg * Shareable.height simg →
  ∃ s',
    resolvePendingPixels (S (S f)) root true st =
      Ok (tt, set_fimages <[root := with_pendingPixels None fr]>
                (set_mipmaps
                   <[mipmap_ fr := {| orig := orig mm; imgs := [] |}]>
                   (set_sh (λ _, s')
                      (set_fimages <[root := with_pendingPixels None fr]>
                         st)))) ∧
    Shareable.At o x y s'
      = Ok (quad pix (4 * (y * Shareable.width simg + x)), s').
Proof.
  intros HF Hr Har Hor Hp Hm Hmo Hlv Ho Hd Hpl Htex Hat Hw Hh Hx Hy Hlen.
  set (w := Shareable.width simg) in *. set (h := Shareable.height simg) in *.
  destruct (ReplacePixels_then_At F (S f) (sh st) o simg pix x y)
    as (s' & Hwrite & Hread); try done; [lia|].
  exists s'. split; [|done].
  set (fr0 := with_pendingPixels None fr).
  set (st_b := set_fimages <[root := fr0]> st).
  assert (Hrb : fimages st_b !! root = Some fr0) by apply lookup_insert_eq.
  assert (Hmb : mipmaps st_b !! mipmap_ fr0 = Some mm) by done.
  change (resolvePendingPixels (S (S f)) root true st) with
    ((let* img := getImage root in
      match original img with
      | Some o => resolvePendingPixels (S f) o true
      | None =>
          match pendingPixels img with
          | None => ret tt
          | Some p =>
              if negb true then setImage root (with_pendingPixels None img)
              else
                ReplacePixelsWith (resolvePendingPixels (S f)) (S f) root p ;;
                let* img := getImage root in
                setImage root (with_pendingPixels None img)
          end
      end) st).
  rewrite (bind_eq _ _ _ _ _ (Ebiten_getImage_eq _ _ _ Hr)), Hor, Hp.
  cbn [negb].
  assert (Hrep : ReplacePixelsWith (resolvePendingPixels (S f)) (S f) root pix st
                 = Ok (tt, set_mipmaps
                             <[mipmap_ fr := {| orig := orig mm; imgs := [] |}]>
                             (set_sh (λ _, s') st_b))).
  { unfold ReplacePixelsWith.
    rewrite (bind_eq _ _ _ _ _ (copyCheck_eq _ _ _ Hr Har)).
    rewrite (bind_eq _ _ _ _ _ (isDisposed_eq _ _ _ _ Hr Hm)).
    rewrite bool_decide_false by congruence.
    rewrite (bind_eq _ _ _ _ _ (Ebiten_getImage_eq _ _ _ Hr)).
    unfold isSubImage. rewrite Hor.
    rewrite bool_decide_false by (by intros [? ?]).
    rewrite (bind_eq _ _ _ tt st_b).
    2:{ simpl. rewrite (bind_eq _ _ _ _ _ (Ebiten_getImage_eq _ _ _ Hr)), Hor, Hp.
        done. }
    rewrite (bind_eq _ _ _ _ _
               (Bounds_root root st_b fr0 mm o simg Hrb Hor Hmb Hmo Ho)).
    rewrite Size_Rect by (fold w h; lia). simpl. fold w h.
    rewrite mul4 by lia.
    rewrite bool_decide_true by done. simpl.
    rewrite (bind_eq _ _ _ _ _ (mipmapOriginal_eq _ _ _ _ Hrb Hmb)), Hmo.
    simpl. rewrite (bind_eq _ _ _ o st_b) by done.
    rewrite (bind_eq _ _ _ _ _ (onShareable_eq _ st_b _ _ Hwrite)).
    unfold disposeMipmaps.
    erewrite bind_eq.
    2:{ apply (isDisposed_eq root _ fr0 mm); [exact Hrb|exact Hmb]. }
    rewrite bool_decide_false by congruence.
    rewrite (bind_eq _ _ _ fr0 _) by (apply Ebiten_getImage_eq; exact Hrb).
    unfold mipmapDisposeMipmaps.
    rewrite (bind_eq _ _ _ mm _) by (unfold getMipmap; simpl; by rewrite Hm).
    rewrite Hlv, ?Hmo. reflexivity. }
  rewrite (bind_eq _ _ _ _ _ Hrep).
  rewrite (bind_eq _ _ _ fr0 _) by (apply Ebiten_getImage_eq; exact Hrb).
  reflexivity.
Qed.

(** [At] on an image whose root holds pending pixels gives the bytes of
    the slice. *)
Lemma At_pending F fuel st i o sub bnds pix simg x y :
  (F + 3 ≤ fuel)%nat → isRunning st ≠ 0 →
  genuine st i o sub bnds (Some pix) →
  (sub = true → In (Pt x y) bnds = true) →
  Shareable.images (sh st) !! o = Some simg →
  Shareable.disposed simg = false → placed (sh st) simg →
  textures_exist (sh st) → atlases_ok F (sh st) →
  0 < Shareable.width simg < 2 ^ 30 → 0 < Shareable.height simg < 2 ^ 30 →
  0 ≤ x < Shareable.width simg → 0 ≤ y < Shareable.height simg →
  Z.of_nat (length pix) = 4 * Shareable.width simg * Shareable.height simg →
  ∃ st2,
    At fuel i x y st
      = Ok (quad pix (4 * (y * Shareable.width simg + x)), st2) ∧
    genuine st2 i o sub bnds None.
Proof.
  intros HF Hrun (fi & root & fr & mm & Hi & Hai & Hsub & Hbnds & Hroot & Hr
                  & Har & Hor & Hmr & Hpend & Hm & Hmo & Hlv)
    Hin Ho Hd Hpl Htex Hat Hw Hh Hx Hy Hlen.
  assert (Hm' : mipmaps st !! mipmap_ fr = Some mm) by by rewrite Hmr.
  destruct fuel as [|[|[|f]]]; try lia.
  destruct (resolve_root F (S f) st root fr mm o simg pix x y)
    as (s' & Hres & Hread); try done; [lia|].
  destruct (resolve_root F f st root fr mm o simg pix x y)
    as (s'' & Hres' & Hread'); try done; [lia|].
  set (fr0 := with_pendingPixels None fr) in *.
  assert (Hfinal : ∃ s3 : Shareable.State,
    resolvePendingPixels (S (S (S f))) i true st
      = Ok (tt, set_fimages <[root := fr0]>
                  (set_mipmaps
                     <[mipmap_ fr := {| orig := orig mm; imgs := [] |}]>
                     (set_sh (λ _, s3) (set_fimages <[root := fr0]> st)))) ∧
    Shareable.At o x y s3
      = Ok (quad pix (4 * (y * Shareable.width simg + x)), s3)).
  { destruct (original fi) as [r0|] eqn:Hofi.
    - simpl in Hroot. subst r0. exists s''. split; [|done].
      rewrite <- Hres'.
      change (resolvePendingPixels (S (S (S f))) i true st) with
        ((let* img := getImage i in
          match original img with
          | Some o => resolvePendingPixels (S (S f)) o true
          | None =>
              match pendingPixels img with
              | None => ret tt
              | Some p =>
                  if negb true then setImage i (with_pendingPixels None img)
                  else
                    ReplacePixelsWith (resolvePendingPixels (S (S f)))
                      (S (S f)) i p ;;
                    let* img := getImage i in
                    setImage i (with_pendingPixels None img)
              end
          end) st).
      by rewrite (bind_eq _ _ _ _ _ (Ebiten_getImage_eq _ _ _ Hi)), Hofi.
    - simpl in Hroot. subst root. exists s'. by split. }
  destruct Hfinal as (s3 & Hres3 & Hread3).
  set (st2 := set_fimages _ _) in Hres3.
  assert (Hi2 : ∃ fi2, fimages st2 !! i = Some fi2 ∧ addr fi2 = Some i ∧
            isSubImage fi2 = sub ∧ bounds fi2 = bnds ∧
            original fi2 = original fi ∧ mipmap_ fi2 = mipmap_ fi).
  { destruct (decide (i = root)) as [Heq|Hne].
    - assert (fi = fr) by congruence. subst fi. exists fr0.
      unfold st2. simpl. rewrite <- Heq. rewrite lookup_insert_eq. done.
    - exists fi. unfold st2. simpl. rewrite !lookup_insert_ne by done. done. }
  destruct Hi2 as (fi2 & Hi2 & Hai2 & Hsub2 & Hbnds2 & Hofi2 & Hmi2).
  assert (Hm2 : mipmaps st2 !! mipmap_ fi2
                = Some {| orig := orig mm; imgs := [] |}).
  { unfold st2. simpl. rewrite Hmi2, <- Hmr. apply lookup_insert_eq. }
  exists (set_sh (λ _, s3) st2). split.
  - unfold At. rewrite (bind_eq _ _ _ st st) by done.
    destruct (isRunning st =? 0) eqn:E; [lia|].
    rewrite (bind_eq _ _ _ _ _ (isDisposed_eq _ _ _ _ Hi Hm)).
    rewrite bool_decide_false by congruence.
    rewrite (bind_eq _ _ _ _ _ (Ebiten_getImage_eq _ _ _ Hi)).
    assert (isSubImage fi && negb (In (Pt x y) (bounds fi)) = false) as ->.
    { rewrite Hsub, Hbnds. destruct sub; [|done]. by rewrite Hin. }
    rewrite (bind_eq _ _ _ _ _ Hres3).
    rewrite (bind_eq _ _ _ _ _ (mipmapOriginal_eq _ _ _ _ Hi2 Hm2)).
    simpl orig. rewrite Hmo. simpl.
    rewrite (bind_eq _ _ _ o st2) by done.
    apply onShareable_eq. exact Hread3.
  - exists fi2, root, fr0, {| orig := orig mm; imgs := [] |}.
    split_and!; try done; try (simpl; congruence);
      try (simpl; apply lookup_insert_eq).
Qed.

(** C7.  On a handle that has not been copied, of an image that is not
    disposed and has no other mipmap level, with the main loop running and
    (x, y) inside the image (and inside the bounds of the handle when it is
    a sub-image): [Set] returns, and an [At] of the same pixel right after
    it returns the colour that was set, as the four bytes [byte(r >> 8)],
    [byte(g >> 8)], [byte(b >> 8)] and [byte(a >> 8)] of the values
    (r, g, b, a) that the method RGBA of the colour gives.  The level-0
    image is not disposed and is placed, the invariants of package
    shareable hold, the sides of the image are less than 2^30, and pending
    pixels, if there are any, have the size of the image. *)
Theorem Set_then_At (F fuel : nat) (st : State) (i o : nat) (sub : bool)
    (bnds : Rectangle) (pending : option (list Z)) (simg : Shareable.Image)
    (x y r g b a : Z) :
  (F + 3 ≤ fuel)%nat → isRunning st ≠ 0 →
  genuine st i o sub bnds pending →
  (sub = true → In (Pt x y) bnds = true) →
  Shareable.images (sh st) !! o = Some simg →
  Shareable.disposed simg = false → placed (sh st) simg →
  textures_exist (sh st) → atlases_ok F (sh st) →
  0 < Shareable.width simg < 2 ^ 30 → 0 < Shareable.height simg < 2 ^ 30 →
  0 ≤ x < Shareable.width simg → 0 ≤ y < Shareable.height simg →
  (∀ p, pending = Some p →
        Z.of_nat (length p)
        = 4 * Shareable.width simg * Shareable.height simg) →
  ∃ st1 st2,
    Set_ i x y (r, g, b, a) st = Ok (tt, st1) ∧
    At fuel i x y st1
      = Ok ((GoInt.byte (Z.shiftr r 8), GoInt.byte (Z.shiftr g 8),
             GoInt.byte (Z.shiftr b 8), GoInt.byte (Z.shiftr a 8)), st2) ∧
    genuine st2 i o sub bnds None.
Proof.
  intros HF Hrun Hgen Hin Ho Hd Hpl Htex Hat Hw Hh Hx Hy Hlen.
  destruct (Set_pending st i o sub bnds pending simg x y r g b a)
    as (st1 & pix & Hset & Hsh & Hrun1 & Hgen1 & Hlen1 & Hq); try done.
  destruct (At_pending F fuel st1 i o sub bnds pix simg x y)
    as (st2 & Hat2 & Hgen2); try done; try (by rewrite Hsh);
    try (by rewrite Hrun1).
  exists st1, st2. split_and!; try done. by rewrite <- Hq.
Qed.

End WithLaws.
End EbitenPixels.

(** * The order of restoring *)

Module RestoreProofs.
Import RestorableImages.
Section Restore.
Variable priority : nat → bool.
Variable dependingImages : nat → list nat.

Lemma before_app_lr (l1 l2 : list nat) a b :
  a ∈ l1 → b ∈ l2 → before (l1 ++ l2) a b.
Proof.
  intros (k1 & k2 & ->)%list_elem_of_split (k3 & k4 & ->)%list_elem_of_split.
  exists k1, (k2 ++ k3), k4. by rewrite <- !app_assoc.
Qed.

Lemma before_app_r (l1 l2 : list nat) a b :
  before l2 a b → before (l1 ++ l2) a b.
Proof.
  intros (k1 & k2 & k3 & ->). exists (l1 ++ k1), k2, k3.
  by rewrite <- app_assoc.
Qed.

Lemma concat_rounds_perm (rs' rs : list (list nat)) :
  Forall2 (≡ₚ) rs' rs → concat rs' ≡ₚ concat rs.
Proof.
  induction 1 as [|r' r rs' rs Hr _ IH]; simpl; [done|]. by rewrite Hr, IH.
Qed.

Lemma filter_local_iff (P Q : nat → Prop) `{!∀ x, Decision (P x)}
    `{!∀ x, Decision (Q x)} (l : list nat) :
  (∀ x, x ∈ l → P x ↔ Q x) → filter P l = filter Q l.
Proof.
  induction l as [|a l IH]; intros Hl; [done|].
  rewrite !filter_cons, IH.
  - apply decide_ext, Hl. by left.
  - intros x Hx. apply Hl. by right.
Qed.

Lemma current_split images (edges : list edge) :
  currentOf images edges ++
    filter (λ i, i ∉ currentOf images edges) images ≡ₚ images.
Proof.
  unfold currentOf.
  rewrite (filter_local_iff (λ i, i ∉ filter _ images)
             (λ i, ¬ (i ∉ target <$> edges)) images).
  - apply filter_app_complement.
  - intros x Hx. rewrite list_elem_of_filter. split; [|tauto].
    intros Hn Hx'. apply Hn. done.
Qed.

(** What a finished sort has done, whatever order Go picked inside the
    rounds. *)
Lemma rounds_sound fuel : ∀ images edges rs rs',
  rounds fuel images edges = sortedInRounds rs →
  Forall2 (≡ₚ) rs' rs →
  concat rs' ≡ₚ images ∧
  ∀ e, e ∈ edges → source e ∈ images → target e ∈ images →
       before (concat rs') (source e) (target e).
Proof.
  induction fuel as [|fuel IH]; intros images edges rs rs' Hr Hperm.
  - destruct images as [|i images]; simpl in Hr.
    + injection Hr as <-. inversion Hperm; subst. split; [done|].
      intros e _ Hs. by apply elem_of_nil in Hs.
    + destruct (currentOf (i :: images) edges); discriminate.
  - destruct images as [|i images].
    { simpl in Hr. injection Hr as <-. inversion Hperm; subst. split; [done|].
      intros e _ Hs. by apply elem_of_nil in Hs. }
    pose proof (current_split (i :: images) edges) as Hsplit.
    simpl in Hr.
    set (imgs := i :: images) in *.
    destruct (currentOf imgs edges) as [|c cur] eqn:Hcur; [discriminate|].
    destruct (rounds fuel _ _) as [rs0| |] eqn:Hrec; try discriminate.
    injection Hr as <-.
    inversion Hperm as [|r' r rs'' rs0' Hr' Hrest]; subst.
    destruct (IH _ _ _ _ Hrec Hrest) as [IHp IHe].
    assert (Hall : r' ++ concat rs'' ≡ₚ imgs).
    { rewrite Hr', IHp. exact Hsplit. }
    split; [exact Hall|].
    intros e He Hs Ht. simpl.
    assert (Htc : target e ∉ c :: cur).
    { rewrite <- Hcur. unfold currentOf. rewrite list_elem_of_filter.
      intros [Hn _]. apply Hn. by apply list_elem_of_fmap_2. }
    assert (Ht' : target e ∈ filter (λ i0, i0 ∉ c :: cur) imgs).
    { by apply list_elem_of_filter. }
    destruct (decide (source e ∈ c :: cur)) as [Hsc|Hsc].
    + apply before_app_lr; [by rewrite Hr'|by rewrite IHp].
    + apply before_app_r, IHe.
      * by apply list_elem_of_filter.
      * by apply list_elem_of_filter.
      * done.
Qed.

(** An image of least rank. *)
Lemma least_rank (rk : nat → nat) (l : list nat) :
  l ≠ [] → ∃ i, i ∈ l ∧ ∀ j, j ∈ l → (rk i ≤ rk j)%nat.
Proof.
  induction l as [|a l IH]; [done|]. intros _.
  destruct l as [|b l].
  - exists a. split; [by left|]. intros j ->%list_elem_of_singleton. lia.
  - destruct IH as (i & Hi & Hmin); [done|].
    destruct (decide (rk a ≤ rk i)%nat).
    + exists a. split; [by left|]. intros j [->|Hj]%elem_of_cons; [lia|].
      specialize (Hmin j Hj). lia.
    + exists i. split; [by right|]. intros j [->|Hj]%elem_of_cons; [lia|].
      by apply Hmin.
Qed.

(** A graph without cycles whose edges start inside [images] is sorted,
    and the rounds never outnumber the images. *)
Lemma rounds_complete (rk : nat → nat) fuel : ∀ images edges,
  (length images ≤ fuel)%nat →
  (∀ e, e ∈ edges → source e ∈ images) →
  (∀ e, e ∈ edges → (rk (source e) < rk (target e))%nat) →
  ∃ rs, rounds fuel images edges = sortedInRounds rs.
Proof.
  induction fuel as [|fuel IH]; intros images edges Hlen Hclosed Hrk.
  - destruct images; [|simpl in Hlen; lia]. by exists [].
  - destruct images as [|i images]; [by exists []|].
    set (imgs := i :: images) in *.
    destruct (least_rank rk imgs) as (m & Hm & Hmin); [done|].
    assert (Hmc : m ∈ currentOf imgs edges).
    { apply list_elem_of_filter. split; [|done].
      intros (e & -> & He)%list_elem_of_fmap.
      specialize (Hmin _ (Hclosed e He)). specialize (Hrk e He). lia. }
    simpl. fold imgs.
    destruct (currentOf imgs edges) as [|c cur] eqn:Hcur.
    { by apply elem_of_nil in Hmc. }
    destruct (IH (filter (λ i0, i0 ∉ c :: cur) imgs)
                 (filter (λ e, source e ∉ c :: cur) edges)) as [rs Hrs].
    + assert (length (filter (λ i0, i0 ∉ c :: cur) imgs) < length imgs)%nat.
      { apply (length_filter_lt _ _ m); [done|]. intros Hn. by apply Hn. }
      lia.
    + intros e [Hs He]%list_elem_of_filter. apply list_elem_of_filter. eauto.
    + intros e [_ He]%list_elem_of_filter. eauto.
    + exists ((c :: cur) :: rs). by rewrite Hrs.
Qed.

Lemma edgesOf_elem images e :
  e ∈ edgesOf dependingImages images ↔
  target e ∈ images ∧ source e ∈ dependingImages (target e).
Proof.
  unfold edgesOf. rewrite list_elem_of_bind. split.
  - intros (t & (s & Hs & Hd)%list_elem_of_bind & Ht).
    apply list_elem_of_singleton in Hs. subst e. done.
  - intros [Ht Hs]. exists (target e). split; [|done].
    apply list_elem_of_bind. exists (source e). split; [|done].
    apply list_elem_of_singleton. by destruct e.
Qed.

(** C3.  Whatever order Go iterates its maps in, the order in which
    [restore] restores the images lists every image once, puts every
    priority image before every image that is not, and puts the source of
    every dependency between images without priority before its target.
    When no image depends on itself through the histories (a rank that
    grows along every dependency) and the histories of the images without
    priority refer to such images only, the sort ends and such an order
    exists. *)
Theorem restore_order_topological (imgs : list nat) (rk : nat → nat) :
  NoDup imgs →
  (∀ t s, t ∈ nonPriority priority imgs → s ∈ dependingImages t →
          s ∈ nonPriority priority imgs ∧ (rk s < rk t)%nat) →
  (∃ order, sorted priority dependingImages imgs = Some order ∧
            restoreOrder priority dependingImages imgs order) ∧
  ∀ order, restoreOrder priority dependingImages imgs order →
    order ≡ₚ imgs ∧ NoDup order ∧
    (∀ a b, a ∈ imgs → b ∈ imgs → priority a = true → priority b = false →
            before order a b) ∧
    (∀ s t, s ∈ imgs → t ∈ imgs → priority s = false → priority t = false →
            s ∈ dependingImages t → before order s t).
Proof.
  intros Hnd Hdep.
  assert (Hends : ∃ rs, sortRounds priority dependingImages imgs
                        = sortedInRounds rs).
  { apply (rounds_complete rk); [done| |].
    - intros e [Ht Hs]%edgesOf_elem. by apply (Hdep (target e)).
    - intros e [Ht Hs]%edgesOf_elem. by apply (Hdep (target e)). }
  split.
  { destruct Hends as [rs Hrs]. exists (priorityFirst priority imgs ++ concat rs).
    split; [unfold sorted; by rewrite Hrs|].
    exists (priorityFirst priority imgs), rs, rs.
    split_and!; done. }
  intros order (prio & rs & rs' & Hrs & Hprio & Hperm & ->).
  destruct (rounds_sound _ _ _ _ _ Hrs Hperm) as [Hall Hedges].
  assert (Hsplit : prio ++ concat rs' ≡ₚ imgs).
  { rewrite Hprio, Hall. unfold priorityFirst, nonPriority.
    rewrite <- (filter_app_complement (λ i, priority i = true) imgs) at 3.
    f_equiv. apply reflexive_eq, list_filter_iff. intros x.
    by destruct (priority x). }
  split_and!.
  - done.
  - by rewrite Hsplit.
  - intros a b Ha Hb Hpa Hpb. apply before_app_lr.
    + rewrite Hprio. by apply list_elem_of_filter.
    + rewrite Hall. by apply list_elem_of_filter.
  - intros s t Hs Ht Hps Hpt Hst.
    assert (Htn : t ∈ nonPriority priority imgs) by by apply list_elem_of_filter.
    assert (Hsn : s ∈ nonPriority priority imgs) by by apply list_elem_of_filter.
    apply before_app_r.
    apply (Hedges {| source := s; target := t |}); try done.
    by apply edgesOf_elem.
Qed.
End Restore.
End RestoreProofs.

(** * The shelf pages obey the laws of the packer *)

Module ExampleLaws.
Import Example.

Lemma shelf_alloc_fail_same (p : shelfPage) w h :
  (shelfAlloc p w h).2 = None → (shelfAlloc p w h).1 = p.
Proof. unfold shelfAlloc. by destruct (_ && _). Qed.

Lemma shelf_alloc_region (p : shelfPage) w h n :
  (shelfAlloc p w h).2 = Some n →
  ∃ x y, (let '(x, y, w, h) := n in (x mod 2 ^ 31, y mod 2 ^ 31, w, h))
         = (x, y, w, h).
Proof.
  unfold shelfAlloc. destruct (_ && _); [|done]. simpl. intros [= <-].
  by eexists _, _.
Qed.

Lemma shelf_alloc_new size maxSize w h :
  0 < w ≤ size → 0 < h ≤ size →
  (shelfAlloc {| shelfSize := size; shelfMax := maxSize; shelfNext := 0;
                 shelfNodes := [] |} w h).2 ≠ None.
Proof.
  intros Hw Hh. unfold shelfAlloc. simpl.
  destruct (0 <? w) eqn:?; [|lia]. destruct (w <=? size) eqn:?; [|lia].
  destruct (0 <? h) eqn:?; [|lia]. destruct (0 + h <=? size) eqn:?; [|lia].
  done.
Qed.

Lemma shelf_extend_rank (p : shelfPage) :
  (shelfExtend p).2 = true →
  (shelfRank (shelfExtend p).1 < shelfRank p)%nat.
Proof.
  unfold shelfExtend, shelfRank.
  destruct (0 <? shelfSize p) eqn:E1; [|done].
  destruct (shelfSize p <? shelfMax p) eqn:E2; [|done]. simpl. intros _.
  destruct (0 <? 2 * shelfSize p) eqn:?; lia.
Qed.

Lemma shelf_alloc_rank (p : shelfPage) w h :
  (shelfRank (shelfAlloc p w h).1 ≤ shelfRank p)%nat.
Proof. unfold shelfAlloc. by destruct (_ && _). Qed.

Lemma shelf_free_rank (p : shelfPage) n :
  (shelfRank (shelfFree p n) ≤ shelfRank p)%nat.
Proof. done. Qed.

Lemma shelf_region_origin (n : Z * Z * Z * Z) x y w h :
  (let '(x, y, w, h) := n in (x mod 2 ^ 31, y mod 2 ^ 31, w, h))
  = (x, y, w, h) →
  0 ≤ x < 2 ^ 31 ∧ 0 ≤ y < 2 ^ 31.
Proof.
  destruct n as [[[x0 y0] w0] h0]. intros [= <- <- _ _].
  split; apply Z.mod_pos_bound; lia.
Qed.

#[export] Instance shelf_laws : PackingLaws :=
  {| alloc_fail_same := shelf_alloc_fail_same;
     alloc_region := shelf_alloc_region;
     alloc_new := shelf_alloc_new;
     rank := shelfRank;
     extend_rank := shelf_extend_rank;
     alloc_rank := shelf_alloc_rank;
     free_rank := shelf_free_rank;
     region_origin := shelf_region_origin |}.

End ExampleLaws.

(** * The theorems at work on small states *)

Module Witnesses.
Import Example ExampleLaws Invariants ShareableFrames.

Lemma twoPrivate_ready : ready 62 twoPrivate.
Proof.
  split_and!.
  - apply map_Forall_insert_2; [by eexists|].
    apply map_Forall_insert_2; [by eexists|]. apply map_Forall_empty.
  - unfold atlases_ok. split_and!; [by intros b ?%elem_of_nil| |lia|simpl; lia].
    intros size. simpl. unfold shelfRank. simpl.
    destruct (0 <? size) eqn:?; lia.
  - apply NoDup_nil_2.
  - by intros j ?%elem_of_nil.
Qed.

Lemma small_promotable : promotable twoPrivate small.
Proof.
  split_and!; try done.
  by exists 0%nat, {| Shareable.restorable := 0%nat; Shareable.page := None |}.
Qed.



Lemma oneShared_textures : textures_exist oneShared.
Proof.
  apply map_Forall_insert_2; [by eexists|].
  apply map_Forall_insert_2; [by eexists|]. apply map_Forall_empty.
Qed.

Lemma oneShared_atlases : atlases_ok 62 oneShared.
Proof.
  unfold atlases_ok. split_and!; [| |lia|simpl; lia].
  - intros b ->%list_elem_of_singleton.
    eexists _, atlasPage. split_and!; [reflexivity|reflexivity|].
    vm_compute. lia.
  - intros size. simpl. unfold shelfRank. simpl.
    destruct (0 <? size) eqn:?; lia.
Qed.


Lemma DrawTriangles_rejects_same_texture_witness :
  textures_exist oneShared ∧ atlases_ok 62 oneShared ∧
  Shareable.DrawTriangles 65 0 0 [] [] None 0 0 0 oneShared
    = Panic same_texture_panic.
Proof.
  split; [exact oneShared_textures|]. split; [exact oneShared_atlases|].
  assert (HF : (62 ≤ 65)%nat) by lia.
  destruct (ShareableDraw.DrawTriangles_rejects_same_texture 62 65 oneShared
              0 1 large onAtlas [] [] None 0 0 0 HF oneShared_textures
              oneShared_atlases eq_refl eq_refl eq_refl eq_refl)
    as (_ & (_ & Hself) & _).
  apply Hself.
  - discriminate.
  - discriminate.
  - intros b [= <-]. split; [by eexists|]. intros _. by left.
Defined.



Lemma TryAlloc_plans_minimum_witness :
  Shareable.backends oneShared !! 0%nat
    = Some atlasBackend ∧
  (shelfAlloc atlasPage 3 3).2 = None ∧
  ∃ s',
    Shareable.TryAlloc 65 0 3 3 oneShared = Ok (Some (0, 2, 3, 3), s') ∧
    Shareable.backends s' !! 0%nat
      = Some {| Shareable.restorable := 2%nat;
                Shareable.page :=
                  Some {| shelfSize := 8; shelfMax := 16; shelfNext := 5;
                          shelfNodes := [(0, 2, 3, 3); (0, 0, 2, 2)] |} |}.
Proof.
  split; [reflexivity|]. split; [reflexivity|].
  destruct (ShareableTryAlloc.TryAlloc_plans_minimum 65 oneShared 0
              atlasBackend
              atlasPage 3 3 shelf_alloc_fail_same eq_refl eq_refl)
    as (_ & Hext & _).
  eexists. split.
  - apply (Hext 1%nat (0, 2, 3, 3)).
    + reflexivity.
    + lia.
    + intros j Hj. assert (j = 0%nat) as -> by lia. reflexivity.
    + intros j Hj. assert (j = 0%nat) as -> by lia. reflexivity.
    + reflexivity.
  - reflexivity.
Defined.

Lemma twoHandles_textures : textures_exist (Ebiten.sh twoHandles).
Proof. apply map_Forall_empty. Qed.

Lemma twoHandles_atlases : atlases_ok 62 (Ebiten.sh twoHandles).
Proof.
  unfold atlases_ok. split_and!; [by intros b ?%elem_of_nil| |lia|simpl; lia].
  intros size. simpl. unfold shelfRank. simpl.
  destruct (0 <? size) eqn:?; lia.
Qed.

Lemma handle_genuine : genuine twoHandles 0 0 false GoImage.ZR None.
Proof.
  exists (handle 0), 0%nat, (handle 0),
    {| Ebiten.orig := Some 0%nat; Ebiten.imgs := [] |}.
  by split_and!.
Qed.

Lemma fresh2x2_placed : placed (Ebiten.sh twoHandles) fresh2x2.
Proof. split; [done|]. intros b. discriminate. Qed.

Lemma Set_then_At_witness :
  Ebiten.isRunning twoHandles ≠ 0 ∧
  genuine twoHandles 0 0 false GoImage.ZR None ∧
  ∃ st1 st2,
    Ebiten.Set_ 0 1 1 (65535, 0, 32896, 65535) twoHandles = Ok (tt, st1) ∧
    Ebiten.At 65 0 1 1 st1 = Ok ((255, 0, 128, 255), st2).
Proof.
  assert (Hrun : Ebiten.isRunning twoHandles ≠ 0) by discriminate.
  split; [exact Hrun|]. split; [exact handle_genuine|].
  assert (HF : (62 + 3 ≤ 65)%nat) by lia.
  assert (Hsub : false = true → GoImage.In (GoImage.Pt 1 1) GoImage.ZR = true)
    by discriminate.
  assert (Hw : 0 < Shareable.width fresh2x2 < 2 ^ 30) by (simpl; lia).
  assert (Hh : 0 < Shareable.height fresh2x2 < 2 ^ 30) by (simpl; lia).
  assert (Hx : 0 ≤ 1 < Shareable.width fresh2x2) by (simpl; lia).
  assert (Hy : 0 ≤ 1 < Shareable.height fresh2x2) by (simpl; lia).
  assert (Hlen : ∀ p : list Z, None = Some p →
            Z.of_nat (length p)
            = 4 * Shareable.width fresh2x2 * Shareable.height fresh2x2)
    by discriminate.
  destruct (EbitenPixels.Set_then_At 62 65 twoHandles 0 0 false GoImage.ZR
              None fresh2x2 1 1 65535 0 32896 65535 HF Hrun handle_genuine
              Hsub eq_refl eq_refl fresh2x2_placed twoHandles_textures
              twoHandles_atlases Hw Hh Hx Hy Hlen)
    as (st1 & st2 & Hset & Hat & _).
  exists st1, st2. split; [exact Hset|exact Hat].
Defined.

Lemma SubImage_Bounds_witness :
  Ebiten.Bounds 0 twoHandles = Ok (GoImage.Rect 0 0 2 2, twoHandles) ∧
  ∃ q s',
    Ebiten.SubImage 0 (GoImage.Rect 1 1 5 5) twoHandles = Ok (Some q, s') ∧
    Ebiten.Bounds q s' = Ok (GoImage.Rect 1 1 2 2, s').
Proof.
  assert (Hb : Ebiten.Bounds 0 twoHandles
               = Ok (GoImage.Rect 0 0 2 2, twoHandles)) by reflexivity.
  split; [exact Hb|].
  destruct (EbitenReads.SubImage_Bounds twoHandles 0 (handle 0)
              (GoImage.Rect 1 1 5 5) (GoImage.Rect 0 0 2 2)
              eq_refl eq_refl Hb)
    as (q & qimg & s' & Hsub & _ & _ & _ & Hqb & _).
  exists q, s'. split; [exact Hsub|exact Hqb].
Defined.


Lemma restore_order_topological_witness :
  NoDup [3; 0; 2; 1]%nat ∧
  RestorableImages.sorted restorePriority restoreDepends [3; 0; 2; 1]%nat
    = Some [3; 0; 1; 2]%nat ∧
  RestorableImages.before [3; 0; 1; 2]%nat 3 0 ∧
  RestorableImages.before [3; 0; 1; 2]%nat 0 1 ∧
  RestorableImages.before [3; 0; 1; 2]%nat 1 2.
Proof.
  assert (Hnd : NoDup [3; 0; 2; 1]%nat).
  { repeat (apply NoDup_cons; split; [set_solver|]). apply NoDup_nil_2. }
  assert (Hnp : RestorableImages.nonPriority restorePriority [3; 0; 2; 1]%nat
                = [0; 2; 1]%nat) by reflexivity.
  assert (Hrk : ∀ t s,
            t ∈ RestorableImages.nonPriority restorePriority [3; 0; 2; 1]%nat →
            s ∈ restoreDepends t →
            s ∈ RestorableImages.nonPriority restorePriority [3; 0; 2; 1]%nat
            ∧ (s < t)%nat).
  { intros t s. rewrite Hnp. intros Ht Hs.
    apply elem_of_cons in Ht as [->|Ht]; [by apply elem_of_nil in Hs|].
    apply elem_of_cons in Ht as [->|Ht].
    { apply list_elem_of_singleton in Hs as ->. split; [set_solver|lia]. }
    apply list_elem_of_singleton in Ht as ->.
    apply list_elem_of_singleton in Hs as ->. split; [set_solver|lia]. }
  destruct (RestoreProofs.restore_order_topological restorePriority
              restoreDepends [3; 0; 2; 1]%nat (λ i, i) Hnd Hrk)
    as [(order & Hs & Hro) Hall].
  assert (Hcomp : RestorableImages.sorted restorePriority restoreDepends
                    [3; 0; 2; 1]%nat = Some [3; 0; 1; 2]%nat) by reflexivity.
  assert (order = [3; 0; 1; 2]%nat) as -> by congruence.
  destruct (Hall _ Hro) as (_ & _ & Hprio & Hdep).
  split; [exact Hnd|]. split; [exact Hcomp|]. split_and!.
  - apply Hprio; [set_solver|set_solver|reflexivity|reflexivity].
  - apply Hdep; [set_solver|set_solver|reflexivity|reflexivity|].
    simpl. set_solver.
  - apply Hdep; [set_solver|set_solver|reflexivity|reflexivity|].
    simpl. set_solver.
Defined.

End Witnesses.

(** * Further properties of package shareable *)

(** ** Disposed images *)

Module ShareableDisposed.
Import Shareable ShareableBasics ShareableDispose Invariants ShareableSource.
Section Shareable.
Context `{Extern}.

Lemma set_images_id (s : State) i v :
  images s !! i = Some v → set_images <[i := v]> s = s.
Proof.
  intros Hi. destruct s. unfold set_images. simpl in *. f_equal.
  by apply insert_id.
Qed.

(** What a [dispose] that returns has done to the records. *)
Lemma dispose_inv i mark s u s' :
  dispose i mark s = Ok (u, s') →
  ∃ img, images s !! i = Some img ∧
    images s' = <[i := with_backend None None
                          (if mark then with_disposed true img else img)]>
                  (images s) ∧
    imagesToMakeShared s' = imagesToMakeShared s ∧
    minSize s' = minSize s ∧ maxSize s' = maxSize s ∧
    (∀ c, c ∈ theBackends s' → c ∈ theBackends s).
Proof.
  unfold dispose, onRestorable, setBackend, setImage. intros Hrun.
  minvs;
    repeat match goal with
           | Hr : region _ _ = Ok _ |- _ => apply region_inv in Hr; subst
           end; simpl in *; simplify_eq; eexists; split_and!; try done;
    intros c; apply elem_of_without.
Qed.

Lemma Dispose_record (s s1 : State) (i : nat) :
  Dispose i s = Ok (tt, s1) →
  ∃ img, images s !! i = Some img ∧
    images s1 !! i =
      Some {| width := width img; height := height img; disposed := true;
              backend_ := None; node := None;
              nonUpdatedCount := nonUpdatedCount img;
              neverShared := neverShared img |}.
Proof.
  intros Hrun. unfold Dispose in *.
  destruct (dispose_inv _ _ _ _ _ Hrun) as (img & Hi & Himgs & Hc & _).
  exists img. split; [done|]. rewrite Himgs. apply lookup_insert_eq.
Qed.

(** X1.  A [Dispose] that returns leaves the image marked as disposed,
    without backend and without node; its size, its count and the set of
    candidates are as before, and a second [Dispose] changes nothing. *)
Theorem Dispose_twice (s s1 : State) (i : nat) :
  Dispose i s = Ok (tt, s1) →
  (∃ img, images s !! i = Some img ∧
     images s1 !! i =
       Some {| width := width img; height := height img; disposed := true;
               backend_ := None; node := None;
               nonUpdatedCount := nonUpdatedCount img;
               neverShared := neverShared img |}) ∧
  imagesToMakeShared s1 = imagesToMakeShared s ∧
  Dispose i s1 = Ok (tt, s1).
Proof.
  intros Hrun. unfold Dispose in *.
  destruct (dispose_inv _ _ _ _ _ Hrun) as (img & Hi & Himgs & Hc & _).
  assert (Hi1 : images s1 !! i =
            Some {| width := width img; height := height img;
                    disposed := true; backend_ := None; node := None;
                    nonUpdatedCount := nonUpdatedCount img;
                    neverShared := neverShared img |}).
  { rewrite Himgs. apply lookup_insert_eq. }
  split_and!; [by exists img|done|].
  unfold dispose.
  rewrite (bind_eq _ _ _ _ _ (getImage_eq _ _ _ Hi1)). simpl.
  rewrite (bind_eq _ _ _ tt s1) by done.
  rewrite (bind_eq _ _ _ _ _ (getImage_eq _ _ _ Hi1)).
  unfold setImage, modify. simpl. do 2 f_equal.
  by apply set_images_id.
Qed.

(** X2.  After a [Dispose] that returned, the image cannot be written or
    drawn: [ReplacePixels], [ClearFramebuffer] and [DrawTriangles] with the
    image as the source or as the target panic, each with the message of
    its own check; [At] gives zeros at every position, and [Size] still
    gives the size the image was made with. *)
Theorem disposed_image_use (fuel : nat) (s s1 : State) (i : nat) :
  Dispose i s = Ok (tt, s1) →
  (∀ p, ReplacePixels fuel i p s1
        = Panic "shareable: the image must not be disposed at replacePixels") ∧
  ClearFramebuffer fuel i s1
    = Panic "shareable: the drawing target image must not be disposed (Fill)" ∧
  (∀ j vertices indices colorm mode filter_ address,
     DrawTriangles fuel j i vertices indices colorm mode filter_ address s1
     = Panic "shareable: the drawing source image must not be disposed (DrawTriangles)") ∧
  (∀ j src vertices indices colorm mode filter_ address,
     images s1 !! j = Some src → disposed src = false →
     DrawTriangles fuel i j vertices indices colorm mode filter_ address s1
     = Panic "shareable: the drawing target image must not be disposed (DrawTriangles)") ∧
  (∀ x y, At i x y s1 = Ok (transparent, s1)) ∧
  (∀ wh s0, Size i s = Ok (wh, s0) → Size i s1 = Ok (wh, s1)).
Proof.
  intros Hrun.
  destruct (Dispose_record s s1 i Hrun) as (img & Hi & Hi1).
  split_and!.
  - intros p. unfold ReplacePixels, replacePixels.
    by rewrite (bind_eq _ _ _ _ _ (getImage_eq _ _ _ Hi1)).
  - unfold ClearFramebuffer.
    by rewrite (bind_eq _ _ _ _ _ (getImage_eq _ _ _ Hi1)).
  - intros. unfold DrawTriangles.
    by rewrite (bind_eq _ _ _ _ _ (getImage_eq _ _ _ Hi1)).
  - intros j src ? ? ? ? ? ? Hj Hd. unfold DrawTriangles.
    rewrite (bind_eq _ _ _ _ _ (getImage_eq _ _ _ Hj)), Hd.
    by rewrite (bind_eq _ _ _ _ _ (getImage_eq _ _ _ Hi1)).
  - intros x y. unfold At, at_.
    by rewrite (bind_eq _ _ _ _ _ (getImage_eq _ _ _ Hi1)).
  - intros wh s0. unfold Size.
    rewrite (bind_eq _ _ _ _ _ (getImage_eq _ _ _ Hi)).
    rewrite (bind_eq _ _ _ _ _ (getImage_eq _ _ _ Hi1)). simpl.
    by intros [= <- _].
Qed.

End Shareable.
End ShareableDisposed.

(** ** What a draw leaves of its target and of its source *)

Module ShareableTargets.
Import Shareable ShareableBasics ShareableDispose Invariants ShareableSource
  ShareableDisposed ShareableDraw.
Section Shareable.
Context `{Extern}.

(** [TryAlloc] and the loop over the backends change backends and
    textures only. *)
Lemma TryAlloc_frame fuel b w h s r s' :
  TryAlloc fuel b w h s = Ok (r, s') →
  images s' = images s ∧ imagesToMakeShared s' = imagesToMakeShared s ∧
  theBackends s' = theBackends s ∧
  minSize s' = minSize s ∧ maxSize s' = maxSize s.
Proof.
  unfold TryAlloc, setBackend. intros Hrun. minv. minv_case; try done.
  destruct (Alloc _ _ _) as [p1 n]. minv.
  destruct n as [n|]; minv; [done|].
  destruct (plan _ _ _ _ _); minv; try done.
  minv_case; minv.
  match goal with Hr : newRestorable _ _ = Ok _ |- _ =>
    apply newRestorable_inv in Hr; subst end.
  done.
Qed.

Lemma tryBackends_frame fuel w h : ∀ bs s r s',
  tryBackends fuel bs w h s = Ok (r, s') →
  images s' = images s ∧ imagesToMakeShared s' = imagesToMakeShared s ∧
  theBackends s' = theBackends s ∧
  minSize s' = minSize s ∧ maxSize s' = maxSize s.
Proof.
  induction bs as [|b bs IH]; intros s r s' Hrun; simpl in Hrun; minv;
    [done|].
  match goal with Ht : TryAlloc _ _ _ _ _ = Ok _ |- _ =>
    apply TryAlloc_frame in Ht as (T1 & T2 & T3 & T4 & T5) end.
  minv_case; minv; [done|].
  apply IH in Hrun as (I1 & I2 & I3 & I4 & I5).
  split_and!; congruence.
Qed.

(** [allocate] gives the image a backend, and a node when the backend is
    an atlas; the other images, the sizes and the candidates stay. *)
Lemma allocate_inv fuel i sh s u s' :
  allocate fuel i sh s = Ok (u, s') →
  ∃ img b n,
    images s !! i = Some img ∧ backend_ img = None ∧
    images s' = <[i := with_backend (Some b) n img]> (images s) ∧
    (n = node img ∨ is_Some n) ∧
    imagesToMakeShared s' = imagesToMakeShared s ∧
    minSize s' = minSize s ∧ maxSize s' = maxSize s ∧
    (sh = false ∨ shareable s img = false →
     n = node img ∧ theBackends s' = theBackends s).
Proof.
  unfold allocate. intros Hrun. minv.
  match goal with Hl : images s !! i = Some ?x |- _ => rename x into img end.
  minv_case; try done.
  match goal with Hb : bool_decide (is_Some (backend_ img)) = false |- _ =>
    apply bool_decide_eq_false in Hb end.
  assert (Hb : backend_ img = None).
  { destruct (backend_ img); [|done]. exfalso. eauto. }
  minv_case.
  - minv.
    match goal with Hr : newRestorable _ _ = Ok _ |- _ =>
      apply newRestorable_inv in Hr; subst end.
    match goal with Hr : newBackend _ _ = Ok _ |- _ =>
      apply newBackend_inv in Hr; subst end.
    unfold setImage in *. minv. simpl.
    eexists img, _, _. split_and!; try done. by left.
  - match goal with Hs : negb sh || negb (shareable s img) = false |- _ =>
      apply orb_false_iff in Hs as [Hsh Hs]; apply negb_false_iff in Hs;
      apply negb_false_iff in Hsh end.
    minv.
    match goal with Ht : tryBackends _ _ _ _ _ = Ok _ |- _ =>
      apply tryBackends_frame in Ht as (T1 & T2 & T3 & T4 & T5) end.
    minv_case.
    + destruct p as [b n]. unfold setImage in *. minv. simpl.
      eexists img, b, (Some n). rewrite ?T1, ?T2, ?T4, ?T5.
      split_and!; try done; [by right|intros [?|?]; congruence].
    + minv.
      repeat match goal with
             | Hr : newRestorable _ _ = Ok _ |- _ =>
                 apply newRestorable_inv in Hr; subst
             | Hr : newBackend _ _ = Ok _ |- _ =>
                 apply newBackend_inv in Hr; subst
             end.
      minv_case; try done.
      unfold setImage in *. minv. simpl.
      eexists img, _, (Some _). rewrite ?T1, ?T2, ?T4, ?T5.
      split_and!; try done; [by right|intros [?|?]; congruence].
Qed.

(** The record of an image after an [ensureNotShared] that returned: it
    has a backend and no node, and nothing else of it has changed. *)
Lemma ensureNotShared_record fuel j s u s' img :
  ensureNotShared fuel j s = Ok (u, s') →
  images s !! j = Some img → (backend_ img = None → node img = None) →
  ∃ b, images s' !! j = Some (with_backend (Some b) None img).
Proof.
  intros Hrun Hj Hnone.
  assert (Hcases : backend_ img = None ∨
            (is_Some (backend_ img) ∧ node img = None) ∨
            (is_Some (backend_ img) ∧ is_Some (node img))).
  { destruct (backend_ img), (node img); eauto. }
  unfold ensureNotShared in Hrun.
  rewrite (bind_eq _ _ _ _ _ (getImage_eq _ _ _ Hj)) in Hrun.
  destruct Hcases as [Hb|[[[b Hb] Hn]|[[b Hb] [n Hn]]]]; rewrite Hb in Hrun.
  - apply allocate_inv in Hrun
      as (img0 & b & n & Hi0 & _ & Himgs & _ & _ & _ & _ & Hpriv).
    destruct Hpriv as [-> _]; [by left|]. simplify_eq.
    exists b. rewrite Himgs, lookup_insert_eq. by rewrite (Hnone Hb).
  - unfold isShared in Hrun. rewrite Hn in Hrun.
    rewrite bool_decide_false in Hrun by (by intros [? ?]). simpl in Hrun.
    minv. exists b. rewrite Hj. f_equal. destruct img; simpl in *. by subst.
  - unfold isShared in Hrun. rewrite Hn in Hrun.
    rewrite bool_decide_true in Hrun by (by eexists). simpl in Hrun. minv.
    match goal with Hr : region _ _ = Ok _ |- _ =>
      apply region_inv in Hr; subst end.
    minv.
    match goal with Hr : newRestorable _ _ = Ok _ |- _ =>
      apply newRestorable_inv in Hr; subst end.
    minv. unfold onRestorable in *. minv.
    match goal with Hd : dispose _ _ _ = Ok _ |- _ =>
      apply dispose_inv in Hd as (img0 & Hi0 & Himgs & _) end.
    match goal with Hr : newBackend _ _ = Ok _ |- _ =>
      apply newBackend_inv in Hr; subst end.
    unfold setImage in *. minv. simpl in *. simplify_eq.
    match goal with Hl : images _ !! j = Some _ |- _ =>
      rewrite Himgs, lookup_insert_eq in Hl end. simplify_eq.
    eexists. rewrite lookup_insert_eq. reflexivity.
Qed.

(** X3.  A [DrawTriangles] that returns was between two different images.
    Its target has a backend and no node afterwards, whatever it was
    before: it is not shared, its count is 0, it is not a candidate, and
    its size and flags are as before.  The source is a candidate
    afterwards when it is not shared and may be shared, and then only,
    unless it was one before. *)
Theorem DrawTriangles_target_private (fuel : nat) (s s' : State)
    (i img : nat) (dst : Image) (vertices : list float32) (indices : list Z)
    (colorm : option ColorM) (mode filter_ address : Z) :
  images s !! i = Some dst → (backend_ dst = None → node dst = None) →
  DrawTriangles fuel i img vertices indices colorm mode filter_ address s
    = Ok (tt, s') →
  i ≠ img ∧
  (∃ b, images s' !! i
        = Some (with_nonUpdatedCount 0 (with_backend (Some b) None dst))) ∧
  i ∉ imagesToMakeShared s' ∧
  ∃ src', images s' !! img = Some src' ∧ is_Some (backend_ src') ∧
    disposed src' = false ∧
    (isShared src' = false → shareable s' src' = true →
     img ∈ imagesToMakeShared s') ∧
    (img ∈ imagesToMakeShared s' →
     img ∈ imagesToMakeShared s ∨
     (isShared src' = false ∧ shareable s' src' = true)).
Proof.
  intros Hi Hnone Hrun.
  assert (Hne : i ≠ img).
  { intros ->. by eapply DrawTriangles_self_never_returns. }
  split; [done|].
  unfold DrawTriangles in Hrun.
  apply bind_inv in Hrun as (src & ? & [Hsrc ->]%Shareable_getImage_inv & Hrun).
  destruct (disposed src) eqn:Hsd; [done|].
  apply bind_inv in Hrun as (dst0 & ? & [Hi0 ->]%Shareable_getImage_inv & Hrun).
  assert (dst0 = dst) as -> by congruence.
  destruct (disposed dst) eqn:Hdd; [done|].
  apply bind_inv in Hrun as ([] & s1 & Halloc & Hrun).
  apply bind_inv in Hrun as (u & s2 & Hens & Hrun).
  (* the source gets a backend *)
  assert (Hs1 : images s1 !! i = Some dst ∧
            imagesToMakeShared s1 = imagesToMakeShared s ∧
            ∃ src1, images s1 !! img = Some src1 ∧ disposed src1 = false).
  { destruct (bool_decide (backend_ src = None)).
    - apply allocate_inv in Halloc
        as (img0 & b & n & Him & _ & Himgs & _ & Hc & _).
      simplify_eq. rewrite Himgs.
      rewrite lookup_insert_ne by done. rewrite lookup_insert_eq.
      split_and!; try done. by eexists.
    - apply ret_inv in Halloc as [_ ->]. split_and!; try done. by exists src. }
  destruct Hs1 as (Hi1 & Hc1 & src1 & Hsrc1 & Hsd1).
  destruct (ensureNotShared_record _ _ _ _ _ _ Hens Hi1 Hnone) as [b Hi2].
  destruct (ensureNotShared_keeps_others _ _ _ _ _ Hens)
    as (K1 & K2 & K3 & K4).
  assert (Hsrc2 : images s2 !! img = Some src1) by (rewrite K1; done).
  rewrite (bind_eq _ _ _ _ _ (getImage_eq _ _ _ Hi2)) in Hrun.
  rewrite (bind_eq _ _ _ _ _ (getImage_eq _ _ _ Hsrc2)) in Hrun.
  simpl in Hrun.
  destruct (backend_ src1) as [bimg|] eqn:Hbimg; [|done].
  unfold onRestorable, setImage, deleteCandidate, addCandidate in Hrun.
  minv. minv_case; try done. minv. simpl in *.
  repeat match goal with
         | Hl : images s2 !! i = Some ?y |- _ =>
             is_var y;
             assert (y = with_backend (Some b) None dst) by congruence;
             subst y
         | Hl : <[i:=_]> _ !! img = Some _ |- _ =>
             rewrite lookup_insert_ne in Hl by done
         | Hl : images s2 !! img = Some ?y |- _ =>
             is_var y; assert (y = src1) by congruence; subst y
         end.
  minv_case; minv; simpl.
  - split; [exists b; apply lookup_insert_eq|].
    split.
    { destruct (bool_decide (img ∈ _)).
      - intros [? _]%list_elem_of_filter. done.
      - intros [[? _]%list_elem_of_filter|?%list_elem_of_singleton]%elem_of_app;
          done. }
    exists src1. rewrite lookup_insert_ne by done.
    match goal with Hc : negb (isShared src1) && _ = true |- _ =>
      apply andb_true_iff in Hc as [Hns Hsh];
      apply negb_true_iff in Hns end.
    split_and!; try done; try (by eexists).
    + intros _ _. destruct (bool_decide (img ∈ _)) eqn:Hin.
      * by apply bool_decide_eq_true in Hin.
      * apply elem_of_app. right. by left.
    + intros _. right. done.
  - split; [exists b; apply lookup_insert_eq|].
    split; [intros [? _]%list_elem_of_filter; done|].
    exists src1. rewrite lookup_insert_ne by done.
    split_and!; try done; try (by eexists).
    + intros Hns Hsh.
      match goal with Hc : negb (isShared src1) && _ = false |- _ =>
        rewrite Hns in Hc; simpl in Hc end.
      unfold shareable, isShareable in *. simpl in *. congruence.
    + intros [_ Hin]%list_elem_of_filter. left. congruence.
Qed.

End Shareable.
End ShareableTargets.

(** ** Before the sizes of the atlases are known *)

Module ShareableBeforeStart.
Import Shareable ShareableBasics ShareableDispose Invariants ShareableSource
  ShareableDisposed ShareableTargets.
Section Shareable.
Context `{Extern}.














End Shareable.
End ShareableBeforeStart.

(** ** Candidates that can no longer be shared, and the size of a new page *)

Module ShareableLimits.
Import Shareable ShareableBasics ShareableDispose Invariants ShareableAllocate.
Section Shareable.
Context `{Extern}.

(** X5.  [MakeVolatile] does not take the image out of
    [imagesToMakeShared].  An image with a texture of its own that is a
    candidate and whose count is one short of [MaxCountForShare], or more,
    stays a candidate when it is made volatile; when the pass over the
    candidates visits it first at the next frame boundary, the pass panics
    in [makeShared], since the image can no longer be shared. *)
Theorem volatile_candidate_panics (fuel : nat) (s : State) (i : nat)
    (img : Image) (b : nat) (bk : backend) (rest : list nat) :
  images s !! i = Some img →
  backend_ img = Some b → node img = None → backends s !! b = Some bk →
  imagesToMakeShared s = i :: rest →
  MaxCountForShare - 1 ≤ nonUpdatedCount img < 2 ^ 62 →
  ∃ s',
    MakeVolatile fuel i s = Ok (tt, s') ∧
    images s' !! i = Some (with_neverShared true img) ∧
    imagesToMakeShared s' = i :: rest ∧
    makeImagesShared fuel s'
      = Panic "shareable: makeShared cannot be called on a non-shareable image".
Proof.
  intros Hi Hb Hn Hbk Hc Hcount.
  set (s' := set_images <[i := with_neverShared true img]>
               (set_rimages (Restorable.MakeVolatile (restorable bk)) s)).
  assert (Hi' : images s' !! i = Some (with_neverShared true img))
    by apply lookup_insert_eq.
  exists s'. split_and!; try done.
  - unfold MakeVolatile, ensureNotShared.
    rewrite bind_assoc.
    rewrite (bind_eq _ _ _ _ _ (getImage_eq _ _ _ Hi)), Hb.
    unfold isShared. rewrite Hn.
    rewrite bool_decide_false by (by intros [? ?]). simpl.
    rewrite (bind_eq _ _ _ tt s) by done.
    rewrite (bind_eq _ _ _ _ _ (getImage_eq _ _ _ Hi)), Hb.
    rewrite (bind_eq _ _ _ _ _ (getBackend_eq _ _ _ Hbk)).
    unfold onRestorable, setImage.
    erewrite bind_eq by reflexivity.
    erewrite bind_eq by (apply getImage_eq; simpl; exact Hi).
    reflexivity.
  - unfold makeImagesShared.
    rewrite (bind_eq _ _ _ s' s') by done.
    change (imagesToMakeShared s') with (imagesToMakeShared s). rewrite Hc.
    simpl forM.
    rewrite !bind_assoc.
    rewrite (bind_eq _ _ _ _ _ (getImage_eq _ _ _ Hi')).
    assert (Hadd : GoInt.add (nonUpdatedCount (with_neverShared true img)) 1
                   = nonUpdatedCount img + 1).
    { simpl. apply wrap_small. change (2 ^ 63) with 9223372036854775808.
      change (2 ^ 62) with 4611686018427387904 in Hcount.
      unfold MaxCountForShare in Hcount. lia. }
    rewrite Hadd.
    destruct (nonUpdatedCount img + 1 >=? MaxCountForShare) eqn:E;
      [|unfold MaxCountForShare in *; lia].
    unfold setImage. rewrite !bind_assoc.
    erewrite bind_eq by reflexivity.
    unfold makeShared. rewrite !bind_assoc.
    erewrite bind_eq by (apply getImage_eq; simpl; apply lookup_insert_eq).
    simpl. rewrite Hb. unfold isShared. simpl. rewrite Hn.
    rewrite bool_decide_false by (by intros [? ?]).
    rewrite !bind_assoc.
    erewrite bind_eq by reflexivity.
    unfold shareable. simpl. destruct (negb (isShareable _)); reflexivity.
Qed.

(** The sizes that the doubling loop of [allocate] goes through. *)
Lemma growSize_steps w h maxSize_ : ∀ fuel size0 size,
  0 < size0 → w < 2 ^ 62 → h < 2 ^ 62 →
  growSize fuel size0 maxSize_ w h = Ok size →
  ∃ k : nat,
    size = size0 * 2 ^ Z.of_nat k ∧ w ≤ size ∧ h ≤ size ∧
    ∀ j : nat, (j < k)%nat →
      (size0 * 2 ^ Z.of_nat j < w ∨ size0 * 2 ^ Z.of_nat j < h) ∧
      size0 * 2 ^ Z.of_nat j ≠ maxSize_.
Proof.
  induction fuel as [|fuel IH]; intros size0 size Hpos Hw Hh Hrun;
    simpl in Hrun.
  - destruct ((w >? size0) || (h >? size0)) eqn:E.
    + destruct (size0 =? maxSize_); done.
    + apply orb_false_iff in E. simplify_eq. exists O.
      split_and!; [simpl; lia|lia|lia|]. intros j Hj. lia.
  - destruct ((w >? size0) || (h >? size0)) eqn:E.
    + apply orb_true_iff in E.
      destruct (size0 =? maxSize_) eqn:Em; [done|].
      assert (Hmul : GoInt.mul size0 2 = size0 * 2).
      { apply wrap_small. change (2 ^ 63) with 9223372036854775808.
        change (2 ^ 62) with 4611686018427387904 in *. lia. }
      rewrite Hmul in Hrun.
      destruct (IH (size0 * 2) size) as (k & Hsize & Hfw & Hfh & Hmin);
        try done; [lia|].
      exists (S k). split_and!; try done.
      * rewrite Hsize, Nat2Z.inj_succ, Z.pow_succ_r by lia. lia.
      * intros j Hj. destruct j as [|j].
        -- simpl. rewrite Z.mul_1_r. split; [lia|]. lia.
        -- destruct (Hmin j) as [Hs Hm]; [lia|].
           rewrite Nat2Z.inj_succ, Z.pow_succ_r by lia.
           replace (size0 * (2 * 2 ^ Z.of_nat j))
             with (size0 * 2 * 2 ^ Z.of_nat j) by lia.
           done.
    + apply orb_false_iff in E. simplify_eq. exists O.
      split_and!; [simpl; lia|lia|lia|]. intros j Hj. lia.
Qed.

(** The loop of [allocate] returns the first size of the chain
    [size0], [2 * size0], ... that holds the image when no earlier size of
    the chain is [maxSize_]. *)
Lemma growSize_first w h maxSize_ : ∀ (n fuel : nat) size0,
  0 < size0 → size0 * 2 ^ Z.of_nat n < 2 ^ 62 → (n ≤ fuel)%nat →
  (∀ j : nat, (j < n)%nat →
     (size0 * 2 ^ Z.of_nat j < w ∨ size0 * 2 ^ Z.of_nat j < h) ∧
     size0 * 2 ^ Z.of_nat j ≠ maxSize_) →
  w ≤ size0 * 2 ^ Z.of_nat n → h ≤ size0 * 2 ^ Z.of_nat n →
  growSize fuel size0 maxSize_ w h = Ok (size0 * 2 ^ Z.of_nat n).
Proof.
  induction n as [|n IH]; intros fuel size0 Hpos Hbig Hfuel Hbelow Hw Hh.
  - simpl in Hw, Hh. rewrite Z.mul_1_r in Hw, Hh.
    assert ((w >? size0) || (h >? size0) = false) as E
      by (apply orb_false_iff; lia).
    destruct fuel; simpl; rewrite E; simpl; by rewrite Z.mul_1_r.
  - destruct fuel as [|fuel]; [lia|]. simpl.
    destruct (Hbelow O) as [Hs Hm]; [lia|].
    simpl in Hs, Hm. rewrite Z.mul_1_r in Hs, Hm.
    assert ((w >? size0) || (h >? size0) = true) as ->
      by (apply orb_true_iff; lia).
    destruct (size0 =? maxSize_) eqn:Em; [lia|].
    rewrite Nat2Z.inj_succ, Z.pow_succ_r in * by lia.
    assert (0 < 2 ^ Z.of_nat n) by (apply Z.pow_pos_nonneg; lia).
    assert (Hmul : GoInt.mul size0 2 = size0 * 2).
    { apply wrap_small. change (2 ^ 63) with 9223372036854775808.
      change (2 ^ 62) with 4611686018427387904 in *. nia. }
    rewrite Hmul.
    replace (size0 * (2 * 2 ^ Z.of_nat n))
      with (size0 * 2 * 2 ^ Z.of_nat n) in * by lia.
    apply IH; try done; try lia.
    intros j Hj. destruct (Hbelow (S j)) as [Hs' Hm']; [lia|].
    rewrite Nat2Z.inj_succ, Z.pow_succ_r in Hs', Hm' by lia.
    replace (size0 * (2 * 2 ^ Z.of_nat j))
      with (size0 * 2 * 2 ^ Z.of_nat j) in * by lia.
    done.
Qed.

(** X6.  The size of a new atlas page, as the loop of [allocate] finds it
    when [maxSize] is [minSize] doubled [m] times: for an image that fits
    into [maxSize] the loop returns the least of the sizes [minSize],
    [2 * minSize], ... that holds the image, which is at most [maxSize];
    for an image with a side above [maxSize] it panics. *)
Theorem growSize_on_chain (w h : Z) : ∀ (m fuel : nat) (size0 : Z),
  0 < size0 → size0 * 2 ^ Z.of_nat m < 2 ^ 62 → (m ≤ fuel)%nat →
  (w ≤ size0 * 2 ^ Z.of_nat m → h ≤ size0 * 2 ^ Z.of_nat m →
   ∃ k : nat, (k ≤ m)%nat ∧
     growSize fuel size0 (size0 * 2 ^ Z.of_nat m) w h
       = Ok (size0 * 2 ^ Z.of_nat k) ∧
     w ≤ size0 * 2 ^ Z.of_nat k ∧ h ≤ size0 * 2 ^ Z.of_nat k ∧
     ∀ j : nat, (j < k)%nat →
       size0 * 2 ^ Z.of_nat j < w ∨ size0 * 2 ^ Z.of_nat j < h) ∧
  (size0 * 2 ^ Z.of_nat m < w ∨ size0 * 2 ^ Z.of_nat m < h →
   growSize fuel size0 (size0 * 2 ^ Z.of_nat m) w h
     = Panic "shareable: the image being shared is too big").
Proof.
  induction m as [|m IH]; intros fuel size0 Hpos Hbig Hfuel.
  - simpl. rewrite Z.mul_1_r. split.
    + intros Hw Hh. exists O.
      assert ((w >? size0) || (h >? size0) = false) as E
        by (apply orb_false_iff; lia).
      split_and!; [lia| |simpl; lia|simpl; lia|intros; lia].
      destruct fuel; simpl; rewrite E; simpl; by rewrite Z.mul_1_r.
    + intros Hbad.
      assert ((w >? size0) || (h >? size0) = true) as E
        by (apply orb_true_iff; lia).
      destruct fuel; simpl; rewrite E, Z.eqb_refl; done.
  - destruct fuel as [|fuel]; [lia|].
    assert (Hp : 0 < 2 ^ Z.of_nat m) by (apply Z.pow_pos_nonneg; lia).
    rewrite Nat2Z.inj_succ, Z.pow_succ_r in * by lia.
    replace (size0 * (2 * 2 ^ Z.of_nat m))
      with (size0 * 2 * 2 ^ Z.of_nat m) in * by lia.
    assert (Hmul : GoInt.mul size0 2 = size0 * 2).
    { apply wrap_small. change (2 ^ 63) with 9223372036854775808.
      change (2 ^ 62) with 4611686018427387904 in *. nia. }
    destruct (IH fuel (size0 * 2)) as [IHfit IHbad]; [lia|lia|lia|].
    destruct ((w >? size0) || (h >? size0)) eqn:E.
    + assert (Hne : (size0 =? size0 * 2 * 2 ^ Z.of_nat m) = false)
        by (apply Z.eqb_neq; nia).
      apply orb_true_iff in E. split.
      * intros Hw Hh. destruct (IHfit Hw Hh) as (k & Hk & Hrun & Hfw & Hfh & Hmin).
        exists (S k). rewrite Nat2Z.inj_succ, Z.pow_succ_r by lia.
        replace (size0 * (2 * 2 ^ Z.of_nat k))
          with (size0 * 2 * 2 ^ Z.of_nat k) by lia.
        split_and!; [lia| |done|done|].
        -- simpl. destruct ((w >? size0) || (h >? size0)) eqn:E';
             [|apply orb_false_iff in E'; lia].
           rewrite Hne, Hmul. exact Hrun.
        -- intros j Hj. destruct j as [|j]; [simpl; lia|].
           rewrite Nat2Z.inj_succ, Z.pow_succ_r by lia.
           replace (size0 * (2 * 2 ^ Z.of_nat j))
             with (size0 * 2 * 2 ^ Z.of_nat j) by lia.
           apply Hmin. lia.
      * intros Hbad. simpl.
        destruct ((w >? size0) || (h >? size0)) eqn:E';
          [|apply orb_false_iff in E'; lia].
        rewrite Hne, Hmul. by apply IHbad.
    + apply orb_false_iff in E. split.
      * intros Hw Hh. exists O. simpl. rewrite Z.mul_1_r.
        assert ((w >? size0) || (h >? size0) = false) as ->
          by (apply orb_false_iff; lia).
        split_and!; [lia|done|lia|lia|intros; lia].
      * intros Hbad. nia.
Qed.

(** X7.  The loop of [allocate] compares the size with [maxSize] for
    equality only.  When [maxSize] lies strictly between two sizes of the
    chain [minSize], [2 * minSize], ..., an image that fits into [maxSize]
    but not into the size below gets a page of the size above: the page is
    larger than [maxSize]. *)
Theorem growSize_passes_maxSize (fuel k : nat) (size0 maxSize_ w h : Z) :
  0 < size0 → size0 * 2 ^ Z.of_nat (S k) < 2 ^ 62 → (S k ≤ fuel)%nat →
  size0 * 2 ^ Z.of_nat k < maxSize_ < size0 * 2 ^ Z.of_nat (S k) →
  size0 * 2 ^ Z.of_nat k < w ≤ maxSize_ → h ≤ maxSize_ →
  growSize fuel size0 maxSize_ w h = Ok (size0 * 2 ^ Z.of_nat (S k)) ∧
  maxSize_ < size0 * 2 ^ Z.of_nat (S k).
Proof.
  intros Hpos Hbig Hfuel Hmax Hw Hh. split; [|lia].
  apply growSize_first; try done; try lia.
  intros j Hj.
  assert (Hle : 2 ^ Z.of_nat j ≤ 2 ^ Z.of_nat k)
    by (apply Z.pow_le_mono_r; lia).
  split; [left|]; nia.
Qed.

End Shareable.
End ShareableLimits.
(** ** The life of a handle: disposal and sub-images *)

Module EbitenLifecycle.
Import GoImage Ebiten EbitenReads Invariants EbitenPixels.
Section Ebiten.
Context `{Extern}.

Lemma isDisposed_disposed j s fj m :
  fimages s !! j = Some fj → mipmaps s !! mipmap_ fj = Some m →
  orig m = None → isDisposed j s = Ok (true, s).
Proof.
  intros Hj Hm Ho. rewrite (isDisposed_eq _ _ _ _ Hj Hm).
  by rewrite bool_decide_true.
Qed.

(** X8.  [Dispose] of an image that is not a sub-image returns when
    [Dispose] of its texture does.  The pending pixels of [Set] are dropped,
    and the image and every sub-image of it are disposed from then on:
    [At] gives the transparent colour, [Set], [ReplacePixels] and a second
    [Dispose] do nothing, [SubImage] gives nil, and [Bounds] panics. *)
Theorem Dispose_disposes_subimages (fuel : nat) (st : State) (i o : nat)
    (fi : Image) (mm : mipmap) (t' : Shareable.State) :
  fimages st !! i = Some fi → addr fi = Some i → original fi = None →
  mipmaps st !! mipmap_ fi = Some mm → orig mm = Some o → imgs mm = [] →
  Shareable.Dispose o (sh st) = Ok (tt, t') →
  ∃ st',
    Dispose (S fuel) i st = Ok (tt, st') ∧
    sh st' = t' ∧ isRunning st' = isRunning st ∧
    fimages st' = <[i := with_pendingPixels None fi]> (fimages st) ∧
    ∀ j fj, fimages st !! j = Some fj → mipmap_ fj = mipmap_ fi →
      isDisposed j st' = Ok (true, st') ∧
      Bounds j st' = Panic "ebiten: the image is already disposed" ∧
      (isRunning st ≠ 0 → ∀ f x y, At f j x y st' = Ok (transparent, st')) ∧
      (addr fj = Some j →
       (∀ f, Dispose f j st' = Ok (tt, st')) ∧
       (∀ f p, ReplacePixels f j p st' = Ok (tt, st')) ∧
       (∀ r, SubImage j r st' = Ok (None, st')) ∧
       (isRunning st ≠ 0 → ∀ x y c, Set_ j x y c st' = Ok (tt, st'))).
Proof.
  intros Hi Ha Ho Hm Hmo Hlv Hd.
  set (m := mipmap_ fi) in *.
  set (st1 := set_mipmaps <[m := {| orig := orig mm; imgs := [] |}]> st).
  set (st2 := set_mipmaps <[m := {| orig := None; imgs := [] |}]>
                (set_sh (λ _, t') st1)).
  set (st3 := match pendingPixels fi with
              | Some _ => set_fimages <[i := with_pendingPixels None fi]> st2
              | None => st2
              end).
  assert (Hf3 : fimages st3 = <[i := with_pendingPixels None fi]> (fimages st)).
  { unfold st3. destruct (pendingPixels fi) eqn:Hp; [done|].
    simpl. rewrite insert_id; [done|]. rewrite Hi. f_equal.
    destruct fi; simpl in *; by subst. }
  assert (Hm3 : mipmaps st3 !! m = Some {| orig := None; imgs := [] |}).
  { unfold st3. destruct (pendingPixels fi); simpl; apply lookup_insert_eq. }
  assert (Hr3 : isRunning st3 = isRunning st)
    by (unfold st3; by destruct (pendingPixels fi)).
  assert (Hs3 : sh st3 = t') by (unfold st3; by destruct (pendingPixels fi)).
  exists st3. split_and!; try done.
  - unfold Dispose.
    rewrite (bind_eq _ _ _ _ _ (copyCheck_eq _ _ _ Hi Ha)).
    rewrite (bind_eq _ _ _ _ _ (isDisposed_eq _ _ _ _ Hi Hm)).
    rewrite bool_decide_false by congruence.
    rewrite (bind_eq _ _ _ _ _ (Ebiten_getImage_eq _ _ _ Hi)).
    unfold isSubImage. rewrite Ho.
    rewrite bool_decide_false by (by intros [? ?]).
    assert (Hmd : mipmapDispose m st = Ok (tt, st2)).
    { unfold mipmapDispose, mipmapDisposeMipmaps.
      rewrite !bind_assoc.
      assert (Hg : getMipmap m st = Ok (mm, st))
        by (unfold getMipmap; by rewrite Hm).
      rewrite (bind_eq _ _ _ _ _ Hg), Hlv. simpl forM.
      rewrite !bind_assoc.
      rewrite (bind_eq _ _ _ tt st) by done.
      rewrite (bind_eq _ _ _ tt st1) by done.
      assert (Hg1 : getMipmap m st1
                    = Ok ({| orig := orig mm; imgs := [] |}, st1)).
      { unfold getMipmap, st1. simpl. by rewrite lookup_insert_eq. }
      rewrite (bind_eq _ _ _ _ _ Hg1). simpl. rewrite Hmo.
      rewrite (bind_eq _ _ _ tt (set_sh (λ _, t') st1))
        by (apply onShareable_eq; exact Hd).
      reflexivity. }
    rewrite (bind_eq _ _ _ _ _ Hmd).
    simpl.
    assert (Hg2 : getImage i st2 = Ok (fi, st2))
      by (apply Ebiten_getImage_eq; exact Hi).
    rewrite (bind_eq _ _ _ _ _ Hg2), Ho.
    unfold st3. by destruct (pendingPixels fi).
  - intros j fj Hj Hmj.
    assert (∃ fj', fimages st3 !! j = Some fj' ∧ mipmap_ fj' = m ∧
                   addr fj' = addr fj) as (fj' & Hj' & Hmj' & Haj').
    { rewrite Hf3. destruct (decide (j = i)) as [->|Hne].
      - rewrite lookup_insert_eq. eexists. split; [done|]. simpl.
        split; congruence.
      - rewrite lookup_insert_ne by done. by exists fj. }
    assert (Hm3' : mipmaps st3 !! mipmap_ fj'
                   = Some {| orig := None; imgs := [] |}) by by rewrite Hmj'.
    assert (Hdis : isDisposed j st3 = Ok (true, st3))
      by (by eapply isDisposed_disposed).
    split_and!.
    + done.
    + unfold Bounds. by rewrite (bind_eq _ _ _ _ _ Hdis).
    + intros Hrun f x y. unfold At.
      rewrite (bind_eq _ _ _ st3 st3) by done.
      destruct (isRunning st3 =? 0) eqn:E; [lia|].
      by rewrite (bind_eq _ _ _ _ _ Hdis).
    + intros Haj. rewrite <- Haj' in Haj.
      pose proof (copyCheck_eq _ _ _ Hj' Haj) as Hcc.
      split_and!.
      * intros f. unfold Dispose.
        rewrite (bind_eq _ _ _ _ _ Hcc).
        by rewrite (bind_eq _ _ _ _ _ Hdis).
      * intros f p. unfold ReplacePixels, ReplacePixelsWith.
        rewrite (bind_eq _ _ _ _ _ Hcc).
        by rewrite (bind_eq _ _ _ _ _ Hdis).
      * intros r. unfold SubImage.
        rewrite (bind_eq _ _ _ _ _ Hcc).
        by rewrite (bind_eq _ _ _ _ _ Hdis).
      * intros Hrun x y c. unfold Set_.
        rewrite (bind_eq _ _ _ st3 st3) by done.
        destruct (isRunning st3 =? 0) eqn:E; [lia|].
        rewrite (bind_eq _ _ _ _ _ Hcc).
        by rewrite (bind_eq _ _ _ _ _ Hdis).
Qed.

(** X9.  A sub-image cannot be disposed or drawn to.  On a sub-image of
    an image that is not disposed, [Dispose] does nothing (the image it is a
    sub-image of stays as it is), and [ReplacePixels] and [DrawTriangles]
    with the sub-image as the target panic, whatever their other
    arguments. *)
Theorem subimage_is_no_target (fuel : nat) (st : State) (j : nat)
    (fj : Image) (mm : mipmap) :
  fimages st !! j = Some fj → addr fj = Some j → is_Some (original fj) →
  mipmaps st !! mipmap_ fj = Some mm → is_Some (orig mm) →
  Dispose fuel j st = Ok (tt, st) ∧
  (∀ p, ReplacePixels fuel j p st
        = Panic "ebiten: render to a subimage is not implemented (ReplacePixels)") ∧
  (∀ vertices indices img options,
     DrawTriangles fuel j vertices indices img options st
     = Panic "ebiten: render to a subimage is not implemented (DrawTriangles)").
Proof.
  intros Hj Ha Hsub Hm [o Ho].
  pose proof (copyCheck_eq _ _ _ Hj Ha) as Hcc.
  pose proof (isDisposed_eq _ _ _ _ Hj Hm) as Hd.
  rewrite bool_decide_false in Hd by congruence.
  pose proof (Ebiten_getImage_eq _ _ _ Hj) as Hg.
  assert (Hs : isSubImage fj = true) by by apply bool_decide_eq_true.
  split_and!.
  - unfold Dispose.
    rewrite (bind_eq _ _ _ _ _ Hcc), (bind_eq _ _ _ _ _ Hd).
    by rewrite (bind_eq _ _ _ _ _ Hg), Hs.
  - intros p. unfold ReplacePixels, ReplacePixelsWith.
    rewrite (bind_eq _ _ _ _ _ Hcc), (bind_eq _ _ _ _ _ Hd).
    by rewrite (bind_eq _ _ _ _ _ Hg), Hs.
  - intros vertices indices img options. unfold DrawTriangles.
    rewrite (bind_eq _ _ _ _ _ Hcc), (bind_eq _ _ _ _ _ Hd).
    by rewrite (bind_eq _ _ _ _ _ Hg), Hs.
Qed.

End Ebiten.
End EbitenLifecycle.
(** ** Writing the pixels of a handle and reading them back *)

Module EbitenWrites.
Import GoImage Ebiten EbitenReads Invariants ShareableAllocate
  ShareablePromotion ShareablePixels EbitenPixels.
Section Ebiten.
Context `{Extern}.

Lemma set_fimages_id (st : State) i fi :
  fimages st !! i = Some fi → set_fimages <[i := fi]> st = st.
Proof.
  intros Hi. destruct st. unfold set_fimages. simpl in *.
  by rewrite insert_id.
Qed.

Lemma with_pendingPixels_id fi :
  pendingPixels fi = None → with_pendingPixels None fi = fi.
Proof. intros Hp. destruct fi. simpl in *. by subst. Qed.

(** [resolvePendingPixels] without drawing drops the pending pixels of an
    image that is not a sub-image. *)
Lemma resolve_drop fuel st i fi :
  fimages st !! i = Some fi → original fi = None →
  resolvePendingPixels (S fuel) i false st
    = Ok (tt, set_fimages <[i := with_pendingPixels None fi]> st).
Proof.
  intros Hi Ho. simpl.
  rewrite (bind_eq _ _ _ _ _ (Ebiten_getImage_eq _ _ _ Hi)), Ho.
  destruct (pendingPixels fi) eqn:Hp; [done|].
  rewrite with_pendingPixels_id, set_fimages_id by done. done.
Qed.

(** [At] on an image that is not a sub-image and has no pending pixels
    reads its texture. *)
Lemma At_root_reads fuel st i fi mm o c s' x y :
  isRunning st ≠ 0 → fimages st !! i = Some fi → original fi = None →
  pendingPixels fi = None →
  mipmaps st !! mipmap_ fi = Some mm → orig mm = Some o →
  Shareable.At o x y (sh st) = Ok (c, s') →
  At (S fuel) i x y st = Ok (c, set_sh (λ _, s') st).
Proof.
  intros Hrun Hi Ho Hp Hm Hmo Hat. unfold At.
  rewrite (bind_eq _ _ _ st st) by done.
  destruct (isRunning st =? 0) eqn:E; [lia|].
  rewrite (bind_eq _ _ _ _ _ (isDisposed_eq _ _ _ _ Hi Hm)).
  rewrite bool_decide_false by congruence.
  rewrite (bind_eq _ _ _ _ _ (Ebiten_getImage_eq _ _ _ Hi)).
  unfold isSubImage. rewrite Ho.
  rewrite bool_decide_false by (by intros [? ?]).
  change (false && negb (In (Pt x y) (bounds fi))) with false. cbv iota.
  rewrite (bind_eq _ _ _ tt st).
  2:{ simpl. by rewrite (bind_eq _ _ _ _ _ (Ebiten_getImage_eq _ _ _ Hi)), Ho, Hp. }
  rewrite (bind_eq _ _ _ _ _ (mipmapOriginal_eq _ _ _ _ Hi Hm)), Hmo.
  simpl. rewrite (bind_eq _ _ _ o st) by done.
  by apply onShareable_eq.
Qed.

End Ebiten.

Section WithLaws.
Context `{Extern} `{!PackingLaws}.

(** [ReplacePixels] on an image that is not a sub-image. *)
Lemma ReplacePixels_root F fuel st i fi mm o simg p x y :
  (F ≤ S fuel)%nat →
  fimages st !! i = Some fi → addr fi = Some i → original fi = None →
  mipmaps st !! mipmap_ fi = Some mm → orig mm = Some o → imgs mm = [] →
  Shareable.images (sh st) !! o = Some simg →
  Shareable.disposed simg = false → placed (sh st) simg →
  textures_exist (sh st) → atlases_ok F (sh st) →
  0 < Shareable.width simg < 2 ^ 30 → 0 < Shareable.height simg < 2 ^ 30 →
  0 ≤ x < Shareable.width simg → 0 ≤ y < Shareable.height simg →
  Z.of_nat (length p) = 4 * Shareable.width simg * Shareable.height simg →
  ∃ s',
    ReplacePixels (S fuel) i p st
      = Ok (tt, set_mipmaps
                  <[mipmap_ fi := {| orig := orig mm; imgs := [] |}]>
                  (set_sh (λ _, s')
                     (set_fimages <[i := with_pendingPixels None fi]> st))) ∧
    Shareable.ReplacePixels (S fuel) o (Some p) (sh st) = Ok (tt, s') ∧
    Shareable.At o x y s'
      = Ok (quad p (4 * (y * Shareable.width simg + x)), s').
Proof.
  intros HF Hi Ha Ho Hm Hmo Hlv Hso Hd Hpl Htex Hat Hw Hh Hx Hy Hlen.
  set (w := Shareable.width simg) in *. set (h := Shareable.height simg) in *.
  destruct (ReplacePixels_then_At F (S fuel) (sh st) o simg p x y)
    as (s' & Hwrite & Hread); try done.
  exists s'. split; [|done].
  set (fi0 := with_pendingPixels None fi).
  set (st_b := set_fimages <[i := fi0]> st).
  assert (Hib : fimages st_b !! i = Some fi0) by apply lookup_insert_eq.
  assert (Hmb : mipmaps st_b !! mipmap_ fi0 = Some mm) by done.
  unfold ReplacePixels, ReplacePixelsWith.
  rewrite (bind_eq _ _ _ _ _ (copyCheck_eq _ _ _ Hi Ha)).
  rewrite (bind_eq _ _ _ _ _ (isDisposed_eq _ _ _ _ Hi Hm)).
  rewrite bool_decide_false by congruence.
  rewrite (bind_eq _ _ _ _ _ (Ebiten_getImage_eq _ _ _ Hi)).
  unfold isSubImage. rewrite Ho.
  rewrite bool_decide_false by (by intros [? ?]).
  rewrite (bind_eq _ _ _ _ _ (resolve_drop fuel st i fi Hi Ho)).
  fold fi0 st_b.
  rewrite (bind_eq _ _ _ _ _
             (Bounds_root i st_b fi0 mm o simg Hib Ho Hmb Hmo Hso)).
  rewrite Size_Rect by (fold w h; lia). simpl. fold w h.
  rewrite mul4 by lia.
  rewrite bool_decide_true by done. simpl.
  rewrite (bind_eq _ _ _ _ _ (mipmapOriginal_eq _ _ _ _ Hib Hmb)), Hmo.
  simpl. rewrite (bind_eq _ _ _ o st_b) by done.
  rewrite (bind_eq _ _ _ _ _ (onShareable_eq _ st_b _ _ Hwrite)).
  unfold disposeMipmaps.
  erewrite bind_eq.
  2:{ apply (isDisposed_eq i _ fi0 mm); [exact Hib|exact Hmb]. }
  rewrite bool_decide_false by congruence.
  rewrite (bind_eq _ _ _ fi0 _) by (apply Ebiten_getImage_eq; exact Hib).
  unfold mipmapDisposeMipmaps.
  rewrite (bind_eq _ _ _ mm _) by (unfold getMipmap; simpl; by rewrite Hm).
  rewrite Hlv, ?Hmo. reflexivity.
Qed.

(** X10.  [ReplacePixels] with [4 * w * h] bytes on an image that is not a
    sub-image returns, whether the image has a texture yet or not; the
    pixels that earlier calls of [Set] left pending are dropped, and [At]
    afterwards gives the four bytes of the slice at [4 * (y * w + x)]. *)
Theorem ReplacePixels_then_At_handle (F fuel : nat) (st : State) (i o : nat)
    (bnds : Rectangle) (pending : option (list Z)) (simg : Shareable.Image)
    (p : list Z) (x y : Z) :
  (F ≤ S fuel)%nat → isRunning st ≠ 0 →
  genuine st i o false bnds pending →
  Shareable.images (sh st) !! o = Some simg →
  Shareable.disposed simg = false → placed (sh st) simg →
  textures_exist (sh st) → atlases_ok F (sh st) →
  0 < Shareable.width simg < 2 ^ 30 → 0 < Shareable.height simg < 2 ^ 30 →
  0 ≤ x < Shareable.width simg → 0 ≤ y < Shareable.height simg →
  Z.of_nat (length p) = 4 * Shareable.width simg * Shareable.height simg →
  ∃ st1 st2,
    ReplacePixels (S fuel) i p st = Ok (tt, st1) ∧
    genuine st1 i o false bnds None ∧
    At (S fuel) i x y st1
      = Ok (quad p (4 * (y * Shareable.width simg + x)), st2).
Proof.
  intros HF Hrun (fi & root & fr & mm & Hi & Hai & Hsub & Hbnds & Hroot & Hr
                  & Har & Hor & Hmr & Hpend & Hm & Hmo & Hlv)
    Hso Hd Hpl Htex Hat Hw Hh Hx Hy Hlen.
  assert (Ho : original fi = None).
  { unfold isSubImage in Hsub. destruct (original fi); [|done].
    rewrite bool_decide_true in Hsub by (by eexists). done. }
  rewrite Ho in Hroot. simpl in Hroot. subst root.
  assert (fr = fi) by congruence. subst fr.
  destruct (ReplacePixels_root F fuel st i fi mm o simg p x y)
    as (s' & Hwrite & _ & Hread); try done.
  set (fi0 := with_pendingPixels None fi) in *.
  set (st1 := set_mipmaps _ _) in Hwrite.
  assert (Hi1 : fimages st1 !! i = Some fi0) by apply lookup_insert_eq.
  assert (Hm1 : mipmaps st1 !! mipmap_ fi0
                = Some {| orig := orig mm; imgs := [] |})
    by apply lookup_insert_eq.
  exists st1, (set_sh (λ _, s') st1). split_and!; [done| |].
  - exists fi0, i, fi0, {| orig := orig mm; imgs := [] |}.
    split_and!; try done. simpl. by rewrite Ho.
  - eapply At_root_reads; try done.
Qed.

End WithLaws.
End EbitenWrites.
(** ** What no call changes of an image *)

Module ShareableRecords.
Import Shareable ShareableBasics ShareableDispose Invariants ShareableSource
  ShareableDisposed ShareableTargets ShareableBeforeStart.
Section Shareable.
Context `{Extern}.

Lemma same_shape_refl img : same_shape img img.
Proof. by unfold same_shape. Qed.

Lemma keeps_records_refl s : keeps_records s s.
Proof. intros k img Hk. exists img. split; [done|apply same_shape_refl]. Qed.

Lemma keeps_records_trans s1 s2 s3 :
  keeps_records s1 s2 → keeps_records s2 s3 → keeps_records s1 s3.
Proof.
  intros A B k img Hk.
  destruct (A k img Hk) as (img2 & Hk2 & W2 & H2 & D2 & N2).
  destruct (B k img2 Hk2) as (img3 & Hk3 & W3 & H3 & D3 & N3).
  exists img3. split; [done|]. unfold same_shape.
  split_and!; try congruence; eauto.
Qed.

Lemma keeps_records_images s s' :
  images s' = images s → keeps_records s s'.
Proof.
  intros E k img Hk. exists img. rewrite E. split; [done|apply same_shape_refl].
Qed.

Lemma keeps_records_insert s s' i img img' :
  images s !! i = Some img → images s' = <[i := img']> (images s) →
  same_shape img img' → keeps_records s s'.
Proof.
  intros Hi E Hs k imgk Hk. rewrite E.
  destruct (decide (k = i)) as [->|Hne].
  - rewrite lookup_insert_eq. exists img'. split; [done|]. congruence.
  - rewrite lookup_insert_ne by done. exists imgk.
    split; [done|apply same_shape_refl].
Qed.


Lemma allocate_records fuel i sh s u s' :
  allocate fuel i sh s = Ok (u, s') → keeps_records s s'.
Proof.
  intros Hrun.
  apply allocate_inv in Hrun as (img & b & n & Hi & _ & Himgs & _).
  by eapply keeps_records_insert.
Qed.



(** The second half of [replacePixels] writes to a texture only. *)
Lemma replacePixels_written_images i p s1 u s' :
  (let* (x, y, w, h) := region i in
   (match p with
    | Some bs =>
        let l := GoInt.mul (GoInt.mul 4 w) h in
        if bool_decide (Z.of_nat (length bs) = l) then ret tt
        else panic "shareable: len(p) must be 4*w*h"
    | None => ret tt
    end) ;;
   let* img := getImage i in
   match backend_ img with
   | None => panic nil_deref
   | Some b =>
       let* bk := getBackend b in
       onRestorable (Restorable.ReplacePixels (restorable bk) p x y w h)
   end) s1 = Ok (u, s') →
  images s' = images s1.
Proof.
  intros Hc. minv.
  match goal with Hr : region _ _ = Ok _ |- _ =>
    apply region_inv in Hr; subst end.
  destruct p as [bs|]; minv; cbv zeta in *;
    repeat (minv_case; try done; minv);
    unfold onRestorable in *; minv; done.
Qed.

Lemma ReplacePixels_records fuel i p s u s' :
  ReplacePixels fuel i p s = Ok (u, s') → keeps_records s s'.
Proof.
  intros Hrun. unfold ReplacePixels, replacePixels in Hrun.
  apply bind_inv in Hrun as (img & ? & [Hi ->]%Shareable_getImage_inv & Hrun).
  destruct (disposed img); [done|].
  destruct (backend_ img).
  - apply keeps_records_images.
    exact (replacePixels_written_images i p s u s' Hrun).
  - destruct p as [bs|]; [|apply ret_inv in Hrun as [_ ->];
                            apply keeps_records_refl].
    apply bind_inv in Hrun as ([] & s1 & Halloc & Hrun).
    apply allocate_records in Halloc.
    eapply keeps_records_trans; [exact Halloc|].
    apply keeps_records_images.
    exact (replacePixels_written_images i (Some bs) s1 u s' Hrun).
Qed.



End Shareable.
End ShareableRecords.
(** ** New images *)

Module EbitenCreation.
Import GoImage Ebiten EbitenReads Invariants ShareableAllocate
  ShareablePromotion ShareablePixels EbitenPixels EbitenWrites
  ShareableRecords.
Section Ebiten.
Context `{Extern}.

Lemma NewImage_eq w h filter_ st :
  NewImage w h filter_ st
  = Ok (fresh (dom (fimages st)), withNewImage w h filter_ st).
Proof. reflexivity. Qed.

Lemma withNewImage_genuine w h filter_ st :
  genuine (withNewImage w h filter_ st) (fresh (dom (fimages st)))
    (fresh (dom (Shareable.images (sh st)))) false ZR None.
Proof.
  exists (newHandle (fresh (dom (fimages st))) (fresh (dom (mipmaps st)))
            filter_),
    (fresh (dom (fimages st))),
    (newHandle (fresh (dom (fimages st))) (fresh (dom (mipmaps st))) filter_),
    {| orig := Some (fresh (dom (Shareable.images (sh st)))); imgs := [] |}.
  split_and!; try done; simpl; apply lookup_insert_eq.
Qed.

(** X12.  [NewImage] allocates nothing: the textures, the backends and
    the atlases are as before, and the images that were there are
    untouched.  The new image has the size it was made with, and reads as
    transparent everywhere, still without a texture. *)
Theorem NewImage_is_lazy (fuel : nat) (w h filter_ : Z) (st : State) :
  isRunning st ≠ 0 → 0 ≤ w < 2 ^ 30 → 0 ≤ h < 2 ^ 30 →
  ∃ i o st1,
    NewImage w h filter_ st = Ok (i, st1) ∧
    fimages st !! i = None ∧
    (∀ j, j ≠ i → fimages st1 !! j = fimages st !! j) ∧
    Shareable.images (sh st) !! o = None ∧
    (∀ k, k ≠ o →
       Shareable.images (sh st1) !! k = Shareable.images (sh st) !! k) ∧
    Shareable.rimages (sh st1) = Shareable.rimages (sh st) ∧
    Shareable.backends (sh st1) = Shareable.backends (sh st) ∧
    Shareable.theBackends (sh st1) = Shareable.theBackends (sh st) ∧
    Size i st1 = Ok ((w, h), st1) ∧
    Bounds i st1 = Ok (Rect 0 0 w h, st1) ∧
    ∀ x y, At (S fuel) i x y st1 = Ok (transparent, st1).
Proof.
  intros Hrun Hw Hh.
  set (i := fresh (dom (fimages st))).
  set (o := fresh (dom (Shareable.images (sh st)))).
  set (m := fresh (dom (mipmaps st))).
  set (st1 := withNewImage w h filter_ st).
  assert (Hi : fimages st1 !! i = Some (newHandle i m filter_))
    by apply lookup_insert_eq.
  assert (Hm : mipmaps st1 !! mipmap_ (newHandle i m filter_)
               = Some {| orig := Some o; imgs := [] |})
    by apply lookup_insert_eq.
  assert (Ho : Shareable.images (sh st1) !! o = Some (newTexture w h))
    by apply lookup_insert_eq.
  exists i, o, st1. split_and!; try done.
  - apply not_elem_of_dom, is_fresh.
  - intros j Hj. simpl. by rewrite lookup_insert_ne.
  - apply not_elem_of_dom, is_fresh.
  - intros k Hk. simpl. by rewrite lookup_insert_ne.
  - by apply (Size_root i st1 _ _ o (newTexture w h) Hi eq_refl Hm eq_refl Ho).
  - by apply (Bounds_root i st1 _ _ o (newTexture w h) Hi eq_refl Hm eq_refl Ho).
  - intros x y.
    assert (Hat : Shareable.At o x y (sh st1) = Ok (transparent, sh st1)).
    { unfold Shareable.At, Shareable.at_.
      by rewrite (bind_eq _ _ _ _ _
                    (ShareableBasics.getImage_eq _ _ _ Ho)). }
    rewrite (At_root_reads fuel st1 i _ _ o transparent (sh st1) x y
               Hrun Hi eq_refl eq_refl Hm eq_refl Hat).
    by rewrite set_sh_same.
Qed.

End Ebiten.

Section WithLaws.
Context `{Extern} `{!PackingLaws}.

(** X13.  [NewImageFromImage] with the [4 * w * h] bytes of a source of
    [w] by [h] pixels returns a new image of that size, and [At] on it
    gives the bytes of the source at [4 * (y * w + x)]. *)
Theorem NewImageFromImage_then_At (F fuel : nat) (st : State)
    (sourceBounds : Rectangle) (copied : list Z) (filter_ x y : Z) :
  (F ≤ S fuel)%nat → isRunning st ≠ 0 →
  textures_exist (sh st) → atlases_ok F (sh st) →
  0 < Dx sourceBounds < 2 ^ 30 → 0 < Dy sourceBounds < 2 ^ 30 →
  Z.of_nat (length copied) = 4 * Dx sourceBounds * Dy sourceBounds →
  0 ≤ x < Dx sourceBounds → 0 ≤ y < Dy sourceBounds →
  ∃ i st1 st2,
    NewImageFromImage (S fuel) sourceBounds copied filter_ st = Ok (i, st1) ∧
    fimages st !! i = None ∧
    Size i st1 = Ok ((Dx sourceBounds, Dy sourceBounds), st1) ∧
    At (S fuel) i x y st1
      = Ok (quad copied (4 * (y * Dx sourceBounds + x)), st2).
Proof.
  intros HF Hrun Htex Hat Hw Hh Hlen Hx Hy.
  set (w := Dx sourceBounds) in *. set (h := Dy sourceBounds) in *.
  set (i := fresh (dom (fimages st))).
  set (o := fresh (dom (Shareable.images (sh st)))).
  set (m := fresh (dom (mipmaps st))).
  set (st0 := withNewImage w h filter_ st).
  set (fi := newHandle i m filter_).
  set (mm := {| orig := Some o; imgs := [] |}).
  assert (Hi : fimages st0 !! i = Some fi) by apply lookup_insert_eq.
  assert (Hm : mipmaps st0 !! mipmap_ fi = Some mm) by apply lookup_insert_eq.
  assert (Ho : Shareable.images (sh st0) !! o = Some (newTexture w h))
    by apply lookup_insert_eq.
  assert (Hpl : placed (sh st0) (newTexture w h)) by (split; [done|by intros]).
  destruct (ReplacePixels_root F fuel st0 i fi mm o (newTexture w h) copied x y)
    as (s' & Hwrite & Hsh & Hread); try done.
  set (st1 := set_mipmaps _ _) in Hwrite.
  assert (Hi1 : fimages st1 !! i = Some fi) by apply lookup_insert_eq.
  assert (Hm1 : mipmaps st1 !! mipmap_ fi = Some mm) by apply lookup_insert_eq.
  exists i, st1, (set_sh (λ _, s') st1). split_and!.
  - unfold NewImageFromImage.
    change (X (GoImage.Size sourceBounds)) with w.
    change (Y (GoImage.Size sourceBounds)) with h.
    change (Ok (i, st1)) with
      ((λ r, match r with
             | Ok (_, s1) => Ok (i, s1)
             | Panic msg => Panic msg
             | OutOfFuel => OutOfFuel
             end) (Ok (tt, st1) : result (unit * State))).
    rewrite <- Hwrite. reflexivity.
  - apply not_elem_of_dom, is_fresh.
  - destruct (ReplacePixels_records _ _ _ _ _ _ Hsh o (newTexture w h) Ho)
      as (simg1 & Ho1 & Hw1 & Hh1 & _).
    simpl in Hw1, Hh1. rewrite <- Hw1, <- Hh1.
    apply (Size_root i st1 fi mm o simg1 Hi1 eq_refl Hm1 eq_refl Ho1); lia.
  - by eapply At_root_reads.
Qed.

End WithLaws.
End EbitenCreation.
(** ** A candidate that is disposed before the frame ends *)

Module ShareableDisposedCandidate.
Import Shareable ShareableBasics ShareableDispose Invariants ShareableAllocate
  ShareablePromotion.
Section WithLaws.
Context `{Extern} `{!PackingLaws}.

(** X14.  [Dispose] leaves a candidate in [imagesToMakeShared], and
    [makeShared] does not look at [disposed].  When the only candidate is a
    disposed image whose count is one short of [MaxCountForShare], or more,
    the pass over the candidates returns and allocates the image again: the
    disposed image has a backend afterwards.  A further [Dispose] returns
    at once and releases nothing: the backends, the atlases and the
    textures stay as they are. *)
Theorem disposed_candidate_allocated (F fuel : nat) (s : State) (i : nat)
    (img : Image) :
  (F ≤ fuel)%nat → textures_exist s → atlases_ok F s →
  images s !! i = Some img → disposed img = true → backend_ img = None →
  imagesToMakeShared s = [i] →
  MaxCountForShare - 1 ≤ nonUpdatedCount img < 2 ^ 62 →
  0 < width img → 0 < height img →
  ∃ s' img' b,
    makeImagesShared fuel s = Ok (tt, s') ∧
    images s' !! i = Some img' ∧ disposed img' = true ∧
    backend_ img' = Some b ∧ is_Some (backends s' !! b) ∧
    imagesToMakeShared s' = [] ∧
    ∃ s'', Dispose i s' = Ok (tt, s'') ∧
      backends s'' = backends s' ∧ theBackends s'' = theBackends s' ∧
      rimages s'' = rimages s'.
Proof.
  intros HF Htex Hat Hi Hd Hb Hc Hcount Hw Hh.
  assert (Hadd : GoInt.add (nonUpdatedCount img) 1 = nonUpdatedCount img + 1).
  { apply wrap_small. change (2 ^ 63) with 9223372036854775808.
    change (2 ^ 62) with 4611686018427387904 in Hcount.
    unfold MaxCountForShare in Hcount. lia. }
  set (img1 := with_nonUpdatedCount (nonUpdatedCount img + 1) img).
  set (s1 := set_images <[i := img1]> s).
  assert (Hi1 : images s1 !! i = Some img1) by apply lookup_insert_eq.
  assert (Htex1 : textures_exist s1) by done.
  assert (Hat1 : atlases_ok F s1) by done.
  (* the allocation *)
  assert (Halloc : ∃ s2 b n,
    allocate fuel i true s1 = Ok (tt, s2) ∧
    images s2 = <[i := with_backend (Some b) n img1]> (images s1) ∧
    is_Some (backends s2 !! b) ∧
    imagesToMakeShared s2 = imagesToMakeShared s1).
  { destruct (shareable s1 img1) eqn:Hsh.
    - destruct (allocate_shared F fuel i s1 img1)
        as (s2 & b & bk & n & x & y & Hrun & Himgs & Hbk & Hpg & _ & Hin & _
            & _ & Hext); try done.
      exists s2, b, (Some n). destruct Hext as (Hcs & _).
      split_and!; [done|done|by eexists|done].
    - pose proof (allocate_private fuel i true s1 img1 Hi1 Hb
                    (or_intror Hsh)) as Hrun.
      cbv zeta in Hrun.
      eexists _, _, _. split; [exact Hrun|]. simpl.
      split_and!; try done.
      rewrite lookup_insert_eq. by eexists. }
  destruct Halloc as (s2 & b & n & Halloc & Himgs2 & Hbk2 & Hc2).
  set (img2 := with_backend (Some b) n img1) in *.
  set (s3 := set_imagesToMakeShared (filter (λ j, j ≠ i)) s2).
  assert (Hi3 : images s3 !! i = Some img2)
    by (simpl; rewrite Himgs2; apply lookup_insert_eq).
  exists s3, img2, b. split_and!; try done.
  - unfold makeImagesShared.
    rewrite (bind_eq _ _ _ s s) by done. rewrite Hc. simpl forM.
    rewrite !bind_assoc.
    rewrite (bind_eq _ _ _ _ _ (getImage_eq _ _ _ Hi)).
    rewrite Hadd.
    destruct (nonUpdatedCount img + 1 >=? MaxCountForShare) eqn:E;
      [|unfold MaxCountForShare in *; lia].
    unfold setImage. rewrite !bind_assoc.
    rewrite (bind_eq _ _ _ tt s1) by done.
    unfold makeShared. rewrite !bind_assoc.
    rewrite (bind_eq _ _ _ _ _ (getImage_eq _ _ _ Hi1)).
    change (backend_ img1) with (backend_ img). rewrite Hb.
    rewrite (bind_eq _ _ _ _ _ Halloc).
    unfold deleteCandidate.
    rewrite (bind_eq _ _ _ tt s3) by done. reflexivity.
  - simpl. rewrite Hc2. simpl. rewrite Hc.
    rewrite filter_cons_False by (intros ?; done). done.
  - exists (set_images
              <[i := with_backend None None (with_disposed true img2)]> s3).
    split; [|done].
    unfold Dispose, dispose.
    rewrite (bind_eq _ _ _ _ _ (getImage_eq _ _ _ Hi3)).
    change (disposed img2) with (disposed img). rewrite Hd.
    rewrite (bind_eq _ _ _ tt s3) by done.
    rewrite (bind_eq _ _ _ _ _ (getImage_eq _ _ _ Hi3)). reflexivity.
Qed.

End WithLaws.
End ShareableDisposedCandidate.
(** ** [Set] at a position outside the image *)

Module EbitenSetBounds.
Import GoImage Ebiten EbitenReads Invariants ShareableAllocate
  ShareablePromotion ShareablePixels EbitenPixels.
(** Four stores at [idx] leave the four bytes at any other pixel. *)
Lemma store_quad_apart (pix : list Z) idx v0 v1 v2 v3 p1 p2 p3 p4 idx' :
  store pix idx v0 = Ok p1 → store p1 (idx + 1) v1 = Ok p2 →
  store p2 (idx + 2) v2 = Ok p3 → store p3 (idx + 3) v3 = Ok p4 →
  0 ≤ idx → 0 ≤ idx' → idx' + 3 < idx ∨ idx + 3 < idx' →
  quad p4 idx' = quad pix idx'.
Proof.
  unfold store.
  repeat match goal with
         | |- context [(0 <=? ?a) && (?a <? ?b)] =>
             destruct ((0 <=? a) && (a <? b)); [|done]
         end.
  intros [= <-] [= <-] [= <-] [= <-] H0 H0' Hapart. unfold quad.
  rewrite !nth_lookup.
  by rewrite !list_lookup_insert_ne by lia.
Qed.

Section Ebiten.
Context `{Extern}.

(** The loops of [Set] copy every pixel of the image to its place in the
    slice. *)
Lemma readBack_content o w h pix s simg :
  Shareable.images (sh s) !! o = Some simg → placed (sh s) simg →
  0 ≤ w < 2 ^ 30 → 0 ≤ h < 2 ^ 30 →
  Z.of_nat (length pix) = 4 * w * h →
  ∃ pix', readBack (Some o) w h pix s = Ok (pix', s) ∧
    length pix' = length pix ∧
    ∀ x y, 0 ≤ x < w → 0 ≤ y < h →
      Shareable.at_ o x y (sh s) = Ok (quad pix' (4 * (y * w + x)), sh s).
Proof.
  intros Ho Hpl Hw Hh Hlen. unfold readBack.
  change (2 ^ 30) with 1073741824 in *.
  set (val := λ x y, match Shareable.at_ o x y (sh s) with
                     | Ok (c, _) => c
                     | _ => transparent
                     end).
  assert (Hval : ∀ x y, Shareable.at_ o x y (sh s) = Ok (val x y, sh s)).
  { intros x y. unfold val.
    destruct (at_placed o x y (sh s) simg Ho Hpl) as (c & ->). done. }
  destruct (foldM_indexed (seqZ 0 h)
              (λ acc j,
                 Shareable.foldM (seqZ 0 w)
                   (λ '(pix, idx) i,
                      let* o := deref (Some o) in
                      let* (r, g, b, a) := onShareable (Shareable.At o i j) in
                      let* pix := lift_result (store pix (GoInt.mul 4 idx) r) in
                      let* pix := lift_result
                        (store pix (GoInt.add (GoInt.mul 4 idx) 1) g) in
                      let* pix := lift_result
                        (store pix (GoInt.add (GoInt.mul 4 idx) 2) b) in
                      let* pix := lift_result
                        (store pix (GoInt.add (GoInt.mul 4 idx) 3) a) in
                      ret (pix, GoInt.add idx 1))
                   acc) s
              (λ k acc, length acc.1 = length pix ∧ acc.2 = Z.of_nat k * w ∧
                 ∀ x y, 0 ≤ x < w → 0 ≤ y < Z.of_nat k →
                   quad acc.1 (4 * (y * w + x)) = val x y))
    with (acc := (pix, 0)) as ([pix' idx'] & Hrun & Hl' & _ & Hcontent).
  - intros [p0 idx0] k j [-> Hk]%lookup_seqZ (Hl0 & Hidx0 & Hold0).
    simpl in *.
    destruct (foldM_indexed (seqZ 0 w)
                (λ '(pix, idx) i,
                   let* o := deref (Some o) in
                   let* (r, g, b, a) :=
                     onShareable (Shareable.At o i (0 + Z.of_nat k)) in
                   let* pix := lift_result (store pix (GoInt.mul 4 idx) r) in
                   let* pix := lift_result
                     (store pix (GoInt.add (GoInt.mul 4 idx) 1) g) in
                   let* pix := lift_result
                     (store pix (GoInt.add (GoInt.mul 4 idx) 2) b) in
                   let* pix := lift_result
                     (store pix (GoInt.add (GoInt.mul 4 idx) 3) a) in
                   ret (pix, GoInt.add idx 1)) s
                (λ n acc, length acc.1 = length pix ∧
                          acc.2 = Z.of_nat k * w + Z.of_nat n ∧
                          (∀ x y, 0 ≤ x < w → 0 ≤ y < Z.of_nat k →
                             quad acc.1 (4 * (y * w + x)) = val x y) ∧
                          ∀ x, 0 ≤ x < Z.of_nat n →
                            quad acc.1 (4 * (Z.of_nat k * w + x))
                            = val x (Z.of_nat k)))
      with (acc := (p0, idx0)) as ([p1 idx1] & Hrun1 & Hl1 & Hidx1 & Hold1
                                   & Hnew1).
    + intros [p2 idx2] n i [-> Hn]%lookup_seqZ (Hl2 & Hidx2 & Hold2 & Hnew2).
      simpl in *.
      rewrite (bind_eq _ _ _ o s) by done.
      pose proof (Hval (0 + Z.of_nat n) (0 + Z.of_nat k)) as Hat.
      destruct (val (0 + Z.of_nat n) (0 + Z.of_nat k))
        as [[[r g] b] a] eqn:Hv.
      erewrite bind_eq by (apply onShareable_eq; exact Hat).
      rewrite set_sh_same.
      assert (Hin : 0 ≤ idx2 ∧ 4 * idx2 + 3 < Z.of_nat (length p2)) by nia.
      assert (Hm : GoInt.mul 4 idx2 = 4 * idx2).
      { apply wrap_small. change (2 ^ 63) with 9223372036854775808. nia. }
      assert (Ha : ∀ d, 0 ≤ d ≤ 3 → GoInt.add (4 * idx2) d = 4 * idx2 + d).
      { intros d Hd. apply wrap_small.
        change (2 ^ 63) with 9223372036854775808. nia. }
      rewrite Hm, !Ha by lia.
      destruct (store_quad p2 (4 * idx2) r g b a)
        as (q1 & q2 & q3 & q4 & Hs1 & Hs2 & Hs3 & Hs4 & Hl4 & Hq); [lia|lia|].
      rewrite (bind_eq _ _ _ q1 s) by (by apply lift_result_eq).
      rewrite (bind_eq _ _ _ q2 s) by (by apply lift_result_eq).
      rewrite (bind_eq _ _ _ q3 s) by (by apply lift_result_eq).
      rewrite (bind_eq _ _ _ q4 s) by (by apply lift_result_eq).
      eexists. split; [done|]. simpl. split_and!; [congruence| | |].
      * unfold GoInt.add. rewrite wrap_small
          by (change (2 ^ 63) with 9223372036854775808; nia). lia.
      * intros x y Hx Hy.
        rewrite (store_quad_apart p2 (4 * idx2) r g b a q1 q2 q3 q4
                   (4 * (y * w + x)) Hs1 Hs2 Hs3 Hs4);
          [by apply Hold2|lia|nia|nia].
      * intros x Hx.
        destruct (decide (x = Z.of_nat n)) as [->|Hne].
        -- rewrite <- Hidx2, Hq, <- Hv. f_equal; lia.
        -- rewrite (store_quad_apart p2 (4 * idx2) r g b a q1 q2 q3 q4
                      (4 * (Z.of_nat k * w + x)) Hs1 Hs2 Hs3 Hs4);
             [apply Hnew2; lia|lia|nia|nia].
    + simpl. split_and!; [done|lia|done|]. intros x Hx. lia.
    + exists (p1, idx1). split; [done|]. simpl in *.
      rewrite length_seqZ in Hidx1, Hnew1.
      split_and!; [done|lia|].
      intros x y Hx Hy.
      destruct (decide (y = Z.of_nat k)) as [->|Hne].
      * apply Hnew1. lia.
      * apply Hold1; lia.
  - simpl. split_and!; [done|lia|]. intros x y Hx Hy. lia.
  - exists pix'. split; [by rewrite (bind_eq _ _ _ _ _ Hrun)|].
    split; [done|]. intros x y Hx Hy. rewrite Hval. f_equal. f_equal.
    symmetry. simpl in Hcontent. apply Hcontent; [done|].
    rewrite length_seqZ. lia.
Qed.

(** [Set] on an image that is not a sub-image, up to the four stores: the
    slice of pending pixels is there, and the stores start at
    [4 * (x + y * w)]. *)
Lemma Set_root_stores st i o bnds pending simg x y r g b a :
  isRunning st ≠ 0 → genuine st i o false bnds pending →
  Shareable.images (sh st) !! o = Some simg → placed (sh st) simg →
  0 < Shareable.width simg < 2 ^ 30 → 0 < Shareable.height simg < 2 ^ 30 →
  - 2 ^ 30 < x < 2 ^ 30 → - 2 ^ 30 < y < 2 ^ 30 →
  (∀ p, pending = Some p →
        Z.of_nat (length p)
        = 4 * Shareable.width simg * Shareable.height simg) →
  ∃ fi st_a pa,
    fimages st !! i = Some fi ∧
    fimages st_a = <[i := with_pendingPixels (Some pa) fi]> (fimages st) ∧
    sh st_a = sh st ∧ mipmaps st_a = mipmaps st ∧
    isRunning st_a = isRunning st ∧
    Z.of_nat (length pa)
      = 4 * Shareable.width simg * Shareable.height simg ∧
    (∀ p, pending = Some p → pa = p) ∧
    (pending = None →
     ∀ x' y', 0 ≤ x' < Shareable.width simg →
       0 ≤ y' < Shareable.height simg →
       Shareable.at_ o x' y' (sh st)
       = Ok (quad pa (4 * (y' * Shareable.width simg + x')), sh st)) ∧
    Set_ i x y (r, g, b, a) st =
      (let idx := 4 * (x + y * Shareable.width simg) in
       let* pix := lift_result (store pa idx (GoInt.byte (Z.shiftr r 8))) in
       let* pix := lift_result
         (store pix (idx + 1) (GoInt.byte (Z.shiftr g 8))) in
       let* pix := lift_result
         (store pix (idx + 2) (GoInt.byte (Z.shiftr b 8))) in
       let* pix := lift_result
         (store pix (idx + 3) (GoInt.byte (Z.shiftr a 8))) in
       setImage i (with_pendingPixels (Some pix)
                     (with_pendingPixels (Some pa) fi))) st_a.
Proof.
  intros Hrun (fi & root & fr & mm & Hi & Hai & Hsub & Hbnds & Hroot & Hr
               & Har & Hor & Hmr & Hpend & Hm & Hmo & Hlv)
    Ho Hpl Hw Hh Hx Hy Hlen.
  assert (Hofi : original fi = None).
  { unfold isSubImage in Hsub. destruct (original fi); [|done].
    rewrite bool_decide_true in Hsub by (by eexists). done. }
  rewrite Hofi in Hroot. simpl in Hroot. subst root.
  assert (fr = fi) by congruence. subst fr.
  set (w := Shareable.width simg) in *. set (h := Shareable.height simg) in *.
  assert (Hpre : ∃ st_a pa,
    (match pendingPixels fi with
     | Some _ => ret tt
     | None =>
         let* pix := lift_result (make_bytes (GoInt.mul (GoInt.mul 4 w) h)) in
         let* o := mipmapOriginal i in
         let* pix := readBack o w h pix in
         let* im := getImage i in
         setImage i (with_pendingPixels (Some pix) im)
     end) st = Ok (tt, st_a) ∧
    fimages st_a = <[i := with_pendingPixels (Some pa) fi]> (fimages st) ∧
    sh st_a = sh st ∧ mipmaps st_a = mipmaps st ∧
    isRunning st_a = isRunning st ∧
    Z.of_nat (length pa) = 4 * w * h ∧
    (∀ p, pending = Some p → pa = p) ∧
    (pending = None →
     ∀ x' y', 0 ≤ x' < w → 0 ≤ y' < h →
       Shareable.at_ o x' y' (sh st)
       = Ok (quad pa (4 * (y' * w + x')), sh st))).
  { destruct (pendingPixels fi) as [p0|] eqn:Hp.
    - exists st, p0. split_and!; try done;
        [|by apply Hlen|intros p; congruence|congruence].
      rewrite insert_id; [done|]. rewrite Hi. f_equal.
      destruct fi; simpl in *; by subst.
    - rewrite (mul4 w h) by lia.
      assert (Hmk : make_bytes (4 * w * h)
                    = Ok (replicate (Z.to_nat (4 * w * h)) 0)).
      { unfold make_bytes. destruct (4 * w * h <? 0) eqn:?; [nia|done]. }
      rewrite (bind_eq _ _ _ _ st (lift_result_eq _ _ _ Hmk)).
      rewrite (bind_eq _ _ _ _ _ (mipmapOriginal_eq _ _ _ _ Hi Hm)), Hmo.
      destruct (readBack_content o w h (replicate (Z.to_nat (4 * w * h)) 0)
                  st simg Ho Hpl) as (pa & Hrb & Hla & Hca); [lia|lia| |].
      { rewrite length_replicate. nia. }
      rewrite (bind_eq _ _ _ _ _ Hrb).
      rewrite (bind_eq _ _ _ _ _ (Ebiten_getImage_eq _ _ _ Hi)).
      eexists _, pa. split; [reflexivity|]. simpl.
      split_and!; try done; [|intros p; congruence].
      rewrite Hla, length_replicate. nia. }
  destruct Hpre as (st_a & pa & Hpre & Hfa & Hsa & Hma & Hra & Hla & Hsome
                    & Hnone).
  assert (Hidx : GoInt.mul 4 (GoInt.add x (GoInt.mul y w)) = 4 * (x + y * w)).
  { unfold GoInt.mul, GoInt.add. change (2 ^ 30) with 1073741824 in *.
    rewrite (wrap_small (y * w))
      by (change (2 ^ 63) with 9223372036854775808; nia).
    rewrite (wrap_small (x + y * w))
      by (change (2 ^ 63) with 9223372036854775808; nia).
    rewrite wrap_small by (change (2 ^ 63) with 9223372036854775808; nia).
    lia. }
  assert (Hadd : ∀ d, 0 ≤ d ≤ 3 →
            GoInt.add (4 * (x + y * w)) d = 4 * (x + y * w) + d).
  { intros d Hd. apply wrap_small. change (2 ^ 30) with 1073741824 in *.
    change (2 ^ 63) with 9223372036854775808. nia. }
  assert (Hia : fimages st_a !! i = Some (with_pendingPixels (Some pa) fi))
    by (rewrite Hfa; apply lookup_insert_eq).
  exists fi, st_a, pa. split_and!; try done.
  unfold Set_. rewrite (bind_eq _ _ _ st st) by done.
  destruct (isRunning st =? 0) eqn:E; [lia|].
  rewrite (bind_eq _ _ _ _ _ (copyCheck_eq _ _ _ Hi Hai)).
  rewrite (bind_eq _ _ _ _ _ (isDisposed_eq _ _ _ _ Hi Hm)).
  rewrite bool_decide_false by congruence.
  rewrite (bind_eq _ _ _ _ _ (Ebiten_getImage_eq _ _ _ Hi)).
  rewrite Hsub, Hofi. cbn [andb].
  rewrite (bind_eq _ _ _ _ _
             (Size_root _ _ _ _ _ _ Hi Hofi Hm Hmo Ho
                (ltac:(fold w; lia)) (ltac:(fold h; lia)))).
  fold w h.
  rewrite (bind_eq _ _ _ _ _ (Ebiten_getImage_eq _ _ _ Hi)).
  rewrite (bind_eq _ _ _ _ _ Hpre).
  rewrite (bind_eq _ _ _ _ _ (Ebiten_getImage_eq _ _ _ Hia)). simpl.
  rewrite Hidx, !Hadd by lia. reflexivity.
Qed.

End Ebiten.

Section WithLaws.
Context `{Extern} `{!PackingLaws}.

(** X15.  [Set] checks the position against the bounds of a sub-image
    only.  On an image of [w] by [h] pixels that is not a sub-image,
    [Set(x, y)] writes the pixel number [x + y * w] of the image, counted
    row by row: a position to the right of the image lands in a later row.
    When that number is not the number of a pixel of the image, [Set]
    panics with an index out of range. *)
Theorem Set_outside_bounds (F fuel : nat) (st : State) (i o : nat)
    (bnds : Rectangle) (pending : option (list Z)) (simg : Shareable.Image)
    (x y r g b a : Z) :
  (F + 3 ≤ fuel)%nat → isRunning st ≠ 0 →
  genuine st i o false bnds pending →
  Shareable.images (sh st) !! o = Some simg →
  Shareable.disposed simg = false → placed (sh st) simg →
  textures_exist (sh st) → atlases_ok F (sh st) →
  0 < Shareable.width simg < 2 ^ 30 → 0 < Shareable.height simg < 2 ^ 30 →
  - 2 ^ 30 < x < 2 ^ 30 → - 2 ^ 30 < y < 2 ^ 30 →
  (∀ p, pending = Some p →
        Z.of_nat (length p)
        = 4 * Shareable.width simg * Shareable.height simg) →
  let w := Shareable.width simg in
  let h := Shareable.height simg in
  let n := x + y * w in
  (0 ≤ n < w * h →
   ∃ st1 st2,
     Set_ i x y (r, g, b, a) st = Ok (tt, st1) ∧
     At fuel i (n `mod` w) (n `div` w) st1
       = Ok ((GoInt.byte (Z.shiftr r 8), GoInt.byte (Z.shiftr g 8),
              GoInt.byte (Z.shiftr b 8), GoInt.byte (Z.shiftr a 8)), st2)) ∧
  (n < 0 ∨ w * h ≤ n →
   Set_ i x y (r, g, b, a) st = Panic index_out_of_range).
Proof.
  intros HF Hrun Hgen Ho Hd Hpl Htex Hat Hw Hh Hx Hy Hlen w h n.
  destruct (Set_root_stores st i o bnds pending simg x y r g b a)
    as (fi & st_a & pa & Hi & Hfa & Hsa & Hma & Hra & Hla & _ & _ & Hset);
    try done.
  fold w h n in Hset, Hla.
  destruct Hgen as (fi' & root & fr & mm & Hi' & Hai & Hsub & Hbnds & Hroot
                    & Hr & Har & Hor & Hmr & Hpend & Hm & Hmo & Hlv).
  assert (fi' = fi) by congruence. subst fi'.
  assert (Hofi : original fi = None).
  { unfold isSubImage in Hsub. destruct (original fi); [|done].
    rewrite bool_decide_true in Hsub by (by eexists). done. }
  split.
  - intros Hn.
    destruct (store_quad pa (4 * n) (GoInt.byte (Z.shiftr r 8))
                (GoInt.byte (Z.shiftr g 8)) (GoInt.byte (Z.shiftr b 8))
                (GoInt.byte (Z.shiftr a 8)))
      as (q1 & q2 & q3 & q4 & Hs1 & Hs2 & Hs3 & Hs4 & Hl4 & Hq); [lia|lia|].
    set (st1 := set_fimages
                  <[i := with_pendingPixels (Some q4)
                           (with_pendingPixels (Some pa) fi)]> st_a).
    assert (Hset1 : Set_ i x y (r, g, b, a) st = Ok (tt, st1)).
    { rewrite Hset. cbv zeta.
      rewrite (bind_eq _ _ _ q1 st_a) by (by apply lift_result_eq).
      rewrite (bind_eq _ _ _ q2 st_a) by (by apply lift_result_eq).
      rewrite (bind_eq _ _ _ q3 st_a) by (by apply lift_result_eq).
      rewrite (bind_eq _ _ _ q4 st_a) by (by apply lift_result_eq).
      reflexivity. }
    assert (Hgen1 : genuine st1 i o false bnds (Some q4)).
    { exists (with_pendingPixels (Some q4) (with_pendingPixels (Some pa) fi)),
        i, (with_pendingPixels (Some q4) (with_pendingPixels (Some pa) fi)),
        mm.
      split_and!; try done; simpl; try apply lookup_insert_eq.
      - by rewrite Hofi.
      - by rewrite Hma. }
    assert (Hdiv : 0 ≤ n `div` w < h).
    { split; [apply Z.div_pos; lia|]. apply Z.div_lt_upper_bound; lia. }
    assert (Hmod : 0 ≤ n `mod` w < w) by (apply Z.mod_pos_bound; lia).
    assert (Hn' : n `div` w * w + n `mod` w = n).
    { pose proof (Z.div_mod n w). lia. }
    destruct (At_pending F fuel st1 i o false bnds q4 simg
                (n `mod` w) (n `div` w))
      as (st2 & Hread & _); try done.
    { simpl. by rewrite Hra. }
    { simpl. by rewrite Hsa. }
    { simpl. by rewrite Hsa. }
    { simpl. by rewrite Hsa. }
    { simpl. by rewrite Hsa. }
    { rewrite Hl4. exact Hla. }
    exists st1, st2. split; [exact Hset1|].
    rewrite Hread. fold w. rewrite Hn', Hq. reflexivity.
  - intros Hn. rewrite Hset. cbv zeta.
    assert (Hst : store pa (4 * n) (GoInt.byte (Z.shiftr r 8))
                  = Panic index_out_of_range).
    { unfold store.
      destruct ((0 <=? 4 * n) && (4 * n <? Z.of_nat (length pa))) eqn:E;
        [|done].
      apply andb_true_iff in E as [E1 E2]. lia. }
    unfold bind at 1. unfold lift_result at 1. by rewrite Hst.
Qed.

End WithLaws.
End EbitenSetBounds.
(** ** What no call changes of a handle *)

Module EbitenHandles.
Import GoImage Ebiten EbitenReads Invariants EbitenPixels.
Section Ebiten.
Context `{Extern}.

Lemma same_handle_refl f : same_handle f f.
Proof. by unfold same_handle. Qed.

Lemma same_handle_trans f1 f2 f3 :
  same_handle f1 f2 → same_handle f2 f3 → same_handle f1 f3.
Proof. unfold same_handle. intuition congruence. Qed.

Lemma only_pending_refl st : only_pending st st.
Proof.
  split; [|done]. intros j fj Hj. exists fj.
  split; [done|apply same_handle_refl].
Qed.

Lemma only_pending_trans s1 s2 s3 :
  only_pending s1 s2 → only_pending s2 s3 → only_pending s1 s3.
Proof.
  intros [A1 A2] [B1 B2]. split; [|eauto].
  intros j fj Hj. destruct (A1 j fj Hj) as (f2 & H2 & S2).
  destruct (B1 j f2 H2) as (f3 & H3 & S3). exists f3.
  split; [done|by eapply same_handle_trans].
Qed.

Lemma only_pending_fimages st st' :
  fimages st' = fimages st → only_pending st st'.
Proof.
  intros E. split.
  - intros j fj Hj. exists fj. rewrite E. split; [done|apply same_handle_refl].
  - intros j Hj. by rewrite E.
Qed.

Lemma only_pending_set st i fi p :
  fimages st !! i = Some fi →
  only_pending st (set_fimages <[i := with_pendingPixels p fi]> st).
Proof.
  intros Hi. split.
  - intros j fj Hj. simpl. destruct (decide (j = i)) as [->|Hne].
    + rewrite lookup_insert_eq. eexists. split; [done|].
      assert (fj = fi) by congruence. subst. by unfold same_handle.
    + rewrite lookup_insert_ne by done. exists fj.
      split; [done|apply same_handle_refl].
  - intros j Hj. simpl. rewrite lookup_insert_ne; [done|]. congruence.
Qed.

Lemma onShareable_only_pending {A} (m : M Shareable.State A) st a st' :
  onShareable m st = Ok (a, st') → only_pending st st'.
Proof.
  intros (t & _ & ->)%onShareable_inv. by apply only_pending_fimages.
Qed.

Lemma forM_only_pending {A} (body : A → M State unit) (l : list A) :
  (∀ x s u s', body x s = Ok (u, s') → only_pending s s') →
  ∀ st u st', forM l body st = Ok (u, st') → only_pending st st'.
Proof.
  intros Hbody. induction l as [|x l IH]; intros st u st' Hrun; simpl in Hrun.
  - minv. apply only_pending_refl.
  - minv. eapply only_pending_trans; [by eapply Hbody|by eapply IH].
Qed.

Lemma foldM_only_pending {A B} (body : B → A → M State B) (l : list A) :
  (∀ acc x s acc' s', body acc x s = Ok (acc', s') → only_pending s s') →
  ∀ acc st acc' st',
    Shareable.foldM l body acc st = Ok (acc', st') → only_pending st st'.
Proof.
  intros Hbody. induction l as [|x l IH]; intros acc st acc' st' Hrun;
    simpl in Hrun.
  - minv. apply only_pending_refl.
  - minv. eapply only_pending_trans; [by eapply Hbody|by eapply IH].
Qed.

Lemma copyCheck_reads i st u st' : copyCheck i st = Ok (u, st') → st' = st.
Proof. unfold copyCheck. intros Hrun. minv. by minv_case; minv. Qed.

Lemma mipmapDisposeMipmaps_only_pending m st u st' :
  mipmapDisposeMipmaps m st = Ok (u, st') → only_pending st st'.
Proof.
  unfold mipmapDisposeMipmaps. intros Hrun. minv.
  eapply only_pending_trans.
  - eapply forM_only_pending; [|eassumption].
    intros ? ? ? ? Hx. simpl in Hx.
    exact (onShareable_only_pending _ _ _ _ Hx).
  - by apply only_pending_fimages.
Qed.

Lemma mipmapDispose_only_pending m st u st' :
  mipmapDispose m st = Ok (u, st') → only_pending st st'.
Proof.
  unfold mipmapDispose. intros Hrun. minv.
  eapply only_pending_trans; [by eapply mipmapDisposeMipmaps_only_pending|].
  minv_case; minv.
  eapply only_pending_trans; [by eapply onShareable_only_pending|].
  by apply only_pending_fimages.
Qed.

Lemma disposeMipmaps_only_pending i st u st' :
  disposeMipmaps i st = Ok (u, st') → only_pending st st'.
Proof.
  unfold disposeMipmaps. intros Hrun. minv.
  match goal with Hd : isDisposed _ _ = Ok _ |- _ =>
    apply isDisposed_inv in Hd as (? & ? & ? & ? & ? & ?) end. simplify_eq.
  minv_case; minv. by eapply mipmapDisposeMipmaps_only_pending.
Qed.

Lemma ReplacePixelsWith_only_pending resolve fuel i p st u st' :
  (∀ j d s v s', resolve j d s = Ok (v, s') → only_pending s s') →
  ReplacePixelsWith resolve fuel i p st = Ok (u, st') → only_pending st st'.
Proof.
  intros Hres Hrun. unfold ReplacePixelsWith in Hrun. minv.
  match goal with Hd : copyCheck _ _ = Ok _ |- _ =>
    apply copyCheck_reads in Hd; subst end.
  match goal with Hd : isDisposed _ _ = Ok _ |- _ =>
    apply isDisposed_inv in Hd as (? & ? & ? & ? & ? & ?) end. simplify_eq.
  minv_case; minv; [apply only_pending_refl|].
  minv_case; minv.
  eapply only_pending_trans; [by eapply Hres|].
  match goal with Hd : Bounds _ _ = Ok _ |- _ =>
    apply Bounds_reads in Hd; subst end.
  cbv zeta in *. minv_case; minv.
  match goal with Hd : mipmapOriginal _ _ = Ok _ |- _ =>
    apply mipmapOriginal_inv in Hd as (? & ? & ? & ? & ? & ?) end. simplify_eq.
  minv.
  eapply only_pending_trans; [by eapply onShareable_only_pending|].
  by eapply disposeMipmaps_only_pending.
Qed.

Lemma resolvePendingPixels_only_pending fuel : ∀ i draw st u st',
  resolvePendingPixels fuel i draw st = Ok (u, st') → only_pending st st'.
Proof.
  induction fuel as [|fuel IH]; intros i draw st u st' Hrun; [done|].
  simpl in Hrun. minv. minv_case; [by eapply IH|].
  minv_case; minv; [|apply only_pending_refl].
  minv_case.
  - unfold setImage in *. minv. by apply only_pending_set.
  - minv.
    eapply only_pending_trans;
      [eapply ReplacePixelsWith_only_pending; [exact IH|eassumption]|].
    unfold setImage in *. minv. by apply only_pending_set.
Qed.

Lemma readBack_only_pending o w h pix st pix' st' :
  readBack o w h pix st = Ok (pix', st') → only_pending st st'.
Proof.
  unfold readBack. intros Hrun. minv.
  eapply foldM_only_pending; [|eassumption].
  intros ? ? ? ? ? Hrow.
  eapply foldM_only_pending; [|exact Hrow].
  intros [? ?] ? ? ? ? Hpx. minv.
  match goal with Hd : onShareable _ _ = Ok _ |- _ =>
    apply onShareable_only_pending in Hd end.
  repeat match goal with p : RGBA |- _ => destruct p as [[[? ?] ?] ?] end.
  minv. done.
Qed.

Lemma Size_reads i st wh st' : Size i st = Ok (wh, st') → st' = st.
Proof. unfold Size. intros Hrun. minv. by eapply Bounds_reads. Qed.

(** The calls that make no handle. *)
Lemma At_only_pending fuel i x y st c st' :
  At fuel i x y st = Ok (c, st') → only_pending st st'.
Proof.
  unfold At. intros Hrun. minv. minv_case; minv.
  match goal with Hd : isDisposed _ _ = Ok _ |- _ =>
    apply isDisposed_inv in Hd as (? & ? & ? & ? & ? & ?) end. simplify_eq.
  minv_case; minv; [apply only_pending_refl|].
  minv_case; minv; [apply only_pending_refl|].
  eapply only_pending_trans; [by eapply resolvePendingPixels_only_pending|].
  match goal with Hd : mipmapOriginal _ _ = Ok _ |- _ =>
    apply mipmapOriginal_inv in Hd as (? & ? & ? & ? & ? & ?) end. simplify_eq.
  minv. by eapply onShareable_only_pending.
Qed.

(** The part of [Set] that makes the slice of pending pixels. *)
Lemma Set_fill_only_pending root w h (im : Image) st u st1 :
  (match pendingPixels im with
   | Some _ => ret tt
   | None =>
       let* pix := lift_result (make_bytes (GoInt.mul (GoInt.mul 4 w) h)) in
       let* o := mipmapOriginal root in
       let* pix := readBack o w h pix in
       let* im := getImage root in
       setImage root (with_pendingPixels (Some pix) im)
   end) st = Ok (u, st1) →
  only_pending st st1.
Proof.
  intros Hrun. destruct (pendingPixels im); minv; [apply only_pending_refl|].
  match goal with Hd : mipmapOriginal _ _ = Ok _ |- _ =>
    apply mipmapOriginal_inv in Hd as (? & ? & ? & ? & ? & ?) end.
  simplify_eq.
  match goal with Hd : readBack _ _ _ _ _ = Ok _ |- _ =>
    apply readBack_only_pending in Hd end.
  eapply only_pending_trans; [eassumption|].
  unfold setImage in *. minv. by apply only_pending_set.
Qed.

Lemma Set_only_pending i x y clr st u st' :
  Set_ i x y clr st = Ok (u, st') → only_pending st st'.
Proof.
  unfold Set_. intros Hrun. minv. minv_case; minv.
  match goal with Hd : copyCheck _ _ = Ok _ |- _ =>
    apply copyCheck_reads in Hd; subst end.
  match goal with Hd : isDisposed _ _ = Ok _ |- _ =>
    apply isDisposed_inv in Hd as (? & ? & ? & ? & ? & ?) end. simplify_eq.
  minv_case; minv; [apply only_pending_refl|].
  minv_case; minv; [apply only_pending_refl|].
  match goal with Hd : Size _ _ = Ok _ |- _ =>
    apply Size_reads in Hd; subst end.
  minv.
  match goal with
  | Hpre : (match pendingPixels _ with Some _ => _ | None => _ end) _
           = Ok (_, ?s1),
    Hl : fimages ?s1 !! _ = Some _ |- _ =>
      apply Set_fill_only_pending in Hpre;
      eapply only_pending_trans; [exact Hpre|]
  end.
  minv_case; minv. unfold setImage in *. minv. by apply only_pending_set.
Qed.

Lemma ReplacePixels_only_pending fuel i p st u st' :
  ReplacePixels fuel i p st = Ok (u, st') → only_pending st st'.
Proof.
  unfold ReplacePixels. apply ReplacePixelsWith_only_pending.
  apply resolvePendingPixels_only_pending.
Qed.

Lemma Dispose_only_pending fuel i st u st' :
  Dispose fuel i st = Ok (u, st') → only_pending st st'.
Proof.
  unfold Dispose. intros Hrun. minv.
  match goal with Hd : copyCheck _ _ = Ok _ |- _ =>
    apply copyCheck_reads in Hd; subst end.
  match goal with Hd : isDisposed _ _ = Ok _ |- _ =>
    apply isDisposed_inv in Hd as (? & ? & ? & ? & ? & ?) end. simplify_eq.
  minv_case; minv; [apply only_pending_refl|].
  minv_case; minv; [apply only_pending_refl|].
  eapply only_pending_trans; [by eapply mipmapDispose_only_pending|].
  by eapply resolvePendingPixels_only_pending.
Qed.

Lemma makeVolatile_only_pending fuel i st u st' :
  makeVolatile fuel i st = Ok (u, st') → only_pending st st'.
Proof.
  unfold makeVolatile. intros Hrun. minv.
  match goal with Hd : isDisposed _ _ = Ok _ |- _ =>
    apply isDisposed_inv in Hd as (? & ? & ? & ? & ? & ?) end. simplify_eq.
  minv_case; minv; [apply only_pending_refl|].
  match goal with Hd : mipmapOriginal _ _ = Ok _ |- _ =>
    apply mipmapOriginal_inv in Hd as (? & ? & ? & ? & ? & ?) end. simplify_eq.
  minv.
  eapply only_pending_trans; [by eapply onShareable_only_pending|].
  by eapply disposeMipmaps_only_pending.
Qed.

Lemma putVertices_only_pending fuel src r : ∀ vertices st vs st',
  putVertices fuel src r vertices st = Ok (vs, st') → only_pending st st'.
Proof.
  induction vertices as [|v vertices IH]; intros st vs st' Hrun;
    simpl in Hrun; minv; [apply only_pending_refl|].
  eapply only_pending_trans; [by eapply onShareable_only_pending|].
  by eapply IH.
Qed.

Lemma DrawTriangles_only_pending fuel i vertices indices img options st u st' :
  DrawTriangles fuel i vertices indices img options st = Ok (u, st') →
  only_pending st st'.
Proof.
  unfold DrawTriangles. intros Hrun. minv.
  match goal with Hd : copyCheck _ _ = Ok _ |- _ =>
    apply copyCheck_reads in Hd; subst end.
  match goal with Hd : isDisposed _ _ = Ok _ |- _ =>
    apply isDisposed_inv in Hd as (? & ? & ? & ? & ? & ?) end. simplify_eq.
  minv_case; minv; [apply only_pending_refl|].
  minv_case; minv.
  eapply only_pending_trans; [by eapply resolvePendingPixels_only_pending|].
  eapply only_pending_trans; [by eapply resolvePendingPixels_only_pending|].
  minv_case; minv. minv_case; minv.
  unfold drawTrianglesChecked in *. cbv zeta in *. minv.
  repeat match goal with
         | Hd : mipmapOriginal _ _ = Ok _ |- _ =>
             apply mipmapOriginal_inv in Hd as (? & ? & ? & ? & ? & ?);
             simplify_eq
         | Hd : Bounds _ _ = Ok _ |- _ => apply Bounds_reads in Hd; subst
         end.
  eapply only_pending_trans; [by eapply putVertices_only_pending|].
  eapply only_pending_trans; [by eapply onShareable_only_pending|].
  by eapply disposeMipmaps_only_pending.
Qed.

Lemma only_pending_flat st st' : only_pending st st' → flat st → flat st'.
Proof.
  intros [Hk Hn] Hflat j fj' r Hj' Hor.
  destruct (fimages st !! j) as [fj|] eqn:Hj;
    [|rewrite (Hn j Hj) in Hj'; done].
  destruct (Hk j fj Hj) as (fj2 & Hj2 & _ & Hm & _ & Ho & _).
  assert (fj2 = fj') by congruence. subst fj2.
  destruct (Hflat j fj r Hj) as (fr & Hr & Hrr & Hrm); [congruence|].
  destruct (Hk r fr Hr) as (fr' & Hr' & _ & Hm' & _ & Ho' & _).
  exists fr'. split_and!; [done|congruence|congruence].
Qed.

Lemma handles_kept_trans s1 s2 s3 :
  handles_kept s1 s2 → handles_kept s2 s3 → handles_kept s1 s3.
Proof.
  intros A1 B1 j fj Hj. destruct (A1 j fj Hj) as (f2 & H2 & S2).
  destruct (B1 j f2 H2) as (f3 & H3 & S3). exists f3.
  split; [done|by eapply same_handle_trans].
Qed.

(** A new handle that is not a sub-image, or is a sub-image of a handle
    that is none. *)
Lemma new_handle_flat st k fk :
  flat st → fimages st !! k = None →
  (∀ r, original fk = Some r →
     ∃ fr, fimages st !! r = Some fr ∧ original fr = None ∧
           mipmap_ fr = mipmap_ fk) →
  flat (set_fimages <[k := fk]> st) ∧
  handles_kept st (set_fimages <[k := fk]> st).
Proof.
  intros Hflat Hk Hroot. split.
  - intros j fj r. simpl. destruct (decide (j = k)) as [->|Hne].
    + rewrite lookup_insert_eq. intros [= <-] Hor.
      destruct (Hroot r Hor) as (fr & Hr & Hrr & Hrm). exists fr.
      split_and!; try done. rewrite lookup_insert_ne; [done|congruence].
    + rewrite lookup_insert_ne by done. intros Hj Hor.
      destruct (Hflat j fj r Hj Hor) as (fr & Hr & Hrr & Hrm). exists fr.
      split_and!; try done. rewrite lookup_insert_ne; [done|congruence].
  - intros j fj Hj. exists fj. simpl.
    rewrite lookup_insert_ne by congruence.
    split; [done|apply same_handle_refl].
Qed.

Lemma flat_other (f : State → State) st :
  fimages (f st) = fimages st → flat st → flat (f st).
Proof. intros E Hflat j fj r. rewrite E. apply Hflat. Qed.

Lemma NewImage_flat w h filter_ st i st' :
  NewImage w h filter_ st = Ok (i, st') →
  flat st → flat st' ∧ handles_kept st st'.
Proof.
  intros Hrun Hflat.
  change (NewImage w h filter_ st)
    with (Ok (fresh (dom (fimages st)), withNewImage w h filter_ st)
            : result (nat * State)) in Hrun.
  injection Hrun as <- <-. unfold withNewImage.
  set (st0 := set_mipmaps _ _).
  assert (Hflat0 : flat st0) by (intros j fj r; apply Hflat).
  destruct (new_handle_flat st0 (fresh (dom (fimages st)))
              (newHandle (fresh (dom (fimages st)))
                 (fresh (dom (mipmaps st))) filter_) Hflat0)
    as [Hf Hk]; [apply not_elem_of_dom, is_fresh|done|].
  split; [exact Hf|]. intros j fj Hj. by apply Hk.
Qed.

Lemma only_pending_kept st st' : only_pending st st' → handles_kept st st'.
Proof. by intros [? _]. Qed.

(** One call. *)
Lemma hcall_flat fuel st st' :
  hcall fuel st st' → flat st → flat st' ∧ handles_kept st st'.
Proof.
  intros [w h f i Hrun|sb copied f i Hrun|i r res Hrun|i b Hrun|i wh Hrun
          |i x y c Hrun|i x y clr Hrun|i p Hrun
          |i vertices indices img options Hrun|i Hrun|i Hrun] Hflat.
  - by eapply NewImage_flat.
  - unfold NewImageFromImage in Hrun. cbv zeta in Hrun.
    assert (∃ k st1,
      NewImage (X (GoImage.Size sb)) (Y (GoImage.Size sb)) f st = Ok (k, st1) ∧
      ReplacePixels fuel k copied st1 = Ok (tt, st')) as (k & st1 & Hn & Hr).
    { unfold NewImage. cbv zeta.
      apply bind_inv in Hrun as (a1 & s1 & H1 & Hrun).
      rewrite (bind_eq _ _ _ _ _ H1).
      apply bind_inv in Hrun as (a2 & s2 & H2 & Hrun).
      rewrite (bind_eq _ _ _ _ _ H2).
      apply bind_inv in Hrun as (a3 & s3 & H3 & Hrun).
      rewrite (bind_eq _ _ _ _ _ H3).
      apply bind_inv in Hrun as (a4 & s4 & H4 & Hrun).
      rewrite (bind_eq _ _ _ _ _ H4).
      apply bind_inv in Hrun as ([] & s5 & H5 & Hrun).
      apply ret_inv in Hrun as [_ ->].
      eexists _, _. split; [reflexivity|exact H5]. }
    destruct (NewImage_flat _ _ _ _ _ _ Hn Hflat) as [Hf1 Hk1].
    apply ReplacePixels_only_pending in Hr.
    split; [by eapply only_pending_flat|].
    eapply handles_kept_trans; [exact Hk1|by apply only_pending_kept].
  - unfold SubImage in Hrun. minv.
    match goal with Hd : copyCheck _ _ = Ok _ |- _ =>
      apply copyCheck_reads in Hd; subst end.
    match goal with Hd : isDisposed _ _ = Ok _ |- _ =>
      apply isDisposed_inv in Hd as (? & ? & ? & ? & ? & ?) end. simplify_eq.
    minv_case; minv.
    { split; [done|]. apply only_pending_kept, only_pending_refl. }
    match goal with Hd : Bounds _ _ = Ok _ |- _ =>
      apply Bounds_reads in Hd; subst end.
    unfold setImage in *. minv.
    match goal with Hp : fimages ?s !! i = Some ?p |- _ =>
      rename p into pimg; rename s into st0 end.
    apply new_handle_flat; [done|apply not_elem_of_dom, is_fresh|].
    simpl. intros r0. unfold isSubImage.
    destruct (original pimg) as [ro|] eqn:Hop.
    + rewrite bool_decide_true by (by eexists). intros [= <-].
      exact (Hflat i pimg ro ltac:(done) Hop).
    + rewrite bool_decide_false by (by intros [? ?]). intros [= <-].
      by exists pimg.
  - apply Bounds_reads in Hrun as ->.
    split; [done|]. apply only_pending_kept, only_pending_refl.
  - apply Size_reads in Hrun as ->.
    split; [done|]. apply only_pending_kept, only_pending_refl.
  - apply At_only_pending in Hrun.
    split; [by eapply only_pending_flat|by apply only_pending_kept].
  - apply Set_only_pending in Hrun.
    split; [by eapply only_pending_flat|by apply only_pending_kept].
  - apply ReplacePixels_only_pending in Hrun.
    split; [by eapply only_pending_flat|by apply only_pending_kept].
  - apply DrawTriangles_only_pending in Hrun.
    split; [by eapply only_pending_flat|by apply only_pending_kept].
  - apply makeVolatile_only_pending in Hrun.
    split; [by eapply only_pending_flat|by apply only_pending_kept].
  - apply Dispose_only_pending in Hrun.
    split; [by eapply only_pending_flat|by apply only_pending_kept].
Qed.

(** X16.  Whatever functions of the package are called on handles, in any
    order: a handle that is there stays, and only its pending pixels
    change; its mipmap, its bounds and the image it is a sub-image of are
    those it was made with.  Sub-images stay one level deep: the original of
    every sub-image, also of a sub-image made of a sub-image, is a handle
    that is not a sub-image, on the same mipmap. *)
Theorem handles_stay_flat (fuel : nat) (st st' : State) :
  flat st → rtc (hcall fuel) st st' →
  flat st' ∧
  ∀ j fj, fimages st !! j = Some fj →
    ∃ fj', fimages st' !! j = Some fj' ∧
      addr fj' = addr fj ∧ mipmap_ fj' = mipmap_ fj ∧
      bounds fj' = bounds fj ∧ original fj' = original fj ∧
      filter fj' = filter fj.
Proof.
  intros Hflat Hcalls.
  assert (Hboth : flat st' ∧ handles_kept st st').
  { induction Hcalls as [st|st st1 st2 Hcall _ IH].
    - split; [done|]. apply only_pending_kept, only_pending_refl.
    - destruct (hcall_flat _ _ _ Hcall Hflat) as [Hf1 Hk1].
      destruct (IH Hf1) as [Hf2 Hk2].
      split; [done|by eapply handles_kept_trans]. }
  destruct Hboth as [Hf Hk]. split; [exact Hf|].
  intros j fj Hj. destruct (Hk j fj Hj) as (fj' & Hj' & Hs).
  exists fj'. split; [exact Hj'|exact Hs].
Qed.

End Ebiten.
End EbitenHandles.
(** ** Images that share a texture *)

Module ShareableIsolation.
Import Shareable ShareableBasics RestorableFacts Invariants ShareableAllocate.
Section Shareable.
Context `{Extern}.

(** The region of an image does not depend on the pixels of the
    textures. *)
Lemma region_set_rimages j s r f :
  region j s = Ok (r, s) →
  (∀ t, Restorable.Size (f (rimages s)) t = Restorable.Size (rimages s) t) →
  region j (set_rimages f s) = Ok (r, set_rimages f s).
Proof.
  intros Hr Hsize. unfold region in *.
  apply bind_inv in Hr as (img & ? & [Hi ->]%Shareable_getImage_inv & Hr).
  assert (Hi' : images (set_rimages f s) !! j = Some img) by done.
  rewrite (bind_eq _ _ _ _ _ (getImage_eq _ _ _ Hi')).
  destruct (backend_ img) as [b|]; [|done].
  apply bind_inv in Hr as (bk & ? & [Hb ->]%Shareable_getBackend_inv & Hr).
  assert (Hb' : backends (set_rimages f s) !! b = Some bk) by done.
  rewrite (bind_eq _ _ _ _ _ (getBackend_eq _ _ _ Hb')).
  destruct (node img) as [n|].
  - apply ret_inv in Hr as [<- _]. done.
  - unfold bind, get, ret in *. simpl. rewrite Hsize.
    destruct (Restorable.Size (rimages s) (restorable bk)).
    by injection Hr as <-.
Qed.

(** X17.  [ReplacePixels] on an image that has a backend writes the region
    of the image and nothing else: for every other image whose region lies
    on another texture, or on the same texture apart from the region
    written, [At] gives at every position what it gave before. *)
Theorem ReplacePixels_isolated (fuel : nat) (s : State) (i j : nat)
    (img jimg : Image) (bi bj : nat) (bki bkj : backend) (p : list Z)
    (xi yi wi hi xj yj wj hj : Z) :
  images s !! i = Some img → disposed img = false →
  backend_ img = Some bi → backends s !! bi = Some bki →
  region i s = Ok ((xi, yi, wi, hi), s) →
  Z.of_nat (length p) = GoInt.mul (GoInt.mul 4 wi) hi →
  images s !! j = Some jimg →
  backend_ jimg = Some bj → backends s !! bj = Some bkj →
  region j s = Ok ((xj, yj, wj, hj), s) →
  0 ≤ xj → 0 ≤ yj → xj + wj < 2 ^ 62 → yj + hj < 2 ^ 62 →
  restorable bki ≠ restorable bkj ∨
    xi + wi ≤ xj ∨ xj + wj ≤ xi ∨ yi + hi ≤ yj ∨ yj + hj ≤ yi →
  ∃ s',
    ReplacePixels fuel i (Some p) s = Ok (tt, s') ∧
    ∀ x y, ∃ c, At j x y s = Ok (c, s) ∧ At j x y s' = Ok (c, s').
Proof.
  intros Hi Hd Hbi Hbki Hri Hlen Hj Hbj Hbkj Hrj Hxj Hyj Hwj Hhj Hapart.
  set (f := Restorable.ReplacePixels (restorable bki) (Some p) xi yi wi hi).
  exists (set_rimages f s). split.
  - unfold ReplacePixels. by eapply replacePixels_allocated.
  - intros x y.
    assert (Hrj' : region j (set_rimages f s)
                   = Ok ((xj, yj, wj, hj), set_rimages f s)).
    { apply region_set_rimages; [done|]. intros t.
      apply ReplacePixels_Size. }
    unfold At, at_.
    rewrite (bind_eq _ _ _ _ _ (getImage_eq _ _ _ Hj)).
    assert (Hj' : images (set_rimages f s) !! j = Some jimg) by done.
    rewrite (bind_eq _ _ _ _ _ (getImage_eq _ _ _ Hj')).
    rewrite Hbj.
    rewrite (bind_eq _ _ _ _ _ Hrj), (bind_eq _ _ _ _ _ Hrj').
    destruct ((x <? 0) || (y <? 0) || (x >=? wj) || (y >=? hj)) eqn:Hout.
    { by exists transparent. }
    apply orb_false_iff in Hout as [Hout Hy2].
    apply orb_false_iff in Hout as [Hout Hx2].
    apply orb_false_iff in Hout as [Hx1 Hy1].
    rewrite (bind_eq _ _ _ _ _ (getBackend_eq _ _ _ Hbkj)).
    assert (Hbkj' : backends (set_rimages f s) !! bj = Some bkj) by done.
    rewrite (bind_eq _ _ _ _ _ (getBackend_eq _ _ _ Hbkj')).
    eexists. split; [reflexivity|].
    unfold bind, get, ret. simpl. f_equal. f_equal.
    assert (Hax : GoInt.add x xj = x + xj).
    { apply wrap_small. change (2 ^ 63) with 9223372036854775808.
      change (2 ^ 62) with 4611686018427387904 in *. lia. }
    assert (Hay : GoInt.add y yj = y + yj).
    { apply wrap_small. change (2 ^ 63) with 9223372036854775808.
      change (2 ^ 62) with 4611686018427387904 in *. lia. }
    rewrite Hax, Hay.
    unfold Restorable.At, f, Restorable.ReplacePixels.
    destruct (rimages s !! restorable bki) as [ri|] eqn:Hri'; [|done].
    destruct (decide (restorable bkj = restorable bki)) as [E|Hne].
    + rewrite E, lookup_insert_eq, Hri'. simpl.
      assert (Restorable.in_region xi yi wi hi (x + xj) (y + yj) = false)
        as ->; [|done].
      unfold Restorable.in_region.
      destruct Hapart as [Hne|Hapart]; [congruence|].
      apply not_true_is_false. intros Hin.
      apply andb_true_iff in Hin as [Hin H4].
      apply andb_true_iff in Hin as [Hin H3].
      apply andb_true_iff in Hin as [H1 H2]. lia.
    + by rewrite lookup_insert_ne.
Qed.

End Shareable.
End ShareableIsolation.
(** ** Pixels written through a sub-image *)

Module EbitenSubImagePixels.
Import GoImage Ebiten EbitenReads Invariants ShareableAllocate
  ShareablePromotion ShareablePixels EbitenPixels EbitenHandles.
Section WithLaws.
Context `{Extern} `{!PackingLaws}.

(** X18.  A sub-image has no pixels of its own: [Set] through a sub-image,
    at a position inside its bounds, writes the pending pixels of the image
    it is a sub-image of, and [At] on that image gives the colour at the
    same position. *)
Theorem Set_subimage_At_original (F fuel : nat) (st : State) (j root o : nat)
    (fj : Image) (bnds : Rectangle) (pending : option (list Z))
    (simg : Shareable.Image) (x y r g b a : Z) :
  (F + 3 ≤ fuel)%nat → isRunning st ≠ 0 →
  genuine st j o true bnds pending →
  fimages st !! j = Some fj → original fj = Some root →
  In (Pt x y) bnds = true →
  Shareable.images (sh st) !! o = Some simg →
  Shareable.disposed simg = false → placed (sh st) simg →
  textures_exist (sh st) → atlases_ok F (sh st) →
  0 < Shareable.width simg < 2 ^ 30 → 0 < Shareable.height simg < 2 ^ 30 →
  0 ≤ x < Shareable.width simg → 0 ≤ y < Shareable.height simg →
  (∀ p, pending = Some p →
        Z.of_nat (length p)
        = 4 * Shareable.width simg * Shareable.height simg) →
  ∃ st1 st2,
    Set_ j x y (r, g, b, a) st = Ok (tt, st1) ∧
    At fuel root x y st1
      = Ok ((GoInt.byte (Z.shiftr r 8), GoInt.byte (Z.shiftr g 8),
             GoInt.byte (Z.shiftr b 8), GoInt.byte (Z.shiftr a 8)), st2).
Proof.
  intros HF Hrun Hgen Hj Horig Hin Ho Hd Hpl Htex Hat Hw Hh Hx Hy Hlen.
  destruct (Set_pending st j o true bnds pending simg x y r g b a)
    as (st1 & pix & Hset & Hsh & Hrun1 & Hgen1 & Hlen1 & Hq); try done.
  destruct Hgen1 as (fj1 & root1 & fr1 & mm1 & Hj1 & Haj1 & Hsub1 & Hb1
                     & Hroot1 & Hr1 & Har1 & Hor1 & Hmr1 & Hp1 & Hm1 & Hmo1
                     & Hlv1).
  assert (Horig1 : original fj1 = Some root).
  { destruct (Set_only_pending _ _ _ _ _ _ _ Hset) as [Hkept _].
    destruct (Hkept j fj Hj) as (fj' & Hj' & _ & _ & _ & Ho' & _).
    congruence. }
  rewrite Horig1 in Hroot1. simpl in Hroot1. subst root1.
  assert (Hgenr : genuine st1 root o false (bounds fr1) (Some pix)).
  { exists fr1, root, fr1, mm1. split_and!; try done.
    - unfold isSubImage. rewrite Hor1.
      by rewrite bool_decide_false by (by intros [? ?]).
    - by rewrite Hor1.
    - by rewrite Hmr1. }
  destruct (At_pending F fuel st1 root o false (bounds fr1) pix simg x y)
    as (st2 & Hread & _); try done; try (by rewrite Hsh).
  { by rewrite Hrun1. }
  exists st1, st2. split; [exact Hset|]. by rewrite Hread, Hq.
Qed.

End WithLaws.
End EbitenSubImagePixels.
(** ** The pass at the frame boundary, and an image that leaves an atlas *)

Module ShareableAtlasLife.
Import Shareable ShareableBasics RestorableFacts ShareableDispose Invariants
  ShareableAllocate ShareablePromotion.
Section Shareable.
Context `{Extern}.

(** What [at] gives for an image depends on the record of the image, on
    the texture of its backend and on the pixels of its region only. *)
Lemma at_frame s s' j jimg bj bkj bkj' xj yj wj hj :
  images s !! j = Some jimg → images s' !! j = Some jimg →
  backend_ jimg = Some bj →
  backends s !! bj = Some bkj → backends s' !! bj = Some bkj' →
  restorable bkj' = restorable bkj →
  region j s = Ok ((xj, yj, wj, hj), s) →
  (∀ t, Restorable.Size (rimages s') t = Restorable.Size (rimages s) t) →
  0 ≤ xj → 0 ≤ yj → xj + wj < 2 ^ 62 → yj + hj < 2 ^ 62 →
  (∀ x y, 0 ≤ x < wj → 0 ≤ y < hj →
     Restorable.At (rimages s') (restorable bkj) (x + xj) (y + yj)
     = Restorable.At (rimages s) (restorable bkj) (x + xj) (y + yj)) →
  ∀ x y, ∃ c, at_ j x y s = Ok (c, s) ∧ at_ j x y s' = Ok (c, s').
Proof.
  intros Hj Hj' Hbj Hbk Hbk' Hres Hr Hsize Hxj Hyj Hwj Hhj Hpix x y.
  assert (Hr' : region j s' = Ok ((xj, yj, wj, hj), s')).
  { unfold region in *.
    rewrite (bind_eq _ _ _ _ _ (getImage_eq _ _ _ Hj)) in Hr.
    rewrite (bind_eq _ _ _ _ _ (getImage_eq _ _ _ Hj')).
    rewrite Hbj in *.
    rewrite (bind_eq _ _ _ _ _ (getBackend_eq _ _ _ Hbk)) in Hr.
    rewrite (bind_eq _ _ _ _ _ (getBackend_eq _ _ _ Hbk')).
    destruct (node jimg) as [n|].
    - apply ret_inv in Hr as [<- _]. done.
    - unfold bind, get, ret in *. rewrite Hres, Hsize.
      destruct (Restorable.Size (rimages s) (restorable bkj)).
      by injection Hr as <- <- <- <-. }
  unfold at_.
  rewrite (bind_eq _ _ _ _ _ (getImage_eq _ _ _ Hj)).
  rewrite (bind_eq _ _ _ _ _ (getImage_eq _ _ _ Hj')).
  rewrite Hbj.
  rewrite (bind_eq _ _ _ _ _ Hr), (bind_eq _ _ _ _ _ Hr').
  destruct ((x <? 0) || (y <? 0) || (x >=? wj) || (y >=? hj)) eqn:Hout.
  { by exists transparent. }
  apply orb_false_iff in Hout as [Hout Hy2].
  apply orb_false_iff in Hout as [Hout Hx2].
  apply orb_false_iff in Hout as [Hx1 Hy1].
  rewrite (bind_eq _ _ _ _ _ (getBackend_eq _ _ _ Hbk)).
  rewrite (bind_eq _ _ _ _ _ (getBackend_eq _ _ _ Hbk')).
  eexists. split; [reflexivity|].
  unfold bind, get, ret. f_equal. f_equal.
  assert (Hax : GoInt.add x xj = x + xj).
  { apply wrap_small. change (2 ^ 63) with 9223372036854775808.
    change (2 ^ 62) with 4611686018427387904 in *. lia. }
  assert (Hay : GoInt.add y yj = y + yj).
  { apply wrap_small. change (2 ^ 63) with 9223372036854775808.
    change (2 ^ 62) with 4611686018427387904 in *. lia. }
  rewrite Hax, Hay, Hres. apply Hpix; lia.
Qed.

(** X19.  [Dispose] of an image on an atlas that holds other images
    frees the node of the image and clears its region; the atlas stays in
    [theBackends] with its texture.  For every other image whose region
    lies on another texture, or on the atlas apart from the region cleared,
    [At] gives at every position what it gave before. *)
Theorem Dispose_on_atlas (s : State) (i j : nat) (img jimg : Image)
    (b bj : nat) (bk bkj : backend) (pg : Page) (n : Node)
    (xi yi wi hi xj yj wj hj : Z) :
  images s !! i = Some img → disposed img = false →
  backend_ img = Some b → node img = Some n →
  backends s !! b = Some bk → page bk = Some pg →
  IsEmpty (Free pg n) = false → Region n = (xi, yi, wi, hi) →
  i ≠ j → images s !! j = Some jimg →
  backend_ jimg = Some bj → backends s !! bj = Some bkj →
  region j s = Ok ((xj, yj, wj, hj), s) →
  0 ≤ xj → 0 ≤ yj → xj + wj < 2 ^ 62 → yj + hj < 2 ^ 62 →
  restorable bk ≠ restorable bkj ∨
    xi + wi ≤ xj ∨ xj + wj ≤ xi ∨ yi + hi ≤ yj ∨ yj + hj ≤ yi →
  ∃ s',
    Dispose i s = Ok (tt, s') ∧
    images s' !! i
      = Some (with_backend None None (with_disposed true img)) ∧
    backends s' !! b
      = Some {| restorable := restorable bk; page := Some (Free pg n) |} ∧
    theBackends s' = theBackends s ∧
    (∀ x y, xi ≤ x < xi + wi → yi ≤ y < yi + hi →
       Restorable.At (rimages s') (restorable bk) x y = transparent) ∧
    ∀ x y, ∃ c, At j x y s = Ok (c, s) ∧ At j x y s' = Ok (c, s').
Proof.
  intros Hi Hd Hb Hn Hbk Hpg Hfull Hreg Hne Hj Hbj Hbkj Hrj Hxj Hyj Hwj Hhj
    Hapart.
  destruct (dispose_shared i true s img b bk pg n Hi Hd Hb Hn Hbk Hpg)
    as (s' & Hrun & Himgs & Hbks & _ & _ & _ & _ & Hcases).
  { intros E. congruence. }
  destruct Hcases as [(_ & Hthe & x0 & y0 & w0 & h0 & Hreg0 & Hrim)
                     |[E _]]; [|congruence].
  rewrite Hreg in Hreg0. injection Hreg0 as <- <- <- <-.
  exists s'. split_and!; try done.
  - rewrite Himgs. apply lookup_insert_eq.
  - rewrite Hbks. apply lookup_insert_eq.
  - intros x y Hx Hy. rewrite Hrim.
    unfold Restorable.At, Restorable.ClearPixels, Restorable.ReplacePixels.
    destruct (rimages s !! restorable bk) as [ri|] eqn:Hri.
    + rewrite lookup_insert_eq. simpl.
      assert (Restorable.in_region xi yi wi hi x y = true) as ->; [|done].
      unfold Restorable.in_region.
      repeat (apply andb_true_iff; split); lia.
    + by rewrite Hri.
  - assert (∃ bkj', backends s' !! bj = Some bkj' ∧
                    restorable bkj' = restorable bkj) as (bkj' & Hbkj' & Hres).
    { rewrite Hbks. destruct (decide (bj = b)) as [->|Hnb].
      - rewrite lookup_insert_eq. eexists. split; [done|]. simpl. congruence.
      - rewrite lookup_insert_ne by done. by exists bkj. }
    unfold At.
    apply (at_frame s s' j jimg bj bkj bkj' xj yj wj hj); try done.
    + rewrite Himgs. by rewrite lookup_insert_ne.
    + intros t. rewrite Hrim. apply ReplacePixels_Size.
    + intros x y Hx Hy. rewrite Hrim.
      unfold Restorable.At, Restorable.ClearPixels, Restorable.ReplacePixels.
      destruct (rimages s !! restorable bk) as [ri|] eqn:Hri; [|done].
      destruct (decide (restorable bkj = restorable bk)) as [E|Hnr].
      * rewrite E, lookup_insert_eq, Hri. simpl.
        assert (Restorable.in_region xi yi wi hi (x + xj) (y + yj) = false)
          as ->; [|done].
        unfold Restorable.in_region.
        destruct Hapart as [Hd'|Hapart]; [congruence|].
        apply not_true_is_false. intros Hin.
        apply andb_true_iff in Hin as [Hin H4].
        apply andb_true_iff in Hin as [Hin H3].
        apply andb_true_iff in Hin as [H1 H2]. lia.
      * by rewrite lookup_insert_ne.
Qed.

End Shareable.

Section WithLaws.
Context `{Extern} `{!PackingLaws}.

(** X20.  The pass over the candidates at a frame boundary returns and
    leaves no candidate: an image stays a candidate only by being the
    source of a draw in the next frame again.  The images that were not
    candidates are as before, and a candidate that has not been counted
    [MaxCountForShare] times yet is counted once more and is otherwise as
    before. *)
Theorem frame_boundary_pass (F fuel : nat) (s : State) :
  (F ≤ fuel)%nat → ready F s →
  ∃ s',
    makeImagesShared fuel s = Ok (tt, s') ∧
    imagesToMakeShared s' = [] ∧
    minSize s' = minSize s ∧ maxSize s' = maxSize s ∧
    (∀ j, j ∉ imagesToMakeShared s → is_Some (images s !! j) →
          images s' !! j = images s !! j) ∧
    (∀ i img, i ∈ imagesToMakeShared s → images s !! i = Some img →
       nonUpdatedCount img + 1 < MaxCountForShare →
       images s' !! i
         = Some (with_nonUpdatedCount (nonUpdatedCount img + 1) img)).
Proof.
  intros HF Hready.
  destruct (makeImagesShared_boundary F fuel s HF Hready)
    as (s' & Hrun & _ & _ & Hgrows & Hc & Hothers & Hcands).
  destruct Hgrows as (_ & Hmin & Hmax & _).
  exists s'. split_and!; try done.
  intros i img Hin Hi Hcount. by apply (Hcands i img Hin Hi).
Qed.

End WithLaws.
End ShareableAtlasLife.
(** ** The pixels of an image that moves to an atlas *)

Module ShareablePromotionPixels.
Import Shareable ShareableBasics RestorableFacts ShareableDispose Invariants
  ShareableAllocate ShareablePromotion EbitenPixels EbitenSetBounds.
Section Shareable.
Context `{Extern}.

(** The loops of [makeShared] copy every pixel of the image to its place
    in the slice. *)
Lemma copyPixels_content k s img b bk w h pixels :
  images s !! k = Some img → backend_ img = Some b →
  backends s !! b = Some bk →
  0 ≤ w ≤ 4096 → 0 ≤ h ≤ 4096 →
  Z.of_nat (length pixels) = 4 * w * h →
  ∃ pixels', copyPixels k w h pixels s = Ok (pixels', s) ∧
    length pixels' = length pixels ∧
    ∀ x y, 0 ≤ x < w → 0 ≤ y < h →
      at_ k x y s = Ok (quad pixels' (4 * (x + w * y)), s).
Proof.
  intros Hk Hb Hbk Hw Hh Hlen.
  set (val := λ x y, match at_ k x y s with
                     | Ok (c, _) => c
                     | _ => transparent
                     end).
  assert (Hval : ∀ x y, at_ k x y s = Ok (val x y, s)).
  { intros x y. unfold val.
    destruct (at_reads k x y s img b bk Hk Hb Hbk) as (c & ->). done. }
  unfold copyPixels.
  destruct (foldM_indexed (seqZ 0 h)
              (λ pixels y,
                 foldM (seqZ 0 w) (λ pixels x, copyPixel k w pixels x y) pixels)
              s
              (λ n acc, length acc = length pixels ∧
                 ∀ x y, 0 ≤ x < w → 0 ≤ y < Z.of_nat n →
                   quad acc (4 * (x + w * y)) = val x y)) with pixels
    as (pixels' & Hrun & Hl & Hcontent).
  - intros acc n y Hy [Hacc Hdone].
    apply lookup_seqZ in Hy as [-> Hn]. rewrite Z.add_0_l in *.
    destruct (foldM_indexed (seqZ 0 w)
                (λ pixels x, copyPixel k w pixels x (Z.of_nat n)) s
                (λ m acc', length acc' = length pixels ∧
                   (∀ x y, 0 ≤ x < w → 0 ≤ y < Z.of_nat n →
                      quad acc' (4 * (x + w * y)) = val x y) ∧
                   ∀ x, 0 ≤ x < Z.of_nat m →
                     quad acc' (4 * (x + w * Z.of_nat n))
                     = val x (Z.of_nat n))) with acc
      as (acc' & Hrow & Hl' & Hold & Hnew).
    + intros acc1 m x Hx (Hacc1 & Hold1 & Hnew1).
      apply lookup_seqZ in Hx as [-> Hm]. rewrite Z.add_0_l in *.
      set (x := Z.of_nat m) in *. set (y := Z.of_nat n) in *.
      unfold copyPixel.
      rewrite (bind_eq _ _ _ _ _ (Hval x y)).
      destruct (val x y) as [[[r g] bl] a] eqn:Hv.
      assert (Hidx : GoInt.mul 4 (GoInt.add x (GoInt.mul w y))
                     = 4 * (x + w * y)).
      { unfold GoInt.mul, GoInt.add.
        rewrite (wrap_small (w * y))
          by (change (2 ^ 63) with 9223372036854775808; nia).
        rewrite (wrap_small (x + w * y))
          by (change (2 ^ 63) with 9223372036854775808; nia).
        apply wrap_small. change (2 ^ 63) with 9223372036854775808. nia. }
      rewrite Hidx.
      assert (Hin : 0 ≤ 4 * (x + w * y) ∧ 4 * (x + w * y) + 3 < 4 * w * h)
        by nia.
      assert (Hadd : ∀ d, 0 ≤ d ≤ 3 →
                GoInt.add (4 * (x + w * y)) d = 4 * (x + w * y) + d).
      { intros d Hd. apply wrap_small.
        change (2 ^ 63) with 9223372036854775808. nia. }
      rewrite !Hadd by lia.
      destruct (store_quad acc1 (4 * (x + w * y)) r g bl a)
        as (p1 & p2 & p3 & p4 & Hs1 & Hs2 & Hs3 & Hs4 & Hl4 & Hq);
        [lia|lia|].
      rewrite (bind_eq _ _ _ p1 s) by (by apply lift_result_eq).
      rewrite (bind_eq _ _ _ p2 s) by (by apply lift_result_eq).
      rewrite (bind_eq _ _ _ p3 s) by (by apply lift_result_eq).
      exists p4. split; [by apply lift_result_eq|].
      split_and!; [congruence| |].
      * intros x' y' Hx' Hy'.
        rewrite (store_quad_apart acc1 (4 * (x + w * y)) r g bl a
                   p1 p2 p3 p4 (4 * (x' + w * y')) Hs1 Hs2 Hs3 Hs4);
          [by apply Hold1|lia|nia|nia].
      * intros x' Hx'.
        destruct (decide (x' = x)) as [->|Hne]; [by rewrite Hq|].
        rewrite (store_quad_apart acc1 (4 * (x + w * y)) r g bl a
                   p1 p2 p3 p4 (4 * (x' + w * y)) Hs1 Hs2 Hs3 Hs4);
          [apply Hnew1; lia|lia|nia|nia].
    + split_and!; [done|done|]. intros x Hx. lia.
    + exists acc'. split; [exact Hrow|]. split; [done|].
      intros x y Hx Hy. rewrite length_seqZ in Hnew.
      destruct (decide (y = Z.of_nat n)) as [->|Hne].
      * apply Hnew. lia.
      * apply Hold; lia.
  - split; [done|]. intros x y Hx Hy. lia.
  - exists pixels'. split; [exact Hrun|]. split; [done|].
    intros x y Hx Hy. rewrite Hval. f_equal. f_equal. symmetry.
    apply Hcontent; [done|]. rewrite length_seqZ. lia.
Qed.

End Shareable.
Section WithLaws.
Context `{Extern} `{!PackingLaws}.

(** X21.  [makeShared] keeps the pixels.  On an image with a texture of
    its own that may be shared, [makeShared] returns and the image is on an
    atlas afterwards; whatever [At] gave for the image at a position
    before, it gives at that position afterwards. *)
Theorem makeShared_keeps_pixels (F fuel : nat) (s : State) (k : nat)
    (img : Image) :
  (F ≤ fuel)%nat → textures_exist s → atlases_ok F s →
  images s !! k = Some img → promotable s img → placed s img →
  ∃ s' img',
    makeShared fuel k s = Ok (tt, s') ∧
    images s' !! k = Some img' ∧ isShared img' = true ∧
    ∀ x y, ∃ c, At k x y s = Ok (c, s) ∧ At k x y s' = Ok (c, s').
Proof.
  intros HF Htex Hat Hk
    (Hd & Hn & (b0 & bk0 & Hb0 & Hbk0 & Hpg0) & Hsh & Hw & Hh) Hplaced.
  assert (Hbounds : width img ≤ 4096 ∧ height img ≤ 4096 ∧
                    neverShared img = false).
  { destruct Hat as (_ & _ & _ & Hmax). revert Hsh. unfold shareable.
    destruct (negb (isShareable s)); [done|].
    destruct (neverShared img); [done|]. intros ?%andb_true_iff. lia. }
  destruct Hbounds as (Hw' & Hh' & Hns).
  (* the texture of the image has the size of the image *)
  destruct Hplaced as [_ Hplaced].
  destruct (Hplaced b0 Hb0) as (bk0' & ri0 & Hbk0'' & Hri0 & Hsize0).
  assert (bk0' = bk0) by congruence. subst bk0'. clear Hbk0''.
  rewrite Hn in Hsize0. destruct Hsize0 as [Hwt Hht].
  assert (Hreg0 : region k s = Ok ((0, 0, width img, height img), s)).
  { rewrite (region_private k s img b0 bk0 Hk Hb0 Hbk0 Hn).
    unfold Restorable.Size. rewrite Hri0. simpl. by rewrite Hwt, Hht. }
  unfold makeShared.
  rewrite (bind_eq _ _ _ _ _ (getImage_eq _ _ _ Hk)), Hb0.
  unfold isShared at 1. rewrite Hn.
  rewrite bool_decide_false by (by intros [? ?]).
  unfold bind at 1, get at 1. rewrite Hsh. simpl.
  unfold NewImage at 1. unfold bind at 1.
  set (newI := fresh (dom (images s))).
  set (blankI := {| width := width img; height := height img;
                    disposed := false; backend_ := None; node := None;
                    nonUpdatedCount := 0; neverShared := false |}).
  set (s1 := set_images <[newI := blankI]> s).
  pose proof (fresh_image s) as HnewI. fold newI in HnewI.
  assert (Hkn : k ≠ newI) by (intros ->; congruence).
  assert (Hk1 : images s1 !! k = Some img) by (simpl; by rewrite lookup_insert_ne).
  assert (Hlen0 : GoInt.mul (GoInt.mul 4 (width img)) (height img)
                  = 4 * width img * height img).
  { unfold GoInt.mul.
    rewrite (wrap_small (4 * width img))
      by (change (2 ^ 63) with 9223372036854775808; lia).
    apply wrap_small. change (2 ^ 63) with 9223372036854775808. nia. }
  rewrite Hlen0.
  assert (Hmake : make_bytes (4 * width img * height img) =
            Ok (replicate (Z.to_nat (4 * width img * height img)) 0)).
  { unfold make_bytes. destruct (_ <? 0) eqn:E; [nia|done]. }
  rewrite (bind_eq _ _ _ _ s1 (lift_result_eq _ _ _ Hmake)).
  destruct (copyPixels_content k s1 img b0 bk0 (width img) (height img)
              (replicate (Z.to_nat (4 * width img * height img)) 0))
    as (pixels & Hcopy & Hlen & Hcontent); try done; try lia.
  { rewrite length_replicate. nia. }
  rewrite length_replicate in Hlen.
  rewrite (bind_eq _ _ _ _ _ Hcopy).
  (* the new image goes to an atlas *)
  assert (HnewI1 : images s1 !! newI = Some blankI) by apply lookup_insert_eq.
  destruct (keeps_backends s s1) as [Hext01 Htex01]; try done.
  pose proof (keeps_atlases F s s1 eq_refl eq_refl eq_refl Hat) as Hat1.
  assert (Hsh1 : shareable s1 blankI = true).
  { revert Hsh. unfold shareable, isShareable. simpl. by rewrite Hns. }
  destruct (allocate_shared F fuel newI s1 blankI HF (Htex01 Htex) Hat1 HnewI1
              eq_refl Hsh1 Hw Hh)
    as (s2 & b & bk & n & x0 & y0 & Halloc & Himg2 & Hbk & Hpg & Hreg & Hin
        & Htex2 & Hat2 & Hext12).
  assert (HnewI2 : images s2 !! newI = Some (with_backend (Some b) (Some n) blankI)).
  { rewrite Himg2. apply lookup_insert_eq. }
  assert (Hrepl : replacePixels fuel newI (Some pixels) s1 =
            Ok (tt, set_rimages
                      (Restorable.ReplacePixels (restorable bk) (Some pixels)
                         x0 y0 (width img) (height img)) s2)).
  { unfold replacePixels.
    rewrite (bind_eq _ _ _ _ _ (getImage_eq _ _ _ HnewI1)). simpl.
    rewrite (bind_eq _ _ _ _ _ Halloc).
    rewrite (bind_eq _ _ _ _ _
               (region_shared newI s2 _ b bk n HnewI2 eq_refl Hbk eq_refl)).
    simpl in Hreg. rewrite Hreg. rewrite Hlen0.
    rewrite bool_decide_true by (rewrite Hlen; lia).
    rewrite (bind_eq _ _ _ tt s2) by done.
    rewrite (bind_eq _ _ _ _ _ (getImage_eq _ _ _ HnewI2)). simpl.
    rewrite (bind_eq _ _ _ _ _ (getBackend_eq _ _ _ Hbk)). done. }
  rewrite (bind_eq _ _ _ _ _ Hrepl).
  set (s3 := set_rimages _ s2).
  (* the image leaves its own texture and takes the place of the new one *)
  pose proof Hext12 as (E1 & E2 & E3 & E4 & E5 & E6).
  destruct (E5 b0 bk0 Hbk0) as (bk0' & Hbk0' & Hsame & _).
  rewrite (Hsame Hpg0) in Hbk0'. clear Hsame bk0'.
  assert (Hk3 : images s3 !! k = Some img).
  { simpl. rewrite Himg2. by rewrite lookup_insert_ne. }
  unfold moveTo.
  rewrite bind_assoc.
  rewrite (bind_eq _ _ _ _ _
             (dispose_private k false s3 img b0 bk0 Hk3 Hd Hb0 Hn Hbk0')).
  unfold getImage, setImage, bind, modify. simpl.
  rewrite lookup_insert_ne by done. rewrite HnewI2. simpl.
  rewrite lookup_insert_eq. simpl.
  eexists _, _. split; [reflexivity|]. simpl.
  split; [by rewrite lookup_insert_eq|].
  split; [by apply bool_decide_eq_true; eexists|].
  intros x y. unfold At.
  (* before: the texture of the image *)
  unfold at_ at 1.
  rewrite (bind_eq _ _ _ _ _ (getImage_eq _ _ _ Hk)), Hb0.
  rewrite (bind_eq _ _ _ _ _ Hreg0).
  (* after: the region on the atlas *)
  set (s' := set_images _ _).
  set (img' := with_nonUpdatedCount 0 (with_backend (Some b) (Some n) blankI)).
  assert (Hk' : images s' !! k = Some img') by apply lookup_insert_eq.
  assert (Hbk' : backends s' !! b = Some bk) by exact Hbk.
  simpl in Hreg.
  destruct (region_origin n x0 y0 (width img) (height img) Hreg)
    as [Hx0 Hy0].
  unfold at_.
  rewrite (bind_eq _ _ _ _ _ (getImage_eq _ _ _ Hk')).
  change (backend_ img') with (Some b). cbv beta iota.
  rewrite (bind_eq _ _ _ _ _
             (region_shared k s' img' b bk n Hk' eq_refl Hbk' eq_refl)).
  rewrite Hreg.
  destruct ((x <? 0) || (y <? 0) || (x >=? width img) || (y >=? height img))
    eqn:Hout.
  { by exists transparent. }
  apply orb_false_iff in Hout as [Hout Hy2].
  apply orb_false_iff in Hout as [Hout Hx2].
  apply orb_false_iff in Hout as [Hx1 Hy1].
  assert (Hatk : at_ k x y s1
                 = Ok (quad pixels (4 * (x + width img * y)), s1))
    by (apply Hcontent; lia).
  unfold at_ in Hatk.
  rewrite (bind_eq _ _ _ _ _ (getImage_eq _ _ _ Hk1)), Hb0 in Hatk.
  assert (Hreg1 : region k s1 = Ok ((0, 0, width img, height img), s1)).
  { rewrite (region_private k s1 img b0 bk0 Hk1 Hb0 Hbk0 Hn).
    unfold Restorable.Size. simpl. rewrite Hri0. simpl. by rewrite Hwt, Hht. }
  rewrite (bind_eq _ _ _ _ _ Hreg1) in Hatk.
  assert ((x <? 0) || (y <? 0) || (x >=? width img) || (y >=? height img)
          = false) as Hin'.
  { repeat (apply orb_false_iff; split); done. }
  rewrite Hin' in Hatk.
  rewrite (bind_eq _ _ _ _ _ (getBackend_eq _ _ _ Hbk0)).
  assert (Hbk01 : backends s1 !! b0 = Some bk0) by exact Hbk0.
  rewrite (bind_eq _ _ _ _ _ (getBackend_eq _ _ _ Hbk01)) in Hatk.
  unfold bind, get, ret in Hatk. simpl in Hatk.
  rewrite (bind_eq _ _ _ _ _ (getBackend_eq _ _ _ Hbk')).
  eexists. split; [reflexivity|].
  unfold bind, get, ret. f_equal. f_equal.
  injection Hatk as Hatk. rewrite Hatk.
  assert (Hax : GoInt.add x x0 = x + x0).
  { apply wrap_small. change (2 ^ 63) with 9223372036854775808.
    change (2 ^ 31) with 2147483648 in *. lia. }
  assert (Hay : GoInt.add y y0 = y + y0).
  { apply wrap_small. change (2 ^ 63) with 9223372036854775808.
    change (2 ^ 31) with 2147483648 in *. lia. }
  rewrite Hax, Hay.
  change (rimages s') with
    (Restorable.Dispose (restorable bk0)
       (Restorable.ReplacePixels (restorable bk) (Some pixels) x0 y0
          (width img) (height img) (rimages s2))).
  rewrite Dispose_At.
  rewrite ReplacePixels_At.
  - f_equal. lia.
  - by apply (Htex2 b bk).
  - unfold Restorable.in_region.
    repeat (apply andb_true_iff; split); lia.
Qed.

End WithLaws.
End ShareablePromotionPixels.
(** ** [Set] and the other pixels *)

Module EbitenSetOthers.
Import GoImage Ebiten EbitenReads Invariants ShareableAllocate
  ShareablePromotion ShareablePixels EbitenPixels EbitenSetBounds.
Section WithLaws.
Context `{Extern} `{!PackingLaws}.

(** X22.  [Set] changes one pixel.  On an image that is not a sub-image,
    after [Set(x, y)] the image reads at every other position as before:
    [At] gives there the pending pixel that an earlier [Set] left, and what
    the texture of the image holds when there were no pending pixels. *)
Theorem Set_keeps_other_pixels (F fuel : nat) (st : State) (i o : nat)
    (bnds : Rectangle) (pending : option (list Z)) (simg : Shareable.Image)
    (x y x' y' r g b a : Z) :
  (F + 3 ≤ fuel)%nat → isRunning st ≠ 0 →
  genuine st i o false bnds pending →
  Shareable.images (sh st) !! o = Some simg →
  Shareable.disposed simg = false → placed (sh st) simg →
  textures_exist (sh st) → atlases_ok F (sh st) →
  0 < Shareable.width simg < 2 ^ 30 → 0 < Shareable.height simg < 2 ^ 30 →
  0 ≤ x < Shareable.width simg → 0 ≤ y < Shareable.height simg →
  0 ≤ x' < Shareable.width simg → 0 ≤ y' < Shareable.height simg →
  (x', y') ≠ (x, y) →
  (∀ p, pending = Some p →
        Z.of_nat (length p)
        = 4 * Shareable.width simg * Shareable.height simg) →
  ∃ st1 st2 c,
    Set_ i x y (r, g, b, a) st = Ok (tt, st1) ∧
    At fuel i x' y' st1 = Ok (c, st2) ∧
    match pending with
    | Some p => c = quad p (4 * (y' * Shareable.width simg + x'))
    | None => Shareable.At o x' y' (sh st) = Ok (c, sh st)
    end.
Proof.
  intros HF Hrun Hgen Ho Hd Hpl Htex Hat Hw Hh Hx Hy Hx' Hy' Hne Hlen.
  set (w := Shareable.width simg) in *. set (h := Shareable.height simg) in *.
  destruct (Set_root_stores st i o bnds pending simg x y r g b a)
    as (fi & st_a & pa & Hi & Hfa & Hsa & Hma & Hra & Hla & Hsome & Hnone
        & Hset); try done.
  { change (2 ^ 30) with 1073741824 in *. lia. }
  { change (2 ^ 30) with 1073741824 in *. lia. }
  fold w h in Hset, Hla, Hnone.
  destruct Hgen as (fi' & root & fr & mm & Hi' & Hai & Hsub & Hbnds & Hroot
                    & Hr & Har & Hor & Hmr & Hpend & Hm & Hmo & Hlv).
  assert (fi' = fi) by congruence. subst fi'.
  assert (Hofi : original fi = None).
  { unfold isSubImage in Hsub. destruct (original fi); [|done].
    rewrite bool_decide_true in Hsub by (by eexists). done. }
  destruct (store_quad pa (4 * (x + y * w)) (GoInt.byte (Z.shiftr r 8))
              (GoInt.byte (Z.shiftr g 8)) (GoInt.byte (Z.shiftr b 8))
              (GoInt.byte (Z.shiftr a 8)))
    as (q1 & q2 & q3 & q4 & Hs1 & Hs2 & Hs3 & Hs4 & Hl4 & Hq); [nia|nia|].
  set (st1 := set_fimages
                <[i := with_pendingPixels (Some q4)
                         (with_pendingPixels (Some pa) fi)]> st_a).
  assert (Hset1 : Set_ i x y (r, g, b, a) st = Ok (tt, st1)).
  { rewrite Hset. cbv zeta.
    rewrite (bind_eq _ _ _ q1 st_a) by (by apply lift_result_eq).
    rewrite (bind_eq _ _ _ q2 st_a) by (by apply lift_result_eq).
    rewrite (bind_eq _ _ _ q3 st_a) by (by apply lift_result_eq).
    rewrite (bind_eq _ _ _ q4 st_a) by (by apply lift_result_eq).
    reflexivity. }
  assert (Hgen1 : genuine st1 i o false bnds (Some q4)).
  { exists (with_pendingPixels (Some q4) (with_pendingPixels (Some pa) fi)),
      i, (with_pendingPixels (Some q4) (with_pendingPixels (Some pa) fi)),
      mm.
    split_and!; try done; simpl; try apply lookup_insert_eq.
    - by rewrite Hofi.
    - by rewrite Hma. }
  assert (Hother : quad q4 (4 * (y' * w + x')) = quad pa (4 * (y' * w + x'))).
  { apply (store_quad_apart pa (4 * (x + y * w)) (GoInt.byte (Z.shiftr r 8))
             (GoInt.byte (Z.shiftr g 8)) (GoInt.byte (Z.shiftr b 8))
             (GoInt.byte (Z.shiftr a 8)) q1 q2 q3 q4);
      try done; [nia|nia|].
    assert (y' * w + x' ≠ x + y * w).
    { intros E. apply Hne.
      assert (y' = y) by nia. subst y'. f_equal. lia. }
    lia. }
  destruct (At_pending F fuel st1 i o false bnds q4 simg x' y')
    as (st2 & Hread & _); try done.
  { simpl. by rewrite Hra. }
  { simpl. by rewrite Hsa. }
  { simpl. by rewrite Hsa. }
  { simpl. by rewrite Hsa. }
  { simpl. by rewrite Hsa. }
  { fold w h. rewrite Hl4. exact Hla. }
  fold w in Hread. rewrite Hother in Hread.
  exists st1, st2, (quad pa (4 * (y' * w + x'))).
  split; [exact Hset1|]. split; [exact Hread|].
  destruct pending as [p|].
  - by rewrite (Hsome p eq_refl).
  - unfold Shareable.At. by apply Hnone.
Qed.

End WithLaws.
End EbitenSetOthers.
(** ** Drawing with a disposed image *)

Module EbitenDrawDisposed.
Import GoImage Ebiten EbitenReads Invariants EbitenPixels.
Section Ebiten.
Context `{Extern}.

(** [resolvePendingPixels] on an image that is not a sub-image and has no
    pending pixels does nothing. *)
Lemma resolve_nothing fuel draw st i fi :
  fimages st !! i = Some fi → original fi = None → pendingPixels fi = None →
  resolvePendingPixels (S fuel) i draw st = Ok (tt, st).
Proof.
  intros Hi Ho Hp. simpl.
  by rewrite (bind_eq _ _ _ _ _ (Ebiten_getImage_eq _ _ _ Hi)), Ho, Hp.
Qed.

(** X23.  [DrawTriangles] treats a disposed target and a disposed source
    differently.  With a disposed target it returns at once and does
    nothing, whatever the indices and the source are.  With a disposed
    source (a target that is not disposed, no pending pixels, and indices
    that pass the two checks) it panics, in [Bounds] of the source. *)
Theorem DrawTriangles_disposed (fuel : nat) (st : State) (i img : nat)
    (fi fimg : Image) (mm mmsrc : mipmap) (vertices : list Vertex)
    (indices : list Z) (options : option DrawTrianglesOptions) :
  fimages st !! i = Some fi → addr fi = Some i →
  mipmaps st !! mipmap_ fi = Some mm →
  fimages st !! img = Some fimg →
  mipmaps st !! mipmap_ fimg = Some mmsrc →
  (orig mm = None →
   DrawTriangles fuel i vertices indices img options st = Ok (tt, st)) ∧
  (is_Some (orig mm) → orig mmsrc = None →
   original fi = None → pendingPixels fi = None →
   original fimg = None → pendingPixels fimg = None →
   Z.of_nat (length indices) `rem` 3 = 0 →
   Z.of_nat (length indices) ≤ MaxIndicesNum →
   DrawTriangles (S fuel) i vertices indices img options st
   = Panic "ebiten: the image is already disposed").
Proof.
  intros Hi Ha Hm Himg Hmsrc.
  pose proof (copyCheck_eq _ _ _ Hi Ha) as Hcc.
  pose proof (isDisposed_eq _ _ _ _ Hi Hm) as Hd.
  split.
  - intros Ho. rewrite bool_decide_true in Hd by done.
    unfold DrawTriangles.
    by rewrite (bind_eq _ _ _ _ _ Hcc), (bind_eq _ _ _ _ _ Hd).
  - intros [o Ho] Hosrc Hroot Hpend Hsroot Hspend Hrem Hmax.
    rewrite bool_decide_false in Hd by congruence.
    unfold DrawTriangles.
    rewrite (bind_eq _ _ _ _ _ Hcc), (bind_eq _ _ _ _ _ Hd).
    rewrite (bind_eq _ _ _ _ _ (Ebiten_getImage_eq _ _ _ Hi)).
    unfold isSubImage. rewrite Hroot.
    rewrite bool_decide_false by (by intros [? ?]).
    rewrite (bind_eq _ _ _ _ _
               (resolve_nothing fuel true st img fimg Himg Hsroot Hspend)).
    rewrite (bind_eq _ _ _ _ _
               (resolve_nothing fuel true st i fi Hi Hroot Hpend)).
    rewrite Hrem. change (negb (0 =? 0)) with false. cbv iota.
    destruct (Z.of_nat (length indices) >? MaxIndicesNum) eqn:E; [lia|].
    unfold drawTrianglesChecked. cbv zeta.
    rewrite (bind_eq _ _ _ _ _ (Ebiten_getImage_eq _ _ _ Himg)).
    rewrite (bind_eq _ _ _ _ _ (mipmapOriginal_eq _ _ _ _ Himg Hmsrc)).
    unfold Bounds.
    pose proof (isDisposed_eq _ _ _ _ Himg Hmsrc) as Hds.
    rewrite bool_decide_true in Hds by done.
    rewrite !bind_assoc.
    by rewrite (bind_eq _ _ _ _ _ Hds).
Qed.

End Ebiten.
End EbitenDrawDisposed.
(** * The further properties at work on small states *)

Module MoreWitnesses.
Import Example ExampleLaws Invariants Witnesses.

Lemma Dispose_twice_witness :
  ∃ s1, Shareable.Dispose 0 twoPrivate = Ok (tt, s1) ∧
        Shareable.Dispose 0 s1 = Ok (tt, s1).
Proof.
  assert (Hok : match Shareable.Dispose 0 twoPrivate with
                | Ok _ => true
                | _ => false
                end = true) by (vm_compute; reflexivity).
  destruct (Shareable.Dispose 0 twoPrivate) as [[[] s1]| |] eqn:Hrun;
    [|discriminate|discriminate].
  exists s1. split; [reflexivity|].
  exact (proj2 (proj2 (ShareableDisposed.Dispose_twice twoPrivate s1 0 Hrun))).
Defined.

Lemma disposed_image_use_witness :
  ∃ s1, Shareable.Dispose 0 twoPrivate = Ok (tt, s1) ∧
        Shareable.At 0 1 1 s1 = Ok (transparent, s1) ∧
        Shareable.ClearFramebuffer 65 0 s1
        = Panic "shareable: the drawing target image must not be disposed (Fill)".
Proof.
  assert (Hok : match Shareable.Dispose 0 twoPrivate with
                | Ok _ => true
                | _ => false
                end = true) by (vm_compute; reflexivity).
  destruct (Shareable.Dispose 0 twoPrivate) as [[[] s1]| |] eqn:Hrun;
    [|discriminate|discriminate].
  exists s1. split; [reflexivity|].
  destruct (ShareableDisposed.disposed_image_use 65 twoPrivate s1 0 Hrun)
    as (_ & Hclear & _ & _ & Hat & _).
  split; [exact (Hat 1 1)|exact Hclear].
Defined.

Lemma DrawTriangles_target_private_witness :
  ∃ s', Shareable.DrawTriangles 65 1 0 [] [] None 0 0 0 twoPrivate
        = Ok (tt, s') ∧
        1%nat ∉ Shareable.imagesToMakeShared s' ∧
        0%nat ∈ Shareable.imagesToMakeShared s'.
Proof.
  assert (Hok : match Shareable.DrawTriangles 65 1 0 [] [] None 0 0 0
                        twoPrivate with
                | Ok _ => true
                | _ => false
                end = true) by (vm_compute; reflexivity).
  destruct (Shareable.DrawTriangles 65 1 0 [] [] None 0 0 0 twoPrivate)
    as [[[] s']| |] eqn:Hrun; [|discriminate|discriminate].
  exists s'. split; [reflexivity|].
  assert (Hi : Shareable.images twoPrivate !! 1%nat = Some large)
    by reflexivity.
  assert (Hb : Shareable.backend_ large = None → Shareable.node large = None)
    by reflexivity.
  destruct (ShareableTargets.DrawTriangles_target_private 65 twoPrivate s'
              1 0 large [] [] None 0 0 0 Hi Hb Hrun)
    as (_ & _ & Hnot & src' & Hsrc & _ & _ & Hcand & _).
  split; [exact Hnot|].
  assert (Ht : match Shareable.DrawTriangles 65 1 0 [] [] None 0 0 0
                       twoPrivate with
               | Ok (_, s) =>
                   match Shareable.images s !! 0%nat with
                   | Some im =>
                       negb (Shareable.isShared im) && Shareable.shareable s im
                   | None => false
                   end
               | _ => false
               end = true) by (vm_compute; reflexivity).
  rewrite Hrun, Hsrc in Ht. apply andb_true_iff in Ht as [Hns Hsh].
  apply Hcand; [by apply negb_true_iff|exact Hsh].
Defined.


Lemma volatile_candidate_panics_witness :
  ∃ s',
    Shareable.MakeVolatile 65 0
      (Shareable.set_imagesToMakeShared (λ _, [0%nat])
         (Shareable.set_images
            <[0%nat := Shareable.with_nonUpdatedCount 9 small]> twoPrivate))
      = Ok (tt, s') ∧
    Shareable.makeImagesShared 65 s'
      = Panic "shareable: makeShared cannot be called on a non-shareable image".
Proof.
  assert (Hcount : Shareable.MaxCountForShare - 1
                   ≤ Shareable.nonUpdatedCount
                       (Shareable.with_nonUpdatedCount 9 small) < 2 ^ 62)
    by (split; [vm_compute; discriminate|reflexivity]).
  assert (Hi : Shareable.images
                  (Shareable.set_imagesToMakeShared (λ _, [0%nat])
                     (Shareable.set_images
                        <[0%nat := Shareable.with_nonUpdatedCount 9 small]>
                        twoPrivate)) !! 0%nat
                = Some (Shareable.with_nonUpdatedCount 9 small))
    by apply lookup_insert_eq.
  assert (Hbk : Shareable.backends
                  (Shareable.set_imagesToMakeShared (λ _, [0%nat])
                     (Shareable.set_images
                        <[0%nat := Shareable.with_nonUpdatedCount 9 small]>
                        twoPrivate)) !! 0%nat
                = Some {| Shareable.restorable := 0%nat;
                          Shareable.page := None |})
    by reflexivity.
  destruct (ShareableLimits.volatile_candidate_panics 65
              (Shareable.set_imagesToMakeShared (λ _, [0%nat])
                 (Shareable.set_images
                    <[0%nat := Shareable.with_nonUpdatedCount 9 small]>
                    twoPrivate))
              0 (Shareable.with_nonUpdatedCount 9 small) 0
              {| Shareable.restorable := 0%nat; Shareable.page := None |} []
              Hi eq_refl eq_refl Hbk eq_refl Hcount)
    as (s' & Hrun & _ & _ & Hpanic).
  exists s'. by split.
Defined.

Lemma growSize_on_chain_witness :
  ∃ k : nat, (k ≤ 2)%nat ∧
    Shareable.growSize 2 4 (4 * 2 ^ Z.of_nat 2) 5 3
      = Ok (4 * 2 ^ Z.of_nat k) ∧
    5 ≤ 4 * 2 ^ Z.of_nat k ∧ 3 ≤ 4 * 2 ^ Z.of_nat k ∧
    ∀ j : nat, (j < k)%nat →
      4 * 2 ^ Z.of_nat j < 5 ∨ 4 * 2 ^ Z.of_nat j < 3.
Proof.
  assert (Hpos : 0 < 4) by lia.
  assert (Hbig : 4 * 2 ^ Z.of_nat 2 < 2 ^ 62) by reflexivity.
  assert (Hfuel : (2 ≤ 2)%nat) by lia.
  assert (Hw : 5 ≤ 4 * 2 ^ Z.of_nat 2) by discriminate.
  assert (Hh : 3 ≤ 4 * 2 ^ Z.of_nat 2) by discriminate.
  exact (proj1 (ShareableLimits.growSize_on_chain 5 3 2 2 4 Hpos Hbig Hfuel)
           Hw Hh).
Defined.

Lemma growSize_passes_maxSize_witness :
  Shareable.growSize 1 4 6 5 3 = Ok (4 * 2 ^ Z.of_nat 1) ∧
  6 < 4 * 2 ^ Z.of_nat 1.
Proof.
  assert (Hpos : 0 < 4) by lia.
  assert (Hbig : 4 * 2 ^ Z.of_nat 1 < 2 ^ 62) by reflexivity.
  assert (Hfuel : (1 ≤ 1)%nat) by lia.
  assert (Hmax : 4 * 2 ^ Z.of_nat 0 < 6 < 4 * 2 ^ Z.of_nat 1)
    by (split; reflexivity).
  assert (Hw : 4 * 2 ^ Z.of_nat 0 < 5 ≤ 6) by (split; [reflexivity|discriminate]).
  assert (Hh : 3 ≤ 6) by discriminate.
  exact (ShareableLimits.growSize_passes_maxSize 1 0 4 6 5 3
           Hpos Hbig Hfuel Hmax Hw Hh).
Defined.

Lemma Dispose_disposes_subimages_witness :
  ∃ st',
    Ebiten.Dispose 1 0 twoHandles = Ok (tt, st') ∧
    Ebiten.isDisposed 0 st' = Ok (true, st') ∧
    Ebiten.At 5 0 1 1 st' = Ok (transparent, st') ∧
    Ebiten.Dispose 1 0 st' = Ok (tt, st').
Proof.
  assert (Hrun : Ebiten.isRunning twoHandles ≠ 0) by discriminate.
  assert (Hd : Shareable.Dispose 0 (Ebiten.sh twoHandles)
               = Ok (tt, Shareable.set_images
                           <[0%nat := Shareable.with_backend None None
                                        (Shareable.with_disposed true fresh2x2)]>
                           (Ebiten.sh twoHandles))) by reflexivity.
  destruct (EbitenLifecycle.Dispose_disposes_subimages 0 twoHandles 0 0
              (handle 0) {| Ebiten.orig := Some 0%nat; Ebiten.imgs := [] |} _
              eq_refl eq_refl eq_refl eq_refl eq_refl eq_refl Hd)
    as (st' & Hdisp & _ & _ & _ & Hall).
  destruct (Hall 0%nat (handle 0) eq_refl eq_refl)
    as (Hdis & _ & Hat & Hown).
  destruct (Hown eq_refl) as (Hagain & _).
  exists st'. split_and!;
    [exact Hdisp|exact Hdis|exact (Hat Hrun 5%nat 1 1)|exact (Hagain 1%nat)].
Defined.

Lemma ReplacePixels_then_At_handle_witness :
  ∃ st1 st2,
    Ebiten.ReplacePixels 62 0 (replicate 16 7) twoHandles = Ok (tt, st1) ∧
    Ebiten.At 62 0 1 1 st1 = Ok ((7, 7, 7, 7), st2).
Proof.
  assert (Hrun : Ebiten.isRunning twoHandles ≠ 0) by discriminate.
  assert (HF : (62 ≤ 62)%nat) by lia.
  assert (Hw : 0 < Shareable.width fresh2x2 < 2 ^ 30) by (simpl; lia).
  assert (Hh : 0 < Shareable.height fresh2x2 < 2 ^ 30) by (simpl; lia).
  assert (Hx : 0 ≤ 1 < Shareable.width fresh2x2) by (simpl; lia).
  assert (Hy : 0 ≤ 1 < Shareable.height fresh2x2) by (simpl; lia).
  assert (Hlen : Z.of_nat (length (replicate 16 7))
                 = 4 * Shareable.width fresh2x2 * Shareable.height fresh2x2)
    by reflexivity.
  destruct (EbitenWrites.ReplacePixels_then_At_handle 62 61 twoHandles 0 0
              GoImage.ZR None fresh2x2 (replicate 16 7) 1 1 HF Hrun
              handle_genuine eq_refl eq_refl fresh2x2_placed
              twoHandles_textures twoHandles_atlases Hw Hh Hx Hy Hlen)
    as (st1 & st2 & Hwrite & _ & Hread).
  exists st1, st2. split; [exact Hwrite|exact Hread].
Defined.

Lemma NewImage_is_lazy_witness :
  ∃ i st1,
    Ebiten.NewImage 5 4 0 twoHandles = Ok (i, st1) ∧
    Shareable.rimages (Ebiten.sh st1) = ∅ ∧
    Ebiten.Size i st1 = Ok ((5, 4), st1) ∧
    Ebiten.At 1 i 2 3 st1 = Ok (transparent, st1).
Proof.
  assert (Hrun : Ebiten.isRunning twoHandles ≠ 0) by discriminate.
  assert (Hw : 0 ≤ 5 < 2 ^ 30) by (split; [discriminate|reflexivity]).
  assert (Hh : 0 ≤ 4 < 2 ^ 30) by (split; [discriminate|reflexivity]).
  destruct (EbitenCreation.NewImage_is_lazy 0 5 4 0 twoHandles Hrun Hw Hh)
    as (i & o & st1 & Hnew & _ & _ & _ & _ & Hr & _ & _ & Hsize & _ & Hat).
  exists i, st1. split_and!; [exact Hnew|exact Hr|exact Hsize|exact (Hat 2 3)].
Defined.

Lemma NewImageFromImage_then_At_witness :
  ∃ i st1 st2,
    Ebiten.NewImageFromImage 62 (GoImage.Rect 0 0 2 2) (replicate 16 7) 0
      twoHandles = Ok (i, st1) ∧
    Ebiten.At 62 i 1 1 st1 = Ok ((7, 7, 7, 7), st2).
Proof.
  assert (Hrun : Ebiten.isRunning twoHandles ≠ 0) by discriminate.
  assert (HF : (62 ≤ 62)%nat) by lia.
  assert (Hw : 0 < GoImage.Dx (GoImage.Rect 0 0 2 2) < 2 ^ 30)
    by (split; reflexivity).
  assert (Hh : 0 < GoImage.Dy (GoImage.Rect 0 0 2 2) < 2 ^ 30)
    by (split; reflexivity).
  assert (Hx : 0 ≤ 1 < GoImage.Dx (GoImage.Rect 0 0 2 2))
    by (split; [discriminate|reflexivity]).
  assert (Hy : 0 ≤ 1 < GoImage.Dy (GoImage.Rect 0 0 2 2))
    by (split; [discriminate|reflexivity]).
  assert (Hlen : Z.of_nat (length (replicate 16 7))
                 = 4 * GoImage.Dx (GoImage.Rect 0 0 2 2)
                   * GoImage.Dy (GoImage.Rect 0 0 2 2)) by reflexivity.
  destruct (EbitenCreation.NewImageFromImage_then_At 62 61 twoHandles
              (GoImage.Rect 0 0 2 2) (replicate 16 7) 0 1 1 HF Hrun
              twoHandles_textures twoHandles_atlases Hw Hh Hlen Hx Hy)
    as (i & st1 & st2 & Hnew & _ & _ & Hread).
  exists i, st1, st2. split; [exact Hnew|exact Hread].
Defined.


Lemma subimage_is_no_target_witness :
  Ebiten.Dispose 5 2 withSubImage = Ok (tt, withSubImage) ∧
  Ebiten.ReplacePixels 5 2 [] withSubImage
  = Panic "ebiten: render to a subimage is not implemented (ReplacePixels)".
Proof.
  assert (Hsub : is_Some (Ebiten.original subHandle)) by (by eexists).
  assert (Horig : is_Some (Ebiten.orig {| Ebiten.orig := Some 0%nat;
                                          Ebiten.imgs := [] |}))
    by (by eexists).
  destruct (EbitenLifecycle.subimage_is_no_target 5 withSubImage 2 subHandle
              {| Ebiten.orig := Some 0%nat; Ebiten.imgs := [] |}
              eq_refl eq_refl Hsub eq_refl Horig) as (Hd & Hr & _).
  split; [exact Hd|exact (Hr [])].
Defined.

Lemma disposed_candidate_allocated_witness :
  ∃ s' img' b,
    Shareable.makeImagesShared 62 disposedCandidate = Ok (tt, s') ∧
    Shareable.images s' !! 0%nat = Some img' ∧
    Shareable.disposed img' = true ∧
    Shareable.backend_ img' = Some b.
Proof.
  assert (HF : (62 ≤ 62)%nat) by lia.
  assert (Hcount : Shareable.MaxCountForShare - 1
                   ≤ Shareable.nonUpdatedCount
                       (Shareable.with_nonUpdatedCount 9
                          (Shareable.with_disposed true fresh2x2)) < 2 ^ 62)
    by (split; [vm_compute; discriminate|reflexivity]).
  assert (Hw : 0 < Shareable.width
                     (Shareable.with_nonUpdatedCount 9
                        (Shareable.with_disposed true fresh2x2)))
    by reflexivity.
  assert (Hh : 0 < Shareable.height
                     (Shareable.with_nonUpdatedCount 9
                        (Shareable.with_disposed true fresh2x2)))
    by reflexivity.
  destruct (ShareableDisposedCandidate.disposed_candidate_allocated 62 62
              disposedCandidate 0
              (Shareable.with_nonUpdatedCount 9
                 (Shareable.with_disposed true fresh2x2))
              HF twoHandles_textures twoHandles_atlases eq_refl eq_refl
              eq_refl eq_refl Hcount Hw Hh)
    as (s' & img' & b & Hrun & Hi & Hd & Hb & _).
  exists s', img', b. split_and!; [exact Hrun|exact Hi|exact Hd|exact Hb].
Defined.

Lemma Set_outside_bounds_witness :
  ∃ st1 st2,
    Ebiten.Set_ 0 2 0 (65535, 0, 32896, 65535) twoHandles = Ok (tt, st1) ∧
    Ebiten.At 65 0 0 1 st1 = Ok ((255, 0, 128, 255), st2).
Proof.
  assert (Hrun : Ebiten.isRunning twoHandles ≠ 0) by discriminate.
  assert (HF : (62 + 3 ≤ 65)%nat) by lia.
  assert (Hw : 0 < Shareable.width fresh2x2 < 2 ^ 30) by (simpl; lia).
  assert (Hh : 0 < Shareable.height fresh2x2 < 2 ^ 30) by (simpl; lia).
  assert (Hx : - 2 ^ 30 < 2 < 2 ^ 30) by (split; reflexivity).
  assert (Hy : - 2 ^ 30 < 0 < 2 ^ 30) by (split; reflexivity).
  assert (Hlen : ∀ p : list Z, None = Some p →
            Z.of_nat (length p)
            = 4 * Shareable.width fresh2x2 * Shareable.height fresh2x2)
    by discriminate.
  assert (Hn : 0 ≤ 2 + 0 * Shareable.width fresh2x2
               < Shareable.width fresh2x2 * Shareable.height fresh2x2)
    by (split; [discriminate|reflexivity]).
  destruct (proj1 (EbitenSetBounds.Set_outside_bounds 62 65 twoHandles 0 0
              GoImage.ZR None fresh2x2 2 0 65535 0 32896 65535 HF Hrun
              handle_genuine eq_refl eq_refl fresh2x2_placed
              twoHandles_textures twoHandles_atlases Hw Hh Hx Hy Hlen) Hn)
    as (st1 & st2 & Hset & Hat).
  exists st1, st2. split; [exact Hset|exact Hat].
Defined.

Lemma handles_stay_flat_witness :
  ∃ q st',
    Ebiten.SubImage 2 (GoImage.Rect 1 1 2 2) withSubImage
      = Ok (Some q, st') ∧
    flat st' ∧
    ∃ fq, Ebiten.fimages st' !! 2%nat = Some fq ∧
          Ebiten.original fq = Some 0%nat.
Proof.
  assert (Hflat : flat withSubImage).
  { intros j fj r Hj Hor. exists (handle 0).
    unfold withSubImage, twoHandles in Hj. simpl in Hj.
    destruct (decide (j = 2%nat)) as [->|H2].
    - rewrite lookup_insert_eq in Hj. injection Hj as <-.
      injection Hor as <-. by split_and!.
    - rewrite lookup_insert_ne in Hj by done.
      destruct (decide (j = 1%nat)) as [->|H1].
      + rewrite lookup_insert_eq in Hj. injection Hj as <-. discriminate.
      + rewrite lookup_insert_ne in Hj by done.
        destruct (decide (j = 0%nat)) as [->|H0].
        * rewrite lookup_insert_eq in Hj. injection Hj as <-. discriminate.
        * rewrite lookup_insert_ne in Hj by done. discriminate. }
  destruct (Ebiten.SubImage 2 (GoImage.Rect 1 1 2 2) withSubImage)
    as [[[q|] st']| |] eqn:Hrun; try discriminate.
  assert (Hcalls : rtc (hcall 5) withSubImage st').
  { apply rtc_once.
    exact (hcall_SubImage 5 _ _ 2 (GoImage.Rect 1 1 2 2) (Some q) Hrun). }
  destruct (EbitenHandles.handles_stay_flat 5 withSubImage st' Hflat Hcalls)
    as [Hf Hk].
  destruct (Hk 2%nat subHandle eq_refl) as (fq & Hq & _ & _ & _ & Ho & _).
  exists q, st'. split; [reflexivity|]. split; [exact Hf|].
  exists fq. split; [exact Hq|exact Ho].
Defined.

Lemma ReplacePixels_isolated_witness :
  ∃ s',
    Shareable.ReplacePixels 5 0 (Some (replicate 16 7)) twoPrivate
      = Ok (tt, s') ∧
    ∃ c, Shareable.At 1 2 2 twoPrivate = Ok (c, twoPrivate) ∧
         Shareable.At 1 2 2 s' = Ok (c, s').
Proof.
  assert (Hx : 0 ≤ 0) by lia.
  assert (Hw : 0 + 3 < 2 ^ 62) by reflexivity.
  assert (Hapart :
    Shareable.restorable {| Shareable.restorable := 0%nat;
                            Shareable.page := None |}
    ≠ Shareable.restorable {| Shareable.restorable := 1%nat;
                              Shareable.page := None |}
    ∨ 0 + 2 ≤ 0 ∨ 0 + 3 ≤ 0 ∨ 0 + 2 ≤ 0 ∨ 0 + 3 ≤ 0)
    by (left; discriminate).
  destruct (ShareableIsolation.ReplacePixels_isolated 5 twoPrivate 0 1
              small large 0 1
              {| Shareable.restorable := 0%nat; Shareable.page := None |}
              {| Shareable.restorable := 1%nat; Shareable.page := None |}
              (replicate 16 7) 0 0 2 2 0 0 3 3
              eq_refl eq_refl eq_refl eq_refl eq_refl eq_refl
              eq_refl eq_refl eq_refl eq_refl Hx Hx Hw Hw Hapart)
    as (s' & Hrun & Hsame).
  exists s'. split; [exact Hrun|exact (Hsame 2 2)].
Defined.

Lemma Set_subimage_At_original_witness :
  ∃ st1 st2,
    Ebiten.Set_ 2 1 1 (65535, 0, 32896, 65535) withSubImage = Ok (tt, st1) ∧
    Ebiten.At 65 0 1 1 st1 = Ok ((255, 0, 128, 255), st2).
Proof.
  assert (Hrun : Ebiten.isRunning withSubImage ≠ 0) by discriminate.
  assert (HF : (62 + 3 ≤ 65)%nat) by lia.
  assert (Hgen : genuine withSubImage 2 0 true (GoImage.Rect 1 1 2 2) None).
  { exists subHandle, 0%nat, (handle 0),
      {| Ebiten.orig := Some 0%nat; Ebiten.imgs := [] |}.
    by split_and!. }
  assert (Hw : 0 < Shareable.width fresh2x2 < 2 ^ 30) by (simpl; lia).
  assert (Hh : 0 < Shareable.height fresh2x2 < 2 ^ 30) by (simpl; lia).
  assert (Hx : 0 ≤ 1 < Shareable.width fresh2x2) by (simpl; lia).
  assert (Hy : 0 ≤ 1 < Shareable.height fresh2x2) by (simpl; lia).
  assert (Hlen : ∀ p : list Z, None = Some p →
            Z.of_nat (length p)
            = 4 * Shareable.width fresh2x2 * Shareable.height fresh2x2)
    by discriminate.
  destruct (EbitenSubImagePixels.Set_subimage_At_original 62 65 withSubImage
              2 0 0 subHandle (GoImage.Rect 1 1 2 2) None fresh2x2 1 1
              65535 0 32896 65535 HF Hrun Hgen eq_refl eq_refl eq_refl
              eq_refl eq_refl fresh2x2_placed twoHandles_textures
              twoHandles_atlases Hw Hh Hx Hy Hlen)
    as (st1 & st2 & Hset & Hat).
  exists st1, st2. split; [exact Hset|exact Hat].
Defined.

Lemma frame_boundary_pass_witness :
  ∃ s',
    Shareable.makeImagesShared 62 oneCandidate = Ok (tt, s') ∧
    Shareable.imagesToMakeShared s' = [] ∧
    Shareable.images s' !! 0%nat
      = Some (Shareable.with_nonUpdatedCount 1 small).
Proof.
  assert (HF : (62 ≤ 62)%nat) by lia.
  assert (Hready : ready 62 oneCandidate).
  { destruct twoPrivate_ready as (Htex & Hat & _ & _).
    split_and!; [exact Htex|exact Hat| |].
    - apply NoDup_singleton.
    - intros j ->%list_elem_of_singleton. exists small.
      split; [reflexivity|]. split; [simpl; lia|].
      simpl. unfold Shareable.MaxCountForShare. lia. }
  destruct (ShareableAtlasLife.frame_boundary_pass 62 62 oneCandidate HF
              Hready) as (s' & Hrun & Hc & _ & _ & _ & Hcount).
  exists s'. split_and!; [exact Hrun|exact Hc|].
  assert (Hin : 0%nat ∈ Shareable.imagesToMakeShared oneCandidate)
    by (by left).
  assert (Hlt : Shareable.nonUpdatedCount small + 1
                < Shareable.MaxCountForShare) by reflexivity.
  exact (Hcount 0%nat small Hin eq_refl Hlt).
Defined.

Lemma Dispose_on_atlas_witness :
  ∃ s',
    Shareable.Dispose 0 twoOnAtlas = Ok (tt, s') ∧
    Shareable.theBackends s' = [0%nat] ∧
    ∃ c, Shareable.At 1 1 1 twoOnAtlas = Ok (c, twoOnAtlas) ∧
         Shareable.At 1 1 1 s' = Ok (c, s').
Proof.
  assert (Hne : 0%nat ≠ 1%nat) by discriminate.
  assert (Hx : 0 ≤ 0) by lia.
  assert (Hy : 0 ≤ 2) by lia.
  assert (Hw : 0 + 2 < 2 ^ 62) by reflexivity.
  assert (Hh : 2 + 2 < 2 ^ 62) by reflexivity.
  assert (Hapart :
    Shareable.restorable fullBackend ≠ Shareable.restorable fullBackend
    ∨ 0 + 2 ≤ 0 ∨ 0 + 2 ≤ 0 ∨ 0 + 2 ≤ 2 ∨ 2 + 2 ≤ 0)
    by (right; right; right; left; lia).
  destruct (ShareableAtlasLife.Dispose_on_atlas twoOnAtlas 0 1 upper lower
              0 0 fullBackend fullBackend fullPage (0, 0, 2, 2)
              0 0 2 2 0 2 2 2
              eq_refl eq_refl eq_refl eq_refl eq_refl eq_refl eq_refl eq_refl
              Hne eq_refl eq_refl eq_refl eq_refl Hx Hy Hw Hh Hapart)
    as (s' & Hrun & _ & _ & Hthe & _ & Hsame).
  exists s'. split_and!; [exact Hrun|exact Hthe|exact (Hsame 1 1)].
Defined.

Lemma makeShared_keeps_pixels_witness :
  ∃ s',
    Shareable.makeShared 62 0 twoPrivate = Ok (tt, s') ∧
    ∃ c, Shareable.At 0 1 1 twoPrivate = Ok (c, twoPrivate) ∧
         Shareable.At 0 1 1 s' = Ok (c, s').
Proof.
  assert (HF : (62 ≤ 62)%nat) by lia.
  destruct twoPrivate_ready as (Htex & Hat & _ & _).
  assert (Hpl : placed twoPrivate small).
  { split; [discriminate|]. intros b [= <-].
    exists {| Shareable.restorable := 0%nat; Shareable.page := None |},
      (Restorable.blank 2 2 false).
    by split_and!. }
  destruct (ShareablePromotionPixels.makeShared_keeps_pixels 62 62 twoPrivate
              0 small HF Htex Hat eq_refl small_promotable Hpl)
    as (s' & img' & Hrun & _ & _ & Hsame).
  exists s'. split; [exact Hrun|exact (Hsame 1 1)].
Defined.

Lemma Set_keeps_other_pixels_witness :
  ∃ st1 st2 c,
    Ebiten.Set_ 0 1 1 (65535, 0, 32896, 65535) twoHandles = Ok (tt, st1) ∧
    Ebiten.At 65 0 0 0 st1 = Ok (c, st2) ∧
    Shareable.At 0 0 0 (Ebiten.sh twoHandles)
      = Ok (c, Ebiten.sh twoHandles).
Proof.
  assert (Hrun : Ebiten.isRunning twoHandles ≠ 0) by discriminate.
  assert (HF : (62 + 3 ≤ 65)%nat) by lia.
  assert (Hw : 0 < Shareable.width fresh2x2 < 2 ^ 30) by (simpl; lia).
  assert (Hh : 0 < Shareable.height fresh2x2 < 2 ^ 30) by (simpl; lia).
  assert (Hx : 0 ≤ 1 < Shareable.width fresh2x2) by (simpl; lia).
  assert (Hy : 0 ≤ 1 < Shareable.height fresh2x2) by (simpl; lia).
  assert (Hx' : 0 ≤ 0 < Shareable.width fresh2x2) by (simpl; lia).
  assert (Hy' : 0 ≤ 0 < Shareable.height fresh2x2) by (simpl; lia).
  assert (Hne : (0, 0) ≠ (1, 1)) by discriminate.
  assert (Hlen : ∀ p : list Z, None = Some p →
            Z.of_nat (length p)
            = 4 * Shareable.width fresh2x2 * Shareable.height fresh2x2)
    by discriminate.
  destruct (EbitenSetOthers.Set_keeps_other_pixels 62 65 twoHandles 0 0
              GoImage.ZR None fresh2x2 1 1 0 0 65535 0 32896 65535 HF Hrun
              handle_genuine eq_refl eq_refl fresh2x2_placed
              twoHandles_textures twoHandles_atlases Hw Hh Hx Hy Hx' Hy' Hne
              Hlen)
    as (st1 & st2 & c & Hset & Hat & Hbefore).
  exists st1, st2, c. split_and!; [exact Hset|exact Hat|exact Hbefore].
Defined.

Lemma DrawTriangles_disposed_witness :
  Ebiten.DrawTriangles 1 1 [] [0] 0 None secondDisposed
    = Ok (tt, secondDisposed) ∧
  Ebiten.DrawTriangles 1 0 [] [] 1 None secondDisposed
    = Panic "ebiten: the image is already disposed".
Proof.
  split.
  - exact (proj1 (EbitenDrawDisposed.DrawTriangles_disposed 1 secondDisposed
             1 0 (handle 1) (handle 0)
             {| Ebiten.orig := None; Ebiten.imgs := [] |}
             {| Ebiten.orig := Some 0%nat; Ebiten.imgs := [] |}
             [] [0] None eq_refl eq_refl eq_refl eq_refl eq_refl) eq_refl).
  - assert (Hsome : is_Some (Ebiten.orig {| Ebiten.orig := Some 0%nat;
                                            Ebiten.imgs := [] |}))
      by (by eexists).
    assert (Hmax : Z.of_nat (length (@nil Z)) ≤ Ebiten.MaxIndicesNum)
      by discriminate.
    exact (proj2 (EbitenDrawDisposed.DrawTriangles_disposed 0 secondDisposed
             0 1 (handle 0) (handle 1)
             {| Ebiten.orig := Some 0%nat; Ebiten.imgs := [] |}
             {| Ebiten.orig := None; Ebiten.imgs := [] |}
             [] [] None eq_refl eq_refl eq_refl eq_refl eq_refl)
             Hsome eq_refl eq_refl eq_refl eq_refl eq_refl eq_refl Hmax).
Defined.

End MoreWitnesses.
